(* ===== verification/_CoqProject ===== *)
-Q . S2P
Prelude.v
Bytes.v
Sha256.v
Utils.v
Merkle.v
Float.v
FloatSpec.v
Strconv.v
Conversions.v
Types.v
Json.v
JsonText.v
Config.v
Algorithm.v
Effects.v
Redis.v
Storage.v
DaemonReplies.v
Daemons.v
Payments.v
PaymentSafety.v
SplitSpec.v
LedgerSpec.v
ShareLog.v
VarDiff.v
Bans.v
Engine.v
Transactions.v
Jobs.v
JobManager.v
JobManagerSpec.v
EngineWork.v
WorkSource.v
CryptonoteBlob.v
Cryptonote.v
Ergo.v
Beam.v
Kaspa.v
Ethash.v
Equihash.v
Kawpow.v
Alephium.v
P2P.v
Pool.v
Api.v
Stratum.v
EngineSession.v
Server.v
ClientSpec.v
ServerSpec.v
EngineSystem.v
Startup.v
Miner.v
GbtMiner.v
EngineMiners.v
Wire.v
Session.v
