(* ===== verification/Prelude.v ===== *)
(** * Not-Only-Mining-Pool: verification library

    The program under src/ is a mining pool.  A coin daemon hands it block
    templates; jobs built from them go to miners over stratum connections; the
    shares the miners submit are verified, credited and stored in Redis, blocks
    are submitted to the daemon; a payment manager splits the rewards of matured
    blocks and pays them through a wallet.  A pool either runs the Bitcoin path
    (getblocktemplate) or a pluggable engine for another mining model.

    ** The parts and where they are modelled

    - Prelude (this file): machine integers as [Z] with their wrap-around
      ([wrapu], [wraps]), computations that may panic ([result]), shared lemmas
      and automation.
    - Bytes, Sha256, Strconv, Float, Json: what the source uses of Go's standard
      library, executable: byte strings and hexadecimal, SHA-256, strconv and
      strings, float64 and math/big.Float on the specification floats of the
      Standard Library, the decoding of encoding/json.  FloatSpec bounds the
      rounding errors of the float operations against the real numbers.  JsonText:
      encoding/json as text, the printer, the parser and the lines of a stream,
      and that what is printed is read back.
    - Utils (utils/utils.go), Merkle (merkletree/mtree.go), Types (types/ and
      the template of daemons/getblocktemplate.go), Config (config/), Algorithm
      (algorithm/algorithm.go, engine/pow.go), Conversions (the unit conversions of
      utils, config/redis.go, tls.go, api.go).  The hash functions other than
      SHA-256 are third-party code: the class [PowHashes]; the address codecs
      are the class [AddressCodec].
    - Effects: programs that talk to Redis and to a wallet ([prog], a tree of
      requests), nodes that answer requests ([Node]: what was asked so far and
      the answer to the next request), Go's unspecified map order (class
      [MapOrder]).
    - DaemonReplies (daemons/get*.go, sendmany.go): when the reply of a daemon
      decodes, and into what.  Daemons (daemons/manager.go, submitblock.go,
      getblocktemplate.go): commands over a network, a [Node] of HTTP requests;
      [CmdAll] is also a step relation of its goroutines and wait group.
    - Transactions (transactions/transactions.go), Jobs (jobs/job.go),
      JobManager (jobs/jobManager.go): templates become jobs, submissions become
      shares.  Job objects live in a heap, as [CurrentJob] and [ValidJobs] share
      them.  Theorems: Transactions, Jobs and JobManagerSpec.
    - Storage (storage/block.go, storage/redis.go) and Payments
      (payments/payer.go) are programs.  Redis gives the commands they use a
      meaning, and ShareLog runs the writer of shares against it.  PaymentSafety runs them against an
      adversarial environment: Redis and the wallet answer or fail as they like
      and the process may die between any two requests.  SplitSpec and
      LedgerSpec prove the arithmetic of rewards and settlements, and the text
      forms of the stored records.  Api (api/server.go): the reports read back.
    - VarDiff (vardiff/), Bans (bans/, stratum/shares.go).
    - Engine (engine/engine.go): the interface of an engine, an object over a
      hidden state.  EngineWork holds what the engines share: the book of jobs
      with their registers of submissions and its eviction, and the class
      [ShareChecker] of an [OnSubmit] that credits only earned, fresh work, from
      which follows what any run of submissions credits.  WorkSource
      (engine/worksource/): the watchers for new work, interaction trees.
      One file per engine instantiates them: CryptonoteBlob and Cryptonote
      (engine/cryptonote/), Ergo, Beam, Kaspa, Ethash, Equihash, Kawpow and
      Alephium (engine/<name>/).  The proof of work of each is an argument;
      that of Ethash takes the activation block of ECIP-1099 its hasher was made
      with, as the engine and the miner of the tools make theirs with different
      ones.
    - Stratum (stratum/client.go, subscriptionCounter.go): the handlers of a
      connection in a state monad over the [world] they share, where a handler
      returns, panics or blocks.  EngineSession (stratum/engine.go): the same
      connection when an engine is set.  Server (stratum/server.go): the registry
      of clients and the broadcasts.  Theorems: ClientSpec and ServerSpec.
      EngineSystem composes the server, its connections and an engine.  Wire: the
      text of a connection in both directions (daemons/jsonrpc.go,
      [Client.SendJsonRPC], the reading loop of [Client.SetupSocket]).
    - P2P (p2p/peer.go): the parser of the peer's messages and the goroutines it
      starts, a step relation over a shared header buffer.
    - Pool (pool/pool.go, stats.go, cmd/nomp/main.go): construction, start-up,
      polling, and found blocks, composed of the parts above; a step relation
      over whatever the network answers.  Startup: the listeners of
      stratum/server.go, the engines a build links (cmd/nomp/engines_*.go) and
      their Init, the kicks of kaspad's notifications, the engine pool, and the
      wiring that is left (storage, attached miners, the printed summary).
    - Miner, GbtMiner and EngineMiners (tools/): the miners of the end-to-end
      tests, programs over the lines of a connection.  Session joins the first
      of them to the pool by the text of a connection.

    ** What the theorems show

    - Shares: an accepted share was earned (its proof of work, size, time and
      freshness checks), no submission is credited twice under a job id unless
      its job was issued anew in between, a rejected share changes nothing, a
      found block parses back into the block of its template with the right
      header, merkle root and coinbase (JobManagerSpec); the server stores
      exactly the shares the job manager processed, once each and in order
      (ServerSpec), and an unauthorized submission reaches neither the job
      manager nor the engine and its node (ClientSpec).  The [*_shares_earned]
      theorems say the same of the engines, over runs of submissions interleaved
      with new work; composed with the server, the engine of CryptoNote makes a
      pool that credits no nonce of a job twice, and only for work of the share's
      difficulty (EngineSystem).  In the store, when Redis answers as documented
      and the names of the miners are readable, each share is paid once (pay per
      share), belongs to one round (proportional) or to the window of its block
      (pay per last N shares) (ShareLog).
    - Two ends: what a miner writes reaches the handler of its connection as the
      requests it meant, and what the pool writes is read back (Wire); a miner and
      the pool joined by that text get from the subscription to a submitted block
      and the answer to it, or the miner exhausts its nonces (Session); the jobs
      the pool hands out are solved by the miners of tools/, and what they submit
      is accepted (GbtMiner.miner_finds_block, EngineMiners).
    - The pool: once started it has a job for as long as its process lives, and
      the height of that job never falls (Pool.pool_always_has_job); behind the daemons, the processing of a share
      refines that of the job manager (Pool.ProcessShare_refines), and the
      goroutines of [CmdAll] refine the sequential call (Daemons.CmdAll_refines);
      the job of kaspad's engine is the latest template, unless the answer of a
      poll took the place of a job made of that very template
      (Startup.TemplateKick).
    - Money: a coinbase conserves the reward (Transactions); a payout is
      broadcast once, what is applied to the ledger was broadcast, and a refused
      payment is attempted at most eight times, at 0, 1%, 2%, ... 64% withheld
      (PaymentSafety); a split hands out no more than the reward and loses at
      most one base unit per miner (SplitSpec); a settlement conserves what is
      owed (LedgerSpec).
    - Encodings: compact sizes, script numbers, block blobs, binary job messages,
      pending blocks and coin amounts survive their round trips; headers, tree
      hashes and merkle roots agree with reference definitions; what a template
      decodes into is in range.
    - Timing: the ring buffer is a sliding window, retargets stay in range, the
      purging of bans is invisible.
    - Defects: theorems state what the code does where that is not what it means
      to do.  Among them: duplicated spellings of one submission, negative times,
      the masternode output, colons in worker names, the double answer to a
      rejected share, bans that block before they close, clients that are never
      removed, the units of the retarget; a refresh that forgets the submissions
      of the job it issues anew, a miner of Ethereum Classic on other epochs than
      its pool; one silent daemon that stops every
      found block, streams that are never redialled, an engine that hangs on more
      than 64 chains, announcements that lose their last entry or their kind, a
      start-up that calls itself for ever, hashrates that are always zero; open
      ports nobody accepts on, connections behind a proxy that are never read.

    ** Fuel and bounds

    [settle] runs on nine units of fuel: the withholding rates are 0 and 1% to
    64% doubling, so eight attempts are the most there are
    ([settle_attempts_bounded] states them, and that more fuel changes nothing).  Decimal
    formatting runs on one unit per digit, JSON decoding on the depth of the
    schema.  Bounds in the float theorems (2^49, 2^52 and the like) keep the
    accumulated rounding error below one base unit.  The loops of the codecs
    (varints, block blobs, announcements, eviction) run on the length of what
    they consume, which the theorems about them show is enough; [Pool.Init] is
    the one recursion that does not end, and is stated for every fuel.

    ** What is not modelled

    Sockets, HTTP and Redis connections, TLS, timers and the logs are the
    environment, and third-party packages (the proofs of work, RandomX, NeoScrypt,
    kaspad's consensus code, the ZMQ client) are arguments.  A handler runs as one
    step: of the interleavings of goroutines those of the peer's parser, of
    [CmdAll], of the sources of work and of the refreshes of kaspad are modelled,
    elsewhere the blocking of a goroutine on a channel is an outcome.  What is left
    of the source is not modelled because nothing of the program depends on it:
    the loggers, the flags of the command line, dialling (p2p/peer.go [Connect],
    alephium.go [dial]), the HTTP clients' time limits, the record of
    types/block.go, which is used nowhere, the empty
    [SendSubscriptionFirstResponse], and the fields of reply records that nothing
    reads. *)
From Stdlib Require Import ZArith Lia List.
From stdpp Require Import base list strings gmap sets.
Local Open Scope Z_scope.

(** ** Go integers

    A [uintN]/[intN] value is a [Z] in range; these are the conversions the
    source writes as [uint32(x)], [int64(x)], ... *)
Definition wrapu (w : Z) (z : Z) : Z := z mod 2 ^ w.
Definition wraps (w : Z) (z : Z) : Z := (z + 2 ^ (w - 1)) mod 2 ^ w - 2 ^ (w - 1).

Abbreviation u8 := (wrapu 8).
Abbreviation u16 := (wrapu 16).
Abbreviation u32 := (wrapu 32).
Abbreviation u64 := (wrapu 64).
Abbreviation i32 := (wraps 32).
Abbreviation i64 := (wraps 64).

Declare Scope go_scope.
Delimit Scope go_scope with go.

(** ** Panics

    [log.Panic], [log.Fatal], a failed type assertion and an out-of-range index
    all abandon the computation. *)
Inductive result (A : Type) : Type :=
| Val (a : A)
| Panic (msg : string).
Arguments Val {A} a.
Arguments Panic {A} msg.

Definition rbind {A B} (m : result A) (f : A -> result B) : result B :=
  match m with
  | Val a => f a
  | Panic e => Panic e
  end.

Notation "'let!' x ':=' m 'in' k" := (rbind m (fun x => k))
  (at level 10, x pattern, m at level 100, k at level 200,
   format "'let!'  x  ':='  m  'in' '//' k") : go_scope.

Definition is_val {A} (m : result A) : bool :=
  match m with Val _ => true | Panic _ => false end.

Fixpoint rmap {A B} (f : A -> result B) (l : list A) : result (list B) :=
  match l with
  | [] => Val []
  | x :: l' => rbind (f x) (fun y => rbind (rmap f l') (fun ys => Val (y :: ys)))
  end.

(** Injectivity without the reduction [injection] performs. *)
Lemma Val_inj {A} (a b : A) : Val a = Val b -> a = b.
Proof. congruence. Qed.
Lemma Val_pair_inj {A B} (a c : A) (b d : B) : Val (a, b) = Val (c, d) -> a = c /\ b = d.
Proof. intros H. split; congruence. Qed.

(** The value of a computation, for concrete runs: that it is one is decided by
    evaluation, without normalising the value. *)
Definition get {A} (d : A) (m : result A) : A := match m with Val a => a | Panic _ => d end.
Lemma get_val {A} (d : A) m : is_val m = true -> m = Val (get d m).
Proof. by destruct m. Qed.
Lemma get_pair {A B} (d1 : A) (d2 : B) m :
  is_val m = true ->
  m = Val (get d1 (rbind m (fun r => Val (fst r))), get d2 (rbind m (fun r => Val (snd r)))).
Proof. by destruct m as [[]|]. Qed.

Lemma rmap_val_length {A B} (f : A -> result B) l l' :
  rmap f l = Val l' -> length l' = length l.
Proof.
  revert l'; induction l as [|x l IH]; simpl; intros l' H.
  - by injection H as <-.
  - destruct (f x) as [y|]; simpl in H; [|discriminate].
    destruct (rmap f l) as [ys|]; simpl in H; [|discriminate].
    injection H as <-. simpl. f_equal. by apply IH.
Qed.

Lemma rmap_all_val {A B} (f : A -> result B) (g : A -> B) l :
  (forall x, x ∈ l -> f x = Val (g x)) -> rmap f l = Val (map g l).
Proof.
  induction l as [|x l IH]; intros H; simpl; [done|].
  rewrite (H x) by (left; done). simpl.
  rewrite IH; [done|]. intros y Hy. apply H. by right.
Qed.

(** ** Machine-integer lemmas *)
Lemma wrapu_range w z : 0 <= w -> (0 <= wrapu w z < 2 ^ w)%Z.
Proof. intros. apply Z.mod_pos_bound. lia. Qed.

Lemma wrapu_small w z : (0 <= z < 2 ^ w)%Z -> wrapu w z = z.
Proof. apply Z.mod_small. Qed.

Lemma wrapu_idemp w z : (0 <= w)%Z -> wrapu w (wrapu w z) = wrapu w z.
Proof. intros. apply wrapu_small, wrapu_range; lia. Qed.

Lemma wrapu_sub_small w a b :
  (0 <= b <= a)%Z -> (a < 2 ^ w)%Z -> wrapu w (a - b) = (a - b)%Z.
Proof. intros. apply wrapu_small. lia. Qed.

Lemma wraps_small w z : (0 < w)%Z -> (- 2 ^ (w - 1) <= z < 2 ^ (w - 1))%Z -> wraps w z = z.
Proof.
  intros Hw H. unfold wraps.
  assert (2 ^ w = 2 * 2 ^ (w - 1))%Z as E.
  { rewrite <- Z.pow_succ_r by lia. f_equal. lia. }
  rewrite Z.mod_small; lia.
Qed.

(** Automation shared by the components. *)
Create HintDb go.
Create Rewrite HintDb go.
#[export] Hint Rewrite @length_app @length_map @length_rev @length_cons
  @repeat_length @length_replicate : go.

Ltac go_len := autorewrite with go in *; simpl in *; try lia.

(** Case analysis on the first [match] or [if] of the goal. *)
Ltac case_match_eqn :=
  match goal with
  | |- context [match ?x with _ => _ end] => destruct x eqn:?
  end.

(** Invert equations between constructors and booleans of integer tests. *)
Ltac zbool :=
  repeat match goal with
  | H : (_ && _)%bool = true |- _ => apply andb_prop in H; destruct H
  | H : (_ || _)%bool = false |- _ => apply orb_false_elim in H; destruct H
  | H : negb _ = true |- _ => apply negb_true_iff in H
  | H : negb _ = false |- _ => apply negb_false_iff in H
  | H : Z.eqb _ _ = true |- _ => apply Z.eqb_eq in H
  | H : Z.eqb _ _ = false |- _ => apply Z.eqb_neq in H
  | H : Z.ltb _ _ = true |- _ => apply Z.ltb_lt in H
  | H : Z.ltb _ _ = false |- _ => apply Z.ltb_ge in H
  | H : Z.leb _ _ = true |- _ => apply Z.leb_le in H
  | H : Z.leb _ _ = false |- _ => apply Z.leb_gt in H
  | H : Nat.eqb _ _ = true |- _ => apply Nat.eqb_eq in H
  | H : Nat.eqb _ _ = false |- _ => apply Nat.eqb_neq in H
  | H : Nat.ltb _ _ = true |- _ => apply Nat.ltb_lt in H
  | H : Nat.ltb _ _ = false |- _ => apply Nat.ltb_ge in H
  | H : Nat.leb _ _ = true |- _ => apply Nat.leb_le in H
  | H : Nat.leb _ _ = false |- _ => apply Nat.leb_gt in H
  end.
