(* ===== verification/Bytes.v ===== *)
(** * Bytes: encoding/binary, encoding/hex and math/big as the source uses them

    Bytes are [Init.Byte.byte]; a Go string is a [string] of bytes.  This file
    holds the byte-level standard-library functions the pool calls
    ([binary.LittleEndian.PutUintN], [binary.BigEndian.UintN],
    [hex.EncodeToString], [hex.DecodeString], [big.Int.SetBytes], [copy]) with
    their round-trip lemmas. *)
From Stdlib Require Import ZArith Lia List Strings.Byte Strings.Ascii Strings.String.
From stdpp Require Import base list strings.
From S2P Require Import Prelude.
Local Open Scope Z_scope.

Abbreviation bytes := (list byte).

Definition Z_of_byte (b : byte) : Z := Z.of_N (Byte.to_N b).
Definition byte_of_Z (z : Z) : byte :=
  match Byte.of_N (Z.to_N (z mod 256)) with Some b => b | None => x00 end.

Lemma Z_of_byte_range b : 0 <= Z_of_byte b < 256.
Proof. unfold Z_of_byte. pose proof (Byte.to_N_bounded b). lia. Qed.

Lemma Z_of_byte_of_Z z : Z_of_byte (byte_of_Z z) = z mod 256.
Proof.
  unfold Z_of_byte, byte_of_Z.
  pose proof (Z.mod_pos_bound z 256 ltac:(lia)) as H.
  destruct (Byte.of_N (Z.to_N (z mod 256))) as [b|] eqn:E.
  - apply Byte.to_of_N in E. rewrite E. lia.
  - apply Byte.of_N_None_iff in E. lia.
Qed.

Lemma byte_of_Z_of_byte b : byte_of_Z (Z_of_byte b) = b.
Proof.
  unfold byte_of_Z. rewrite Z.mod_small by apply Z_of_byte_range.
  unfold Z_of_byte. rewrite N2Z.id, Byte.of_to_N. done.
Qed.

Lemma Z_of_byte_inj a b : Z_of_byte a = Z_of_byte b -> a = b.
Proof. intros H. by rewrite <- (byte_of_Z_of_byte a), H, byte_of_Z_of_byte. Qed.

#[export] Instance byte_eq_dec : EqDecision byte.
Proof. intros a b. destruct (Byte.eqb a b) eqn:E; [left|right].
  - by apply Byte.byte_dec_bl.
  - intros ->. by rewrite Byte.byte_dec_lb in E.
Defined.

(** [bytes.Equal]: Go compares contents, nil and empty alike. *)
Definition bytes_eqb (a b : bytes) : bool := bool_decide (a = b).

(** ** Integers as byte strings *)
Fixpoint le_bytes (n : nat) (z : Z) : bytes :=
  match n with
  | O => []
  | S n' => byte_of_Z z :: le_bytes n' (z / 256)
  end.
Definition be_bytes (n : nat) (z : Z) : bytes := rev (le_bytes n z).

Fixpoint le_value (b : bytes) : Z :=
  match b with
  | [] => 0
  | x :: b' => Z_of_byte x + 256 * le_value b'
  end.
(** [new(big.Int).SetBytes(b)] and [binary.BigEndian.UintN(b)] *)
Definition be_value (b : bytes) : Z := le_value (rev b).

Lemma le_bytes_length n z : length (le_bytes n z) = n.
Proof. revert z; induction n; simpl; auto. Qed.
Lemma be_bytes_length n z : length (be_bytes n z) = n.
Proof. unfold be_bytes. by rewrite length_rev, le_bytes_length. Qed.
#[export] Hint Rewrite le_bytes_length be_bytes_length : go.

Lemma pow256_succ (n : nat) : 256 ^ Z.of_nat (S n) = 256 * 256 ^ Z.of_nat n.
Proof. rewrite Nat2Z.inj_succ, Z.pow_succ_r; lia. Qed.

Lemma le_value_bytes n z : le_value (le_bytes n z) = z mod 256 ^ Z.of_nat n.
Proof.
  revert z; induction n as [|n IH]; intros z; cbn [le_bytes le_value].
  - by rewrite Z.mod_1_r.
  - rewrite IH, Z_of_byte_of_Z, pow256_succ.
    assert (0 < 256 ^ Z.of_nat n) by (apply Z.pow_pos_nonneg; lia).
    rewrite Z.rem_mul_r by lia. lia.
Qed.

Lemma be_value_bytes n z : be_value (be_bytes n z) = z mod 256 ^ Z.of_nat n.
Proof. unfold be_value, be_bytes. by rewrite rev_involutive, le_value_bytes. Qed.

Lemma le_value_range b : 0 <= le_value b < 256 ^ Z.of_nat (length b).
Proof.
  induction b as [|x b IH]; cbn [le_value length]; [lia|].
  rewrite pow256_succ. pose proof (Z_of_byte_range x). lia.
Qed.
Lemma be_value_range b : 0 <= be_value b < 256 ^ Z.of_nat (length b).
Proof. unfold be_value. rewrite <- (length_rev b). apply le_value_range. Qed.

Lemma le_bytes_value b : le_bytes (length b) (le_value b) = b.
Proof.
  induction b as [|x b IH]; [done|].
  cbn [le_value length le_bytes]. f_equal.
  - apply Z_of_byte_inj. rewrite Z_of_byte_of_Z.
    pose proof (Z_of_byte_range x). rewrite Z.mul_comm, Z_mod_plus_full.
    by apply Z.mod_small.
  - rewrite Z.mul_comm, Z_div_plus_full by lia.
    rewrite Z.div_small by apply Z_of_byte_range. by rewrite Z.add_0_l.
Qed.
Lemma be_bytes_value b : be_bytes (length b) (be_value b) = b.
Proof.
  unfold be_bytes, be_value. rewrite <- (length_rev b), le_bytes_value.
  apply rev_involutive.
Qed.

Lemma le_value_app a b :
  le_value (a ++ b) = le_value a + 256 ^ Z.of_nat (length a) * le_value b.
Proof.
  induction a as [|x a IH]; cbn [app le_value length]; [lia|].
  rewrite IH, pow256_succ. lia.
Qed.

Lemma le_bytes_inj n a b :
  0 <= a < 256 ^ Z.of_nat n -> 0 <= b < 256 ^ Z.of_nat n ->
  le_bytes n a = le_bytes n b -> a = b.
Proof.
  intros Ha Hb H. apply (f_equal le_value) in H.
  rewrite !le_value_bytes, !Z.mod_small in H; done.
Qed.

(** ** Go strings and byte slices *)
Definition bytes_of_string (s : string) : bytes := list_byte_of_string s.
Definition string_of_bytes (b : bytes) : string := string_of_list_byte b.

Lemma string_of_bytes_of_string s : string_of_bytes (bytes_of_string s) = s.
Proof. apply string_of_list_byte_of_string. Qed.
Lemma bytes_of_string_of_bytes b : bytes_of_string (string_of_bytes b) = b.
Proof. apply list_byte_of_string_of_list_byte. Qed.

(** [len(s)] of a Go string counts bytes. *)
Definition slen (s : string) : Z := Z.of_nat (String.length s).

Lemma bytes_of_string_length s : length (bytes_of_string s) = String.length s.
Proof.
  unfold bytes_of_string, list_byte_of_string.
  rewrite length_map. induction s; simpl; auto.
Qed.

Lemma bytes_of_string_app a b :
  bytes_of_string (String.append a b) = bytes_of_string a ++ bytes_of_string b.
Proof.
  unfold bytes_of_string, list_byte_of_string.
  induction a as [|c a IH]; [done|]. simpl. by f_equal.
Qed.

Lemma bytes_of_string_inj a b : bytes_of_string a = bytes_of_string b -> a = b.
Proof.
  intros H. by rewrite <- (string_of_bytes_of_string a), H, string_of_bytes_of_string.
Qed.

(** ** encoding/hex *)
Definition hex_digit (v : Z) : byte :=
  if v <? 10 then byte_of_Z (48 + v) else byte_of_Z (87 + v).

(** [reverseHexTable]: [None] is the table's 0xff. *)
Definition hex_value (c : byte) : option Z :=
  let v := Z_of_byte c in
  if (48 <=? v) && (v <=? 57) then Some (v - 48)
  else if (97 <=? v) && (v <=? 102) then Some (v - 87)
  else if (65 <=? v) && (v <=? 70) then Some (v - 55)
  else None.

Fixpoint hex_encode_bytes (b : bytes) : bytes :=
  match b with
  | [] => []
  | x :: b' =>
      hex_digit (Z_of_byte x / 16) :: hex_digit (Z_of_byte x mod 16) :: hex_encode_bytes b'
  end.

(** The decoder returns the bytes produced before the first error, and whether
    the whole input was well formed ([err == nil]). *)
Fixpoint hex_decode_bytes (s : bytes) : bytes * bool :=
  match s with
  | [] => ([], true)
  | [_] => ([], false)
  | a :: b :: s' =>
      match hex_value a, hex_value b with
      | Some x, Some y =>
          let '(r, ok) := hex_decode_bytes s' in (byte_of_Z (16 * x + y) :: r, ok)
      | _, _ => ([], false)
      end
  end.

(** [hex.EncodeToString] *)
Definition hex_encode (b : bytes) : string := string_of_bytes (hex_encode_bytes b).
(** [hex.DecodeString] *)
Definition hex_decode (s : string) : bytes * bool := hex_decode_bytes (bytes_of_string s).

Lemma hex_value_digit v : 0 <= v < 16 -> hex_value (hex_digit v) = Some v.
Proof.
  intros H.
  assert (v = 0 \/ v = 1 \/ v = 2 \/ v = 3 \/ v = 4 \/ v = 5 \/ v = 6 \/ v = 7 \/ v = 8 \/
    v = 9 \/ v = 10 \/ v = 11 \/ v = 12 \/ v = 13 \/ v = 14 \/ v = 15) as C by lia.
  repeat (destruct C as [-> | C]; [reflexivity|]). by subst.
Qed.

Lemma byte_ind2 {A} (P : list A -> Prop) :
  P [] -> (forall x, P [x]) -> (forall x y l, P l -> P (x :: y :: l)) -> forall l, P l.
Proof.
  intros H0 H1 H2 l. enough (P l /\ forall x, P (x :: l)) by tauto.
  induction l as [|a l [IH1 IH2]]; split; auto.
Qed.

Lemma hex_decode_encode_bytes b : hex_decode_bytes (hex_encode_bytes b) = (b, true).
Proof.
  induction b as [|x b IH]; [done|].
  cbn [hex_encode_bytes hex_decode_bytes].
  pose proof (Z_of_byte_range x) as R.
  assert (0 <= Z_of_byte x / 16 < 16) by (split; [apply Z.div_pos; lia | apply Z.div_lt_upper_bound; lia]).
  rewrite !hex_value_digit by (done || apply Z.mod_pos_bound; lia).
  rewrite IH, <- Z.div_mod by lia. by rewrite byte_of_Z_of_byte.
Qed.

Lemma hex_decode_encode b : hex_decode (hex_encode b) = (b, true).
Proof.
  unfold hex_decode, hex_encode. by rewrite bytes_of_string_of_bytes, hex_decode_encode_bytes.
Qed.

Lemma hex_encode_bytes_length b : length (hex_encode_bytes b) = (2 * length b)%nat.
Proof. induction b; simpl; lia. Qed.

Lemma hex_encode_length b : slen (hex_encode b) = 2 * Z.of_nat (length b).
Proof.
  unfold slen, hex_encode. rewrite <- bytes_of_string_length, bytes_of_string_of_bytes,
    hex_encode_bytes_length. lia.
Qed.

Lemma hex_encode_inj a b : hex_encode a = hex_encode b -> a = b.
Proof.
  intros H. apply (f_equal hex_decode) in H. rewrite !hex_decode_encode in H. congruence.
Qed.

(** A successful decode consumed two digits per byte. *)
Lemma hex_decode_bytes_length s :
  snd (hex_decode_bytes s) = true -> length s = (2 * length (fst (hex_decode_bytes s)))%nat.
Proof.
  induction s as [| |x y s IH] using byte_ind2; simpl; try done.
  destruct (hex_value x); [|done]. destruct (hex_value y); [|done].
  destruct (hex_decode_bytes s) as [r ok]; simpl in *. intros H. specialize (IH H). lia.
Qed.

(** ** copy(dst[pos:], src): slicing past the end panics *)
Definition copy_at (dst : bytes) (pos : nat) (src : bytes) : result bytes :=
  if (length dst <? pos)%nat then Panic "slice bounds out of range"
  else
    let n := Nat.min (length src) (length dst - pos) in
    Val (take pos dst ++ take n src ++ drop (pos + n) dst).

Lemma copy_at_length dst pos src r :
  copy_at dst pos src = Val r -> length r = length dst.
Proof.
  unfold copy_at. destruct (_ <? _)%nat eqn:E; [done|]. intros [= <-]. zbool.
  rewrite !length_app, !length_take, length_drop. lia.
Qed.

(** [make([]byte, n)] *)
Definition zeros (n : nat) : bytes := repeat x00 n.

(** ** strings.ToLower and strings.TrimPrefix on bytes in the ASCII range *)
Definition lower_ascii (c : ascii) : ascii :=
  let n := N_of_ascii c in
  if ((65 <=? n) && (n <=? 90))%N then ascii_of_N (n + 32) else c.
Fixpoint to_lower (s : string) : string :=
  match s with
  | EmptyString => EmptyString
  | String c s' => String (lower_ascii c) (to_lower s')
  end.
Lemma to_lower_idemp s : to_lower (to_lower s) = to_lower s.
Proof.
  induction s as [|c s IH]; [done|]. cbn [to_lower]. rewrite IH. f_equal.
  destruct c as [[] [] [] [] [] [] [] []]; reflexivity.
Qed.
Definition trim_prefix (p s : string) : string :=
  if String.prefix p s then substring (String.length p) (String.length s - String.length p) s else s.
