(* ===== verification/Sha256.v ===== *)
(** * Sha256: crypto/sha256, the hash function of the Go standard library

    [utils.Sha256] and [utils.Sha256d] call [sha256.Sum256].  The algorithm is
    FIPS 180-4 on 32-bit words held as [Z]; it is executable, so the examples
    below check published digests by [vm_compute]. *)
From Stdlib Require Import ZArith Lia List Strings.Byte Strings.String.
From stdpp Require Import base list strings.
From S2P Require Import Prelude Bytes.
Import ListNotations.
Local Open Scope Z_scope.

Definition add32 (a b : Z) : Z := u32 (a + b).
Definition rotr (x n : Z) : Z := Z.lor (Z.shiftr x n) (u32 (Z.shiftl x (32 - n))).
Definition ch (x y z : Z) : Z := Z.lxor (Z.land x y) (Z.land (Z.lxor x 4294967295) z).
Definition maj (x y z : Z) : Z := Z.lxor (Z.lxor (Z.land x y) (Z.land x z)) (Z.land y z).
Definition bsig0 (x : Z) : Z := Z.lxor (Z.lxor (rotr x 2) (rotr x 13)) (rotr x 22).
Definition bsig1 (x : Z) : Z := Z.lxor (Z.lxor (rotr x 6) (rotr x 11)) (rotr x 25).
Definition ssig0 (x : Z) : Z := Z.lxor (Z.lxor (rotr x 7) (rotr x 18)) (Z.shiftr x 3).
Definition ssig1 (x : Z) : Z := Z.lxor (Z.lxor (rotr x 17) (rotr x 19)) (Z.shiftr x 10).

(** The constants are the first 32 bits of the fractional parts of roots of the
    first primes: cube roots of 64 primes for the rounds, square roots of 8 for
    the initial value.  They are computed once, when the file is compiled. *)
Definition is_prime (n : Z) : bool :=
  forallb (fun d => negb (n mod d =? 0)) (map Z.of_nat (seq 2 (Z.to_nat n - 2))).
Definition primes_below (n : nat) : list Z := filter (fun p => Is_true (is_prime p)) (map Z.of_nat (seq 2 (n - 2))).

(** Integer cube root below [2^bits], bit by bit. *)
Fixpoint cube_root (bits : nat) (acc n : Z) : Z :=
  match bits with
  | O => acc
  | S k =>
      let t := acc + 2 ^ Z.of_nat k in
      cube_root k (if t * t * t <=? n then t else acc) n
  end.

Definition round_constants : list Z :=
  Eval vm_compute in map (fun p => u32 (cube_root 36 0 (p * 2 ^ 96))) (primes_below 312).
Definition initial_hash : list Z :=
  Eval vm_compute in map (fun p => u32 (Z.sqrt (p * 2 ^ 64))) (primes_below 20).

(** The padded message: 0x80, zeroes, then the bit length as a 64-bit integer. *)
Definition pad (m : bytes) : bytes :=
  let l := Z.of_nat (length m) in
  m ++ [x80] ++ zeros (Z.to_nat ((55 - l) mod 64)) ++ be_bytes 8 (8 * l).

Fixpoint words (b : bytes) : list Z :=
  match b with
  | b0 :: b1 :: b2 :: b3 :: b' => be_value [b0; b1; b2; b3] :: words b'
  | _ => []
  end.

(** Message schedule, most recent word first. *)
Fixpoint extend (n : nat) (w : list Z) : list Z :=
  match n with
  | O => w
  | S n' =>
      extend n' (add32 (add32 (ssig1 (nth 1 w 0)) (nth 6 w 0))
                       (add32 (ssig0 (nth 14 w 0)) (nth 15 w 0)) :: w)
  end.
Definition schedule (block : list Z) : list Z := rev (extend 48 (rev block)).

Record vars := Vars { va : Z; vb : Z; vc : Z; vd : Z; ve : Z; vf : Z; vg : Z; vh : Z }.

Definition round (v : vars) (kw : Z * Z) : vars :=
  let t1 := add32 (add32 (add32 (vh v) (bsig1 (ve v))) (ch (ve v) (vf v) (vg v)))
                  (add32 (fst kw) (snd kw)) in
  let t2 := add32 (bsig0 (va v)) (maj (va v) (vb v) (vc v)) in
  Vars (add32 t1 t2) (va v) (vb v) (vc v) (add32 (vd v) t1) (ve v) (vf v) (vg v).

Definition compress (h : list Z) (block : list Z) : list Z :=
  match h with
  | [a; b; c; d; e; f; g; i] =>
      let v := fold_left round (combine round_constants (schedule block))
                         (Vars a b c d e f g i) in
      [add32 a (va v); add32 b (vb v); add32 c (vc v); add32 d (vd v);
       add32 e (ve v); add32 f (vf v); add32 g (vg v); add32 i (vh v)]
  | _ => h
  end.

Fixpoint blocks (fuel : nat) (h : list Z) (w : list Z) : list Z :=
  match fuel with
  | O => h
  | S f => match w with
           | [] => h
           | _ => blocks f (compress h (firstn 16 w)) (skipn 16 w)
           end
  end.

(** [sha256.Sum256(m)]; a message of [n] words has at most [n] blocks. *)
Definition sum256 (m : bytes) : bytes :=
  let w := words (pad m) in
  concat (map (be_bytes 4) (blocks (length w) initial_hash w)).

Lemma compress_length h block : length h = 8%nat -> length (compress h block) = 8%nat.
Proof. do 9 (destruct h as [|? h]; try done). Qed.

Lemma blocks_length n h w : length h = 8%nat -> length (blocks n h w) = 8%nat.
Proof.
  revert h w; induction n as [|n IH]; intros h w H; simpl; [done|].
  destruct w; [done|]. apply IH, compress_length, H.
Qed.

Lemma concat_be4_length l : length (concat (map (be_bytes 4) l)) = (4 * length l)%nat.
Proof.
  induction l as [|x l IH]; [done|]. cbn [map concat length].
  rewrite length_app, IH, be_bytes_length. lia.
Qed.

(** A digest is always 32 bytes. *)
Lemma sum256_length m : length (sum256 m) = 32%nat.
Proof. unfold sum256. rewrite concat_be4_length, blocks_length; done. Qed.
#[export] Hint Rewrite sum256_length : go.

Example sum256_abc :
  hex_encode (sum256 (bytes_of_string "abc")) =
  "ba7816bf8f01cfea414140de5dae2223b00361a396177a9cb410ff61f20015ad"%string.
Proof. vm_compute. reflexivity. Qed.

Example sum256_two_blocks :
  hex_encode (sum256 (bytes_of_string "abcdbcdecdefdefgefghfghighijhijkijkljklmklmnlmnomnopnopq")) =
  "248d6a61d20638b8e5c026930c3e6039a33ce45964ff2167f6ecedd419db06c1"%string.
Proof. vm_compute. reflexivity. Qed.
