(* ===== verification/Utils.v ===== *)
(** * Utils: src/utils/utils.go

    Integer packing, Bitcoin variable-length integers and script numbers, byte
    reversal, [Range], index search, compact difficulty bits and the address to
    script conversions.  The base58 and bech32 decoders come from third-party
    packages and are arguments of the functions that call them. *)
From Stdlib Require Import ZArith Lia List Strings.Byte Strings.String.
From stdpp Require Import base list strings.
From S2P Require Import Prelude Bytes Sha256.
Import ListNotations.
Local Open Scope Z_scope.
Local Open Scope go_scope.

(** The random bytes are an argument: [crypto/rand.Read] fills 8 of them. *)
Definition RandPositiveInt64 (randomNumBytes : bytes) : Z :=
  let i := i64 (le_value randomNumBytes) in
  if 0 <? i then i else i64 (- i).

Definition RandHexUint64 (randomNumBytes : bytes) : string := hex_encode randomNumBytes.

Definition PackUint64LE (n : Z) : bytes := le_bytes 8 n.
Definition PackInt64BE (n : Z) : bytes := be_bytes 8 (u64 n).
Definition PackUint64BE (n : Z) : bytes := be_bytes 8 n.
Definition PackUint32LE (n : Z) : bytes := le_bytes 4 n.
Definition PackUint32BE (n : Z) : bytes := be_bytes 4 n.
Definition PackInt32BE (n : Z) : bytes := be_bytes 4 (u32 n).
Definition PackUint16LE (n : Z) : bytes := le_bytes 2 n.
Definition PackUint16BE (n : Z) : bytes := be_bytes 2 n.

Definition VarIntBytes (n : Z) : bytes :=
  if n <? 0xFD then [byte_of_Z n]
  else if n <=? 0xFFFF then byte_of_Z 0xFD :: le_bytes 2 (u16 n)
  else if n <=? 0xFFFFFFFF then byte_of_Z 0xFE :: le_bytes 4 (u32 n)
  else byte_of_Z 0xFF :: le_bytes 8 n.

Definition blen (b : bytes) : Z := Z.of_nat (length b).

Definition VarStringBytes (str : string) : bytes :=
  let bStr := bytes_of_string str in VarIntBytes (blen bStr) ++ bStr.

Definition SerializeString (s : string) : bytes :=
  let bs := bytes_of_string s in
  let n := blen bs in
  if n <? 253 then [byte_of_Z n] ++ bs
  else if n <? 0x10000 then [byte_of_Z 253] ++ PackUint16LE (u16 n) ++ bs
  else if n <? 0x100000000 then [byte_of_Z 254] ++ PackUint32LE (u32 n) ++ bs
  else [byte_of_Z 255] ++ PackUint64LE (u64 n) ++ bs.

(** The loop writes the low bytes of [n] at indices [1 .. l-1] of a 9-byte
    buffer while [n > 0x7f]; [acc] is what it has written, so [l] is
    [length acc + 1].  Writing index 9 panics.  A 64-bit [n] is exhausted after
    8 shifts, so 9 rounds of fuel always suffice. *)
Fixpoint SerializeNumber_loop (fuel : nat) (acc : bytes) (n : Z) : result bytes :=
  match fuel with
  | O => Panic "out of fuel"
  | S f =>
      if 0x7f <? n then
        if (8 <=? length acc)%nat then Panic "index out of range"
        else SerializeNumber_loop f (acc ++ [byte_of_Z (Z.land n 0xff)]) (Z.shiftr n 8)
      else
        if (8 <=? length acc)%nat then Panic "index out of range"
        else Val ([byte_of_Z (Z.of_nat (length acc) + 1)] ++ acc ++ [byte_of_Z n])
  end.
Definition SerializeNumber (n : Z) : result bytes :=
  if (1 <=? n) && (n <=? 16) then Val [byte_of_Z (0x50 + n)]
  else SerializeNumber_loop 9 [] n.

(** The in-place swap loop of [ReverseBytes]. *)
Definition swap (b : bytes) (i j : nat) : bytes :=
  match b !! i, b !! j with
  | Some x, Some y => <[i := y]> (<[j := x]> b)
  | _, _ => b
  end.
Fixpoint ReverseBytes_loop (fuel : nat) (i j : nat) (b : bytes) : bytes :=
  match fuel with
  | O => b
  | S f => if (i <? j)%nat then ReverseBytes_loop f (i + 1) (j - 1) (swap b i j) else b
  end.
Definition ReverseBytes (b : bytes) : bytes :=
  ReverseBytes_loop (length b) 0 (length b - 1) b.

(** [copy(container, fromHex)] truncates at 32 bytes; a malformed hash is
    logged and its decoded prefix used. *)
Definition Uint256BytesFromHash (h : string) : bytes :=
  let fromHex := fst (hex_decode h) in
  let n := Nat.min 32 (length fromHex) in
  ReverseBytes (take n fromHex ++ drop n (zeros 32)).

(** Steps between [start, stop); [fuel] bounds the iterations, and the distance
    between the two ends is enough for a step of at least one. *)
Fixpoint Range_loop (fuel : nat) (i stop step : Z) : list Z :=
  match fuel with
  | O => []
  | S f =>
      if 0 <? step then
        if i <? stop then i :: Range_loop f (i + step) stop step else []
      else
        if stop <? i then i :: Range_loop f (i + step) stop step else []
  end.
Definition Range (start stop step : Z) : list Z :=
  if ((0 <? step) && (stop <=? start)) || ((step <? 0) && (start <=? stop)) then []
  else Range_loop (Z.to_nat (Z.abs (stop - start)) + 1) start stop step.

Definition Sha256 (b : bytes) : bytes := sum256 b.
Definition Sha256d (b : bytes) : bytes := Sha256 (Sha256 b).

Fixpoint BytesIndexOf_from (k : Z) (data : list bytes) (element : bytes) : Z :=
  match data with
  | [] => -1
  | v :: data' => if bytes_eqb element v then k else BytesIndexOf_from (k + 1) data' element
  end.
Definition BytesIndexOf (data : list bytes) (element : bytes) : Z := BytesIndexOf_from 0 data element.

Fixpoint StringsIndexOf_from (k : Z) (data : list string) (element : string) : Z :=
  match data with
  | [] => -1
  | v :: data' => if String.eqb element v then k else StringsIndexOf_from (k + 1) data' element
  end.
Definition StringsIndexOf (data : list string) (element : string) : Z :=
  StringsIndexOf_from 0 data element.

(** [bytesNumber-3] is byte arithmetic and wraps; [Exp] with a non-positive
    exponent and no modulus is 1. *)
Definition BigIntFromBitsBytes (bits : bytes) : result Z :=
  match bits with
  | [] => Panic "index out of range"
  | b0 :: rest => Val (be_value rest * 2 ^ (8 * u8 (Z_of_byte b0 - 3)))
  end.
Definition BigIntFromBitsHex (bits : string) : result Z :=
  let '(bBits, ok) := hex_decode bits in
  if ok then BigIntFromBitsBytes bBits else Panic "BigIntFromBitsHex".

(** Reverse each of the first eight 32-bit words, then all the bytes; the slice
    expression panics when fewer than 32 bytes are given. *)
Fixpoint swap_words (n : nat) (b : bytes) : result bytes :=
  match n with
  | O => Val b
  | S n' =>
      match b with
      | b0 :: b1 :: b2 :: b3 :: b' =>
          let! r := swap_words n' b' in
          Val (le_bytes 4 (be_value [b0; b1; b2; b3]) ++ r)
      | _ => Panic "slice bounds out of range"
      end
  end.
Definition ReverseByteOrder (b : bytes) : result bytes :=
  let! s := swap_words 8 b in Val (ReverseBytes s).

(** [copy(bKey[1:], b)] may overwrite the trailing OP_CHECKSIG byte only with a
    34-byte key, which a 66-digit string cannot encode. *)
Definition PublicKeyToScript (key : string) : result bytes :=
  if negb (slen key =? 66) then Panic "Invalid public key"
  else copy_at ([byte_of_Z 0x21] ++ zeros 33 ++ [byte_of_Z 0xAC]) 1 (fst (hex_decode key)).

Section Addresses.
(** [base58.FastBase58Decoding] (github.com/mr-tron/base58): [None] is an error
    or a nil slice. *)
Variable FastBase58Decoding : string -> option bytes.

Definition P2PKHAddressToScript (addr : string) : result bytes :=
  match FastBase58Decoding addr with
  | None => Panic "base58 decode failed"
  | Some decoded =>
      if negb (length decoded =? 25)%nat then Panic "invalid address length"
      else Val ([byte_of_Z 0x76; byte_of_Z 0xA9; byte_of_Z 0x14]
                ++ take (length decoded - 4 - 1) (drop 1 decoded)
                ++ [byte_of_Z 0x88; byte_of_Z 0xAC])
  end.

Definition P2SHAddressToScript (addr : string) : result bytes :=
  match FastBase58Decoding addr with
  | None => Panic "base58 decode failed"
  | Some decoded =>
      if negb (length decoded =? 25)%nat then Panic "invalid address length"
      else Val ([byte_of_Z 0xA9; byte_of_Z 0x14]
                ++ take (length decoded - 4 - 1) (drop 1 decoded)
                ++ [byte_of_Z 0x87])
  end.

(** [bech32.Decode] and [bech32.ConvertBits] (github.com/c0mm4nd/go-bech32). *)
Variable bech32_Decode : string -> option bytes.
Variable bech32_ConvertBits : bytes -> Z -> Z -> bool -> option bytes.

Definition P2WSHAddressToScript (addr : string) : result bytes :=
  match bech32_Decode addr with
  | None => Panic "bech32 decode failed"
  | Some [] => Panic "slice bounds out of range"
  | Some (_ :: data) =>
      match bech32_ConvertBits data 5 8 true with
      | None => Panic "ConvertBits"
      | Some witnessProgram => Val ([byte_of_Z 0x00; byte_of_Z 0x14] ++ witnessProgram)
      end
  end.
End Addresses.

Definition ScriptPubKeyToScript (addr : string) : result bytes :=
  let '(decoded, ok) := hex_decode addr in
  if ok then Val decoded else Panic "hex decode failed".

Definition MiningKeyToScript (addrMiningKey : string) : result bytes :=
  let '(b, ok) := hex_decode addrMiningKey in
  if ok then Val ([byte_of_Z 0x76; byte_of_Z 0xA9; byte_of_Z 0x14] ++ b ++ [byte_of_Z 0x88; byte_of_Z 0xAC])
  else Panic "Failed to decode addr mining key".

Definition HexDecode (b : bytes) : result bytes :=
  let '(dst, ok) := hex_decode_bytes b in
  if ok then Val dst else Panic "failed to decode hex".
Definition HexEncode (b : bytes) : bytes := hex_encode_bytes b.

Definition FixedLenStringBytes (s : string) (l : nat) : bytes :=
  let b := bytes_of_string s in take l b ++ zeros (l - length b).
Definition CommandStringBytes (s : string) : bytes := FixedLenStringBytes s 12.

(** ** Specifications the codecs are measured against *)

(** Bitcoin's CompactSize reader. *)
Definition read_compact (b : bytes) : option (Z * bytes) :=
  match b with
  | [] => None
  | t :: r =>
      let tag := Z_of_byte t in
      let need := if tag <? 0xFD then 0%nat else if tag =? 0xFD then 2%nat
                  else if tag =? 0xFE then 4%nat else 8%nat in
      if (length r <? need)%nat then None
      else if tag <? 0xFD then Some (tag, r)
      else Some (le_value (take need r), drop need r)
  end.

(** The number that the bytes of a script number stand for: little-endian, the
    highest bit of the last byte being the sign. *)
Definition script_value (d : bytes) : Z :=
  let sign := 2 ^ (8 * Z.of_nat (length d) - 1) in
  if sign <=? le_value d then sign - le_value d else le_value d.
(** Reader of a number at the head of a script, as strict as BIP 34 is about the
    height in a coinbase: the opcodes OP_1 to OP_16; or a length byte followed by
    that many bytes, of a number that neither has an opcode nor fits fewer bytes. *)
Definition read_script_number (b : bytes) : option (Z * bytes) :=
  match b with
  | [] => None
  | t :: r =>
      let tag := Z_of_byte t in
      if (0x51 <=? tag) && (tag <=? 0x60) then Some (tag - 0x50, r)
      else if (length r <? Z.to_nat tag)%nat then None
      else
        let v := script_value (take (Z.to_nat tag) r) in
        if (0 <? tag) && ((-1 <=? v) && (v <=? 16) || (Z.abs v <? 2 ^ (8 * (tag - 1) - 1))) then None
        else Some (v, drop (Z.to_nat tag) r)
  end.

(** ** Byte reversal *)
Lemma swap_lookup b i j m :
  (i < length b)%nat -> (j < length b)%nat ->
  swap b i j !! m = if decide (m = i) then b !! j else if decide (m = j) then b !! i else b !! m.
Proof.
  intros Hi Hj. unfold swap.
  destruct (lookup_lt_is_Some_2 b i Hi) as [x Hx].
  destruct (lookup_lt_is_Some_2 b j Hj) as [y Hy].
  rewrite Hx, Hy. repeat case_decide; subst.
  - rewrite list_lookup_insert_eq; [done|]. rewrite length_insert; lia.
  - rewrite list_lookup_insert_ne by done. by rewrite list_lookup_insert_eq.
  - by rewrite !list_lookup_insert_ne by done.
Qed.

Lemma swap_length b i j : length (swap b i j) = length b.
Proof. unfold swap. repeat case_match; rewrite ?length_insert; done. Qed.

Lemma ReverseBytes_loop_lookup fuel i j b m :
  (j < length b)%nat -> (j - i <= fuel)%nat ->
  ReverseBytes_loop fuel i j b !! m
  = if decide (i <= m <= j)%nat then b !! (i + j - m)%nat else b !! m.
Proof.
  revert i j b; induction fuel as [|f IH]; intros i j b Hj Hf; simpl.
  { case_decide; [|done]. f_equal. lia. }
  destruct (i <? j)%nat eqn:E; zbool.
  - rewrite IH; [|rewrite swap_length; lia|lia].
    rewrite !swap_lookup by lia.
    repeat case_decide; subst; try lia; f_equal; lia.
  - case_decide; [|done]. f_equal. lia.
Qed.

Lemma ReverseBytes_rev b : ReverseBytes b = rev b.
Proof.
  unfold ReverseBytes. destruct b as [|x b']; [done|].
  set (b := x :: b').
  apply list_eq. intros m.
  rewrite ReverseBytes_loop_lookup by (subst b; simpl; lia).
  rewrite rev_alt. change (rev_append b []) with (reverse b).
  case_decide as H.
  - rewrite reverse_lookup by (subst b; simpl in *; lia). f_equal. subst b; simpl in *; lia.
  - rewrite !lookup_ge_None_2; try done; rewrite ?length_reverse; subst b; simpl in *; lia.
Qed.

Lemma ReverseBytes_length b : length (ReverseBytes b) = length b.
Proof. by rewrite ReverseBytes_rev, length_rev. Qed.
Lemma ReverseBytes_involutive b : ReverseBytes (ReverseBytes b) = b.
Proof. by rewrite !ReverseBytes_rev, rev_involutive. Qed.
#[export] Hint Rewrite ReverseBytes_length : go.

(** ** Variable-length integers *)
Lemma VarIntBytes_length n :
  0 <= n -> (1 <= length (VarIntBytes n) <= 9)%nat.
Proof.
  intros. unfold VarIntBytes. repeat case_match; simpl; rewrite ?le_bytes_length; lia.
Qed.

Lemma read_compact_tagged (t : byte) need (n : Z) rest :
  (253 <= Z_of_byte t) ->
  need = (if Z_of_byte t =? 253 then 2%nat else if Z_of_byte t =? 254 then 4%nat else 8%nat) ->
  0 <= n < 256 ^ Z.of_nat need ->
  read_compact (t :: le_bytes need n ++ rest) = Some (n, rest).
Proof.
  intros Ht Hneed Hn. unfold read_compact.
  replace (Z_of_byte t <? 253) with false by (symmetry; apply Z.ltb_ge; lia).
  rewrite <- Hneed.
  replace (_ <? need)%nat with false
    by (symmetry; apply Nat.ltb_ge; rewrite length_app, le_bytes_length; lia).
  rewrite take_app_length', drop_app_length' by (symmetry; apply le_bytes_length).
  by rewrite le_value_bytes, Z.mod_small.
Qed.

Lemma read_compact_VarInt_aux n rest :
  0 <= n < 2 ^ 64 -> read_compact (VarIntBytes n ++ rest) = Some (n, rest).
Proof.
  intros Hn. unfold VarIntBytes.
  destruct (n <? 253) eqn:E1; [|destruct (n <=? 65535) eqn:E2; [|destruct (n <=? 4294967295) eqn:E3]];
    zbool; rewrite <- ?app_comm_cons.
  - cbn [app]. unfold read_compact. rewrite Z_of_byte_of_Z, Z.mod_small by lia.
    replace (n <? 253) with true by (symmetry; apply Z.ltb_lt; lia). simpl.
    by replace (length rest <? 0)%nat with false by (symmetry; apply Nat.ltb_ge; lia).
  - rewrite (wrapu_small 16) by lia. apply read_compact_tagged; simpl; lia || done.
  - rewrite (wrapu_small 32) by lia. apply read_compact_tagged; simpl; lia || done.
  - apply read_compact_tagged; simpl; lia || done.
Qed.

Lemma SerializeString_VarString s :
  slen s < 2 ^ 32 -> SerializeString s = VarStringBytes s.
Proof.
  unfold slen. rewrite <- bytes_of_string_length. intros H.
  unfold SerializeString, VarStringBytes, VarIntBytes.
  assert (blen (bytes_of_string s) < 2 ^ 32) as L by exact H.
  repeat match goal with
  | |- context [?a <? ?b] => destruct (Z.ltb_spec a b)
  | |- context [?a <=? ?b] => destruct (Z.leb_spec a b)
  end; try lia; done.
Qed.

(** ** Script numbers *)
Lemma SerializeNumber_loop_val fuel acc n :
  0 <= n < 256 ^ (8 - Z.of_nat (length acc)) -> n < 2 ^ (8 * (8 - Z.of_nat (length acc)) - 1) ->
  (8 - length acc <= fuel)%nat ->
  (length acc < 8)%nat ->
  exists k, (k < 8 - length acc)%nat /\
    SerializeNumber_loop fuel acc n
    = Val ([byte_of_Z (Z.of_nat (length acc + k + 1))] ++ acc ++ le_bytes (S k) n) /\
    0 <= n < 2 ^ (8 * Z.of_nat (S k) - 1) /\ 2 ^ (8 * Z.of_nat k - 1) <= n.
Proof.
  revert acc n; induction fuel as [|f IH]; intros acc n Hn Hn' Hf Hl; [lia|].
  cbn [SerializeNumber_loop].
  replace (8 <=? length acc)%nat with false by (symmetry; apply Nat.leb_gt; lia).
  destruct (0x7f <? n) eqn:E; zbool.
  - rewrite Z.shiftr_div_pow2 by lia. change (2 ^ 8) with 256.
    assert (length acc + 1 <> 8)%nat as L.
    { intros L. replace (Z.of_nat (length acc)) with 7 in Hn' by lia. simpl in Hn'. lia. }
    destruct (IH (acc ++ [byte_of_Z (Z.land n 0xff)]) (n / 256)) as (k & Hk & Heq & Hr & Hlow).
    + rewrite length_app; cbn [length].
      replace (8 - Z.of_nat (length acc)) with (1 + (8 - Z.of_nat (length acc + 1))) in Hn by lia.
      rewrite Z.pow_add_r in Hn by lia.
      split; [apply Z.div_pos; lia|]. apply Z.div_lt_upper_bound; lia.
    + rewrite length_app; cbn [length]. apply Z.div_lt_upper_bound; [lia|].
      replace (8 * (8 - Z.of_nat (length acc)) - 1)
        with (8 + (8 * (8 - Z.of_nat (length acc + 1)) - 1)) in Hn' by lia.
      rewrite Z.pow_add_r in Hn' by lia. lia.
    + rewrite length_app; cbn [length]. lia.
    + rewrite length_app; cbn [length]. lia.
    + exists (S k). rewrite length_app in *; cbn [length] in *. split; [lia|]. split.
      * rewrite Heq. replace (length acc + 1 + k + 1)%nat with (length acc + S k + 1)%nat by lia.
        f_equal. f_equal. rewrite <- app_assoc. cbn [app]. f_equal.
        change (le_bytes (S (S k)) n) with (byte_of_Z n :: le_bytes (S k) (n / 256)).
        f_equal. apply Z_of_byte_inj. rewrite !Z_of_byte_of_Z.
        change 0xff with (Z.ones 8). rewrite Z.land_ones by lia.
        change (2 ^ 8) with 256. rewrite Z.mod_mod by lia. done.
      * assert (2 ^ (8 * Z.of_nat (S (S k)) - 1) = 256 * 2 ^ (8 * Z.of_nat (S k) - 1)) as E2.
        { change 256 with (2 ^ 8). rewrite <- Z.pow_add_r by lia. f_equal. lia. }
        pose proof (Z.div_mod n 256 ltac:(lia)). pose proof (Z.mod_pos_bound n 256 ltac:(lia)).
        rewrite E2. split; [lia|]. destruct k as [|k]; [change (2 ^ (8 * Z.of_nat 1 - 1)) with 128; lia|].
        assert (2 ^ (8 * Z.of_nat (S (S k)) - 1) = 256 * 2 ^ (8 * Z.of_nat (S k) - 1)) as ->; [|lia].
        change 256 with (2 ^ 8). rewrite <- Z.pow_add_r by lia. f_equal. lia.
  - exists 0%nat. split; [lia|]. split.
    + do 4 f_equal. lia.
    + change (8 * Z.of_nat 1 - 1) with 7. change (2 ^ (8 * Z.of_nat 0 - 1)) with 0. lia.
Qed.

Lemma SerializeNumber_loop_panic fuel acc n :
  2 ^ (8 * (8 - Z.of_nat (length acc)) - 1) <= n -> (9 - length acc <= fuel)%nat ->
  (length acc <= 8)%nat -> 0 <= n ->
  SerializeNumber_loop fuel acc n = Panic "index out of range".
Proof.
  revert acc n; induction fuel as [|f IH]; intros acc n Hn Hf Hl H0; [lia|].
  cbn [SerializeNumber_loop].
  destruct (8 <=? length acc)%nat eqn:E8; [by destruct (127 <? n)|]. zbool.
  assert (2 ^ 7 <= n) as H7.
  { etransitivity; [|exact Hn]. apply Z.pow_le_mono_r; lia. }
  change (2 ^ 7) with 128 in H7.
  replace (127 <? n) with true by (symmetry; apply Z.ltb_lt; lia).
  rewrite Z.shiftr_div_pow2 by lia. change (2 ^ 8) with 256.
  apply IH; rewrite ?length_app; cbn [length]; [|lia|lia|apply Z.div_pos; lia].
  destruct (decide (length acc = 7%nat)) as [->|]; [change (2 ^ _) with 0; apply Z.div_pos; lia|].
  apply Z.div_le_lower_bound; [lia|].
  change 256 with (2 ^ 8). rewrite <- Z.pow_add_r by lia.
  etransitivity; [|exact Hn]. apply Z.pow_le_mono_r; lia.
Qed.

Lemma read_script_number_op n rest :
  1 <= n <= 16 -> read_script_number (byte_of_Z (0x50 + n) :: rest) = Some (n, rest).
Proof.
  intros H. unfold read_script_number. rewrite Z_of_byte_of_Z, Z.mod_small by lia.
  replace ((81 <=? 80 + n) && (80 + n <=? 96)) with true
    by (symmetry; apply andb_true_intro; split; apply Z.leb_le; lia).
  do 2 f_equal. lia.
Qed.

Lemma pow256_half k : (1 <= k)%nat -> 2 ^ (8 * Z.of_nat k - 1) < 256 ^ Z.of_nat k.
Proof.
  intros Hk. change 256 with (2 ^ 8). rewrite <- Z.pow_mul_r by lia. apply Z.pow_lt_mono_r; lia.
Qed.
Lemma script_value_bytes k n :
  (1 <= k)%nat -> 0 <= n < 2 ^ (8 * Z.of_nat k - 1) -> script_value (le_bytes k n) = n.
Proof.
  intros Hk Hn. unfold script_value. pose proof (pow256_half k Hk).
  rewrite le_bytes_length, le_value_bytes, Z.mod_small by lia. by replace (_ <=? n) with false by (symmetry; apply Z.leb_gt; lia).
Qed.
Lemma read_script_number_push k n rest :
  (1 <= k <= 8)%nat -> 16 < n -> 0 <= n < 2 ^ (8 * Z.of_nat k - 1) -> 2 ^ (8 * (Z.of_nat k - 1) - 1) <= n ->
  read_script_number (byte_of_Z (Z.of_nat k) :: le_bytes k n ++ rest) = Some (n, rest).
Proof.
  intros Hk H16 Hn Hlow. unfold read_script_number. rewrite Z_of_byte_of_Z, Z.mod_small by lia.
  replace ((81 <=? Z.of_nat k) && (Z.of_nat k <=? 96)) with false
    by (symmetry; apply andb_false_intro1; apply Z.leb_gt; lia).
  rewrite Nat2Z.id.
  replace (_ <? k)%nat with false
    by (symmetry; apply Nat.ltb_ge; rewrite length_app, le_bytes_length; lia).
  rewrite take_app_length', drop_app_length' by (symmetry; apply le_bytes_length).
  rewrite script_value_bytes by lia.
  replace (n <=? 16) with false by (symmetry; apply Z.leb_gt; lia). rewrite Z.abs_eq by lia.
  replace (n <? _) with false by (symmetry; apply Z.ltb_ge; lia). by rewrite !andb_false_r.
Qed.

(** Shape of the encoding outside the one-byte opcodes. *)
Lemma SerializeNumber_push n :
  0 <= n < 2 ^ 63 -> ~ (1 <= n <= 16) ->
  exists k, (1 <= k <= 8)%nat /\ (0 <= n < 2 ^ (8 * Z.of_nat k - 1) /\ 2 ^ (8 * (Z.of_nat k - 1) - 1) <= n) /\
    SerializeNumber n = Val (byte_of_Z (Z.of_nat k) :: le_bytes k n).
Proof.
  intros Hn Hs. unfold SerializeNumber.
  replace ((1 <=? n) && (n <=? 16)) with false
    by (symmetry; apply andb_false_iff; rewrite !Z.leb_gt; lia).
  destruct (SerializeNumber_loop_val 9 [] n) as (k & Hk & Heq & Hr); simpl length; try lia.
  exists (S k). simpl length in *. split; [lia|].
  replace (Z.of_nat (S k) - 1) with (Z.of_nat k) by lia. split; [exact Hr|].
  rewrite Heq. cbn [app]. do 3 f_equal. lia.
Qed.

Lemma SerializeNumber_total n :
  0 <= n < 2 ^ 63 -> exists b, SerializeNumber n = Val b /\ (1 <= length b <= 9)%nat.
Proof.
  intros Hn. destruct (decide (1 <= n <= 16)) as [Hs|Hs].
  - unfold SerializeNumber.
    replace ((1 <=? n) && (n <=? 16)) with true
      by (symmetry; apply andb_true_intro; rewrite !Z.leb_le; lia).
    eexists; split; [done|]. simpl; lia.
  - destruct (SerializeNumber_push n Hn Hs) as (k & Hk & _ & ->).
    eexists; split; [done|]. rewrite length_cons, le_bytes_length. lia.
Qed.

Lemma SerializeNumber_roundtrip_aux n rest :
  0 < n < 2 ^ 64 ->
  if n <? 2 ^ 63
  then exists b, SerializeNumber n = Val b /\ read_script_number (b ++ rest) = Some (n, rest)
  else SerializeNumber n = Panic "index out of range".
Proof.
  intros Hn. destruct (Z.ltb_spec n (2 ^ 63)) as [H|H].
  - destruct (decide (1 <= n <= 16)) as [Hs|Hs].
    + unfold SerializeNumber.
      replace ((1 <=? n) && (n <=? 16)) with true
        by (symmetry; apply andb_true_intro; rewrite !Z.leb_le; lia).
      eexists; split; [done|]. by apply read_script_number_op.
    + destruct (SerializeNumber_push n ltac:(lia) Hs) as (k & Hk & [Hr Hlow] & ->).
      eexists; split; [done|]. apply read_script_number_push; lia.
  - unfold SerializeNumber.
    replace ((1 <=? n) && (n <=? 16)) with false
      by (symmetry; apply andb_false_iff; rewrite !Z.leb_gt; lia).
    apply SerializeNumber_loop_panic; simpl length; lia.
Qed.

(** SerializeNumber writes every positive number below 2^63 the one way BIP 34
    takes, and indexes out of its 9-byte buffer from 2^63 on. *)
Theorem SerializeNumber_roundtrip n rest :
  0 < n < 2 ^ 64 ->
  if n <? 2 ^ 63
  then exists b, SerializeNumber n = Val b /\ read_script_number (b ++ rest) = Some (n, rest)
  else SerializeNumber n = Panic "index out of range".
Proof. apply SerializeNumber_roundtrip_aux. Qed.

Lemma SerializeNumber_roundtrip_witness :
  0 < 840000 < 2 ^ 64 /\
  exists b, SerializeNumber 840000 = Val b /\ read_script_number (b ++ [x01]) = Some (840000, [x01]).
Proof. split; [lia|]. apply (SerializeNumber_roundtrip 840000 [x01]). lia. Defined.
(** The reader takes the sign bit and the length at their word. *)
Example read_script_number_strict :
  map read_script_number [[x01; x80]; [x02; x80; x00]; [x02; x7f; x00]; [x01; x05]; [x55]; [x01; x00]; [x01; xff]]
  = [None; Some (128, []); None; None; Some (5, []); None; Some (-127, [])].
Proof. vm_compute. reflexivity. Qed.

(** The variable-length integers written before scripts, transaction counts
    and solutions read back exactly, whatever follows them, for every 64-bit
    value; in particular the encoding is prefix-free and injective. *)
Theorem VarIntBytes_roundtrip n rest :
  0 <= n < 2 ^ 64 -> read_compact (VarIntBytes n ++ rest) = Some (n, rest).
Proof. apply read_compact_VarInt_aux. Qed.

Lemma VarIntBytes_roundtrip_witness :
  0 <= 70000 < 2 ^ 64 /\ read_compact (VarIntBytes 70000 ++ [x2a]) = Some (70000, [x2a]).
Proof. split; [lia|]. apply (VarIntBytes_roundtrip 70000 [x2a]). lia. Defined.

(** ** Word-order reversal *)
Lemma le_bytes_be_value w : le_bytes (length w) (be_value w) = rev w.
Proof. unfold be_value. rewrite <- (length_rev w). apply le_bytes_value. Qed.

Lemma swap_words_concat (ws : list bytes) rest :
  Forall (fun w => length w = 4%nat) ws ->
  swap_words (length ws) (concat ws ++ rest) = Val (concat (map (@rev byte) ws) ++ rest).
Proof.
  induction 1 as [|w ws Hw Hws IH]; [done|].
  destruct w as [|b0 [|b1 [|b2 [|b3 [|]]]]]; try done.
  cbn [concat length map swap_words app]. rewrite IH. cbn [rbind].
  pose proof (le_bytes_be_value [b0; b1; b2; b3]) as E. cbn [length] in E.
  by rewrite E, <- app_assoc.
Qed.

Lemma rev_concat_rev (ws : list bytes) : rev (concat (map (@rev byte) ws)) = concat (rev ws).
Proof.
  induction ws as [|w ws IH]; [done|]. cbn [map concat rev].
  rewrite rev_app_distr, rev_involutive, IH, concat_app. cbn [concat].
  by rewrite app_nil_r.
Qed.

(** ReverseByteOrder, which turns the daemon's previous-block hash into the
    stratum [prevhash] field, reverses the order of the eight 32-bit words of a
    32-byte hash and leaves the bytes inside each word alone. *)
Theorem ReverseByteOrder_words (ws : list bytes) :
  length ws = 8%nat -> Forall (fun w => length w = 4%nat) ws ->
  ReverseByteOrder (concat ws) = Val (concat (rev ws)).
Proof.
  intros H8 Hws. unfold ReverseByteOrder.
  pose proof (swap_words_concat ws [] Hws) as H. rewrite H8, !app_nil_r in H.
  rewrite H. cbn [rbind]. by rewrite ReverseBytes_rev, rev_concat_rev.
Qed.

Definition sample_words : list bytes := map (be_bytes 4) [1; 2; 3; 4; 5; 6; 7; 4000000000].
Lemma ReverseByteOrder_words_witness :
  length sample_words = 8%nat /\ Forall (fun w => length w = 4%nat) sample_words /\
  ReverseByteOrder (concat sample_words) = Val (concat (rev sample_words)).
Proof.
  assert (Forall (fun w => length w = 4%nat) sample_words) as H by (repeat constructor).
  split; [reflexivity|]. split; [exact H|].
  apply (ReverseByteOrder_words sample_words); [reflexivity|exact H].
Defined.

Lemma ReverseByteOrder_short b : (length b < 32)%nat -> is_val (ReverseByteOrder b) = false.
Proof.
  intros H. unfold ReverseByteOrder.
  assert (forall n (b : bytes), (length b < 4 * n)%nat -> is_val (swap_words n b) = false) as G.
  { clear. induction n as [|n IH]; intros b H; [lia|].
    destruct b as [|b0 [|b1 [|b2 [|b3 b]]]]; try done.
    cbn [swap_words]. specialize (IH b ltac:(simpl in H; lia)).
    by destruct (swap_words n b). }
  specialize (G 8%nat b H). by destruct (swap_words 8 b).
Qed.

(** ** Range *)
Lemma Range_loop_up fuel i stop step :
  0 < step -> stop - i <= Z.of_nat fuel * step ->
  forall k, Range_loop fuel i stop step !! k
    = if i + Z.of_nat k * step <? stop then Some (i + Z.of_nat k * step) else None.
Proof.
  intros Hs. revert i; induction fuel as [|f IH]; intros i Hf k; cbn [Range_loop].
  - destruct (Z.ltb_spec (i + Z.of_nat k * step) stop); [nia|done].
  - replace (0 <? step) with true by (symmetry; apply Z.ltb_lt; lia).
    destruct (Z.ltb_spec i stop) as [Hi|Hi].
    + destruct k as [|k].
      * rewrite Z.add_0_r. cbn. by replace (i <? stop) with true by (symmetry; apply Z.ltb_lt; lia).
      * cbn [lookup list_lookup]. fold (lookup (M := list Z) (A := Z) k).
        rewrite IH by lia. replace (i + step + Z.of_nat k * step) with (i + Z.of_nat (S k) * step) by lia.
        done.
    + destruct (Z.ltb_spec (i + Z.of_nat k * step) stop); [nia|done].
Qed.

Lemma Range_up start stop step k :
  0 < step ->
  Range start stop step !! k
  = if start + Z.of_nat k * step <? stop then Some (start + Z.of_nat k * step) else None.
Proof.
  intros Hs. unfold Range.
  replace (0 <? step) with true by (symmetry; apply Z.ltb_lt; lia).
  replace (step <? 0) with false by (symmetry; apply Z.ltb_ge; lia). simpl.
  destruct (Z.leb_spec stop start) as [H|H]; simpl.
  - destruct (Z.ltb_spec (start + Z.of_nat k * step) stop); [nia|]. done.
  - apply Range_loop_up; [done|]. rewrite Z.abs_eq by lia. nia.
Qed.

(** ** Index search *)
Lemma StringsIndexOf_from_spec data k e :
  0 <= k ->
  (StringsIndexOf_from k data e = -1 <-> ~ (e ∈ data)) /\
  (StringsIndexOf_from k data e <> -1 -> k <= StringsIndexOf_from k data e /\
     data !! Z.to_nat (StringsIndexOf_from k data e - k) = Some e).
Proof.
  revert k; induction data as [|v data IH]; intros k Hk; simpl.
  - split; [split; [intros _; apply not_elem_of_nil|done]|done].
  - destruct (String.eqb_spec e v) as [->|Hne].
    + split; [split; [lia|intros []; left]|]. intros _. split; [lia|].
      replace (k - k) with 0 by lia. done.
    + destruct (IH (k + 1) ltac:(lia)) as [IH1 IH2]. split.
      * rewrite IH1. rewrite not_elem_of_cons. tauto.
      * intros H. destruct (IH2 H) as [H1 H2]. split; [lia|].
        replace (Z.to_nat (StringsIndexOf_from (k + 1) data e - k))
          with (S (Z.to_nat (StringsIndexOf_from (k + 1) data e - (k + 1)))) by lia.
        done.
Qed.

Lemma StringsIndexOf_absent data e : StringsIndexOf data e = -1 <-> ~ (e ∈ data).
Proof. apply (proj1 (StringsIndexOf_from_spec data 0 e ltac:(lia))). Qed.

Lemma Uint256BytesFromHash_length h : length (Uint256BytesFromHash h) = 32%nat.
Proof.
  unfold Uint256BytesFromHash. rewrite ReverseBytes_length, length_app, length_take, length_drop.
  unfold zeros. rewrite repeat_length. lia.
Qed.
#[export] Hint Rewrite Uint256BytesFromHash_length : go.

Lemma Sha256d_length b : length (Sha256d b) = 32%nat.
Proof. apply sum256_length. Qed.
#[export] Hint Rewrite Sha256d_length : go.

Lemma FixedLenStringBytes_length s l : length (FixedLenStringBytes s l) = l.
Proof.
  unfold FixedLenStringBytes, zeros. rewrite length_app, length_take, repeat_length. lia.
Qed.
