(* ===== verification/Merkle.v ===== *)
(** * Merkle: src/merkletree/mtree.go

    The stratum merkle branch: [CalculateSteps] reduces the transaction list,
    whose slot 0 is reserved for the coinbase, to the sibling hashes a miner
    needs, and [WithFirst] folds a coinbase hash along them.  The specification
    is Bitcoin's merkle root over the full list of leaves, and the main theorem
    is that the two agree for every hasher. *)
From Stdlib Require Import ZArith Lia List Strings.Byte.
From stdpp Require Import base list strings.
From S2P Require Import Prelude Bytes Utils.
Import ListNotations.
Local Open Scope Z_scope.
Local Open Scope go_scope.

(** A hasher may panic, as the Lyra2REv2 binding does when its library fails. *)
Definition Hasher : Type := bytes -> result bytes.

Section Steps.
Variable hasher : Hasher.

(** [Ld[i] = hasher(L[r[i]] ++ L[r[i]+1])] for [r = Range(2, Ll, 2)], on the
    list [L] already padded to an even length. *)
Definition next_level (L : list bytes) (Ll : Z) : result (list bytes) :=
  rmap (fun r => hasher (nth (Z.to_nat r) L [] ++ nth (Z.to_nat (r + 1)) L [])) (Range 2 Ll 2).

(** One iteration of the [for Ll > 1] loop per unit of fuel; the list shrinks
    at every iteration, so its length is enough. *)
Fixpoint CalculateSteps_loop (fuel : nat) (L : list bytes) (steps : list bytes)
  : result (list bytes) :=
  match fuel with
  | O => Val steps
  | S f =>
      let Ll := Z.of_nat (length L) in
      if 1 <? Ll then
        let steps := steps ++ [nth 1 L []] in
        let L := if negb (Ll mod 2 =? 0) then L ++ [nth (length L - 1) L []] else L in
        let! Ld := next_level L Ll in
        CalculateSteps_loop f ([] :: Ld) steps
      else Val steps
  end.

Fixpoint WithFirst (steps : list bytes) (f : bytes) : result bytes :=
  match steps with
  | [] => Val f
  | step :: steps' => let! f' := hasher (f ++ step) in WithFirst steps' f'
  end.
End Steps.

Definition default_hasher (hasher : option Hasher) : Hasher :=
  match hasher with Some h => h | None => fun b => Val (Sha256d b) end.

Definition CalculateSteps (data : list bytes) (hasher : option Hasher) : result (list bytes) :=
  CalculateSteps_loop (default_hasher hasher) (length data) data [].

Record MerkleTree := { Data : list bytes; Steps : list bytes; hasher_of : Hasher }.

Definition NewMerkleTree (data : list bytes) (hasher : option Hasher) : result MerkleTree :=
  let h := default_hasher hasher in
  let! steps := CalculateSteps data (Some h) in
  Val {| Data := data; Steps := steps; hasher_of := h |}.

Definition MerkleTree_WithFirst (mt : MerkleTree) (f : bytes) : result bytes :=
  WithFirst (hasher_of mt) (Steps mt) f.

Definition GetMerkleHashes (steps : list bytes) : list string := map hex_encode steps.

(** A hasher that never panics is a function [h]; the branch it computes is the
    pure reduction below. *)
Definition total_hasher (hasher : Hasher) (h : bytes -> bytes) : Prop :=
  forall b, hasher b = Val (h b).

Section Pure.
Variable hasher : bytes -> bytes.

Definition pure_level (L : list bytes) (Ll : Z) : list bytes :=
  map (fun r => hasher (nth (Z.to_nat r) L [] ++ nth (Z.to_nat (r + 1)) L [])) (Range 2 Ll 2).

Fixpoint pure_steps (fuel : nat) (L : list bytes) (steps : list bytes) : list bytes :=
  match fuel with
  | O => steps
  | S f =>
      let Ll := Z.of_nat (length L) in
      if 1 <? Ll then
        let steps := steps ++ [nth 1 L []] in
        let L := if negb (Ll mod 2 =? 0) then L ++ [nth (length L - 1) L []] else L in
        pure_steps f ([] :: pure_level L Ll) steps
      else steps
  end.

Definition pure_fold (steps : list bytes) (f : bytes) : bytes :=
  fold_left (fun f step => hasher (f ++ step)) steps f.
End Pure.

Lemma CalculateSteps_loop_pure hasher h fuel L steps :
  total_hasher hasher h ->
  CalculateSteps_loop hasher fuel L steps = Val (pure_steps h fuel L steps).
Proof.
  intros T. revert L steps; induction fuel as [|fuel IH]; intros L steps; [done|].
  cbn [CalculateSteps_loop pure_steps]. destruct (1 <? _); [|done].
  unfold next_level, pure_level.
  rewrite (rmap_all_val _ (fun r => h (nth (Z.to_nat r) _ [] ++ nth (Z.to_nat (r + 1)) _ [])))
    by (intros; apply T).
  cbn [rbind]. apply IH.
Qed.

Lemma WithFirst_pure hasher h steps f :
  total_hasher hasher h -> WithFirst hasher steps f = Val (pure_fold h steps f).
Proof.
  intros T. revert f; induction steps as [|s steps IH]; intros f; [done|].
  cbn [WithFirst]. rewrite T. cbn [rbind]. apply IH.
Qed.

(** ** Specification: the merkle root of a list of leaves *)
Section Root.
Variable hasher : bytes -> bytes.

Fixpoint pairs (l : list bytes) : list bytes :=
  match l with
  | [] => []
  | [a] => [hasher (a ++ a)]
  | a :: b :: l' => hasher (a ++ b) :: pairs l'
  end.

Fixpoint root_loop (fuel : nat) (l : list bytes) : bytes :=
  match fuel, l with
  | _, [] => []
  | _, [x] => x
  | O, _ => []
  | S f, _ => root_loop f (pairs l)
  end.
Definition merkle_root (l : list bytes) : bytes := root_loop (length l) l.

Lemma pairs_length l : (2 * length (pairs l) <= length l + 1)%nat.
Proof. induction l as [| |a b l IH] using byte_ind2; simpl in *; lia. Qed.

Lemma root_loop_fuel f1 f2 l :
  (length l <= f1)%nat -> (length l <= f2)%nat -> root_loop f1 l = root_loop f2 l.
Proof.
  revert f2 l; induction f1 as [|f1 IH]; intros f2 l H1 H2.
  { destruct l; [by destruct f2|simpl in *; lia]. }
  destruct l as [|a [|b l]]; [by destruct f2|by destruct f2|].
  destruct f2 as [|f2]; [simpl in *; lia|].
  cbn [root_loop]. apply IH; pose proof (pairs_length (a :: b :: l)); simpl length in *; lia.
Qed.

Lemma merkle_root_step a b l : merkle_root (a :: b :: l) = merkle_root (pairs (a :: b :: l)).
Proof.
  transitivity (root_loop (S (length l)) (pairs (a :: b :: l))); [reflexivity|].
  apply root_loop_fuel; pose proof (pairs_length (a :: b :: l)); simpl length in *; lia.
Qed.

Definition padded (l : list bytes) : list bytes :=
  if Nat.even (length l) then l else l ++ [nth (length l - 1) l []].

(** The index arithmetic of the loop computes the pairs of the tail. *)
Lemma map_Range_pairs rest pre fuel :
  (length rest < fuel)%nat ->
  map (fun r => hasher (nth (Z.to_nat r) (pre ++ padded rest) []
                        ++ nth (Z.to_nat (r + 1)) (pre ++ padded rest) []))
      (Range_loop fuel (Z.of_nat (length pre)) (Z.of_nat (length pre + length rest)) 2)
  = pairs rest.
Proof.
  revert pre fuel; induction rest as [|a|a b rest IH] using byte_ind2; intros pre fuel Hf.
  - destruct fuel; [simpl in Hf; lia|]. cbn [Range_loop length]. rewrite Nat.add_0_r.
    by rewrite Z.ltb_irrefl.
  - destruct fuel as [|[|fuel]]; [simpl in Hf; lia|simpl in Hf; lia|]. cbn [Range_loop length].
    replace (0 <? 2) with true by done.
    replace (_ <? _) with true by (symmetry; apply Z.ltb_lt; lia).
    replace (Z.of_nat (length pre) + 2 <? _) with false by (symmetry; apply Z.ltb_ge; lia).
    cbn [map pairs padded length Nat.even app nth Nat.sub].
    rewrite Nat2Z.id, app_nth2, Nat.sub_diag by lia.
    replace (Z.to_nat (Z.of_nat (length pre) + 1)) with (length pre + 1)%nat by lia.
    rewrite app_nth2 by lia. by replace (length pre + 1 - length pre)%nat with 1%nat by lia.
  - destruct fuel as [|fuel]; [simpl in Hf; lia|]. cbn [Range_loop length].
    replace (0 <? 2) with true by done.
    rewrite (proj2 (Z.ltb_lt (Z.of_nat (length pre)) (Z.of_nat (length pre + S (S (length rest)))))) by lia.
    assert (padded (a :: b :: rest) = a :: b :: padded rest) as E.
    { unfold padded. cbn [length Nat.even]. destruct (Nat.even (length rest)) eqn:Ev; [done|].
      cbn [app]. do 3 f_equal. replace (S (S (length rest)) - 1)%nat with (S (length rest)) by lia.
      destruct rest; [done|]. simpl. by rewrite Nat.sub_0_r. }
    rewrite E. cbn [map pairs]. f_equal.
    + rewrite Nat2Z.id, app_nth2, Nat.sub_diag by lia.
      replace (Z.to_nat (Z.of_nat (length pre) + 1)) with (length pre + 1)%nat by lia.
      rewrite app_nth2 by lia. by replace (length pre + 1 - length pre)%nat with 1%nat by lia.
    + specialize (IH (pre ++ [a; b]) fuel). rewrite length_app, <- !app_assoc in IH.
      cbn [length app] in IH. simpl length in Hf.
      replace (Z.of_nat (length pre) + 2) with (Z.of_nat (length pre + 2)) by lia.
      replace (length pre + S (S (length rest)))%nat with (length pre + 2 + length rest)%nat by lia.
      apply IH. lia.
Qed.

Lemma pure_level_pairs c t rest :
  pure_level hasher (c :: t :: padded rest) (Z.of_nat (length (c :: t :: rest))) = pairs rest.
Proof.
  unfold pure_level, Range. cbn [length].
  replace ((0 <? 2) && (Z.of_nat (S (S (length rest))) <=? 2)
           || (2 <? 0) && (2 <=? Z.of_nat (S (S (length rest)))))
    with (Z.of_nat (S (S (length rest))) <=? 2) by (by rewrite orb_false_r).
  destruct (Z.leb_spec (Z.of_nat (S (S (length rest)))) 2) as [H|H].
  - destruct rest; [done|simpl in H; lia].
  - apply (map_Range_pairs rest [c; t]). lia.
Qed.

Lemma pure_steps_app fuel L s1 s2 :
  pure_steps hasher fuel L (s1 ++ s2) = s1 ++ pure_steps hasher fuel L s2.
Proof.
  revert L s2; induction fuel as [|f IH]; intros L s2; cbn [pure_steps]; [done|].
  destruct (1 <? _); [|done]. by rewrite <- app_assoc, IH.
Qed.

Lemma pure_steps_step f c t rest :
  pure_steps hasher (S f) (c :: t :: rest) []
  = t :: pure_steps hasher f ([] :: pairs rest) [].
Proof.
  cbn [pure_steps].
  replace (1 <? Z.of_nat (length (c :: t :: rest))) with true
    by (symmetry; apply Z.ltb_lt; simpl length; lia).
  cbn [nth app].
  change [t] with ([t] ++ []). rewrite pure_steps_app. cbn [app]. do 3 f_equal.
  rewrite <- (pure_level_pairs c t rest). f_equal.
  assert ((Z.of_nat (length (c :: t :: rest)) mod 2 =? 0) = Nat.even (length rest)) as ->.
  { cbn [length]. rewrite <- (Nat.even_succ_succ (length rest)).
    destruct (Nat.even (S (S (length rest)))) eqn:Ev.
    - apply Nat.even_spec in Ev as [k Hk]. rewrite Hk. apply Z.eqb_eq.
      rewrite Nat2Z.inj_mul, Z.mul_comm. apply Z.mod_mul. lia.
    - apply Z.eqb_neq. rewrite <- Nat.negb_odd in Ev. apply negb_false_iff, Nat.odd_spec in Ev as [k Hk].
      rewrite Hk. rewrite Nat2Z.inj_add, Nat2Z.inj_mul.
      change (Z.of_nat 2) with 2. change (Z.of_nat 1) with 1.
      rewrite Z.add_comm, Z.mul_comm, Z_mod_plus_full. done. }
  unfold padded. destruct (Nat.even (length rest)) eqn:Ev; [done|]. cbn [negb app].
  do 3 f_equal. destruct rest; [done|]. simpl. by rewrite Nat.sub_0_r.
Qed.

(** Folding the coinbase along the steps is the merkle root of all leaves. *)
Lemma WithFirst_root_aux fuel c txs f :
  (length txs < fuel)%nat ->
  pure_fold hasher (pure_steps hasher fuel (c :: txs) []) f = merkle_root (f :: txs).
Proof.
  revert c txs f; induction fuel as [|fuel IH]; intros c txs f Hf; [lia|].
  destruct txs as [|t rest].
  - done.
  - rewrite pure_steps_step. cbn [pure_fold fold_left].
    rewrite merkle_root_step. cbn [pairs].
    apply IH. pose proof (pairs_length rest). simpl in Hf. lia.
Qed.
End Root.

(** The number of steps is the height of the tree: at most [log2] of the number
    of leaves, rounded up. *)
Lemma pure_steps_length hasher fuel c txs :
  (length txs < fuel)%nat ->
  Z.of_nat (length (pure_steps hasher fuel (c :: txs) []))
  = Z.log2_up (Z.of_nat (length (c :: txs))).
Proof.
  revert c txs; induction fuel as [|fuel IH]; intros c txs Hf; [lia|].
  destruct txs as [|t rest]; [done|].
  rewrite pure_steps_step. cbn [length].
  pose proof (pairs_length hasher rest).
  assert (length rest <= 2 * length (pairs hasher rest))%nat as H2.
  { clear. induction rest as [| |a b l IHl] using byte_ind2; simpl in *; lia. }
  rewrite Nat2Z.inj_succ, IH by (simpl in Hf; lia). cbn [length].
  destruct (decide (length rest = 0%nat)) as [E|E].
  { rewrite E in *. replace (length (pairs hasher rest)) with 0%nat by lia. done. }
  set (n := Z.of_nat (S (length (pairs hasher rest)))).
  assert (Z.log2_up (2 * n) = Z.succ (Z.log2_up n)) as Hd by (apply Z.log2_up_double; lia).
  rewrite <- Hd.
  destruct (decide (Z.of_nat (S (S (length rest))) = 2 * n)) as [->|Hne]; [done|].
  assert (Z.of_nat (S (S (length rest))) = 2 * n - 1) as -> by lia.
  (* an odd number above 1 is never a power of two *)
  apply Z.le_antisymm; [|apply Z.log2_up_le_mono; lia].
  rewrite Hd. apply Z.le_succ_l, Z.lt_nge. intros Hle.
  assert (2 * n - 1 <= 2 ^ Z.log2_up n) as Hp.
  { etransitivity; [apply Z.log2_up_spec; lia|]. apply Z.pow_le_mono_r; lia. }
  pose proof (Z.log2_up_spec n ltac:(lia)) as [Hlo _].
  assert (0 < Z.log2_up n) by (apply Z.log2_up_pos; lia).
  replace (Z.log2_up n) with (Z.succ (Z.pred (Z.log2_up n))) in Hp by lia.
  rewrite Z.pow_succ_r in Hp by lia. lia.
Qed.

(** The root of 32-byte leaves has 32 bytes when the hasher's outputs do. *)
Lemma pairs_width h n l : (forall b, length (h b) = n) -> Forall (fun x => length x = n) (pairs h l).
Proof.
  intros Hh. induction l as [| |a b l IH] using byte_ind2; cbn [pairs]; repeat constructor; auto.
Qed.

Lemma root_loop_width h n fuel l :
  (forall b, length (h b) = n) -> (length l <= fuel)%nat -> l <> [] ->
  Forall (fun x => length x = n) l -> length (root_loop h fuel l) = n.
Proof.
  intros Hh. revert l; induction fuel as [|fuel IH]; intros l Hf Hne Hl.
  { destruct l; [done|simpl in Hf; lia]. }
  destruct l as [|a [|b l]]; [done|by inversion Hl|].
  cbn [root_loop]. apply IH; [|done|by apply pairs_width].
  pose proof (pairs_length h (a :: b :: l)). simpl length in *. lia.
Qed.

Lemma merkle_root_width h n l :
  (forall b, length (h b) = n) -> l <> [] -> Forall (fun x => length x = n) l ->
  length (merkle_root h l) = n.
Proof. intros. by apply root_loop_width. Qed.

Lemma NewMerkleTree_pure data hasher h :
  total_hasher (default_hasher hasher) h ->
  NewMerkleTree data hasher
  = Val {| Data := data; Steps := pure_steps h (length data) data []; hasher_of := default_hasher hasher |}.
Proof.
  intros T. unfold NewMerkleTree, CalculateSteps. cbn [default_hasher].
  by rewrite (CalculateSteps_loop_pure _ h).
Qed.

Lemma WithFirst_merkle_root_aux txs hasher h coinbase mt :
  total_hasher (default_hasher hasher) h ->
  NewMerkleTree ([] :: txs) hasher = Val mt ->
  MerkleTree_WithFirst mt coinbase = Val (merkle_root h (coinbase :: txs)).
Proof.
  intros T. rewrite (NewMerkleTree_pure _ _ h T). intros E.
  assert (mt = Build_MerkleTree ([] :: txs) (pure_steps h (length ([] :: txs)) ([] :: txs) [])
                 (default_hasher hasher)) as -> by congruence.
  unfold MerkleTree_WithFirst. cbv [Steps hasher_of]. rewrite (WithFirst_pure _ h) by done.
  rewrite WithFirst_root_aux by (simpl; lia). done.
Qed.

(** C32: the merkle branch sent to miners is correct: for any list of transaction
    hashes and any coinbase hash, building the tree does not panic, and folding
    the coinbase along its steps gives Bitcoin's merkle root of the whole block,
    for the coin's own (total) node hasher. *)
Theorem WithFirst_merkle_root (txs : list bytes) (hasher : option Hasher) (h : bytes -> bytes)
    (coinbase : bytes) (T : total_hasher (default_hasher hasher) h) :
  (let! mt := NewMerkleTree ([] :: txs) hasher in MerkleTree_WithFirst mt coinbase)
  = Val (merkle_root h (coinbase :: txs)).
Proof.
  pose proof (NewMerkleTree_pure ([] :: txs) hasher h T) as E.
  rewrite E. cbn [rbind]. by apply (WithFirst_merkle_root_aux _ hasher).
Qed.
Lemma WithFirst_merkle_root_witness :
  (let! mt := NewMerkleTree [[]; Sha256d [x00]; Sha256d [x01]; Sha256d [x02]] None in
   MerkleTree_WithFirst mt (Sha256d [x03]))
  = Val (merkle_root Sha256d [Sha256d [x03]; Sha256d [x00]; Sha256d [x01]; Sha256d [x02]]).
Proof.
  apply (WithFirst_merkle_root [Sha256d [x00]; Sha256d [x01]; Sha256d [x02]] None Sha256d).
  intros b. reflexivity.
Defined.

(** The branch has exactly ceil(log2 n) hashes for a block of [n]
    transactions (coinbase included), so a miner does that many hashes. *)
Theorem CalculateSteps_height (txs : list bytes) (hasher : option Hasher) (h : bytes -> bytes)
    (T : total_hasher (default_hasher hasher) h) :
  exists steps, CalculateSteps ([] :: txs) hasher = Val steps /\
    Z.of_nat (length steps) = Z.log2_up (1 + Z.of_nat (length txs)).
Proof.
  unfold CalculateSteps. rewrite (CalculateSteps_loop_pure _ h) by done.
  eexists. split; [done|]. rewrite pure_steps_length by (simpl; lia).
  f_equal. simpl length. lia.
Qed.
Lemma CalculateSteps_height_witness :
  exists steps, CalculateSteps [[]; [x00]; [x01]; [x02]] None = Val steps /\
    Z.of_nat (length steps) = Z.log2_up (1 + 3).
Proof.
  apply (CalculateSteps_height [[x00]; [x01]; [x02]] None Sha256d). intros b. reflexivity.
Defined.
