(* ===== verification/FloatSpec.v ===== *)
(** * FloatSpec: rounding error of the float operations

    [binary_round_aux] is analysed once, for any precision and exponent range:
    its result is a multiple of the spacing around the exact value, at most half
    a spacing away, and equal to it when the exact value is representable.  The
    binary64 lemmas at the end are what the payment theorems use. *)
From Stdlib Require Import ZArith Lia List Floats.SpecFloat Reals Lra.
From stdpp Require Import base strings.
From S2P Require Import Prelude Float.
Local Open Scope Z_scope.

(** ** Powers of two *)
Definition b2 (e : Z) : R := powerRZ 2 e.

Lemma b2_pos e : (0 < b2 e)%R.
Proof. apply powerRZ_lt. lra. Qed.
Lemma b2_add a b : b2 (a + b) = (b2 a * b2 b)%R.
Proof. apply powerRZ_add. lra. Qed.
Lemma b2_0 : b2 0 = 1%R. Proof. reflexivity. Qed.
Lemma b2_succ e : b2 (e + 1) = (2 * b2 e)%R.
Proof. rewrite b2_add. change (b2 1) with (2 * 1)%R. lra. Qed.
Lemma b2_neg e : b2 (- e) = (/ b2 e)%R.
Proof. apply powerRZ_neg'. Qed.
Lemma b2_IZR e : 0 <= e -> b2 e = IZR (2 ^ e).
Proof. intros H. unfold b2. symmetry. rewrite <- (Z2Nat.id e) by lia. rewrite <- pow_IZR, pow_powerRZ. done. Qed.
Lemma b2_le a b : a <= b -> (b2 a <= b2 b)%R.
Proof.
  intros H. replace b with (a + (b - a)) by lia. rewrite b2_add, (b2_IZR (b - a)) by lia.
  pose proof (b2_pos a). assert (1 <= IZR (2 ^ (b - a)))%R.
  { apply IZR_le. pose proof (Z.pow_pos_nonneg 2 (b - a)). lia. }
  nra.
Qed.
Lemma b2_lt_inv a b : (b2 a < b2 b)%R -> a < b.
Proof. intros H. destruct (Z.lt_ge_cases a b) as [|C]; [done|]. apply b2_le in C. lra. Qed.
Lemma b2_succ' e : b2 e = (2 * b2 (e - 1))%R.
Proof. rewrite <- b2_succ. f_equal. lia. Qed.

(** ** Value of a float *)
Definition F2R (x : spec_float) : R :=
  match x with
  | S754_finite s m e => (IZR (if s then Zneg m else Zpos m) * b2 e)%R
  | _ => 0%R
  end.
Definition is_finite (x : spec_float) : bool :=
  match x with S754_finite _ _ _ | S754_zero _ => true | _ => false end.
Definition sign_of (x : spec_float) : bool :=
  match x with S754_finite s _ _ | S754_zero s | S754_infinity s => s | S754_nan => false end.

(** ** Digits *)
Lemma digits2_pos_spec p :
  2 ^ (Zpos (digits2_pos p) - 1) <= Zpos p < 2 ^ Zpos (digits2_pos p).
Proof.
  induction p as [p IH|p IH|]; cbn [digits2_pos]; [| |simpl; lia];
    rewrite Pos2Z.inj_succ;
    replace (Z.succ (Zpos (digits2_pos p)) - 1) with (Z.succ (Zpos (digits2_pos p) - 1)) by lia;
    rewrite !Z.pow_succ_r by lia; lia.
Qed.

Lemma digits_unique m d : 0 < m -> 2 ^ (d - 1) <= m < 2 ^ d -> 0 < d -> Zdigits2 m = d.
Proof.
  intros Hm [H1 H2] Hd. destruct m as [|p|p]; try lia. cbn [Zdigits2].
  pose proof (digits2_pos_spec p) as [D1 D2].
  assert (Zpos (digits2_pos p) - 1 < d) by (apply (Z.pow_lt_mono_r_iff 2); lia).
  assert (d - 1 < Zpos (digits2_pos p)) by (apply (Z.pow_lt_mono_r_iff 2); lia).
  lia.
Qed.

Lemma Zdigits2_le m p : 0 <= m < 2 ^ p -> 0 <= p -> Zdigits2 m <= p.
Proof.
  intros [H1 H2] Hp. destruct m as [|q|q]; cbn [Zdigits2]; [lia| |lia].
  pose proof (digits2_pos_spec q) as [D1 D2].
  assert (Zpos (digits2_pos q) - 1 < p); [|lia].
  apply (Z.pow_lt_mono_r_iff 2); lia.
Qed.

(** ** Shifting right with a sticky bit *)

(** The real [x] lies in [[m, m+1) * 2^e] where the round and sticky bits say. *)
Definition locates (mrs : shr_record) (e : Z) (x : R) : Prop :=
  let m := IZR (shr_m mrs) in
  let b := b2 e in
  match shr_r mrs, shr_s mrs with
  | false, false => x = (m * b)%R
  | false, true => (m * b < x < (m + /2) * b)%R
  | true, false => x = ((m + /2) * b)%R
  | true, true => ((m + /2) * b < x < (m + 1) * b)%R
  end.

Lemma locates_shr_1 mrs e x :
  0 <= shr_m mrs -> locates mrs e x ->
  locates (shr_1 mrs) (e + 1) x /\ shr_m (shr_1 mrs) = shr_m mrs / 2.
Proof.
  destruct mrs as [m r s]. unfold locates. cbn [shr_m shr_r shr_s]. intros Hm H.
  rewrite b2_succ. pose proof (b2_pos e) as Hb. set (b := b2 e) in *. clearbody b.
  destruct m as [|[p|p|]|p]; try lia; cbn [shr_1 shr_m shr_r shr_s].
  - split; [|done]. destruct r, s; cbn [orb]; lra.
  - split; [|rewrite Pos2Z.inj_xI, Z.mul_comm, Z.div_add_l by lia; by rewrite Z.add_0_r].
    rewrite Pos2Z.inj_xI, plus_IZR, mult_IZR in H.
    destruct r, s; cbn [orb]; simpl in *; nra.
  - split; [|by rewrite Pos2Z.inj_xO, Z.mul_comm, Z.div_mul by lia].
    rewrite Pos2Z.inj_xO, mult_IZR in H.
    destruct r, s; cbn [orb]; simpl in *; nra.
  - split; [|done]. destruct r, s; cbn [orb]; simpl in *; lra.
Qed.

Lemma iter_pos_ind {A} (f : A -> A) (P : A -> Z -> Prop) :
  (forall a e, P a e -> P (f a) (e + 1)) ->
  forall (n : positive) a e, P a e -> P (SpecFloat.iter_pos f n a) (e + Zpos n).
Proof.
  intros Hf n; induction n as [n IH|n IH|]; intros a e H; cbn [SpecFloat.iter_pos].
  - replace (e + Zpos n~1) with (e + 1 + Zpos n + Zpos n) by lia. by apply IH, IH, Hf.
  - replace (e + Zpos n~0) with (e + Zpos n + Zpos n) by lia. by apply IH, IH.
  - by apply Hf.
Qed.

(** Shifting [n >= 0] places keeps the location of [x] and divides the mantissa. *)
Lemma locates_shr mrs e n x :
  0 <= shr_m mrs -> 0 <= n -> locates mrs e x ->
  locates (fst (shr mrs e n)) (e + n) x /\ snd (shr mrs e n) = e + n /\
  shr_m (fst (shr mrs e n)) = shr_m mrs / 2 ^ n.
Proof.
  intros Hm Hn H. destruct n as [|p|p]; [|cbn [shr fst snd]|lia].
  - cbn. rewrite Z.add_0_r, Z.div_1_r. done.
  - pose (P := fun a e' => e <= e' /\ locates a e' x /\ shr_m a = shr_m mrs / 2 ^ (e' - e)).
    assert (P (SpecFloat.iter_pos shr_1 p mrs) (e + Zpos p)) as (_ & H1 & H2).
    { apply (iter_pos_ind shr_1 P).
      - intros a e' (He & HL & Hd).
        assert (0 <= shr_m a) by (rewrite Hd; apply Z.div_pos; [lia|apply Z.pow_pos_nonneg; lia]).
        destruct (locates_shr_1 a e' x) as [HL' Hd']; [done|done|].
        split; [lia|]. split; [done|]. rewrite Hd', Hd.
        rewrite Z.div_div by (try lia; apply Z.pow_pos_nonneg; lia).
        replace (e' + 1 - e) with (Z.succ (e' - e)) by lia.
        rewrite Z.pow_succ_r by lia. f_equal. lia.
      - split; [lia|]. split; [done|]. rewrite Z.sub_diag, Z.div_1_r. done. }
    split; [done|]. rewrite H2. split; [done|]. by replace (e + Zpos p - e) with (Zpos p) by lia.
Qed.

Lemma shr_neg mrs e n : n <= 0 -> shr mrs e n = (mrs, e).
Proof. by destruct n. Qed.

(** ** Rounding to nearest *)
Lemma round_nearest_bound mrs e x :
  locates mrs e x ->
  let n := round_nearest_even (shr_m mrs) (loc_of_shr_record mrs) in
  (Rabs (IZR n * b2 e - x) <= / 2 * b2 e)%R /\ shr_m mrs <= n <= shr_m mrs + 1 /\
  (forall k, x = (IZR k * b2 e)%R -> n = k).
Proof.
  destruct mrs as [m r s]. unfold locates. cbn [shr_m shr_r shr_s]. intros H.
  set (n := round_nearest_even m _).
  pose proof (b2_pos e) as Hb.
  assert (forall k, x = (IZR k * b2 e)%R -> r = false /\ s = false /\ k = m) as Hk.
  { intros k ->.
    assert (forall a b : Z, (IZR a * b2 e < IZR b * b2 e)%R -> a < b) as Lt.
    { intros a b L. apply lt_IZR. nra. }
    destruct r, s.
    - assert (m < k) by (apply Lt; nra).
      assert (k < m + 1) by (apply Lt; rewrite plus_IZR; lra). lia.
    - assert (m < k) by (apply Lt; rewrite H; nra).
      assert (k < m + 1) by (apply Lt; rewrite plus_IZR, H; nra). lia.
    - assert (m < k) by (apply Lt; lra).
      assert (k < m + 1) by (apply Lt; rewrite plus_IZR; nra). lia.
    - do 2 (split; [done|]). apply eq_IZR. nra. }
  assert (n = m \/ n = m + 1) as Hn.
  { subst n. destruct r, s; cbn; try (destruct (Z.even m)); auto. }
  split; [|split; [lia|]].
  - apply Rabs_le. subst n.
    destruct r, s; cbn [loc_of_shr_record round_nearest_even]; try (destruct (Z.even m));
      rewrite ?plus_IZR; split; nra.
  - intros k Ex. destruct (Hk k Ex) as (-> & -> & ->). done.
Qed.

Section Round.
Variables prec emax : Z.
Hypothesis Hprec : 0 < prec.
Hypothesis Hemax : prec < emax.

Abbreviation fexp := (fexp prec emax).
Abbreviation emin := (emin prec emax).

Lemma fexp_emin e : emin <= fexp e.
Proof. unfold SpecFloat.fexp. lia. Qed.

(** Mantissa after the first shift: below [2^prec], and normal above emin. *)
Lemma shifted_mantissa m e :
  0 <= m -> e <= fexp (Zdigits2 m + e) ->
  let e' := fexp (Zdigits2 m + e) in
  let m' := m / 2 ^ (e' - e) in
  0 <= m' < 2 ^ prec /\ (emin < e' -> 2 ^ (prec - 1) <= m').
Proof.
  intros Hm He e' m'.
  assert (0 < 2 ^ (e' - e)) as Hp by (apply Z.pow_pos_nonneg; lia).
  split; [split; [apply Z.div_pos; lia|]|].
  - apply Z.div_lt_upper_bound; [done|].
    rewrite <- Z.pow_add_r by lia.
    destruct m as [|p|p]; [apply Z.pow_pos_nonneg; lia| |lia].
    cbn [Zdigits2] in *. pose proof (digits2_pos_spec p) as [_ D].
    eapply Z.lt_le_trans; [exact D|]. apply Z.pow_le_mono_r; [lia|].
    subst e'. unfold SpecFloat.fexp. lia.
  - intros Hlt. apply Z.div_le_lower_bound; [done|].
    rewrite <- Z.pow_add_r by lia.
    destruct m as [|p|p]; [|cbn [Zdigits2] in *|lia].
    { exfalso. subst e'. unfold SpecFloat.fexp in *. cbn [Zdigits2] in *. lia. }
    pose proof (digits2_pos_spec p) as [D _].
    etransitivity; [|exact D]. apply Z.pow_le_mono_r; [lia|].
    subst e'. unfold SpecFloat.fexp in *. lia.
Qed.

(** The rounded mantissa fits the format, possibly after one exact shift. *)
Lemma renormalise n e' :
  0 < n <= 2 ^ prec -> emin <= e' -> (emin < e' -> 2 ^ (prec - 1) <= n) ->
  exists p e, shr_fexp prec emax n e' loc_Exact = (Build_shr_record (Zpos p) false false, e) /\
    (IZR (Zpos p) * b2 e = IZR n * b2 e')%R /\ canonical_mantissa prec emax p e = true /\
    e' <= e <= e' + 1.
Proof.
  intros Hn He' Hnorm. destruct n as [|p|p]; try lia.
  unfold shr_fexp, shr_record_of_loc.
  destruct (Z.eq_dec (Zpos p) (2 ^ prec)) as [E|E].
  - assert (Zdigits2 (Zpos p) = prec + 1) as D.
    { apply digits_unique; [lia| |lia]. rewrite E.
      replace (prec + 1 - 1) with prec by lia.
      split; [lia|]. apply Z.pow_lt_mono_r; lia. }
    rewrite D. replace (fexp (prec + 1 + e') - e') with 1
      by (unfold SpecFloat.fexp; lia).
    replace prec with (Z.succ (prec - 1)) in E by lia. rewrite Z.pow_succ_r in E by lia.
    destruct p as [p|p|]; [lia| |lia].
    exists p, (e' + 1). cbn [shr SpecFloat.iter_pos shr_1 orb]. split; [done|].
    assert (Zpos p = 2 ^ (prec - 1)) as Ep by lia.
    split; [rewrite b2_succ, (Pos2Z.inj_xO p), mult_IZR; lra|]. split; [|lia].
    unfold canonical_mantissa. apply Z.eqb_eq.
    assert (Zdigits2 (Zpos p) = prec) as Dp.
    { apply digits_unique; [lia| |lia]. rewrite Ep. split; [lia|apply Z.pow_lt_mono_r; lia]. }
    cbn [Zdigits2] in Dp. rewrite Dp. unfold SpecFloat.fexp. lia.
  - assert (Zdigits2 (Zpos p) <= prec) as D by (apply Zdigits2_le; lia).
    exists p, e'. rewrite shr_neg by (unfold SpecFloat.fexp; lia).
    split; [done|]. split; [done|]. split; [|lia].
    unfold canonical_mantissa. apply Z.eqb_eq. cbn [Zdigits2] in D.
    destruct (Z.eq_dec emin e') as [Em|Em]; [unfold SpecFloat.fexp; lia|].
    assert (Zdigits2 (Zpos p) = prec) as Dp.
    { apply digits_unique; [lia| |lia]. split; [apply Hnorm; lia|lia]. }
    cbn [Zdigits2] in Dp. rewrite Dp. unfold SpecFloat.fexp. lia.
Qed.

Definition rounds_to (sx : bool) (x : R) (e' : Z) (z : spec_float) : Prop :=
  exists n, 0 <= n <= 2 ^ prec /\ (Rabs (IZR n * b2 e' - x) <= / 2 * b2 e')%R /\
    (forall k, x = (IZR k * b2 e')%R -> n = k) /\
    (n = 0 /\ z = S754_zero sx \/
     exists p e, (IZR (Zpos p) * b2 e = IZR n * b2 e')%R /\
       canonical_mantissa prec emax p e = true /\ e' <= e <= e' + 1 /\
       z = if e <=? emax - prec then S754_finite sx p e else S754_infinity sx).

Lemma round_aux_spec sx mx ex lx x :
  0 <= mx -> locates (shr_record_of_loc mx lx) ex x ->
  ex <= fexp (Zdigits2 mx + ex) ->
  rounds_to sx x (fexp (Zdigits2 mx + ex)) (binary_round_aux prec emax sx mx ex lx).
Proof.
  intros Hm HL He.
  set (e' := fexp (Zdigits2 mx + ex)).
  unfold binary_round_aux, shr_fexp at 1. fold e'.
  assert (shr_m (shr_record_of_loc mx lx) = mx) as Emx by (destruct lx as [|[]]; done).
  destruct (locates_shr (shr_record_of_loc mx lx) ex (e' - ex) x) as (HL1 & He1 & Hm1);
    [by rewrite Emx|lia|done|].
  rewrite Emx in Hm1. replace (ex + (e' - ex)) with e' in * by lia.
  destruct (shr (shr_record_of_loc mx lx) ex (e' - ex)) as [mrs1 e1]. cbn [fst snd] in *. subst e1.
  destruct (shifted_mantissa mx ex Hm He) as [Hr Hnorm]. fold e' in Hr, Hnorm.
  rewrite <- Hm1 in Hr, Hnorm.
  destruct (round_nearest_bound mrs1 e' x HL1) as (Herr & Hn & Hex).
  set (n := round_nearest_even (shr_m mrs1) (loc_of_shr_record mrs1)) in *.
  exists n. split; [lia|]. split; [done|]. split; [done|].
  destruct (Z.eq_dec n 0) as [E0|E0].
  - left. split; [done|]. rewrite E0. unfold shr_fexp, shr_record_of_loc.
    rewrite shr_neg; [done|].
    pose proof (fexp_emin (Zdigits2 mx + ex)). fold e' in H.
    assert (e' = emin) as ->.
    { destruct (Z.eq_dec emin e'); [done|]. specialize (Hnorm ltac:(lia)).
      assert (0 < 2 ^ (prec - 1)) by (apply Z.pow_pos_nonneg; lia). lia. }
    cbn [Zdigits2]. unfold SpecFloat.fexp. lia.
  - right.
    destruct (renormalise n e') as (p & e & Hs & Hv & Hc & Hee).
    + lia.
    + apply fexp_emin.
    + intros Hlt. specialize (Hnorm Hlt). lia.
    + exists p, e. rewrite Hs. cbn [shr_m]. done.
Qed.

(** Magnitude of the exact value. *)
Lemma locates_mag mx lx ex x :
  0 < mx -> locates (shr_record_of_loc mx lx) ex x ->
  (b2 (Zdigits2 mx + ex - 1) <= x < b2 (Zdigits2 mx + ex))%R.
Proof.
  intros Hm HL.
  assert (IZR mx * b2 ex <= x < (IZR mx + 1) * b2 ex)%R as [H1 H2].
  { pose proof (b2_pos ex). destruct lx as [|[]]; unfold locates in HL;
      cbn [shr_record_of_loc shr_m shr_r shr_s] in HL; nra. }
  destruct mx as [|p|p]; try lia. cbn [Zdigits2].
  pose proof (digits2_pos_spec p) as [D1 D2].
  pose proof (b2_pos ex) as Hb.
  replace (Zpos (digits2_pos p) + ex - 1) with ((Zpos (digits2_pos p) - 1) + ex) by lia.
  rewrite !b2_add, !(b2_IZR _) by lia. split.
  - apply IZR_le in D1. nra.
  - assert (IZR (Zpos p) + 1 <= IZR (2 ^ Zpos (digits2_pos p)))%R.
    { rewrite <- plus_IZR. apply IZR_le. lia. }
    rewrite (b2_IZR (Zpos (digits2_pos p))) by lia. nra.
Qed.

Lemma half_ulp_bound mx lx ex x :
  0 <= mx -> locates (shr_record_of_loc mx lx) ex x -> ex <= fexp (Zdigits2 mx + ex) ->
  (0 <= x)%R /\
  (/ 2 * b2 (fexp (Zdigits2 mx + ex)) <= x * b2 (- prec) \/ fexp (Zdigits2 mx + ex) = emin)%R.
Proof.
  intros Hm HL He. split.
  { pose proof (b2_pos ex). apply IZR_le in Hm.
    destruct lx as [|[]]; unfold locates in HL;
      cbn [shr_record_of_loc shr_m shr_r shr_s] in HL; nra. }
  destruct (Z.eq_dec (fexp (Zdigits2 mx + ex)) emin) as [E|E]; [by right|left].
  assert (fexp (Zdigits2 mx + ex) = Zdigits2 mx + ex - prec) as ->
    by (unfold SpecFloat.fexp in *; lia).
  destruct (Z.eq_dec mx 0) as [->|Hm0].
  { exfalso. unfold SpecFloat.fexp in *. cbn [Zdigits2] in *. lia. }
  destruct (locates_mag mx lx ex x) as [H1 _]; [lia|done|].
  rewrite b2_succ'. replace (Zdigits2 mx + ex - prec - 1) with (Zdigits2 mx + ex - 1 + - prec) by lia.
  rewrite b2_add. pose proof (b2_pos (- prec)). nra.
Qed.

(** What a rounded operation returns when it cannot overflow. *)
Definition rounded (sx : bool) (x : R) (z : spec_float) : Prop :=
  is_finite z = true /\ valid_binary prec emax z = true /\ sign_of z = sx /\
  exists y, F2R z = (if sx then - y else y)%R /\ (0 <= y)%R /\
    (Rabs (y - x) <= x * b2 (- prec) + b2 (emin - 1))%R /\
    ((exists k, x = IZR k * b2 emin)%R -> (Rabs (y - x) <= x * b2 (- prec))%R) /\
    (forall m e, 0 <= m < 2 ^ prec -> emin <= e -> x = (IZR m * b2 e)%R -> y = x).

Lemma round_aux_real sx mx ex lx x :
  0 <= mx -> locates (shr_record_of_loc mx lx) ex x ->
  ex <= fexp (Zdigits2 mx + ex) -> (x < b2 (emax - 1))%R ->
  rounded sx x (binary_round_aux prec emax sx mx ex lx).
Proof.
  intros Hm HL He Hx.
  destruct (half_ulp_bound mx lx ex x Hm HL He) as [Hx0 Hulp].
  pose proof (round_aux_spec sx mx ex lx x Hm HL He) as (n & Hn & Herr & Hex & Hz).
  set (e' := fexp (Zdigits2 mx + ex)) in *.
  set (z := binary_round_aux prec emax sx mx ex lx) in *.
  pose proof (b2_pos e') as Hb. pose proof (b2_pos (- prec)) as Hbp.
  pose proof (b2_pos (emin - 1)) as Hbe.
  assert (e' + 1 <= emax - prec) as Hov.
  { destruct (Z.eq_dec mx 0) as [->|Hm0].
    - subst e'. unfold SpecFloat.fexp in *. cbn [Zdigits2] in *. unfold SpecFloat.emin in *. lia.
    - destruct (locates_mag mx lx ex x) as [H1 _]; [lia|done|].
      assert (Zdigits2 mx + ex - 1 < emax - 1) by (apply b2_lt_inv; lra).
      subst e'. unfold SpecFloat.fexp, SpecFloat.emin. lia. }
  set (y := (IZR n * b2 e')%R) in *.
  assert (is_finite z = true /\ valid_binary prec emax z = true /\ sign_of z = sx /\
          F2R z = (if sx then - y else y)%R) as (Hf & Hv & Hs & HF).
  { destruct Hz as [[-> ->]|(p & e & Hpe & Hc & Hee & ->)].
    - do 3 (split; [done|]). subst y. cbn [F2R]. destruct sx; lra.
    - replace (e <=? emax - prec) with true by (symmetry; apply Z.leb_le; lia).
      split; [done|]. split.
      + apply andb_true_intro; split; [exact Hc|]. apply Z.leb_le; lia.
      + split; [done|]. cbn [F2R]. destruct sx; [|done].
        rewrite <- Hpe, <- Pos2Z.opp_pos, opp_IZR. lra. }
  do 3 (split; [done|]). exists y. split; [done|].
  split; [subst y; apply Rmult_le_pos; [apply IZR_le; lia|lra]|].
  assert ((exists k, x = IZR k * b2 e')%R -> y = x) as Hgrid.
  { intros [k Hk]. subst y. by rewrite (Hex k Hk). }
  split; [|split].
  - destruct Hulp as [Hu|Hu]; [nra|]. rewrite Hu in Herr. rewrite b2_succ' in Herr. nra.
  - intros Hk. destruct Hulp as [Hu|Hu]; [nra|].
    rewrite Hgrid; [|by rewrite Hu]. rewrite Rminus_diag, Rabs_R0. nra.
  - intros m e Hme Hee Hxm. apply Hgrid.
    assert (e' <= e) as Hle.
    { destruct (Z.eq_dec mx 0) as [->|Hm0].
      - subst e'. unfold SpecFloat.fexp in *. cbn [Zdigits2] in *. lia.
      - destruct (locates_mag mx lx ex x) as [H1 _]; [lia|done|].
        assert (x < b2 (prec + e))%R.
        { rewrite Hxm, b2_add, (b2_IZR prec) by lia.
          pose proof (b2_pos e). assert (IZR m < IZR (2 ^ prec))%R by (apply IZR_lt; lia). nra. }
        assert (Zdigits2 mx + ex - 1 < prec + e) by (apply b2_lt_inv; lra).
        subst e'. unfold SpecFloat.fexp. lia. }
    exists (m * 2 ^ (e - e')). rewrite Hxm, mult_IZR, <- b2_IZR by lia.
    rewrite Rmult_assoc, <- b2_add. do 2 f_equal. lia.
Qed.
End Round.

(** ** The operations at precision 53 *)

(** Non-negative finite doubles in canonical form. *)
Definition nonneg (x : float64) : Prop :=
  is_finite x = true /\ sign_of x = false /\ valid_binary 53 1024 x = true.

Lemma nonneg_F2R x : nonneg x -> (0 <= F2R x)%R.
Proof.
  intros (Hf & Hs & _). destruct x as [|?| |s m e]; cbn in *; try lra.
  subst s. apply Rmult_le_pos; [apply IZR_le; lia|]. pose proof (b2_pos e). lra.
Qed.

Lemma nonneg_cases x :
  nonneg x -> x = S754_zero false \/
  exists m e, x = S754_finite false m e /\ SpecFloat.bounded 53 1024 m e = true.
Proof.
  intros (Hf & Hs & Hv). destruct x as [s|?| |s m e]; cbn in *; try done; subst s; eauto.
Qed.

(** The result of an operation on non-negative operands: it is non-negative,
    within half a spacing, and exact on representable values. *)
Definition ulp_rel : R := b2 (-53).
Definition ulp_abs : R := b2 (-1075).
Definition approx (x : R) (z : float64) : Prop :=
  nonneg z /\ (Rabs (F2R z - x) <= x * ulp_rel + ulp_abs)%R /\
  ((exists k, x = IZR k * b2 (-1074))%R -> (Rabs (F2R z - x) <= x * ulp_rel)%R) /\
  (forall m e, 0 <= m < 2 ^ 53 -> -1074 <= e -> x = (IZR m * b2 e)%R -> F2R z = x).

Lemma rounded_approx x z : rounded 53 1024 false x z -> approx x z.
Proof.
  intros (Hf & Hv & Hs & y & HF & _ & H1 & H2 & H3). unfold approx. rewrite HF.
  split; [done|]. split; [done|]. split; done.
Qed.

Lemma bounded_canonical m e :
  SpecFloat.bounded 53 1024 m e = true ->
  Z.max (Zdigits2 (Zpos m) + e - 53) (-1074) = e /\ e <= 971.
Proof.
  unfold SpecFloat.bounded, canonical_mantissa, fexp, emin. intros H. zbool. cbn [Zdigits2]. lia.
Qed.

Lemma approx_zero z : nonneg z -> F2R z = 0%R -> approx 0 z.
Proof.
  intros Hz H0. split; [done|]. rewrite H0, ?H0, Rminus_diag, Rabs_R0, Rmult_0_l, Rplus_0_l.
  split; [pose proof (b2_pos (-1075)); unfold ulp_abs; lra|]. split; [lra|done].
Qed.

Lemma digits_mul p q :
  Zdigits2 (Zpos p) + Zdigits2 (Zpos q) - 1 <= Zdigits2 (Zpos (p * q)).
Proof.
  cbn [Zdigits2].
  pose proof (digits2_pos_spec p) as [P _]. pose proof (digits2_pos_spec q) as [Q _].
  pose proof (digits2_pos_spec (p * q)) as [_ PQ].
  assert (2 ^ (Zpos (digits2_pos p) - 1 + (Zpos (digits2_pos q) - 1)) < 2 ^ Zpos (digits2_pos (p * q))).
  { rewrite Z.pow_add_r by lia. eapply Z.le_lt_trans; [|exact PQ].
    rewrite Pos2Z.inj_mul. apply Z.mul_le_mono_nonneg; try lia; apply Z.pow_nonneg; lia. }
  apply Z.pow_lt_mono_r_iff in H; lia.
Qed.

Lemma fmul_spec x y :
  nonneg x -> nonneg y -> (F2R x * F2R y < b2 1023)%R -> approx (F2R x * F2R y) (fmul x y).
Proof.
  intros Hx Hy Hlt.
  destruct (nonneg_cases x Hx) as [->|(mx & ex & -> & Bx)].
  { destruct (nonneg_cases y Hy) as [->|(my & ey & -> & By)]; cbn [F2R];
      rewrite Rmult_0_l; by apply approx_zero. }
  destruct (nonneg_cases y Hy) as [->|(my & ey & -> & By)].
  { cbn [F2R]. rewrite Rmult_0_r. by apply approx_zero. }
  apply bounded_canonical in Bx as [Cx _], By as [Cy _].
  assert (F2R (S754_finite false mx ex) * F2R (S754_finite false my ey)
          = IZR (Zpos (mx * my)) * b2 (ex + ey))%R as E.
  { cbn [F2R]. rewrite b2_add, Pos2Z.inj_mul, mult_IZR. lra. }
  rewrite E in *. apply rounded_approx. apply round_aux_real; try done; try lia.
  pose proof (digits_mul mx my). unfold fexp, emin. cbn [Zdigits2] in *. lia.
Qed.

Lemma new_location_eq m r :
  new_location m r
  = if Z.eqb r 0 then loc_Exact
    else loc_Inexact (if Z.even m then Z.compare (2 * r) m
                      else match Z.compare (2 * r + 1) m with Lt | Eq => Lt | Gt => Gt end).
Proof.
  unfold new_location, new_location_even, new_location_odd.
  change IntDef.Z.eqb with Z.eqb. change IntDef.Z.even with Z.even.
  change IntDef.Z.compare with Z.compare. change IntDef.Z.mul with Z.mul. change IntDef.Z.add with Z.add.
  destruct (Z.even m), (Z.eqb r 0); done.
Qed.

Lemma new_location_spec m2 r q e x :
  0 < m2 -> 0 <= r < m2 -> x = ((IZR q + IZR r / IZR m2) * b2 e)%R ->
  locates (shr_record_of_loc q (new_location m2 r)) e x.
Proof.
  intros Hm Hr ->. pose proof (b2_pos e) as Hb.
  assert (0 < IZR m2)%R as Hm' by (apply IZR_lt; lia).
  assert (Hlt : forall a, 2 * a < m2 -> (IZR a / IZR m2 < / 2)%R).
  { intros a H. apply (Rmult_lt_reg_r (IZR m2)); [done|]. unfold Rdiv.
    rewrite Rmult_assoc, Rinv_l, Rmult_1_r by lra. apply IZR_lt in H. rewrite mult_IZR in H. lra. }
  assert (Hgt : forall a, m2 < 2 * a -> (/ 2 < IZR a / IZR m2)%R).
  { intros a H. apply (Rmult_lt_reg_r (IZR m2)); [done|]. unfold Rdiv.
    rewrite Rmult_assoc, Rinv_l, Rmult_1_r by lra. apply IZR_lt in H. rewrite mult_IZR in H. lra. }
  assert (H1 : (IZR r / IZR m2 < 1)%R).
  { apply (Rmult_lt_reg_r (IZR m2)); [done|]. unfold Rdiv.
    rewrite Rmult_assoc, Rinv_l, Rmult_1_r by lra. rewrite Rmult_1_l. apply IZR_lt. lia. }
  assert (H0 : 0 < r -> (0 < IZR r / IZR m2)%R).
  { intros H. apply Rdiv_lt_0_compat; [apply IZR_lt; lia|done]. }
  rewrite new_location_eq.
  destruct (Z.eqb_spec r 0) as [->|Hr0].
  { unfold locates; cbn; unfold Rdiv; rewrite Rmult_0_l, Rplus_0_r; done. }
  specialize (H0 ltac:(lia)).
  destruct (Z.even m2) eqn:Ev.
  - destruct (Z.compare_spec (2 * r) m2) as [C|C|C]; unfold locates; cbn.
    + assert (IZR r / IZR m2 = / 2)%R as ->; [|lra].
      rewrite <- C, mult_IZR. assert (IZR r <> 0)%R by (intros F; apply eq_IZR in F; lia).
      field. lra.
    + specialize (Hlt r C). nra.
    + specialize (Hgt r ltac:(lia)). nra.
  - assert (2 * r <> m2) by (intros <-; by rewrite Z.even_mul in Ev).
    destruct (Z.compare_spec (2 * r + 1) m2) as [C|C|C]; unfold locates; cbn.
    + specialize (Hlt r ltac:(lia)). nra.
    + specialize (Hlt r ltac:(lia)). nra.
    + specialize (Hgt r ltac:(lia)). nra.
Qed.

(** The quotient of two positive mantissas at the exponent [SFdiv] chooses,
    for any precision. *)
Lemma SFdiv_core_spec prec emax p1 e1 p2 e2 :
  0 < prec -> prec < emax ->
  let '(q, e', l) := SFdiv_core_binary prec emax (Zpos p1) e1 (Zpos p2) e2 in
  let x := (IZR (Zpos p1) * b2 e1 / (IZR (Zpos p2) * b2 e2))%R in
  0 <= q /\ locates (shr_record_of_loc q l) e' x /\ e' <= fexp prec emax (Zdigits2 q + e').
Proof.
  intros Hp He. unfold SFdiv_core_binary.
  set (d1 := Zdigits2 (Zpos p1)). set (d2 := Zdigits2 (Zpos p2)).
  set (e' := Z.min _ _).
  assert (e' <= e1 - e2) as Hle by lia.
  set (m' := match e1 - e2 - e' with Z0 => Zpos p1 | Zpos _ => Z.shiftl (Zpos p1) (e1 - e2 - e')
             | Zneg _ => 0 end).
  assert (m' = Zpos p1 * 2 ^ (e1 - e2 - e')) as Em.
  { subst m'. destruct (e1 - e2 - e') as [|s|s] eqn:Es; [lia| |lia].
    rewrite Z.shiftl_mul_pow2 by lia. done. }
  clearbody m'. pose proof (Z_div_mod m' (Zpos p2) ltac:(lia)) as Hd.
  destruct (Z.div_eucl m' (Zpos p2)) as [q r]. destruct Hd as [Hd Hr].
  set (x := (_ / _)%R).
  assert (0 < IZR (Zpos p2))%R as Hp2 by (apply IZR_lt; lia).
  assert (0 < IZR (Zpos p1))%R as Hp1 by (apply IZR_lt; lia).
  assert (x = (IZR q + IZR r / IZR (Zpos p2)) * b2 e')%R as Ex.
  { assert (IZR m' = IZR (Zpos p1) * b2 (e1 - e2 - e'))%R as Em'.
    { rewrite Em, mult_IZR, b2_IZR by lia. done. }
    rewrite Hd, plus_IZR, mult_IZR in Em'.
    assert (b2 e1 = b2 (e1 - e2 - e') * b2 e2 * b2 e')%R as Eb
      by (rewrite <- !b2_add; f_equal; lia).
    subst x. rewrite Eb.
    pose proof (b2_pos e2). pose proof (b2_pos e').
    transitivity ((IZR (Zpos p2) * IZR q + IZR r) / IZR (Zpos p2) * b2 e')%R; [|field; lra].
    rewrite Em'. field. lra. }
  assert (0 < Zpos p1 * 2 ^ (e1 - e2 - e')) by (apply Z.mul_pos_pos; [lia|apply Z.pow_pos_nonneg; lia]).
  assert (0 <= q) as Hq by nia.
  pose proof (new_location_spec (Zpos p2) r q e' x ltac:(lia) ltac:(lia) Ex) as HL.
  split; [done|]. split; [done|].
  assert (b2 (d1 + e1 - (d2 + e2) - 1) < x)%R as Hx.
  { pose proof (digits2_pos_spec p1) as [D1 _]. pose proof (digits2_pos_spec p2) as [_ D2].
    subst d1 d2 x. cbn [Zdigits2].
    pose proof (b2_pos e1). pose proof (b2_pos e2).
    apply IZR_le in D1. apply IZR_lt in D2. rewrite <- b2_IZR in D1, D2 by lia.
    apply (Rmult_lt_reg_r (IZR (Zpos p2) * b2 e2)); [apply Rmult_lt_0_compat; done|].
    unfold Rdiv at 1. rewrite Rmult_assoc, Rinv_l, Rmult_1_r
      by (apply Rgt_not_eq, Rmult_lt_0_compat; done).
    replace (Zpos (digits2_pos p1) + e1 - (Zpos (digits2_pos p2) + e2) - 1)
      with ((Zpos (digits2_pos p1) - 1) + e1 + - (Zpos (digits2_pos p2)) + - e2) by lia.
    rewrite !b2_add, !b2_neg.
    pose proof (b2_pos (Zpos (digits2_pos p2))) as Hd2. pose proof (b2_pos (Zpos (digits2_pos p1) - 1)).
    set (A := b2 (Zpos (digits2_pos p1) - 1)) in *. set (B := b2 (Zpos (digits2_pos p2))) in *.
    replace (A * b2 e1 * / B * / b2 e2 * (IZR (Zpos p2) * b2 e2))%R
      with (A * b2 e1 * (IZR (Zpos p2) / B))%R by (field; lra).
    assert (IZR (Zpos p2) / B < 1)%R.
    { apply (Rmult_lt_reg_r B); [done|]. unfold Rdiv. rewrite Rmult_assoc, Rinv_l by lra. lra. }
    assert (0 < A * b2 e1)%R by (apply Rmult_lt_0_compat; done).
    nra. }
  destruct (Z.eq_dec q 0) as [Eq|Nq].
  - assert (x < b2 e')%R as Hx2.
    { rewrite Ex, Eq. pose proof (b2_pos e').
      assert (IZR r / IZR (Zpos p2) < 1)%R; [|nra].
      apply (Rmult_lt_reg_r (IZR (Zpos p2))); [done|]. unfold Rdiv.
      rewrite Rmult_assoc, Rinv_l, Rmult_1_r, Rmult_1_l by lra. apply IZR_lt. lia. }
    assert (d1 + e1 - (d2 + e2) - 1 < e') by (apply b2_lt_inv; lra).
    rewrite Eq. cbn [Zdigits2]. subst e'. unfold fexp in *. lia.
  - destruct (locates_mag q (new_location (Zpos p2) r) e' x) as [_ H2]; [lia|done|].
    assert (d1 + e1 - (d2 + e2) - 1 < Zdigits2 q + e') by (apply b2_lt_inv; lra).
    subst e'. unfold fexp in *. lia.
Qed.

Lemma fdiv_spec x y :
  nonneg x -> nonneg y -> (0 < F2R y)%R -> (F2R x / F2R y < b2 1023)%R ->
  approx (F2R x / F2R y) (fdiv x y).
Proof.
  intros Hx Hy H0 Hlt.
  destruct (nonneg_cases y Hy) as [->|(my & ey & -> & By)]; [cbn in H0; lra|].
  destruct (nonneg_cases x Hx) as [->|(mx & ex & -> & Bx)].
  { cbn [F2R]. unfold Rdiv. rewrite Rmult_0_l. by apply approx_zero. }
  pose proof (SFdiv_core_spec 53 1024 mx ex my ey ltac:(lia) ltac:(lia)) as H.
  unfold fdiv, SFdiv. destruct (SFdiv_core_binary _ _ _ _ _ _) as [[q e'] l].
  destruct H as (Hq & HL & He). apply rounded_approx. by apply round_aux_real.
Qed.

Lemma iter_xO p d : Zpos (Pos.iter xO p d) = Zpos p * 2 ^ Zpos d.
Proof.
  revert p; induction d as [|d IH] using Pos.peano_ind; intros p; [simpl; lia|].
  rewrite Pos.iter_succ, Pos2Z.inj_xO, IH, Pos2Z.inj_succ, Z.pow_succ_r by lia. lia.
Qed.

Lemma shl_align_spec m e e' :
  let '(mz, ez) := shl_align m e e' in
  ez = Z.min e e' /\ Zpos mz = Zpos m * 2 ^ (e - ez).
Proof.
  unfold shl_align. change IntDef.Z.sub with Z.sub.
  destruct (e' - e) as [|d|d] eqn:E.
  - split; [lia|]. replace (e - e) with 0 by lia. lia.
  - split; [lia|]. replace (e - e) with 0 by lia. lia.
  - split; [lia|]. rewrite iter_xO. do 2 f_equal. lia.
Qed.

Lemma digits_shl p k : 0 <= k -> Zdigits2 (Zpos p * 2 ^ k) = Zdigits2 (Zpos p) + k.
Proof.
  intros Hk. pose proof (digits2_pos_spec p) as [D1 D2].
  assert (0 < 2 ^ k) by (apply Z.pow_pos_nonneg; lia).
  apply digits_unique; [lia| |cbn [Zdigits2]; lia]. cbn [Zdigits2].
  replace (Zpos (digits2_pos p) + k - 1) with ((Zpos (digits2_pos p) - 1) + k) by lia.
  rewrite !Z.pow_add_r by lia. nia.
Qed.

Lemma binary_round_spec prec emax sx m e :
  0 < prec -> prec < emax -> (IZR (Zpos m) * b2 e < b2 (emax - 1))%R ->
  rounded prec emax sx (IZR (Zpos m) * b2 e) (binary_round prec emax sx m e).
Proof.
  intros Hp He Hlt. unfold binary_round. change IntDef.Z.add with Z.add.
  set (f := fexp prec emax (Zpos (digits2_pos m) + e)).
  pose proof (shl_align_spec m e f) as H. destruct (shl_align m e f) as [mz ez].
  destruct H as [Ez Em].
  assert (IZR (Zpos m) * b2 e = IZR (Zpos mz) * b2 ez)%R as E.
  { rewrite Em, mult_IZR, <- b2_IZR by lia. rewrite Rmult_assoc, <- b2_add. do 2 f_equal. lia. }
  rewrite E in *. apply round_aux_real; try done; try lia.
  rewrite Em, digits_shl by lia. cbn [Zdigits2].
  replace (Zpos (digits2_pos m) + (e - ez) + ez) with (Zpos (digits2_pos m) + e) by lia.
  fold f. lia.
Qed.

Lemma binary_normalize_spec prec emax m e :
  0 < prec -> prec < emax -> 0 < m -> (IZR m * b2 e < b2 (emax - 1))%R ->
  rounded prec emax false (IZR m * b2 e) (binary_normalize prec emax m e false).
Proof.
  intros Hp He Hm Hlt. destruct m as [|p|p]; try lia. by apply binary_round_spec.
Qed.

Lemma float_of_Z_spec n :
  0 <= n -> (IZR n < b2 1023)%R -> approx (IZR n) (float_of_Z n).
Proof.
  intros Hn Hlt. destruct (Z.eq_dec n 0) as [->|].
  { by apply approx_zero. }
  assert (IZR n = IZR n * b2 0)%R as E by (rewrite b2_0; lra).
  unfold float_of_Z. rewrite E in *. apply rounded_approx.
  apply binary_normalize_spec; try lia. done.
Qed.

Lemma b2_big n : 0 <= n < 2 ^ 64 -> (IZR n < b2 1023)%R.
Proof.
  intros Hn. eapply Rlt_le_trans; [apply IZR_lt, Hn|].
  rewrite <- b2_IZR by lia. apply b2_le. lia.
Qed.

(** Integers up to 2^53 convert exactly. *)
Lemma float_of_Z_exact n : 0 <= n < 2 ^ 53 -> nonneg (float_of_Z n) /\ F2R (float_of_Z n) = IZR n.
Proof.
  intros Hn. destruct (float_of_Z_spec n) as (H1 & _ & _ & H2); [lia|apply b2_big; lia|].
  split; [done|]. apply (H2 n 0); [lia|lia|]. rewrite b2_0. lra.
Qed.

Lemma fadd_spec x y :
  nonneg x -> nonneg y -> (F2R x + F2R y < b2 1023)%R ->
  nonneg (fadd x y) /\ (Rabs (F2R (fadd x y) - (F2R x + F2R y)) <= (F2R x + F2R y) * ulp_rel)%R.
Proof.
  intros Hx Hy Hlt.
  assert (Z0 : forall z, nonneg z -> (Rabs (F2R z - F2R z) <= F2R z * ulp_rel)%R).
  { intros z Hz. rewrite Rminus_diag, Rabs_R0. apply Rmult_le_pos; [by apply nonneg_F2R|].
    pose proof (b2_pos (-53)). unfold ulp_rel. lra. }
  destruct (nonneg_cases x Hx) as [->|(mx & ex & -> & Bx)].
  { destruct (nonneg_cases y Hy) as [->|(my & ey & -> & By)]; cbn [fadd SFadd F2R];
      (split; [done|]); rewrite !Rplus_0_l; [specialize (Z0 _ Hx); done|apply (Z0 _ Hy)]. }
  destruct (nonneg_cases y Hy) as [->|(my & ey & -> & By)].
  { cbn [fadd SFadd]. split; [done|]. change (F2R (S754_zero false)) with 0%R.
    rewrite !Rplus_0_r. apply (Z0 _ Hx). }
  apply bounded_canonical in Bx as [Cx _], By as [Cy _].
  unfold fadd, SFadd. change IntDef.Z.min with Z.min. change IntDef.Z.add with Z.add.
  set (ez := Z.min ex ey).
  pose proof (shl_align_spec mx ex ez) as Sx. pose proof (shl_align_spec my ey ez) as Sy.
  destruct (shl_align mx ex ez) as [px e1]. destruct (shl_align my ey ez) as [py e2].
  destruct Sx as [E1 Ex], Sy as [E2 Ey].
  assert (e1 = ez) as -> by lia. assert (e2 = ez) as -> by lia. cbn [fst cond_Zopp].
  assert (F2R (S754_finite false mx ex) + F2R (S754_finite false my ey)
          = IZR (Zpos px + Zpos py) * b2 ez)%R as E.
  { cbn [F2R]. rewrite plus_IZR, Ex, Ey, !mult_IZR, <- !b2_IZR by lia.
    replace (b2 ex) with (b2 (ex - ez) * b2 ez)%R by (rewrite <- b2_add; f_equal; lia).
    replace (b2 ey) with (b2 (ey - ez) * b2 ez)%R by (rewrite <- b2_add; f_equal; lia). lra. }
  rewrite E in *.
  destruct (rounded_approx _ _ (binary_normalize_spec 53 1024 (Zpos px + Zpos py) ez
    ltac:(lia) ltac:(lia) ltac:(lia) Hlt)) as (Hn & _ & Ha & _).
  split; [done|]. apply Ha.
  exists ((Zpos px + Zpos py) * 2 ^ (ez - -1074)). rewrite mult_IZR, <- b2_IZR by lia.
  rewrite Rmult_assoc, <- b2_add. do 2 f_equal. lia.
Qed.

(** ** Floor and integer conversion *)
Lemma floor_Z_spec x :
  nonneg x -> exists z, floor_Z x = Some z /\ 0 <= z /\ (IZR z <= F2R x < IZR z + 1)%R.
Proof.
  intros Hx. destruct (nonneg_cases x Hx) as [->|(m & e & -> & B)].
  { exists 0. cbn. split; [done|]. split; [lia|lra]. }
  cbn [floor_Z F2R]. destruct (Z.leb_spec 0 e) as [H|H].
  - eexists. split; [done|]. split; [apply Z.mul_nonneg_nonneg; [lia|apply Z.pow_nonneg; lia]|].
    rewrite b2_IZR, <- mult_IZR by lia. lra.
  - eexists. split; [done|].
    assert (0 < 2 ^ (- e)) as Hp by (apply Z.pow_pos_nonneg; lia).
    split; [apply Z.div_pos; lia|].
    pose proof (Z.div_mod (Zpos m) (2 ^ (- e)) ltac:(lia)) as D.
    pose proof (Z.mod_pos_bound (Zpos m) (2 ^ (- e)) Hp) as M.
    set (q := Zpos m / 2 ^ (- e)) in *. set (r := Zpos m mod 2 ^ (- e)) in *.
    assert (IZR (Zpos m) = IZR (2 ^ (- e)) * IZR q + IZR r)%R as D' by (rewrite <- mult_IZR, <- plus_IZR; f_equal; lia).
    rewrite D'. rewrite <- b2_IZR by lia.
    assert (b2 (- e) * b2 e = 1)%R as I by (rewrite <- b2_add; replace (- e + e) with 0 by lia; done).
    pose proof (b2_pos e) as Hb.
    destruct M as [M0 M1]. apply IZR_le in M0. apply IZR_lt in M1. rewrite <- b2_IZR in M1 by lia.
    assert ((b2 (- e) * IZR q + IZR r) * b2 e = IZR q + IZR r * b2 e)%R as ->.
    { replace (IZR q) with (IZR q * (b2 (- e) * b2 e))%R at 2 by (rewrite I; ring). ring. }
    assert (0 <= IZR r * b2 e)%R by (apply Rmult_le_pos; lra).
    assert (IZR r * b2 e < b2 (- e) * b2 e)%R by (apply Rmult_lt_compat_r; lra). lra.
Qed.

(** Below 2^53, [uint64(math.Floor(x))] is the integer floor. *)
Lemma trunc_float_of_Z z : 0 <= z < 2 ^ 53 -> trunc_Z (float_of_Z z) = Some z.
Proof.
  intros Hz. destruct (float_of_Z_exact z Hz) as [Hn HF].
  destruct (floor_Z_spec _ Hn) as (z' & Hz' & H0' & Hr'). rewrite HF in Hr'.
  assert (z' = z) as ->.
  { assert (z < z' + 1) by (apply lt_IZR; rewrite plus_IZR; lra).
    assert (z' <= z) by (apply le_IZR; lra). lia. }
  destruct (nonneg_cases _ Hn) as [E|(m & e & E & B)]; rewrite E in *; done.
Qed.

Lemma uint64_ffloor_spec `{Platform} x :
  nonneg x -> (F2R x < IZR (2 ^ 53))%R ->
  let z := uint64_of_float (ffloor x) in
  0 <= z < 2 ^ 53 /\ (IZR z <= F2R x < IZR z + 1)%R.
Proof.
  intros Hx Hlt. destruct (floor_Z_spec x Hx) as (z & Hz & H0 & Hr).
  assert (z < 2 ^ 53) as H53 by (apply lt_IZR; lra).
  destruct (float_of_Z_exact z ltac:(lia)) as [Hn HF].
  assert (ffloor x = float_of_Z z) as ->.
  { destruct (nonneg_cases x Hx) as [->|(m & e & -> & B)]; [by injection Hz as <-|].
    unfold ffloor. by rewrite Hz. }
  assert (uint64_of_float (float_of_Z z) = z) as ->; [|done].
  unfold uint64_of_float. rewrite trunc_float_of_Z by lia.
  replace ((0 <=? z) && (z <? 2 ^ 64)) with true; [done|].
  symmetry. apply andb_true_intro. rewrite Z.leb_le, Z.ltb_lt. lia.
Qed.

(** ** Comparisons

    Canonical floats compare as the reals they stand for. *)
Lemma finite_lt m1 e1 m2 e2 :
  SpecFloat.bounded 53 1024 m1 e1 = true -> SpecFloat.bounded 53 1024 m2 e2 = true ->
  e1 < e2 -> (IZR (Zpos m1) * b2 e1 < IZR (Zpos m2) * b2 e2)%R.
Proof.
  intros B1 B2 He. apply bounded_canonical in B1 as [C1 _], B2 as [C2 _].
  pose proof (digits2_pos_spec m1) as [_ D1]. pose proof (digits2_pos_spec m2) as [D2 _].
  cbn [Zdigits2] in C1, C2.
  assert (Zpos (digits2_pos m2) = 53) as E2 by lia. rewrite E2 in D2.
  assert (Zpos m1 < 2 ^ 53) as D1'.
  { eapply Z.lt_le_trans; [exact D1|]. apply Z.pow_le_mono_r; lia. }
  apply IZR_lt in D1'. apply IZR_le in D2. rewrite <- b2_IZR in D1', D2 by lia.
  pose proof (b2_pos e1). pose proof (b2_pos e2).
  apply Rlt_le_trans with (b2 53 * b2 e1)%R; [by apply Rmult_lt_compat_r|].
  apply Rle_trans with (b2 (53 - 1) * b2 e2)%R; [|apply Rmult_le_compat_r; lra].
  rewrite <- !b2_add. apply b2_le. lia.
Qed.

Definition compares (c : comparison) (a b : R) : Prop :=
  match c with Lt => (a < b)%R | Eq => a = b | Gt => (b < a)%R end.
Lemma SFcompare_spec x y :
  nonneg x -> nonneg y -> exists c, SFcompare x y = Some c /\ compares c (F2R x) (F2R y).
Proof.
  assert (P : forall m e, (0 < IZR (Zpos m) * b2 e)%R).
  { intros m e. apply Rmult_lt_0_compat; [apply IZR_lt; lia|apply b2_pos]. }
  intros Hx Hy.
  destruct (nonneg_cases x Hx) as [->|(m1 & e1 & -> & B1)], (nonneg_cases y Hy) as [->|(m2 & e2 & -> & B2)];
    cbn [SFcompare F2R]; eexists; (split; [reflexivity|]).
  - done.
  - apply P.
  - apply P.
  - destruct (Z.compare_spec e1 e2) as [->|L|G]; [|by apply finite_lt|by apply finite_lt].
    pose proof (b2_pos e2) as Hb. change (PosDef.Pos.compare_cont Eq m1 m2) with (Pos.compare m1 m2).
    destruct (Pos.compare_spec m1 m2) as [->|L|G]; cbn [compares]; [done| |];
      (apply Rmult_lt_compat_r; [done|apply IZR_lt; lia]).
Qed.

(** Comparisons the other way round. *)
Lemma SFcompare_swap a b : SFcompare b a = match SFcompare a b with Some c => Some (CompOpp c) | None => None end.
Proof.
  destruct a as [s|s| |s m e], b as [s'|s'| |s' m' e'];
    try (destruct s; try destruct s'; reflexivity); try (destruct s'; reflexivity); try reflexivity.
  cbn. rewrite (Z.compare_antisym e e').
  destruct s, s'; try reflexivity; destruct (Z.compare e e'); cbn; try reflexivity;
    change (PosDef.Pos.compare_cont Eq) with Pos.compare; rewrite (Pos.compare_antisym m m');
    destruct (Pos.compare m m'); reflexivity.
Qed.
Lemma fleb_not_fltb a b : fleb a b = true -> fltb b a = false.
Proof. unfold fleb, fltb, SFleb, SFltb. rewrite (SFcompare_swap a b). by destruct (SFcompare a b) as [[]|]. Qed.

Lemma fltb_spec x y : nonneg x -> nonneg y -> fltb x y = true <-> (F2R x < F2R y)%R.
Proof.
  intros Hx Hy. unfold fltb, SFltb. destruct (SFcompare_spec x y Hx Hy) as (c & -> & Hc).
  destruct c; cbn [compares] in Hc; split; intros; first [done|lra].
Qed.
Lemma fleb_spec x y : nonneg x -> nonneg y -> fleb x y = true <-> (F2R x <= F2R y)%R.
Proof.
  intros Hx Hy. unfold fleb, SFleb. destruct (SFcompare_spec x y Hx Hy) as (c & -> & Hc).
  destruct c; cbn [compares] in Hc; split; intros; first [done|lra].
Qed.
Lemma fltb_false x y : nonneg x -> nonneg y -> fltb x y = false -> (F2R y <= F2R x)%R.
Proof.
  intros Hx Hy Hf. destruct (Rle_or_lt (F2R y) (F2R x)) as [L|L]; [done|].
  apply (fltb_spec x y Hx Hy) in L. congruence.
Qed.
Lemma fleb_false x y : nonneg x -> nonneg y -> fleb x y = false -> (F2R y < F2R x)%R.
Proof.
  intros Hx Hy Hf. destruct (Rle_or_lt (F2R x) (F2R y)) as [L|L]; [|done].
  apply (fleb_spec x y Hx Hy) in L. congruence.
Qed.

(** ** math/big.Float *)

(** [SetInt] is exact, whatever the size of a (not astronomical) integer. *)
Lemma SetInt_exact n :
  0 < n < 2 ^ 1000 ->
  exists m e, bf_val (SetInt n) = S754_finite false m e /\ F2R (bf_val (SetInt n)) = IZR n /\
    0 < bf_prec (SetInt n) <= 1000.
Proof.
  intros Hn. unfold SetInt. set (p := Z.max (Z.log2 (Z.abs n) + 1) 64). cbn [bf_val bf_prec].
  assert (Z.log2 n < 1000) as Hl by (apply Z.log2_lt_pow2; lia).
  assert (64 <= p <= 1000) as Hp by (subst p; rewrite Z.abs_eq by lia; lia).
  assert (n < 2 ^ p) as Hnp.
  { apply Z.lt_le_trans with (2 ^ (Z.log2 n + 1)); [apply Z.log2_spec; lia|].
    apply Z.pow_le_mono_r; [lia|]. subst p. rewrite Z.abs_eq by lia. lia. }
  assert (IZR n * b2 0 < b2 (bf_emax - 1))%R as Hx.
  { rewrite b2_0, Rmult_1_r. apply Rlt_le_trans with (IZR (2 ^ 1000)); [apply IZR_lt; lia|].
    rewrite <- b2_IZR by lia. apply b2_le. unfold bf_emax. lia. }
  destruct (binary_normalize_spec p bf_emax n 0) as (Hf & _ & Hs & y & HF & _ & _ & _ & Hex);
    [lia|unfold bf_emax; lia|lia|done|].
  rewrite (Hex n 0), b2_0, Rmult_1_r in HF; [|lia|unfold emin, bf_emax; lia|done].
  destruct (binary_normalize p bf_emax n 0 false) as [s|s| |s m e] eqn:E; cbn in Hf, Hs; try done.
  - cbn in HF. apply (eq_IZR 0) in HF. lia.
  - subst s. exists m, e. split; [done|]. split; [done|lia].
Qed.

(** The quotient of two positive integers is finite and its float64 is a
    non-negative number. *)
Lemma Quo_positive a v :
  0 < a < 2 ^ 1000 -> 0 < v < 2 ^ 1000 -> exists q, Quo (SetInt a) (SetInt v) = Val q /\ nonneg (Float64 q).
Proof.
  intros Ha Hv. destruct (SetInt_exact a Ha) as (m & e & Em & Fm & Pm). destruct (SetInt_exact v Hv) as (m' & e' & Em' & Fm' & Pm').
  unfold Quo. rewrite Em, Em'. set (p := Z.max _ _) in *. assert (0 < p <= 1000) as Hp by lia. clearbody p.
  pose proof (SFdiv_core_spec p bf_emax m e m' e' ltac:(lia) ltac:(unfold bf_emax; lia)) as H.
  unfold SFdiv. destruct (SFdiv_core_binary _ _ _ _ _ _) as [[q e2] l]. cbv zeta in H. destruct H as (Hq & HL & He).
  rewrite Em in Fm. rewrite Em' in Fm'. cbn [F2R] in Fm, Fm'. rewrite Fm, Fm' in HL.
  assert (0 < IZR a / IZR v <= IZR (2 ^ 1000))%R as [Hx0 Hx].
  { assert (1 <= IZR v)%R by (apply IZR_le; lia). assert (0 < IZR a)%R by (apply IZR_lt; lia). split.
    - apply Rdiv_lt_0_compat; lra.
    - apply Rle_trans with (IZR a); [|apply IZR_le; lia]. unfold Rdiv. rewrite <- (Rmult_1_r (IZR a)) at 2.
      apply Rmult_le_compat_l; [lra|]. rewrite <- Rinv_1. apply Rinv_le_contravar; lra. }
  destruct (round_aux_real p bf_emax ltac:(lia) ltac:(unfold bf_emax; lia) false q e2 l _ Hq HL He)
    as (Hf & _ & Hs & y & HF & Hy & Herr & _).
  { apply Rle_lt_trans with (IZR (2 ^ 1000)); [done|]. rewrite <- b2_IZR by lia.
    apply Rlt_le_trans with (b2 (1000 + 1)); [rewrite b2_succ; pose proof (b2_pos 1000); lra|apply b2_le; unfold bf_emax; lia]. }
  cbn [xorb]. destruct (binary_round_aux _ _ _ _ _ _) as [s|s| |s m2 e3]; try done; cbn [sign_of] in Hs; subst s.
  { eexists. by split. }
  eexists. split; [reflexivity|]. unfold Float64. cbn [bf_val].
  assert (F2R (S754_finite false m2 e3) < b2 1023)%R as Hlt.
  { rewrite HF. assert (b2 (- p) <= b2 0)%R by (apply b2_le; lia). assert (b2 (emin p bf_emax - 1) <= b2 0)%R as He0
      by (apply b2_le; unfold emin, bf_emax; lia). rewrite b2_0 in *.
    assert (y <= 2 * IZR (2 ^ 1000) + 1)%R.
    { pose proof (Rle_abs (y - IZR a / IZR v)). pose proof (b2_pos (- p)). nra. }
    apply Rle_lt_trans with (2 * IZR (2 ^ 1000) + 1)%R; [done|]. rewrite <- b2_IZR by lia.
    apply Rle_lt_trans with (b2 (1000 + 1 + 1)); [rewrite !b2_succ|].
    - assert (1 <= b2 1000)%R by (rewrite <- b2_0; apply b2_le; lia). lra.
    - apply Rlt_le_trans with (b2 (1000 + 1 + 1 + 1)); [rewrite (b2_succ (1000 + 1 + 1)); pose proof (b2_pos (1000 + 1 + 1)); lra|].
      apply b2_le. lia. }
  destruct (binary_round_spec 53 1024 false m2 e3 ltac:(lia) ltac:(lia) Hlt) as (B1 & B2 & B3 & _). by split.
Qed.

(** The quotient of a positive and a non-negative integer is never the NaN that
    panics: a zero divisor gives an infinity. *)
Lemma Quo_ints a v : 0 < a < 2 ^ 1000 -> 0 <= v < 2 ^ 1000 -> exists q, Quo (SetInt a) (SetInt v) = Val q.
Proof.
  intros Ha Hv. destruct (Z.eq_dec v 0) as [->|Hv0].
  - destruct (SetInt_exact a Ha) as (m & e & Em & _). unfold Quo. rewrite Em. eexists. cbn. reflexivity.
  - destruct (Quo_positive a v) as (q & Eq & _); [lia|lia|]. by exists q.
Qed.

(** A number whose integer part reaches an integer is no less than it. *)
Lemma uint64_reaches `{Platform} d n :
  nonneg d -> 0 <= n < 2 ^ 53 -> n <= uint64_of_float d -> fleb (float_of_Z n) d = true.
Proof.
  intros Hd Hn Hle. destruct (float_of_Z_exact n Hn) as [Nn En]. apply fleb_spec; [done|done|]. rewrite En.
  destruct (floor_Z_spec d Hd) as (z & Hz & H0 & Hr).
  assert (trunc_Z d = Some z) as Et by (destruct (nonneg_cases d Hd) as [->|(m & e & -> & _)]; exact Hz).
  unfold uint64_of_float in Hle. rewrite Et in Hle. apply Rle_trans with (IZR z); [|lra]. apply IZR_le.
  destruct (Z.leb_spec 0 z); destruct (Z.ltb_spec z (2 ^ 64)); cbn [andb] in Hle; lia.
Qed.
Lemma fltb_of_le d n s : nonneg d -> nonneg n -> nonneg s -> fleb s n = true -> fleb n d = true -> fltb d s = false.
Proof.
  intros Hd Hn Hs H1 H2. apply fleb_spec in H1; [|done..]. apply fleb_spec in H2; [|done..].
  destruct (fltb d s) eqn:E; [|done]. apply fltb_spec in E; [|done..]. lra.
Qed.
