(* ===== verification/Strconv.v ===== *)
(** * Strconv: Go's strconv and strings

    The number formats and string splitting the source uses: decimal and
    hexadecimal integers, shortest and fixed-precision floats, [strings.Split],
    [SplitN], [Join], [HasPrefix].  They are executable, with the round trips
    the storage formats rest on. *)
From Stdlib Require Import ZArith Lia List Strings.Ascii Strings.String Floats.SpecFloat.
From stdpp Require Import base list strings.
From S2P Require Import Prelude Bytes Float.
Import ListNotations.
Local Open Scope Z_scope.

Definition code (c : ascii) : Z := Z.of_N (N_of_ascii c).
Definition chr (z : Z) : ascii := ascii_of_N (Z.to_N z).

(** ** Integers *)

(** [fuel] digits; 20 cover a 64-bit value. *)
Fixpoint format_digits (fuel : nat) (n : Z) (acc : string) : string :=
  match fuel with
  | O => acc
  | S f =>
      let acc' := String (chr (48 + n mod 10)) acc in
      if n <? 10 then acc' else format_digits f (n / 10) acc'
  end.
(** [strconv.FormatUint(n, 10)] *)
Definition FormatUint (n : Z) : string := format_digits 20 n EmptyString.
(** [strconv.FormatInt(n, 10)] *)
Definition FormatInt (n : Z) : string :=
  if n <? 0 then String "-" (FormatUint (- n)) else FormatUint n.

(** Value of a digit in a base up to 36, as strconv reads it. *)
Definition digit_value (c : ascii) : option Z :=
  let v := code c in
  if (48 <=? v) && (v <=? 57) then Some (v - 48)
  else if (97 <=? v) && (v <=? 122) then Some (v - 87)
  else if (65 <=? v) && (v <=? 90) then Some (v - 55)
  else None.

Inductive num_error := ErrSyntax | ErrRange.

(** A parsed number: strconv returns a value also beside an error. *)
Fixpoint parse_digits (base : Z) (s : string) (n : Z) : Z * option num_error :=
  match s with
  | EmptyString => (n, None)
  | String c s' =>
      match digit_value c with
      | Some d =>
          if base <=? d then (0, Some ErrSyntax)
          else
            let n' := n * base + d in
            if 2 ^ 64 <=? n' then (2 ^ 64 - 1, Some ErrRange) else parse_digits base s' n'
      | None => (0, Some ErrSyntax)
      end
  end.
(** [strconv.ParseUint(s, base, 64)] *)
Definition ParseUint (s : string) (base : Z) : Z * option num_error :=
  match s with
  | EmptyString => (0, Some ErrSyntax)
  | _ => parse_digits base s 0
  end.
(** [strconv.ParseInt(s, base, 64)] *)
Definition ParseInt (s : string) (base : Z) : Z * option num_error :=
  let '(neg, t) :=
    match s with
    | String c s' =>
        if code c =? 43 then (false, s') else if code c =? 45 then (true, s') else (false, s)
    | EmptyString => (false, s)
    end in
  match ParseUint t base with
  | (_, Some ErrSyntax) => (0, Some ErrSyntax)
  | (un, e) =>
      if negb neg && (2 ^ 63 <=? un) then (2 ^ 63 - 1, Some ErrRange)
      else if neg && (2 ^ 63 <? un) then (- 2 ^ 63, Some ErrRange)
      else (if neg then - un else un, e)
  end.

(** ** strings *)
Fixpoint split_on (sep : ascii) (s : string) (cur : string) : list string :=
  match s with
  | EmptyString => [cur]
  | String c s' =>
      if Ascii.eqb c sep then cur :: split_on sep s' EmptyString
      else split_on sep s' (cur ++ String c EmptyString)
  end.
(** [strings.Split(s, sep)] for a one-byte separator *)
Definition Split (s : string) (sep : ascii) : list string := split_on sep s EmptyString.

Fixpoint splitn_on (sep : ascii) (n : nat) (s : string) (cur : string) : list string :=
  match s with
  | EmptyString => [cur]
  | String c s' =>
      if (n <=? 1)%nat then [String.append cur s]
      else if Ascii.eqb c sep then cur :: splitn_on sep (n - 1) s' EmptyString
      else splitn_on sep n s' (String.append cur (String c EmptyString))
  end.
(** [strings.SplitN(s, sep, n)] for a positive [n] *)
Definition SplitN (s : string) (sep : ascii) (n : nat) : list string := splitn_on sep n s EmptyString.

(** [strings.Join(l, sep)] *)
Fixpoint Join (l : list string) (sep : string) : string :=
  match l with
  | [] => EmptyString
  | [x] => x
  | x :: l' => (x ++ sep ++ Join l' sep)%string
  end.

(** [strings.HasPrefix(s, p)] *)
Definition HasPrefix (s p : string) : bool := String.prefix p s.

(** A string without a given character *)
Fixpoint lacks (sep : ascii) (s : string) : bool :=
  match s with
  | EmptyString => true
  | String c s' => negb (Ascii.eqb c sep) && lacks sep s'
  end.

Lemma string_length_app a b : String.length (a ++ b)%string = (String.length a + String.length b)%nat.
Proof. induction a as [|c a IH]; [done|]. simpl. by rewrite IH. Qed.

(** ** Floats *)

(** The rational [m * 10^e], correctly rounded to a float64. *)
Definition float_of_decimal (m e : Z) : float64 :=
  if 0 <=? e then float_of_Z (m * 10 ^ e) else float_const m (Z.to_pos (10 ^ (- e))).
(** The dyadic rational [m * 2^e], correctly rounded. *)
Definition float_of_dyadic (m e : Z) : float64 := float_dyadic m e.

(** The scanning state of [readFloat]: digits seen, mantissa, digits after the
    point, point seen, underscores seen. *)
Record mantissa := Mant { m_digits : bool; m_value : Z; m_frac : Z; m_dot : bool; m_under : bool }.

(** Scan the mantissa; returns the unread rest. *)
Fixpoint scan_mantissa (base : Z) (s : string) (m : mantissa) : mantissa * string :=
  match s with
  | EmptyString => (m, s)
  | String c s' =>
      if code c =? 95 then
        scan_mantissa base s' (Mant (m_digits m) (m_value m) (m_frac m) (m_dot m) true)
      else if code c =? 46 then
        if m_dot m then (m, s)
        else scan_mantissa base s' (Mant (m_digits m) (m_value m) (m_frac m) true (m_under m))
      else
        match digit_value c with
        | Some d =>
            if base <=? d then (m, s)
            else scan_mantissa base s'
                   (Mant true (m_value m * base + d)
                      (if m_dot m then m_frac m + 1 else m_frac m) (m_dot m) (m_under m))
        | None => (m, s)
        end
  end.

(** Scan exponent digits (the accumulated value stops growing at 10000). *)
Fixpoint scan_exponent (s : string) (e : Z) (under : bool) : Z * bool * string :=
  match s with
  | EmptyString => (e, under, s)
  | String c s' =>
      if code c =? 95 then scan_exponent s' e true
      else if (48 <=? code c) && (code c <=? 57)
           then scan_exponent s' (if e <? 10000 then e * 10 + (code c - 48) else e) under
           else (e, under, s)
  end.

(** [underscoreOK]: underscores separate digits (or follow the base prefix).
    [prev] is the class of the previous byte: start, digit, underscore, other. *)
Inductive uclass := UStart | UDigit | UUnder | UOther.
Fixpoint underscore_scan (hex : bool) (s : string) (prev : uclass) : bool :=
  match s with
  | EmptyString => match prev with UUnder => false | _ => true end
  | String c s' =>
      let v := code c in
      if ((48 <=? v) && (v <=? 57))
         || (hex && (((97 <=? v) && (v <=? 102)) || ((65 <=? v) && (v <=? 70))))
      then underscore_scan hex s' UDigit
      else if v =? 95 then
        match prev with UDigit => underscore_scan hex s' UUnder | _ => false end
      else
        match prev with UUnder => false | _ => underscore_scan hex s' UOther end
  end.

Definition strip_sign (s : string) : bool * string :=
  match s with
  | String c s' =>
      if code c =? 43 then (false, s') else if code c =? 45 then (true, s') else (false, s)
  | EmptyString => (false, s)
  end.

(** Split off a "0x" prefix; as in [readFloat], something must follow it. *)
Definition hex_prefix (s : string) : bool * string :=
  match s with
  | String c0 (String c1 (String c2 rest)) =>
      if (code c0 =? 48) && ((code c1 =? 120) || (code c1 =? 88))
      then (true, String c2 rest) else (false, s)
  | _ => (false, s)
  end.

(** The exponent part: absent, or its signed value; [None] when malformed. *)
Definition read_exponent (hex : bool) (s : string) : option (Z * bool * string) :=
  match s with
  | String c s' =>
      let v := code c in
      if (if hex then (v =? 112) || (v =? 80) else (v =? 101) || (v =? 69)) then
        let '(neg, t) := strip_sign s' in
        match t with
        | String d _ =>
            if (48 <=? code d) && (code d <=? 57) then
              let '(e, u, rest) := scan_exponent t 0 false in
              Some (if neg then - e else e, u, rest)
            else None
        | EmptyString => None
        end
      else if hex then None else Some (0, false, s)
  | EmptyString => if hex then None else Some (0, false, s)
  end.

(** [special]: inf, infinity and nan, in any case. *)
Definition special_float (s : string) : option float64 :=
  let '(neg, t) := strip_sign s in
  let l := to_lower t in
  if (String.eqb l "inf" || String.eqb l "infinity")%bool then Some (S754_infinity neg)
  else if String.eqb (to_lower s) "nan" then Some S754_nan
  else None.

(** [strconv.ParseFloat(s, 64)]: the value and the error. *)
Definition ParseFloat (s : string) : float64 * option num_error :=
  match special_float s with
  | Some f => (f, None)
  | None =>
      let '(neg, t) := strip_sign s in
      let '(hex, t') := hex_prefix t in
      let '(m, rest) := scan_mantissa (if hex then 16 else 10) t' (Mant false 0 0 false false) in
      if negb (m_digits m) then (fzero, Some ErrSyntax)
      else
        match read_exponent hex rest with
        | None => (fzero, Some ErrSyntax)
        | Some (e, u, rest') =>
            if negb (String.eqb rest' EmptyString)
               || ((m_under m || u)
                   && negb (underscore_scan hex t' (if hex then UDigit else UStart)))
            then (fzero, Some ErrSyntax)
            else
              let f := if hex then float_of_dyadic (m_value m) (e - 4 * m_frac m)
                       else float_of_decimal (m_value m) (e - m_frac m) in
              let f := if neg then SFopp f else f in
              (f, match f with S754_infinity _ => Some ErrRange | _ => None end)
        end
  end.

(** *** FormatFloat *)
Fixpoint zeros_string (n : nat) : string :=
  match n with O => EmptyString | S n' => String "0" (zeros_string n') end.

(** Decimal digits of a natural number, without limit ([fuel] digits). *)
Definition digits_of (n : Z) : string := format_digits (S (Z.to_nat (Z.log2 n))) n EmptyString.

(** The digits [d] scaled by [10^p] in the 'f' format. *)
Definition format_fixed (d p : Z) : string :=
  let ds := digits_of d in
  let len := String.length ds in
  if 0 <=? p then String.append ds (if d =? 0 then EmptyString else zeros_string (Z.to_nat p))
  else
    let k := Z.to_nat (- p) in
    if (k <? len)%nat
    then (substring 0 (len - k) ds ++ "." ++ substring (len - k) k ds)%string
    else ("0." ++ zeros_string (k - len) ++ ds)%string.

(** [v = num/den > 0] as [k]-digit decimals from below and above, nearest first:
    a decimal is kept only if it rounds back to the float.  Only the carry of
    [lo + 1] to a power of ten leaves trailing zeros; [norm] drops them. *)
Definition shortest_at (x : float64) (num den : Z) (k e10 : Z) : option (Z * Z) :=
  let p := e10 - k + 1 in
  let '(sn, sd) := if 0 <=? p then (num, den * 10 ^ p) else (num * 10 ^ (- p), den) in
  let lo := sn / sd in
  let r := sn mod sd in
  let ok d := bool_decide (float_of_decimal d p = x) in
  let norm d := if d =? 10 ^ k then (1, p + k) else (d, p) in
  let pick a b := if ok a then Some (norm a) else if ok b then Some (norm b) else None in
  if (2 * r <? sd) || ((2 * r =? sd) && Z.even lo) then pick lo (lo + 1) else pick (lo + 1) lo.

(** Smallest digit count that identifies [x]; a float64 has an exact decimal
    expansion of fewer than 800 digits. *)
Fixpoint shortest_from (fuel : nat) (x : float64) (num den k e10 : Z) : option (Z * Z) :=
  match fuel with
  | O => None
  | S f =>
      match shortest_at x num den k e10 with
      | Some r => Some r
      | None => shortest_from f x num den (k + 1) e10
      end
  end.

(** [floor(log10(num/den))], from the bit lengths and one correction. *)
Definition le_pow10 (num den e : Z) : bool :=
  if 0 <=? e then den * 10 ^ e <=? num else den <=? num * 10 ^ (- e).
Fixpoint log10_up (fuel : nat) (num den e : Z) : Z :=
  match fuel with
  | O => e
  | S f => if le_pow10 num den (e + 1) then log10_up f num den (e + 1) else e
  end.
Definition log10_floor (num den : Z) : Z :=
  log10_up 4 num den ((Z.log2 num - Z.log2 den - 1) * 30103 / 100000 - 1).

(** The numerator and denominator of [m * 2^e]. *)
Definition fraction_of (m : positive) (e : Z) : Z * Z :=
  if 0 <=? e then (Zpos m * 2 ^ e, 1) else (Zpos m, 2 ^ (- e)).

Definition with_sign (s : bool) (t : string) : string := if s then String "-" t else t.

(** [strconv.FormatFloat(x, 'f', -1, 64)] *)
Definition FormatFloat_shortest (x : float64) : string :=
  match x with
  | S754_nan => "NaN"
  | S754_infinity s => if s then "-Inf" else "+Inf"
  | S754_zero s => with_sign s "0"
  | S754_finite s m e =>
      let '(num, den) := fraction_of m e in
      match shortest_from 800 (S754_finite false m e) num den 1 (log10_floor num den) with
      | Some (d, p) => with_sign s (format_fixed d p)
      | None => EmptyString
      end
  end.

(** [strconv.FormatFloat(x, 'f', n, 64)]: [n] decimals, ties to even. *)
Definition FormatFloat_fixed (n : Z) (x : float64) : string :=
  match x with
  | S754_nan => "NaN"
  | S754_infinity s => if s then "-Inf" else "+Inf"
  | S754_zero s => with_sign s (format_fixed 0 (- n))
  | S754_finite s m e =>
      let '(num, den) := fraction_of m e in
      let q := num * 10 ^ n / den in
      let r := (num * 10 ^ n) mod den in
      let d := if (2 * r <? den) || ((2 * r =? den) && Z.even q) then q else q + 1 in
      with_sign s (format_fixed d (- n))
  end.

Example format_tenth : FormatFloat_shortest (float_const 1 10) = "0.1"%string.
Proof. vm_compute. reflexivity. Qed.
Example format_sum : FormatFloat_shortest (fadd (float_const 1 10) (float_const 2 10)) = "0.30000000000000004"%string.
Proof. vm_compute. reflexivity. Qed.
Example format_carry : map (fun e => FormatFloat_shortest (float_const 1 (10 ^ e)%positive)) [5%positive; 6%positive; 7%positive]
  = ["0.00001"; "0.000001"; "0.0000001"]%string.
Proof. vm_compute. reflexivity. Qed.
Example format_large : FormatFloat_shortest (float_of_Z (10 ^ 21)) = "1000000000000000000000"%string.
Proof. vm_compute. reflexivity. Qed.
Example format_small : FormatFloat_shortest (S754_finite false 1 (-1074)) =
  ("0." ++ zeros_string 323 ++ "5")%string.
Proof. vm_compute. reflexivity. Qed.
Example format_5 : map (FormatFloat_fixed 5) [fzero; float_const 1 3; float_of_Z 16; float_const (-2) 3]
  = ["0.00000"; "0.33333"; "16.00000"; "-0.66667"]%string.
Proof. vm_compute. reflexivity. Qed.
Example parse_floats :
  map (fun s => fst (ParseFloat s)) ["0.1"; "1e-1"; "0x1p-1"; "1_0.0"; ".5"; "5."; "-2"; "1e400"; "Inf"]%string
  = [float_const 1 10; float_const 1 10; fhalf; float_of_Z 10; fhalf; float_of_Z 5; float_of_Z (-2);
     S754_infinity false; S754_infinity false].
Proof. vm_compute. reflexivity. Qed.
Example parse_bad :
  map (fun s => snd (ParseFloat s)) [""; "."; "e5"; "1e"; "0x1"; "1__0"; "_1"; "1.5a"; "1e400"; "7"]%string
  = [Some ErrSyntax; Some ErrSyntax; Some ErrSyntax; Some ErrSyntax; Some ErrSyntax; Some ErrSyntax;
     Some ErrSyntax; Some ErrSyntax; Some ErrRange; None].
Proof. vm_compute. reflexivity. Qed.

(** ** Lemmas *)
(** stdpp keeps [String.append] folded; these are its equations. *)
Lemma append_nil s : (EmptyString ++ s)%string = s.
Proof. reflexivity. Qed.
Lemma append_cons c a b : (String c a ++ b)%string = String c (a ++ b)%string.
Proof. reflexivity. Qed.

Lemma code_chr z : 0 <= z < 256 -> code (chr z) = z.
Proof.
  intros H. unfold code, chr. rewrite N_ascii_embedding by lia. lia.
Qed.

Lemma digit_value_chr d : 0 <= d < 10 -> digit_value (chr (48 + d)) = Some d.
Proof.
  intros H. unfold digit_value. rewrite code_chr by lia.
  replace ((48 <=? 48 + d) && (48 + d <=? 57)) with true; [by rewrite Z.add_simpl_l|].
  symmetry. apply andb_true_intro. rewrite !Z.leb_le. lia.
Qed.

(** The digits of [n], read with accumulator [a], append [n] to [a]. *)
Lemma parse_format_digits fuel n acc a :
  0 <= n < 10 ^ Z.of_nat fuel -> (0 < fuel)%nat -> 0 <= a ->
  exists k, 0 <= k /\ n < 10 ^ k /\
    ((a * 10 ^ k + n < 2 ^ 64) ->
     parse_digits 10 (format_digits fuel n acc) a = parse_digits 10 acc (a * 10 ^ k + n)).
Proof.
  revert n acc a; induction fuel as [|fuel IH]; intros n acc a Hn Hf Ha; [lia|].
  cbn [format_digits].
  assert (0 <= n mod 10 < 10) as Hm by (apply Z.mod_pos_bound; lia).
  destruct (Z.ltb_spec n 10) as [H|H].
  - exists 1. split; [lia|]. split; [lia|]. intros Hlt. cbn [parse_digits].
    rewrite digit_value_chr by lia. rewrite Z.mod_small in * by lia.
    destruct (Z.leb_spec 10 n); [lia|]. rewrite Z.pow_1_r in *.
    destruct (Z.leb_spec (2 ^ 64) (a * 10 + n)); [lia|done].
  - assert (0 < fuel)%nat as Hf'. { destruct fuel; [simpl in Hn; lia|lia]. }
    assert (10 ^ Z.of_nat (S fuel) = 10 * 10 ^ Z.of_nat fuel) as E
      by (rewrite Nat2Z.inj_succ, Z.pow_succ_r by lia; done).
    destruct (IH (n / 10) (String (chr (48 + n mod 10)) acc) a) as (k & Hk & Hlt & HP); [|done|done|].
    { split; [apply Z.div_pos; lia|apply Z.div_lt_upper_bound; lia]. }
    pose proof (Z.div_mod n 10 ltac:(lia)) as D.
    assert (10 ^ (k + 1) = 10 * 10 ^ k) as E' by (rewrite Z.add_1_r, Z.pow_succ_r by lia; done).
    exists (k + 1). split; [lia|]. split; [lia|]. intros HB.
    assert (0 <= a * 10 ^ k) by (apply Z.mul_nonneg_nonneg; lia).
    assert (a * 10 ^ (k + 1) = 10 * (a * 10 ^ k)) as E2 by (rewrite E'; ring).
    rewrite HP by lia. cbn [parse_digits].
    rewrite digit_value_chr by lia. destruct (Z.leb_spec 10 (n mod 10)); [lia|].
    destruct (Z.leb_spec (2 ^ 64) ((a * 10 ^ k + n / 10) * 10 + n mod 10)); [lia|].
    f_equal. lia.
Qed.

Lemma format_digits_cons fuel n acc :
  (0 < fuel)%nat -> exists c t, format_digits fuel n acc = String c t.
Proof.
  revert n acc; induction fuel as [|f IH]; intros n acc H; [lia|]. cbn [format_digits].
  destruct (n <? 10); [by eexists _, _|]. destruct f; [by eexists _, _|]. apply IH. lia.
Qed.

Lemma ParseUint_FormatUint n : 0 <= n < 2 ^ 64 -> ParseUint (FormatUint n) 10 = (n, None).
Proof.
  intros H. unfold ParseUint, FormatUint.
  destruct (format_digits_cons 20 n EmptyString ltac:(lia)) as (c & t & E). rewrite E, <- E.
  destruct (parse_format_digits 20 n EmptyString 0) as (k & Hk & Hlt & HP); [|lia|lia|].
  { change (10 ^ Z.of_nat 20) with 100000000000000000000. lia. }
  rewrite HP by lia. done.
Qed.

(** Every character of a formatted number is a digit. *)
Lemma format_digits_lacks c fuel n acc :
  code c < 48 \/ 57 < code c -> 0 <= n ->
  lacks c acc = true -> lacks c (format_digits fuel n acc) = true.
Proof.
  intros Hc; revert n acc; induction fuel as [|f IH]; intros n acc Hn Ha; [done|].
  assert (0 <= n mod 10 < 10) as Hm by (apply Z.mod_pos_bound; lia).
  assert (lacks c (String (chr (48 + n mod 10)) acc) = true) as Hl.
  { cbn [lacks]. rewrite Ha, andb_true_r. apply negb_true_iff, Ascii.eqb_neq. intros <-.
    rewrite code_chr in Hc by lia. lia. }
  cbn [format_digits]. destruct (n <? 10); [done|]. apply IH; [|done]. apply Z.div_pos; lia.
Qed.

Lemma FormatUint_lacks c n :
  code c < 48 \/ 57 < code c -> 0 <= n -> lacks c (FormatUint n) = true.
Proof. intros Hc Hn. by apply format_digits_lacks. Qed.

Lemma FormatInt_lacks c n :
  code c < 48 \/ 57 < code c -> code c <> 45 -> lacks c (FormatInt n) = true.
Proof.
  intros Hc Hm. unfold FormatInt. destruct (Z.ltb_spec n 0); [|by apply FormatUint_lacks].
  cbn [lacks]. rewrite FormatUint_lacks by lia. rewrite andb_true_r.
  apply negb_true_iff, Ascii.eqb_neq. intros <-. done.
Qed.

Lemma FormatUint_head n :
  0 <= n -> exists c t, FormatUint n = String c t /\ 48 <= code c <= 57.
Proof.
  intros Hn. destruct (format_digits_cons 20 n EmptyString ltac:(lia)) as (c & t & E).
  exists c, t. split; [done|].
  destruct (decide (48 <= code c <= 57)); [done|].
  pose proof (FormatUint_lacks c n ltac:(lia) Hn) as L. unfold FormatUint in L. rewrite E in L.
  cbn [lacks] in L. by rewrite Ascii.eqb_refl in L.
Qed.

Lemma ParseInt_FormatInt n : - 2 ^ 63 <= n < 2 ^ 63 -> ParseInt (FormatInt n) 10 = (n, None).
Proof.
  intros H. unfold ParseInt, FormatInt. destruct (Z.ltb_spec n 0) as [Hn|Hn].
  - change (code "-"%char) with 45. cbn [Z.eqb Pos.eqb].
    rewrite ParseUint_FormatUint by lia. cbn [negb andb].
    destruct (Z.ltb_spec (2 ^ 63) (- n)); [lia|]. by rewrite Z.opp_involutive.
  - destruct (FormatUint_head n Hn) as (c & t & E & Hc). rewrite E.
    destruct (Z.eqb_spec (code c) 43); [lia|]. destruct (Z.eqb_spec (code c) 45); [lia|].
    rewrite <- E, ParseUint_FormatUint by lia. cbn [negb andb].
    destruct (Z.leb_spec (2 ^ 63) n); [lia|done].
Qed.

Lemma string_app_nil_r s : (s ++ EmptyString)%string = s.
Proof. induction s as [|c s IH]; [done|]. change (String c (s ++ EmptyString)%string = String c s). by rewrite IH. Qed.
Lemma string_app_assoc a b c : (a ++ (b ++ c))%string = ((a ++ b) ++ c)%string.
Proof.
  induction a as [|x a IH]; [done|].
  change (String x (a ++ (b ++ c))%string = String x ((a ++ b) ++ c)%string). by rewrite IH.
Qed.

Lemma split_on_lacks sep s cur :
  lacks sep s = true -> split_on sep s cur = [(cur ++ s)%string].
Proof.
  revert cur; induction s as [|c s IH]; intros cur H; cbn [split_on].
  - by rewrite string_app_nil_r.
  - cbn [lacks] in H. apply andb_prop in H as [H1 H2]. apply negb_true_iff in H1. rewrite H1.
    rewrite IH by done. by rewrite <- string_app_assoc.
Qed.

Lemma split_on_app sep s rest cur :
  lacks sep s = true ->
  split_on sep (s ++ String sep rest)%string cur = (cur ++ s)%string :: split_on sep rest EmptyString.
Proof.
  revert cur; induction s as [|c s IH]; intros cur H;
    rewrite ?append_nil, ?append_cons; cbn [split_on].
  - by rewrite Ascii.eqb_refl, string_app_nil_r.
  - cbn [lacks] in H. apply andb_prop in H as [H1 H2]. apply negb_true_iff in H1. rewrite H1.
    rewrite IH by done. by rewrite <- string_app_assoc.
Qed.

(** Splitting a join of fields that lack the separator gives the fields back. *)
Lemma Split_Join sep l :
  l <> [] -> Forall (fun s => lacks sep s = true) l ->
  Split (Join l (String sep EmptyString)) sep = l.
Proof.
  intros Hne H. unfold Split. induction H as [|x l Hx Hl IH]; [done|].
  destruct l as [|y l]; cbn [Join].
  - rewrite split_on_lacks by done. done.
  - rewrite append_cons, append_nil, split_on_app by done. f_equal. by apply IH.
Qed.

Lemma splitn_on_app sep n s rest cur :
  (1 < n)%nat -> lacks sep s = true ->
  splitn_on sep n (s ++ String sep rest)%string cur
  = (cur ++ s)%string :: splitn_on sep (n - 1) rest EmptyString.
Proof.
  intros Hn. revert cur; induction s as [|c s IH]; intros cur H;
    rewrite ?append_nil, ?append_cons; cbn [splitn_on]; (destruct (Nat.leb_spec n 1); [lia|]).
  - by rewrite Ascii.eqb_refl, string_app_nil_r.
  - cbn [lacks] in H. apply andb_prop in H as [H1 H2]. apply negb_true_iff in H1. rewrite H1.
    rewrite IH by done. by rewrite <- string_app_assoc.
Qed.

(** ** Pieces of a concatenation *)
Lemma substring_middle a b c : substring (String.length a) (String.length b) (a ++ b ++ c)%string = b.
Proof.
  induction a as [|x a IH]; [|by rewrite append_cons]. rewrite append_nil. change (String.length EmptyString) with O.
  induction b as [|x b IH]; [rewrite append_nil; by destruct c|]. rewrite append_cons. cbn [String.length substring].
  by rewrite IH.
Qed.
Lemma prefix_app a b : String.prefix a (a ++ b)%string = true.
Proof. induction a as [|c a IH]; [rewrite append_nil; by destruct b|]. rewrite append_cons. cbn [String.prefix]. by destruct (ascii_dec c c). Qed.
Lemma lacks_app c a b : lacks c (a ++ b)%string = lacks c a && lacks c b.
Proof. induction a as [|x a IH]; [by rewrite append_nil|]. rewrite append_cons. cbn [lacks]. by rewrite IH, andb_assoc. Qed.
