(* ===== verification/Conversions.v ===== *)
(** * Conversions: the display and unit conversions of src/utils/utils.go, and
    the option records of src/config that become those of a library

    Loading a key pair is an argument: the certificate of two files, or an
    error. *)
From Stdlib Require Import ZArith Lia List Strings.String Floats.SpecFloat.
From stdpp Require Import base list strings.
From S2P Require Import Prelude Bytes Float Strconv.
Import ListNotations.
Local Open Scope string_scope.
Local Open Scope Z_scope.
Local Open Scope go_scope.

(** ** Coins and base units *)

(** For a precision that is not negative, which the format verb needs. *)
Definition SatoshisToCoins (satoshis magnitude coinPrecision : Z) : float64 :=
  fst (ParseFloat (FormatFloat_fixed coinPrecision (fdiv (float_of_Z satoshis) (float_of_Z magnitude)))).
Definition CoinsToSatoshis `{Platform} (coins : float64) (magnitude coinPrecision : Z) : Z :=
  uint64_of_float (fmul coins (float_of_Z magnitude)).
(** Truncation loses a base unit where the product falls just below it. *)
Example truncated_conversion `{Platform} :
  CoinsToSatoshis (SatoshisToCoins 29000000 100000000 8) 100000000 8 = 28999999.
Proof. vm_compute. reflexivity. Qed.

(** ** Hash rates *)
Definition byteUnits : list string := [" KH"; " MH"; " GH"; " TH"; " PH"; " EH"; " ZH"; " YH"].
Fixpoint scale (hashrate : float64) (unit : string) (units : list string) : float64 * string :=
  match units with
  | [] => (hashrate, unit)
  | larger :: units =>
      if fltb (float_of_Z 1000) hashrate then scale (fdiv hashrate (float_of_Z 1000)) larger units else (hashrate, unit)
  end.
Definition GetReadableHashRateString (hashrate : float64) : string :=
  let '(h, unit) := scale hashrate " H" byteUnits in FormatFloat_fixed 7 h ++ unit.
Lemma last_default {A} (l : list A) a d d' : List.last (a :: l) d = List.last (a :: l) d'.
Proof. revert a; induction l as [|b l IH]; intros a; [done|exact (IH b)]. Qed.
Lemma last_cons_default {A} (l : list A) a d : List.last (a :: l) d = List.last l a.
Proof. destruct l as [|b l]; [done|exact (last_default l b d a)]. Qed.
(** The number that is printed is at most a thousand, or its unit is the
    largest. *)
Lemma scale_bound h unit units :
  fltb (float_of_Z 1000) (fst (scale h unit units)) = false \/ snd (scale h unit units) = List.last units unit.
Proof.
  revert h unit; induction units as [|u units IH]; intros h unit; cbn [scale]; [by right|].
  destruct (fltb (float_of_Z 1000) h) eqn:E; [|by left]. destruct (IH (fdiv h (float_of_Z 1000)) u) as [L|L]; [by left|].
  right. by rewrite L, last_cons_default.
Qed.
Example readable_megahash : GetReadableHashRateString (float_of_Z 12500000) = "12.5000000 MH".
Proof. vm_compute. reflexivity. Qed.

(** ** Options of libraries *)
Record TLSOptions := mkTLSOptions { CertFile : string; KeyFile : string }.
Record TLSConfig {C : Type} := mkTLSConfig { Certificates : list C; InsecureSkipVerify : bool }.
Arguments TLSConfig C : clear implicits.
Arguments mkTLSConfig {C}.
Record RedisOptions := mkRedisOptions {
  ro_Network : string; ro_Host : string; ro_Port : Z; ro_Password : string; ro_DB : Z; ro_TLS : option TLSOptions }.
Record RedisConfig {C : Type} := mkRedisConfig {
  rc_Network : string; rc_Addr : string; rc_Password : string; rc_DB : Z; rc_TLS : option (TLSConfig C) }.
Arguments RedisConfig C : clear implicits.
Arguments mkRedisConfig {C}.
Record APIOptions := mkAPIOptions { api_Host : string; api_Port : Z }.
Definition APIOptions_Addr (api : APIOptions) : string := api_Host api ++ ":" ++ FormatInt (api_Port api).
Definition RedisOptions_Addr (ro : RedisOptions) : string := ro_Host ro ++ ":" ++ FormatInt (ro_Port ro).

Section TLS.
Context {C : Type}.
Variable LoadX509KeyPair : string -> string -> option C.
Definition certificates (o : TLSOptions) : result (list C) :=
  if (0 <? slen (CertFile o)) && (0 <? slen (KeyFile o)) then
    match LoadX509KeyPair (CertFile o) (KeyFile o) with Some c => Val [c] | None => Panic "failed to load the key pair" end
  else Val [].
(** The client accepts whatever certificate the server shows. *)
Definition ClientTLSConfig (o : TLSOptions) : result (TLSConfig C) :=
  let! certs := certificates o in Val (mkTLSConfig certs true).
Definition ServerTLSConfig (o : TLSOptions) : result (TLSConfig C) :=
  let! certs := certificates o in Val (mkTLSConfig certs false).
Definition ToRedisOptions (ro : RedisOptions) : result (RedisConfig C) :=
  let! tls := match ro_TLS ro with None => Val None | Some t => let! c := ClientTLSConfig t in Val (Some c) end in
  Val (mkRedisConfig (ro_Network ro) (RedisOptions_Addr ro) (ro_Password ro) (ro_DB ro) tls).
(** A key pair is loaded only when both files are named; with one of them the
    server listens without a certificate. *)
Lemma half_a_key_pair o : CertFile o = "" \/ KeyFile o = "" -> ServerTLSConfig o = Val (mkTLSConfig [] false).
Proof. unfold ServerTLSConfig, certificates. intros [-> | ->]; [done|]. by rewrite andb_false_r. Qed.
End TLS.
