(* ===== verification/Types.v ===== *)
(** * Types: src/types and the data of src/daemons

    JSON values as [encoding/json] decodes them into [interface{}], the share
    record and its error codes, and the block template of the daemon. *)
From Stdlib Require Import ZArith Lia List Strings.String.
From stdpp Require Import base list strings.
From S2P Require Import Prelude Bytes Float.
Import ListNotations.
Local Open Scope Z_scope.
Local Open Scope string_scope.

(** ** JSON

    A number is kept as the literal of the text: whether it decodes into an
    integer field depends on how it is written. *)
Inductive json : Type :=
| JNull
| JBool (b : bool)
| JNum (lit : string)
| JStr (s : string)
| JArr (l : list json)
| JObj (m : list (string * json)).

(** What an [interface{}] field of the source can hold: a decoded JSON value, or
    a [uint64] put there by Go code. *)
Inductive iface : Type :=
| IJson (j : json)
| IUint64 (n : Z).

Definition iface_nil (v : iface) : bool := match v with IJson JNull => true | _ => false end.
(** [v.(uint64)] and [v.(string)] panic on another dynamic type. *)
Definition as_uint64 (v : iface) : result Z :=
  match v with IUint64 n => Val n | _ => Panic "interface conversion: not uint64" end.
Definition as_string (v : iface) : result string :=
  match v with IJson (JStr s) => Val s | _ => Panic "interface conversion: not string" end.

(** ** types.ErrorWrap *)
Definition ErrJobNotFound : Z := 20.
Definition ErrIncorrectExtraNonce2Size : Z := 21.
Definition ErrIncorrectNTimeSize : Z := 22.
Definition ErrNTimeOutOfRange : Z := 23.
Definition ErrIncorrectNonceSize : Z := 24.
Definition ErrDuplicateShare : Z := 25.
Definition ErrLowDiffShare : Z := 26.

Definition codeToErrMap : list (Z * string) :=
  [(10, "you are banned by pool");
   (20, "job not found");
   (21, "incorrect size of extranonce2");
   (22, "incorrect size of ntime");
   (23, "ntime out of range");
   (24, "incorrect size of nonce");
   (25, "duplicate share");
   (26, "low difficulty share")].

(** A missing key reads as the empty string. *)
Definition ErrorWrap_String (err : Z) : string :=
  match find (fun p => fst p =? err)%Z codeToErrMap with
  | Some (_, s) => s
  | None => EmptyString
  end.

(** ** types.Share; a remote address is the string it prints as. *)
Record Share := mkShare {
  s_JobId : string;
  s_RemoteAddr : string;
  s_Miner : string;
  s_Rig : string;
  s_ErrorCode : Z;
  s_BlockHeight : Z;
  s_BlockReward : Z;
  s_Diff : float64;
  s_BlockHash : string;
  s_BlockHex : string;
  s_TxHash : string;
}.

(** A share with the fields every composite literal of the source sets, the
    others zero. *)
Definition base_share (jobId addr miner rig : string) : Share :=
  {| s_JobId := jobId; s_RemoteAddr := addr; s_Miner := miner; s_Rig := rig;
     s_ErrorCode := 0; s_BlockHeight := 0; s_BlockReward := 0; s_Diff := fzero;
     s_BlockHash := ""; s_BlockHex := ""; s_TxHash := "" |}.
Definition set_error (code : Z) (s : Share) : Share :=
  {| s_JobId := s_JobId s; s_RemoteAddr := s_RemoteAddr s; s_Miner := s_Miner s; s_Rig := s_Rig s;
     s_ErrorCode := code; s_BlockHeight := s_BlockHeight s; s_BlockReward := s_BlockReward s;
     s_Diff := s_Diff s; s_BlockHash := s_BlockHash s; s_BlockHex := s_BlockHex s;
     s_TxHash := s_TxHash s |}.
Definition set_diff (diff : float64) (s : Share) : Share :=
  {| s_JobId := s_JobId s; s_RemoteAddr := s_RemoteAddr s; s_Miner := s_Miner s; s_Rig := s_Rig s;
     s_ErrorCode := s_ErrorCode s; s_BlockHeight := s_BlockHeight s; s_BlockReward := s_BlockReward s;
     s_Diff := diff; s_BlockHash := s_BlockHash s; s_BlockHex := s_BlockHex s;
     s_TxHash := s_TxHash s |}.
Definition set_block (height reward : Z) (hash hex : string) (s : Share) : Share :=
  {| s_JobId := s_JobId s; s_RemoteAddr := s_RemoteAddr s; s_Miner := s_Miner s; s_Rig := s_Rig s;
     s_ErrorCode := s_ErrorCode s; s_BlockHeight := height; s_BlockReward := reward;
     s_Diff := s_Diff s; s_BlockHash := hash; s_BlockHex := hex; s_TxHash := s_TxHash s |}.
Definition set_txhash (tx : string) (s : Share) : Share :=
  {| s_JobId := s_JobId s; s_RemoteAddr := s_RemoteAddr s; s_Miner := s_Miner s; s_Rig := s_Rig s;
     s_ErrorCode := s_ErrorCode s; s_BlockHeight := s_BlockHeight s; s_BlockReward := s_BlockReward s;
     s_Diff := s_Diff s; s_BlockHash := s_BlockHash s; s_BlockHex := s_BlockHex s; s_TxHash := tx |}.

(** ** daemons.GetBlockTemplate and its parts *)
Record PayeeParams := mkPayee { p_Payee : string; p_Script : string; p_Amount : Z }.

Record TxParams := mkTx { t_Data : string; t_Hash : string; t_TxId : string }.

Record GetBlockTemplate := mkTemplate {
  g_Version : Z;
  g_Bits : string;
  g_CurTime : Z;
  g_Height : Z;
  g_PreviousBlockHash : string;
  g_Transactions : list TxParams;
  g_CoinbaseAuxFlags : string;
  g_CoinbaseValue : Z;
  g_DefaultWitnessCommitment : string;
  g_Target : string;
  g_Masternode : list PayeeParams;
  g_Superblock : list PayeeParams;
  g_CoinbasePayload : string;
  g_Votes : list string;
  g_MasternodePayments : iface;
  g_Payee : iface;
  g_PayeeAmount : iface;
}.

(** Field widths of a decoded template. *)
Definition template_ok (t : GetBlockTemplate) : Prop :=
  (- 2 ^ 31 <= g_Version t < 2 ^ 31 /\ 0 <= g_CurTime t < 2 ^ 32
   /\ - 2 ^ 63 <= g_Height t < 2 ^ 63 /\ 0 <= g_CoinbaseValue t < 2 ^ 64
   /\ Forall (fun p => 0 <= p_Amount p < 2 ^ 64) (g_Masternode t)
   /\ Forall (fun p => 0 <= p_Amount p < 2 ^ 64) (g_Superblock t))%Z.
