(* ===== verification/Json.v ===== *)
(** * Json: encoding/json decoding of JSON values into Go structs

    [json.Unmarshal] into a struct assigns the fields whose names match the keys
    (case-insensitively, a later key overriding an earlier one), ignores unknown
    keys, leaves a field alone on null, and returns an error when a value does
    not fit its field.  A [schema] is the Go type; [json_fits] says whether the
    decoder returns no error, and the [field_...] functions read what it assigns. *)
From Stdlib Require Import ZArith Lia List Strings.Ascii Strings.String Floats.SpecFloat.
From stdpp Require Import base list strings.
From S2P Require Import Prelude Bytes Float Strconv Types.
Import ListNotations.
Local Open Scope Z_scope.

Inductive schema : Type :=
| SBool
| SString
| SInt
| SUint
| SInt32
| SUint32
| SFloat
| SAny
| SList (s : schema)
| SStruct (fields : list (string * schema)).

Definition no_error {A} (r : A * option num_error) : bool :=
  match snd r with None => true | Some _ => false end.

(** The struct field a key selects. *)
Definition same_key (a b : string) : bool := String.eqb (to_lower a) (to_lower b).
Fixpoint field_schema (fields : list (string * schema)) (key : string) : option schema :=
  match fields with
  | [] => None
  | (n, s) :: fields' => if same_key n key then Some s else field_schema fields' key
  end.

Fixpoint json_fits (fuel : nat) (s : schema) (j : json) : bool :=
  match fuel with
  | O => false
  | S f =>
      match s, j with
      | _, JNull => true
      | SAny, _ => true
      | SBool, JBool _ => true
      | SString, JStr _ => true
      | SInt, JNum l => no_error (ParseInt l 10)
      | SUint, JNum l => no_error (ParseUint l 10)
      | SInt32, JNum l => no_error (ParseInt l 10) && (- 2 ^ 31 <=? fst (ParseInt l 10)) && (fst (ParseInt l 10) <? 2 ^ 31)
      | SUint32, JNum l => no_error (ParseUint l 10) && (fst (ParseUint l 10) <? 2 ^ 32)
      | SFloat, JNum l => no_error (ParseFloat l)
      | SList s', JArr l => forallb (json_fits f s') l
      | SStruct fields, JObj m =>
          forallb (fun '(k, v) =>
            match field_schema fields k with
            | Some s' => json_fits f s' v
            | None => true
            end) m
      | _, _ => false
      end
  end.

(** A schema is at most [depth] levels deep; that much fuel decides it. *)
Fixpoint depth (s : schema) : nat :=
  match s with
  | SList s' => S (depth s')
  | SStruct fields => S (fold_right (fun p d => Nat.max (depth (snd p)) d) O fields)
  | _ => 1%nat
  end.
Definition fits (s : schema) (j : json) : bool := json_fits (depth s) s j.

(** The last non-null value assigned to a field. *)
Definition assigned (j : json) (name : string) : option json :=
  match j with
  | JObj m =>
      fold_left (fun acc '(k, v) =>
        if same_key name k then match v with JNull => acc | _ => Some v end else acc) m None
  | _ => None
  end.

(** The last value of a field, null included: what a pointer, an [interface{}] or
    a [RawMessage] ends as. *)
Definition last_value (j : json) (name : string) : option json :=
  match j with
  | JObj m => snd <$> find (fun p => same_key name (fst p)) (rev m)
  | _ => None
  end.

(** The members a struct field is decoded from: every object under its key, in
    order. *)
Definition sub_object (j : json) (name : string) : json :=
  match j with
  | JObj m => JObj (concat (map (fun '(k, v) => if same_key name k then match v with JObj o => o | _ => [] end else []) m))
  | _ => JObj []
  end.

(** [json.Unmarshal] of the bytes of a [RawMessage], which are empty when the
    field was absent. *)
Definition Unmarshal (s : schema) (b : option json) : option json :=
  j ← b; if fits s j then Some j else None.

Definition field_string (j : json) (name : string) : string :=
  match assigned j name with Some (JStr s) => s | _ => EmptyString end.
Definition field_bool (j : json) (name : string) : bool :=
  match assigned j name with Some (JBool b) => b | _ => false end.
Definition field_int (j : json) (name : string) : Z :=
  match assigned j name with Some (JNum l) => fst (ParseInt l 10) | _ => 0 end.
Definition field_uint (j : json) (name : string) : Z :=
  match assigned j name with Some (JNum l) => fst (ParseUint l 10) | _ => 0 end.
Definition field_float (j : json) (name : string) : float64 :=
  match assigned j name with Some (JNum l) => fst (ParseFloat l) | _ => fzero end.
Definition field_list (j : json) (name : string) : list json :=
  match assigned j name with Some (JArr l) => l | _ => [] end.
