(* ===== verification/JsonText.v ===== *)
(** * JsonText: encoding/json as text

    What [json.Marshal] writes and what [json.Unmarshal] reads of it: the quoting
    of strings with its escapes, UTF-8 and surrogates, numbers, and nested values.
    A value is the [json] of Types; a number is the literal of the text. *)
From Stdlib Require Import ZArith Lia List Strings.Ascii Strings.String Floats.SpecFloat.
From stdpp Require Import base list strings.
From S2P Require Import Prelude Bytes Float Strconv Types.
Import ListNotations.
Local Open Scope string_scope.
Local Open Scope Z_scope.

(** ** Characters *)
Definition char_is (n : Z) (c : ascii) : bool := code c =? n.
Definition between (a b : Z) (c : ascii) : bool := (a <=? code c) && (code c <=? b).
Definition quote_char : ascii := chr 34.
Definition backslash : ascii := chr 92.
Definition newline : ascii := chr 10.
Definition hex_char (v : Z) : ascii := if v <? 10 then chr (48 + v) else chr (87 + v).
Definition hex_digit (c : ascii) : option Z :=
  if between 48 57 c then Some (code c - 48)
  else if between 97 102 c then Some (code c - 87)
  else if between 65 70 c then Some (code c - 55)
  else None.

(** ** UTF-8 (package utf8) *)

Definition tail_byte : ascii -> bool := between 128 191.
(** The second byte of a sequence of three, or of four. *)
Definition second3 (c0 : ascii) : ascii -> bool :=
  if char_is 224 c0 then between 160 191 else if char_is 237 c0 then between 128 159 else tail_byte.
Definition second4 (c0 : ascii) : ascii -> bool :=
  if char_is 240 c0 then between 144 191 else if char_is 244 c0 then between 128 143 else tail_byte.
(** How many bytes the rune at the head of a text has; 0 when it is none. *)
Definition rune_size (s : string) : nat :=
  match s with
  | EmptyString => 0%nat
  | String c0 s1 =>
      if code c0 <? 128 then 1%nat
      else if between 194 223 c0 then
        match s1 with String c1 _ => if tail_byte c1 then 2%nat else 0%nat | _ => 0%nat end
      else if between 224 239 c0 then
        match s1 with String c1 (String c2 _) => if second3 c0 c1 && tail_byte c2 then 3%nat else 0%nat | _ => 0%nat end
      else if between 240 244 c0 then
        match s1 with
        | String c1 (String c2 (String c3 _)) => if second4 c0 c1 && tail_byte c2 && tail_byte c3 then 4%nat else 0%nat
        | _ => 0%nat
        end
      else 0%nat
  end.
(** [utf8.AppendRune]; what is no rune becomes U+FFFD. *)
Definition AppendRune (r : Z) : string :=
  let r := if (r <? 0) || (1114111 <? r) || ((55296 <=? r) && (r <=? 57343)) then 65533 else r in
  let low k := chr (128 + (r / 2 ^ k) mod 64) in
  if r <? 128 then String (chr r) ""
  else if r <? 2048 then String (chr (192 + r / 64)) (String (low 0) "")
  else if r <? 65536 then String (chr (224 + r / 4096)) (String (low 6) (String (low 0) ""))
  else String (chr (240 + r / 262144)) (String (low 12) (String (low 6) (String (low 0) ""))).
Definition replacement : string := AppendRune 65533.

(** ** Writing *)

(** [\u00XX] *)
Definition u00 (c : ascii) : string :=
  String backslash ("u00" ++ String (hex_char (code c / 16)) (String (hex_char (code c mod 16)) "")).
(** A character below 128. *)
Definition escape (c : ascii) : string :=
  if char_is 34 c || char_is 92 c then String backslash (String c "")
  else if char_is 8 c then String backslash "b"
  else if char_is 12 c then String backslash "f"
  else if char_is 10 c then String backslash "n"
  else if char_is 13 c then String backslash "r"
  else if char_is 9 c then String backslash "t"
  else if (code c <? 32) || char_is 60 c || char_is 62 c || char_is 38 c then u00 c
  else String c "".
(** U+2028 and U+2029 are line separators to JavaScript. *)
Definition escape3 (c0 c1 c2 : ascii) : string :=
  if char_is 226 c0 && char_is 128 c1 && (char_is 168 c2 || char_is 169 c2)
  then String backslash ("u202" ++ String (hex_char (code c2 - 160)) "")
  else String c0 (String c1 (String c2 "")).
Definition invalid_escape : string := String backslash "ufffd".

Fixpoint escaped (s : string) : string :=
  match s with
  | EmptyString => ""
  | String c0 s1 =>
      match rune_size s, s1 with
      | 1%nat, _ => escape c0 ++ escaped s1
      | 2%nat, String c1 s2 => String c0 (String c1 (escaped s2))
      | 3%nat, String c1 (String c2 s3) => escape3 c0 c1 c2 ++ escaped s3
      | 4%nat, String c1 (String c2 (String c3 s4)) => String c0 (String c1 (String c2 (String c3 (escaped s4))))
      | _, _ => invalid_escape ++ escaped s1
      end
  end.
Definition quote (s : string) : string := String quote_char (escaped s ++ String quote_char "").

Definition comma_separated (l : list string) : string := Join l ",".
Fixpoint print (j : json) : string :=
  match j with
  | JNull => "null"
  | JBool true => "true"
  | JBool false => "false"
  | JNum lit => lit
  | JStr s => quote s
  | JArr l => "[" ++ comma_separated (map print l) ++ "]"
  | JObj m => "{" ++ comma_separated (map (fun p => quote (fst p) ++ ":" ++ print (snd p)) m) ++ "}"
  end.

(** [json.MarshalIndent] with two spaces *)
Fixpoint spaces (n : nat) : string := match n with O => "" | S n => "  " ++ spaces n end.
Fixpoint print_indent (level : nat) (j : json) : string :=
  let block (open close : string) (l : list string) :=
    open ++ String newline "" ++ Join (map (fun s => spaces (S level) ++ s) l) ("," ++ String newline "")
      ++ String newline (spaces level ++ close) in
  match j with
  | JArr [] => "[]"
  | JArr l => block "[" "]" (map (print_indent (S level)) l)
  | JObj [] => "{}"
  | JObj m => block "{" "}" (map (fun p => quote (fst p) ++ ": " ++ print_indent (S level) (snd p)) m)
  | _ => print j
  end.

(** ** Reading *)

Definition is_space (c : ascii) : bool := char_is 32 c || char_is 9 c || char_is 10 c || char_is 13 c.
Fixpoint skip (s : string) : string :=
  match s with String c s' => if is_space c then skip s' else s | EmptyString => "" end.

(** *** Strings *)
Definition simple_escape (c : ascii) : option ascii :=
  if char_is 34 c || char_is 92 c || char_is 47 c then Some c
  else if char_is 98 c then Some (chr 8)
  else if char_is 102 c then Some (chr 12)
  else if char_is 110 c then Some (chr 10)
  else if char_is 114 c then Some (chr 13)
  else if char_is 116 c then Some (chr 9)
  else None.
Definition hex4 (a b c d : ascii) : option Z :=
  a ← hex_digit a; b ← hex_digit b; c ← hex_digit c; d ← hex_digit d; Some (4096 * a + 256 * b + 16 * c + d).
Definition surrogate (r : Z) : bool := (55296 <=? r) && (r <=? 57343).
(** [utf16.DecodeRune]; [None] when the pair is not one. *)
Definition decode_pair (r1 r2 : Z) : option Z :=
  if (55296 <=? r1) && (r1 <? 56320) && (56320 <=? r2) && (r2 <? 57344)
  then Some (65536 + (r1 - 55296) * 1024 + (r2 - 56320)) else None.
Definition then_text (t : string) (r : option (string * string)) : option (string * string) :=
  match r with Some (u, rest) => Some (t ++ u, rest) | None => None end.
(** The rest of a string after its opening quote: what it stands for, and what
    comes after the closing one. *)
Fixpoint read_string (s : string) : option (string * string) :=
  match s with
  | EmptyString => None
  | String c0 s1 =>
      if char_is 34 c0 then Some ("", s1)
      else if char_is 92 c0 then
        match s1 with
        | String e s2 =>
            if char_is 117 e then
              match s2 with
              | String a (String b (String c (String d s6))) =>
                  match hex4 a b c d with
                  | None => None
                  | Some r =>
                      if surrogate r then
                        match s6 with
                        | String x (String y (String a' (String b' (String c' (String d' s12))))) =>
                            match (if char_is 92 x && char_is 117 y then hex4 a' b' c' d' ≫= decode_pair r else None) with
                            | Some full => then_text (AppendRune full) (read_string s12)
                            | None => then_text replacement (read_string s6)
                            end
                        | _ => then_text replacement (read_string s6)
                        end
                      else then_text (AppendRune r) (read_string s6)
                  end
              | _ => None
              end
            else match simple_escape e with Some c => then_text (String c "") (read_string s2) | None => None end
        | EmptyString => None
        end
      else if code c0 <? 32 then None
      else
        match rune_size s, s1 with
        | 1%nat, _ => then_text (String c0 "") (read_string s1)
        | 2%nat, String c1 s2 => then_text (String c0 (String c1 "")) (read_string s2)
        | 3%nat, String c1 (String c2 s3) => then_text (String c0 (String c1 (String c2 ""))) (read_string s3)
        | 4%nat, String c1 (String c2 (String c3 s4)) =>
            then_text (String c0 (String c1 (String c2 (String c3 "")))) (read_string s4)
        | _, _ => then_text replacement (read_string s1)
        end
  end.

(** *** Numbers *)
Definition is_digit : ascii -> bool := between 48 57.
(** The digits at the head, and the rest. *)
Fixpoint digits (s : string) : string * string :=
  match s with
  | String c s' => if is_digit c then let '(d, r) := digits s' in (String c d, r) else ("", s)
  | EmptyString => ("", "")
  end.
Definition some_digits (s : string) : option (string * string) :=
  match digits s with (EmptyString, _) => None | r => Some r end.
Definition read_sign (minus_only : bool) (s : string) : string * string :=
  match s with
  | String c s' => if char_is 45 c || (negb minus_only && char_is 43 c) then (String c "", s') else ("", s)
  | EmptyString => ("", "")
  end.
Definition read_whole (s : string) : option (string * string) :=
  match s with
  | String c s' => if char_is 48 c then Some (String c "", s') else some_digits s
  | EmptyString => None
  end.
Definition read_fraction (s : string) : option (string * string) :=
  match s with
  | String c s' => if char_is 46 c then '(d, r) ← some_digits s'; Some (String c d, r) else Some ("", s)
  | EmptyString => Some ("", "")
  end.
Definition read_exponent (s : string) : option (string * string) :=
  match s with
  | String c s' =>
      if char_is 101 c || char_is 69 c then
        let '(g, s'') := read_sign false s' in '(d, r) ← some_digits s''; Some (String c (g ++ d), r)
      else Some ("", s)
  | EmptyString => Some ("", "")
  end.
Definition read_number (s : string) : option (string * string) :=
  let '(g, s) := read_sign true s in
  '(w, s) ← read_whole s;
  '(f, s) ← read_fraction s;
  '(e, s) ← read_exponent s;
  Some (g ++ w ++ f ++ e, s).

(** *** Values *)
Definition literal (word : string) (j : json) (s : string) : option (json * string) :=
  if String.prefix word s then Some (j, substring (String.length word) (String.length s - String.length word) s) else None.

(** [depth] is how many more arrays and objects may open. *)
Fixpoint read_value (fuel : nat) (depth : Z) (s : string) {struct fuel} : option (json * string) :=
  match fuel with
  | O => None
  | S f =>
      match skip s with
      | EmptyString => None
      | String c s1 =>
          if char_is 34 c then '(t, r) ← read_string s1; Some (JStr t, r)
          else if char_is 123 c then
            if depth <? 1 then None
            else match skip s1 with
                 | String c' r => if char_is 125 c' then Some (JObj [], r)
                                  else '(m, r) ← read_members f (depth - 1) s1; Some (JObj m, r)
                 | EmptyString => None
                 end
          else if char_is 91 c then
            if depth <? 1 then None
            else match skip s1 with
                 | String c' r => if char_is 93 c' then Some (JArr [], r)
                                  else '(l, r) ← read_elements f (depth - 1) s1; Some (JArr l, r)
                 | EmptyString => None
                 end
          else if char_is 116 c then literal "true" (JBool true) (String c s1)
          else if char_is 102 c then literal "false" (JBool false) (String c s1)
          else if char_is 110 c then literal "null" JNull (String c s1)
          else '(n, r) ← read_number (String c s1); Some (JNum n, r)
      end
  end
with read_elements (fuel : nat) (depth : Z) (s : string) {struct fuel} : option (list json * string) :=
  match fuel with
  | O => None
  | S f =>
      '(j, r) ← read_value f depth s;
      match skip r with
      | String c r =>
          if char_is 93 c then Some ([j], r)
          else if char_is 44 c then '(l, r) ← read_elements f depth r; Some (j :: l, r)
          else None
      | EmptyString => None
      end
  end
with read_members (fuel : nat) (depth : Z) (s : string) {struct fuel} : option (list (string * json) * string) :=
  match fuel with
  | O => None
  | S f =>
      match skip s with
      | String q s1 =>
          if char_is 34 q then
            '(k, r) ← read_string s1;
            match skip r with
            | String c r =>
                if char_is 58 c then
                  '(j, r) ← read_value f depth r;
                  match skip r with
                  | String c r =>
                      if char_is 125 c then Some ([(k, j)], r)
                      else if char_is 44 c then '(m, r) ← read_members f depth r; Some ((k, j) :: m, r)
                      else None
                  | EmptyString => None
                  end
                else None
            | EmptyString => None
            end
          else None
      | EmptyString => None
      end
  end.

Definition max_depth : Z := 10000.
(** A value takes two calls to a character. *)
Definition Parse (s : string) : option json :=
  '(j, r) ← read_value (2 * String.length s + 2) max_depth s;
  match skip r with EmptyString => Some j | _ => None end.

(** ** Concrete texts *)
Definition dq (s : string) : string := String quote_char (s ++ String quote_char "").
Definition esc (s : string) : string := String backslash s.
Example quote_escapes : quote ("a" ++ String quote_char "<" ++ String newline (String (chr 233) "")) = dq ("a" ++ esc (String quote_char "") ++ esc "u003c" ++ esc "n" ++ esc "ufffd").
Proof. vm_compute. reflexivity. Qed.
Example parse_surrogates : Parse (dq (esc "ud83d" ++ esc "ude00" ++ esc "ud83d" ++ "x"))
  = Some (JStr (AppendRune 128512 ++ replacement ++ "x")).
Proof. vm_compute. reflexivity. Qed.
Example parse_nested : Parse ("{ " ++ dq "a" ++ " : [1, -2.5e+3 ,true,null] }" ++ String newline "")
  = Some (JObj [("a", JArr [JNum "1"; JNum "-2.5e+3"; JBool true; JNull])]).
Proof. vm_compute. reflexivity. Qed.
Example parse_indented : let j := JObj [("a", JArr [JNum "1"; JObj []]); ("b", JArr [])] in Parse (print_indent 0 j) = Some j.
Proof. vm_compute. reflexivity. Qed.
Example parse_rejects : map Parse ["01"; "1."; "[1,]"; "{a:1}"; "nul"; "1 2"; ""; "+1"; "[1"; "-"; dq (esc "x")] = repeat None 11.
Proof. vm_compute. reflexivity. Qed.

(** ** What is written is read back *)

(** *** Induction on nested values *)
Section Nested.
Variable P : json -> Prop.
Hypothesis PNull : P JNull.
Hypothesis PBool : forall b, P (JBool b).
Hypothesis PNum : forall l, P (JNum l).
Hypothesis PStr : forall s, P (JStr s).
Hypothesis PArr : forall l, Forall P l -> P (JArr l).
Hypothesis PObj : forall m, Forall (fun p => P (snd p)) m -> P (JObj m).
Fixpoint json_nested (j : json) : P j :=
  match j with
  | JNull => PNull
  | JBool b => PBool b
  | JNum l => PNum l
  | JStr s => PStr s
  | JArr l => PArr l ((fix go l : Forall P l :=
                         match l with [] => Forall_nil_2 _ | j :: l => Forall_cons_2 _ _ _ (json_nested j) (go l) end) l)
  | JObj m => PObj m ((fix go m : Forall (fun p => P (snd p)) m :=
                         match m with [] => Forall_nil_2 _ | p :: m => Forall_cons_2 _ _ _ (json_nested (snd p)) (go m) end) m)
  end.
End Nested.

(** *** Well-formed values *)
Fixpoint valid_utf8 (s : string) : bool :=
  match s with
  | EmptyString => true
  | String c0 s1 =>
      match rune_size s, s1 with
      | 1%nat, _ => valid_utf8 s1
      | 2%nat, String _ s2 => valid_utf8 s2
      | 3%nat, String _ (String _ s3) => valid_utf8 s3
      | 4%nat, String _ (String _ (String _ s4)) => valid_utf8 s4
      | _, _ => false
      end
  end.
Definition number_ok (l : string) : bool :=
  match read_number l with Some (n, EmptyString) => String.eqb n l | _ => false end.
Fixpoint well_formed (j : json) : bool :=
  match j with
  | JNum l => number_ok l
  | JStr s => valid_utf8 s
  | JArr l => forallb well_formed l
  | JObj m => forallb (fun p => valid_utf8 (fst p) && well_formed (snd p)) m
  | _ => true
  end.
Fixpoint height (j : json) : Z :=
  match j with
  | JArr l => 1 + fold_right (fun j d => Z.max (height j) d) 0 l
  | JObj m => 1 + fold_right (fun p d => Z.max (height (snd p)) d) 0 m
  | _ => 0
  end.

(** *** Characters *)
Lemma code_inj a b : code a = code b -> a = b.
Proof.
  unfold code. intros E. apply N2Z.inj in E. rewrite <- (ascii_N_embedding a), <- (ascii_N_embedding b). by f_equal.
Qed.
Lemma char_is_true n c : char_is n c = true -> code c = n.
Proof. apply Z.eqb_eq. Qed.
Lemma char_is_chr n c : 0 <= n < 256 -> char_is n c = true -> c = chr n.
Proof.
  intros Hn E%char_is_true. apply code_inj. rewrite E. symmetry. by apply code_chr.
Qed.
Lemma char_is_other n c : code c <> n -> char_is n c = false.
Proof. apply Z.eqb_neq. Qed.
Lemma high_other n c : 128 <= code c -> n < 128 -> char_is n c = false.
Proof. intros. apply char_is_other. lia. Qed.

(** *** Strings *)
Lemma then_text_assoc a b r : then_text a (then_text b r) = then_text (a ++ b) r.
Proof. destruct r as [[u v]|]; [|done]. cbn. by rewrite string_app_assoc. Qed.

(** An escape is read as its character, whatever follows. *)
Lemma read_escape c r : code c < 128 -> read_string (escape c ++ r) = then_text (String c "") (read_string r).
Proof.
  intros Hc. destruct c as [[] [] [] [] [] [] [] []]; try (exfalso; revert Hc; by vm_compute); try reflexivity.
Qed.
Lemma rune_size_ascii c s : code c < 128 -> rune_size (String c s) = 1%nat.
Proof. intros H. cbn [rune_size]. by rewrite (proj2 (Z.ltb_lt _ _) H). Qed.
(** What a size says of the bytes; it does not depend on what follows them. *)
Lemma rune_size_cases s :
  match rune_size s with
  | 1%nat => exists c s', s = String c s' /\ code c < 128
  | 2%nat => exists a b s', s = String a (String b s') /\ 128 <= code a /\ 128 <= code b /\
      forall t, rune_size (String a (String b t)) = 2%nat
  | 3%nat => exists a b c s', s = String a (String b (String c s')) /\ 128 <= code a /\ 128 <= code b /\ 128 <= code c /\
      forall t, rune_size (String a (String b (String c t))) = 3%nat
  | 4%nat => exists a b c d s', s = String a (String b (String c (String d s'))) /\
      128 <= code a /\ 128 <= code b /\ 128 <= code c /\ 128 <= code d /\
      forall t, rune_size (String a (String b (String c (String d t)))) = 4%nat
  | _ => True
  end.
Proof.
  assert (forall a b c, between a b c = true -> a <= code c <= b) as B
    by (intros a b c E%andb_true_iff; destruct E as [E1%Z.leb_le E2%Z.leb_le]; lia).
  assert (forall a c, second3 a c = true -> 128 <= code c) as B3.
  { intros a c. unfold second3, tail_byte. destruct (char_is 224 a), (char_is 237 a); intros E%B; lia. }
  assert (forall a c, second4 a c = true -> 128 <= code c) as B4.
  { intros a c. unfold second4, tail_byte. destruct (char_is 240 a), (char_is 244 a); intros E%B; lia. }
  destruct s as [|a s]; cbn [rune_size]; [done|].
  destruct (Z.ltb_spec (code a) 128) as [H|H]; [by exists a, s|].
  destruct (between 194 223 a) eqn:E2.
  { destruct s as [|b s]; [done|]. destruct (tail_byte b) eqn:Eb; [|done]. exists a, b, s.
    split_and!; [done|lia|apply B in Eb; lia|]. intros t. cbn [rune_size].
    by rewrite (proj2 (Z.ltb_ge _ _) H), E2, Eb. }
  destruct (between 224 239 a) eqn:E3.
  { destruct s as [|b [|c s]]; [done|done|]. destruct (second3 a b) eqn:Eb; [|done]. destruct (tail_byte c) eqn:Ec; [|done].
    exists a, b, c, s. split_and!; [done|lia|by eapply B3|apply B in Ec; lia|]. intros t. cbn [rune_size].
    by rewrite (proj2 (Z.ltb_ge _ _) H), E2, E3, Eb, Ec. }
  destruct (between 240 244 a) eqn:E4; [|done].
  destruct s as [|b [|c [|d s]]]; [done|done|done|]. destruct (second4 a b) eqn:Eb; [|done].
  destruct (tail_byte c) eqn:Ec; [|done]. destruct (tail_byte d) eqn:Ed; [|done].
  exists a, b, c, d, s. split_and!; [done|lia|by eapply B4|apply B in Ec; lia|apply B in Ed; lia|].
  intros t. cbn [rune_size]. by rewrite (proj2 (Z.ltb_ge _ _) H), E2, E3, E4, Eb, Ec, Ed.
Qed.

(** Induction along the runes of a valid text. *)
Lemma valid_utf8_rect (P : string -> Prop) :
  P "" ->
  (forall c s, code c < 128 -> P s -> P (String c s)) ->
  (forall a b s, 128 <= code a -> 128 <= code b -> (forall t, rune_size (String a (String b t)) = 2%nat) ->
     P s -> P (String a (String b s))) ->
  (forall a b c s, 128 <= code a -> 128 <= code b -> 128 <= code c ->
     (forall t, rune_size (String a (String b (String c t))) = 3%nat) -> P s -> P (String a (String b (String c s)))) ->
  (forall a b c d s, 128 <= code a -> 128 <= code b -> 128 <= code c -> 128 <= code d ->
     (forall t, rune_size (String a (String b (String c (String d t)))) = 4%nat) ->
     P s -> P (String a (String b (String c (String d s))))) ->
  forall s, valid_utf8 s = true -> P s.
Proof.
  intros P0 P1 P2 P3 P4 s. remember (String.length s) as n eqn:En. revert s En.
  induction (lt_wf n) as [n _ IH]. intros s -> V.
  assert (forall t, (String.length t < String.length s)%nat -> valid_utf8 t = true -> P t) as IH'
    by (intros t Ht; by eapply IH).
  clear IH. destruct s as [|c0 s1]; [exact P0|]. cbn [valid_utf8] in V. pose proof (rune_size_cases (String c0 s1)) as C.
  destruct (rune_size (String c0 s1)) as [|[|[|[|[|]]]]]; try (destruct s1; discriminate V).
  - destruct C as (c & s & [= -> ->] & Hc). apply P1; [done|]. apply IH'; [cbn; lia|done].
  - destruct C as (a & b & s & [= -> ->] & Ha & Hb & R). apply P2; try done. apply IH'; [cbn; lia|done].
  - destruct C as (a & b & c & s & [= -> ->] & Ha & Hb & Hc & R). apply P3; try done. apply IH'; [cbn; lia|done].
  - destruct C as (a & b & c & d & s & [= -> ->] & Ha & Hb & Hc & Hd & R). apply P4; try done. apply IH'; [cbn; lia|done].
Qed.

Lemma escape3_cases a b c : 128 <= code a -> 128 <= code b -> 128 <= code c ->
  escape3 a b c = String a (String b (String c "")) \/
  (exists n, (n = 8 \/ n = 9) /\ escape3 a b c = String backslash ("u202" ++ String (hex_char n) "") /\
     AppendRune (8224 + n) = String a (String b (String c ""))).
Proof.
  intros _ _ _. unfold escape3. destruct (char_is 226 a) eqn:Ea; [|by left]. destruct (char_is 128 b) eqn:Eb; [|by left].
  apply char_is_chr in Ea as ->; [|lia]. apply char_is_chr in Eb as ->; [|lia].
  destruct (char_is 168 c) eqn:E8; [|destruct (char_is 169 c) eqn:E9; [|by left]]; right.
  - apply char_is_chr in E8 as ->; [|lia]. exists 8. split_and!; [lia|done|done].
  - apply char_is_chr in E9 as ->; [|lia]. exists 9. split_and!; [lia|done|done].
Qed.

Lemma read_escaped s rest : valid_utf8 s = true -> read_string (escaped s ++ String quote_char rest) = Some (s, rest).
Proof.
  assert (forall a, 128 <= code a -> char_is 34 a = false /\ char_is 92 a = false /\ (code a <? 32) = false) as H.
  { intros a Ha. split_and!; [by apply high_other|by apply high_other|apply Z.ltb_ge; lia]. }
  intros V. revert rest.
  apply (valid_utf8_rect (fun s => forall rest, read_string (escaped s ++ String quote_char rest) = Some (s, rest))); [..|exact V];
    clear s V;
    [intros rest|intros c s Hc IH rest|intros a b s Ha Hb R IH rest|intros a b c s Ha Hb Hc R IH rest
    |intros a b c d s Ha Hb Hc Hd R IH rest].
  - reflexivity.
  - cbn [escaped]. rewrite (rune_size_ascii _ _ Hc), <- string_app_assoc, (read_escape _ _ Hc), IH. reflexivity.
  - cbn [escaped]. rewrite R. cbn [escaped]. rewrite !append_cons. cbn [read_string]. destruct (H a Ha) as (-> & -> & ->).
    by rewrite R, IH.
  - cbn [escaped]. rewrite R. cbn [escaped]. rewrite <- string_app_assoc.
    destruct (escape3_cases a b c Ha Hb Hc) as [->|(n & Hn & -> & E)].
    + rewrite !append_cons, append_nil. cbn [read_string]. destruct (H a Ha) as (-> & -> & ->). by rewrite R, IH.
    + rewrite !append_cons.
      transitivity (then_text (AppendRune (8224 + n)) (read_string (escaped s ++ String quote_char rest))).
      { destruct Hn as [-> | ->]; reflexivity. }
      by rewrite IH, E.
  - cbn [escaped]. rewrite R. cbn [escaped]. rewrite !append_cons. cbn [read_string]. destruct (H a Ha) as (-> & -> & ->).
    by rewrite R, IH.
Qed.

(** *** Numbers *)

(** What may follow a number. *)
Definition ends_number (rest : string) : bool :=
  match rest with String c _ => negb (is_digit c || char_is 46 c || char_is 101 c || char_is 69 c) | EmptyString => true end.
Section Number.
Variable rest : string.
Hypothesis ends : ends_number rest = true.

Lemma digits_app s : digits (s ++ rest) = (fst (digits s), snd (digits s) ++ rest).
Proof using ends.
  induction s as [|c s IH].
  - rewrite append_nil. cbn [digits fst snd]. rewrite append_nil. destruct rest as [|c r]; [done|]. cbn [digits].
    cbn in ends. by destruct (is_digit c).
  - rewrite append_cons. cbn [digits]. destruct (is_digit c); [|done]. rewrite IH. by destruct (digits s).
Qed.
Lemma some_digits_app s d r : some_digits s = Some (d, r) -> some_digits (s ++ rest) = Some (d, r ++ rest).
Proof using ends.
  unfold some_digits. rewrite digits_app. destruct (digits s) as [[|c d'] r']; [done|]. by intros [= <- <-].
Qed.
Lemma read_sign_app m s : s <> "" -> read_sign m (s ++ rest) = (fst (read_sign m s), snd (read_sign m s) ++ rest).
Proof using Type. destruct s as [|c s]; [done|]. intros _. rewrite append_cons. cbn [read_sign]. by destruct (_ || _). Qed.
Lemma read_whole_app s d r : read_whole s = Some (d, r) -> read_whole (s ++ rest) = Some (d, r ++ rest).
Proof using ends.
  destruct s as [|c s]; [done|]. rewrite append_cons. cbn [read_whole]. destruct (char_is 48 c); [by intros [= <- <-]|].
  rewrite <- append_cons. apply some_digits_app.
Qed.
Lemma read_fraction_app s d r : read_fraction s = Some (d, r) -> read_fraction (s ++ rest) = Some (d, r ++ rest).
Proof using ends.
  destruct s as [|c s].
  - intros [= <- <-]. rewrite append_nil. destruct rest as [|c r']; [done|]. cbn in *. destruct (char_is 46 c); [|done].
    by rewrite orb_true_r in ends.
  - rewrite append_cons. cbn [read_fraction]. destruct (char_is 46 c); [|by intros [= <- <-]].
    destruct (some_digits s) as [[d' r']|] eqn:E; [|done]. apply some_digits_app in E as ->. cbn. by intros [= <- <-].
Qed.
Lemma read_exponent_app s d r : read_exponent s = Some (d, r) -> read_exponent (s ++ rest) = Some (d, r ++ rest).
Proof using ends.
  destruct s as [|c s].
  - intros [= <- <-]. rewrite append_nil. destruct rest as [|c r']; [done|]. cbn in *.
    destruct (char_is 101 c), (char_is 69 c); rewrite ?orb_true_r in ends; done.
  - rewrite append_cons. cbn [read_exponent]. destruct (_ || _); [|by intros [= <- <-]].
    destruct s as [|x s]; [done|]. rewrite (read_sign_app false (String x s)) by done.
    destruct (read_sign false (String x s)) as [g s']. cbn [fst snd].
    destruct (some_digits s') as [[d' r']|] eqn:E; [|done]. apply some_digits_app in E as ->. cbn. by intros [= <- <-].
Qed.
Lemma read_number_app s n r : read_number s = Some (n, r) -> read_number (s ++ rest) = Some (n, r ++ rest).
Proof using ends.
  unfold read_number. destruct (decide (s = "")) as [->|Hs]; [done|]. rewrite (read_sign_app true s Hs).
  destruct (read_sign true s) as [g s1]. cbn [fst snd].
  destruct (read_whole s1) as [[w s2]|] eqn:E1; [|done]. apply read_whole_app in E1 as ->. cbn.
  destruct (read_fraction s2) as [[f s3]|] eqn:E2; [|done]. apply read_fraction_app in E2 as ->. cbn.
  destruct (read_exponent s3) as [[e s4]|] eqn:E3; [|done]. apply read_exponent_app in E3 as ->. cbn. by intros [= <- <-].
Qed.
End Number.

Lemma number_ok_read l : number_ok l = true -> read_number l = Some (l, "").
Proof.
  unfold number_ok. destruct (read_number l) as [[n [|? ?]]|] eqn:E; [|done|done]. by intros ->%String.eqb_eq.
Qed.
Lemma number_head l : number_ok l = true -> exists c s, l = String c s /\ (code c = 45 \/ 48 <= code c <= 57).
Proof.
  intros E%number_ok_read. destruct l as [|c s]; [discriminate E|]. exists c, s. split; [done|].
  unfold read_number in E. cbn [read_sign] in E. destruct (char_is 45 c) eqn:E45; [left; by apply char_is_true|right].
  cbn [orb negb andb] in E. cbn [read_whole] in E.
  destruct (char_is 48 c) eqn:E48; [apply char_is_true in E48; lia|]. unfold some_digits in E. cbn [digits] in E.
  destruct (is_digit c) eqn:Ed; [|done]. unfold is_digit, between in Ed. lia.
Qed.

(** Formatted integers are numbers. *)
Lemma format_digits_digits fuel n acc : 0 <= n -> digits acc = (acc, "") ->
  digits (format_digits fuel n acc) = (format_digits fuel n acc, "").
Proof.
  revert n acc. induction fuel as [|f IH]; intros n acc Hn Ha; [done|]. cbn [format_digits].
  assert (digits (String (chr (48 + n mod 10)) acc) = (String (chr (48 + n mod 10)) acc, "")) as E.
  { pose proof (Z.mod_pos_bound n 10 ltac:(lia)). cbn [digits]. unfold is_digit, between. rewrite code_chr by lia.
    replace (48 <=? 48 + n mod 10) with true by lia. replace (48 + n mod 10 <=? 57) with true by lia. cbn [andb]. by rewrite Ha. }
  destruct (n <? 10); [done|]. apply IH; [|done]. apply Z.div_pos; lia.
Qed.
Lemma format_digits_leading fuel n acc : 1 <= n < 10 ^ Z.of_nat fuel ->
  exists c t, format_digits fuel n acc = String c t /\ 49 <= code c <= 57.
Proof.
  revert n acc. induction fuel as [|f IH]; intros n acc Hn; [cbn in Hn; lia|]. cbn [format_digits].
  destruct (Z.ltb_spec n 10) as [Hl|Hl].
  - exists (chr (48 + n mod 10)), acc. split; [done|]. rewrite Z.mod_small by lia. rewrite code_chr by lia. lia.
  - apply IH. rewrite Nat2Z.inj_succ, Z.pow_succ_r in Hn by lia. split.
    + apply Z.div_le_lower_bound; lia.
    + apply Z.div_lt_upper_bound; lia.
Qed.
Lemma number_ok_FormatUint n : 0 <= n < 2 ^ 64 -> number_ok (FormatUint n) = true.
Proof.
  intros Hn. destruct (decide (n = 0)) as [->|H0]; [done|].
  destruct (format_digits_leading 20 n "") as (c & t & E & Hc); [change (10 ^ Z.of_nat 20) with 100000000000000000000; lia|].
  pose proof (format_digits_digits 20 n "" ltac:(lia) eq_refl) as D. fold (FormatUint n) in *. rewrite E in *.
  unfold number_ok, read_number. cbn [read_sign]. rewrite (char_is_other 45 c) by lia. cbn [negb andb orb].
  cbn [read_whole]. rewrite (char_is_other 48 c) by lia. unfold some_digits. rewrite D. cbn.
  by rewrite string_app_nil_r, String.eqb_refl.
Qed.

(** *** Values *)

(** The first character decides what kind of value it is. *)
Lemma print_head j : well_formed j = true ->
  exists c s, print j = String c s /\ is_space c = false /\ code c <> 93 /\ code c <> 125 /\ code c <> 44.
Proof.
  destruct j as [|[]|l|s|l|m]; intros W; try (eexists _, _; split_and!; [reflexivity|done..]).
  apply number_head in W as (c & s & -> & Hc). exists c, s. split_and!; [done| |lia..].
  unfold is_space, char_is. repeat rewrite orb_false_iff. rewrite !Z.eqb_neq. lia.
Qed.
Lemma skip_head c s : is_space c = false -> skip (String c s) = String c s.
Proof. intros H. cbn [skip]. by rewrite H. Qed.
Lemma print_length j : well_formed j = true -> (1 <= String.length (print j))%nat.
Proof. intros (c & s & -> & _)%print_head. cbn. lia. Qed.

Definition reads (j : json) : Prop := well_formed j = true -> forall f d rest,
  (2 * String.length (print j) <= f)%nat -> height j <= d -> ends_number rest = true ->
  read_value f d (print j ++ rest) = Some (j, rest).

Lemma comma_cons x y l : comma_separated (x :: y :: l) = x ++ "," ++ comma_separated (y :: l).
Proof. reflexivity. Qed.
Lemma height_arr x l : height (JArr (x :: l)) = 1 + Z.max (height x) (height (JArr l) - 1).
Proof. cbn [height fold_right]. lia. Qed.
Lemma height_obj p m : height (JObj (p :: m)) = 1 + Z.max (height (snd p)) (height (JObj m) - 1).
Proof. cbn [height fold_right]. lia. Qed.
Lemma skip_structural c s : 33 <= code c -> skip (String c s) = String c s.
Proof. intros H. apply skip_head. unfold is_space, char_is. repeat rewrite orb_false_iff. rewrite !Z.eqb_neq. lia. Qed.

Lemma read_elements_print l : l <> [] -> Forall reads l -> forallb well_formed l = true ->
  forall f d rest, (2 * String.length (comma_separated (map print l)) + 1 <= f)%nat -> height (JArr l) - 1 <= d ->
  read_elements f d (comma_separated (map print l) ++ "]" ++ rest) = Some (l, rest).
Proof.
  induction l as [|x l IH]; [done|]. intros _ F W f d rest Hf Hd. apply Forall_cons in F as [Hx F].
  cbn [forallb] in W. apply andb_true_iff in W as [Wx W]. rewrite height_arr in Hd.
  destruct f as [|f]; [lia|]. cbn [read_elements]. destruct l as [|y l].
  - cbn [map comma_separated Join] in *. rewrite (Hx Wx) by (done || lia). cbn [mbind option_bind].
    by rewrite append_cons, append_nil, skip_structural.
  - cbn [map] in *. rewrite comma_cons in *. rewrite !string_length_app in Hf. cbn [String.length] in Hf.
    rewrite <- !string_app_assoc, (Hx Wx) by (done || lia). cbn [mbind option_bind].
    rewrite append_cons, append_nil, skip_structural by done. change (char_is 93 ",") with false.
    change (char_is 44 ",") with true. cbv iota. pose proof (print_length x Wx).
    rewrite IH; [done|done|done|done|lia|lia].
Qed.
Definition print_member (p : string * json) : string := quote (fst p) ++ ":" ++ print (snd p).
Lemma quote_app s t : quote s ++ t = String quote_char (escaped s ++ String quote_char t).
Proof. unfold quote. by rewrite append_cons, <- string_app_assoc, append_cons, append_nil. Qed.
Lemma read_members_print m : m <> [] -> Forall (fun p => reads (snd p)) m ->
  forallb (fun p => valid_utf8 (fst p) && well_formed (snd p)) m = true ->
  forall f d rest, (2 * String.length (comma_separated (map print_member m)) + 1 <= f)%nat -> height (JObj m) - 1 <= d ->
  read_members f d (comma_separated (map print_member m) ++ "}" ++ rest) = Some (m, rest).
Proof.
  induction m as [|[k x] m IH]; [done|]. intros _ F W f d rest Hf Hd. apply Forall_cons in F as [Hx F]. cbn [snd] in Hx.
  cbn [forallb fst snd] in W. apply andb_true_iff in W as [[Wk Wx]%andb_true_iff W]. rewrite height_obj in Hd. cbn [snd] in Hd.
  assert (forall t, (2 * String.length (print x) <= pred f)%nat -> ends_number t = true ->
    read_members f d (print_member (k, x) ++ t)
    = match skip t with
      | String c r => if char_is 125 c then Some ([(k, x)], r)
                      else if char_is 44 c then '(m, r) ← read_members (pred f) d r; Some ((k, x) :: m, r) else None
      | EmptyString => None
      end) as Step.
  { intros t Hl Ht. destruct f as [|f]; [cbn in Hf; lia|]. cbn [pred] in *. cbn [read_members].
    unfold print_member. cbn [fst snd]. rewrite <- !string_app_assoc, quote_app, skip_structural by (vm_compute; done).
    change (char_is 34 quote_char) with true. cbv iota. rewrite (read_escaped k _ Wk). cbn [mbind option_bind].
    rewrite append_cons, append_nil, skip_structural by (vm_compute; done). change (char_is 58 ":") with true. cbv iota.
    rewrite (Hx Wx) by (done || lia). reflexivity. }
  assert (String.length (print x) + 3 <= String.length (print_member (k, x)))%nat as Hlen.
  { unfold print_member, quote. cbn [fst snd]. rewrite !string_length_app. cbn [String.length]. rewrite string_length_app. cbn. lia. }
  destruct m as [|y m].
  - cbn [map comma_separated Join] in *. rewrite Step by (done || lia).
    by rewrite append_cons, append_nil, skip_structural.
  - cbn [map] in *. rewrite comma_cons in *. rewrite !string_length_app in Hf. cbn [String.length] in Hf.
    rewrite <- !string_app_assoc, Step by (done || lia).
    rewrite append_cons, append_nil, skip_structural by done. change (char_is 125 ",") with false.
    change (char_is 44 ",") with true. cbv iota. rewrite IH; [done|done|done|done|lia|lia].
Qed.

Lemma literal_app w j rest : literal w j (w ++ rest) = Some (j, rest).
Proof.
  unfold literal. rewrite prefix_app, string_length_app. replace (_ - _)%nat with (String.length rest) by lia.
  pose proof (substring_middle w rest "") as E. rewrite string_app_nil_r in E. by rewrite E.
Qed.
Lemma height_arr_pos l : 1 <= height (JArr l).
Proof. cbn [height]. enough (0 <= fold_right (fun j d => Z.max (height j) d) 0 l) by lia. induction l; cbn [fold_right]; lia. Qed.
Lemma height_obj_pos m : 1 <= height (JObj m).
Proof. cbn [height]. enough (0 <= fold_right (fun p d => Z.max (height (snd p)) d) 0 m) by lia. induction m; cbn [fold_right]; lia. Qed.
Lemma print_obj m : print (JObj m) = "{" ++ comma_separated (map print_member m) ++ "}".
Proof. reflexivity. Qed.
Lemma skip_joined {A} (f : A -> string) l t (bad : Z) : l <> [] ->
  (forall x, x ∈ l -> exists c s, f x = String c s /\ is_space c = false /\ code c <> bad) ->
  exists c s, skip (comma_separated (map f l) ++ t) = String c s /\ char_is bad c = false.
Proof.
  destruct l as [|x l]; [done|]. intros _ H. destruct (H x) as (c & s & E & Hs & Hb); [left|].
  assert (exists s', comma_separated (map f (x :: l)) = String c s') as (s' & ->).
  { destruct l; cbn [map comma_separated Join]; rewrite E; [by eexists|]. rewrite append_cons. by eexists. }
  rewrite append_cons, skip_head by done. eexists _, _. split; [done|]. by apply char_is_other.
Qed.

Lemma read_print j : reads j.
Proof.
  induction j as [|[]|l|s|l IH|m IH] using json_nested; intros W f d rest Hf Hd He;
    (destruct f as [|f]; [pose proof (print_length _ W); lia|]).
  - apply (literal_app "null").
  - apply (literal_app "true").
  - apply (literal_app "false").
  - cbn [print] in *. destruct (number_head l W) as (c & s & -> & Hc). rewrite append_cons. cbn [read_value].
    rewrite skip_structural by lia.
    unfold char_is. repeat rewrite (proj2 (Z.eqb_neq _ _)) by lia.
    rewrite <- append_cons, (read_number_app rest He _ _ _ (number_ok_read _ W)). done.
  - cbn [print]. rewrite quote_app. cbn [read_value]. rewrite skip_structural by (vm_compute; done).
    change (char_is 34 quote_char) with true. cbv iota. by rewrite (read_escaped s _ W).
  - cbn [print]. rewrite <- !string_app_assoc, append_cons, append_nil. cbn [read_value]. rewrite skip_structural by done.
    change (char_is 34 "[") with false. change (char_is 123 "[") with false. change (char_is 91 "[") with true. cbv iota.
    pose proof (height_arr_pos l).
    replace (d <? 1) with false by lia. destruct (decide (l = [])) as [->|Hl]; [reflexivity|].
    assert (forallb well_formed l = true) as Wl by done.
    destruct (skip_joined print l ("]" ++ rest) 93 Hl) as (c & s & -> & ->).
    { intros x Hx. destruct (print_head x) as (c & s & ? & ? & ? & ?); [|by exists c, s].
      rewrite forallb_forall in Wl. apply Wl. by apply list_elem_of_In. }
    rewrite read_elements_print; [done|done|done|done| |lia]. cbn [print] in Hf. rewrite !string_length_app in Hf. cbn in Hf. lia.
  - rewrite print_obj in *. rewrite <- !string_app_assoc, append_cons, append_nil. cbn [read_value]. rewrite skip_structural by done.
    change (char_is 34 "{") with false. change (char_is 123 "{") with true. cbv iota.
    pose proof (height_obj_pos m).
    replace (d <? 1) with false by lia. destruct (decide (m = [])) as [->|Hm]; [reflexivity|].
    destruct (skip_joined print_member m ("}" ++ rest) 125 Hm) as (c & s & -> & ->).
    { intros x Hx. unfold print_member. rewrite quote_app. by eexists _, _. }
    rewrite read_members_print; [done|done|done|done| |lia]. rewrite !string_length_app in Hf. cbn in Hf. lia.
Qed.

(** A printed value, with white space after it, parses to itself. *)
Lemma Parse_print_aux j tail : well_formed j = true -> height j <= max_depth -> skip tail = "" ->
  Parse (print j ++ tail) = Some j.
Proof.
  intros W H T. unfold Parse. rewrite (read_print j W); [cbn; by rewrite T|rewrite string_length_app; lia|done|].
  destruct tail as [|c t]; [done|]. cbn in T |- *. destruct (is_space c) eqn:E; [|done].
  unfold is_space, char_is in E. unfold is_digit, between, char_is. lia.
Qed.

(** ** Lines *)

(** [bufio.Reader.ReadBytes] of a newline: the line with its newline, and what is
    left; [None] when no newline has come. *)
Fixpoint ReadBytes (s : string) : option (string * string) :=
  match s with
  | EmptyString => None
  | String c s' =>
      if Ascii.eqb c newline then Some (String c "", s')
      else match ReadBytes s' with Some (l, r) => Some (String c l, r) | None => None end
  end.
(** Every whole line of a stream, [fuel] at most. *)
Fixpoint lines_from (fuel : nat) (s : string) : list string :=
  match fuel with
  | O => []
  | S f => match ReadBytes s with Some (l, r) => l :: lines_from f r | None => [] end
  end.
Definition lines (s : string) : list string := lines_from (String.length s) s.
Definition line_of (j : json) : string := print j ++ String newline "".
Definition stream_of (l : list json) : string := String.concat "" (map line_of l).

(** What is written for a value holds no newline: those of its strings are
    escaped. *)
Lemma escape_lacks c : lacks newline (escape c) = true.
Proof. by destruct c as [[] [] [] [] [] [] [] []]. Qed.
Lemma high_lacks c : 128 <= code c -> Ascii.eqb c newline = false.
Proof. intros H. apply Ascii.eqb_neq. intros ->. by vm_compute in H. Qed.
Lemma escaped_lacks s : valid_utf8 s = true -> lacks newline (escaped s) = true.
Proof.
  intros V. apply (valid_utf8_rect (fun s => lacks newline (escaped s) = true)); [..|exact V]; clear s V; [done|..].
  - intros c s Hc IH. cbn [escaped]. by rewrite (rune_size_ascii _ _ Hc), lacks_app, escape_lacks, IH.
  - intros a b s Ha Hb R IH. cbn [escaped]. rewrite R. cbn [lacks]. by rewrite !high_lacks, IH.
  - intros a b c s Ha Hb Hc R IH. cbn [escaped]. rewrite R, lacks_app, IH, andb_true_r.
    destruct (escape3_cases a b c Ha Hb Hc) as [->|(n & [-> | ->] & -> & _)]; [|done..]. cbn [lacks]. by rewrite !high_lacks.
  - intros a b c d s Ha Hb Hc Hd R IH. cbn [escaped]. rewrite R. cbn [lacks]. by rewrite !high_lacks, IH.
Qed.
Lemma quote_lacks s : valid_utf8 s = true -> lacks newline (quote s) = true.
Proof. intros V. unfold quote. cbn [lacks]. by rewrite lacks_app, escaped_lacks. Qed.

Lemma digits_split s : lacks newline (fst (digits s)) = true.
Proof.
  induction s as [|c s IH]; [done|]. cbn [digits]. destruct (is_digit c) eqn:E; [|done].
  destruct (digits s). cbn in *. rewrite IH, andb_true_r. apply negb_true_iff, Ascii.eqb_neq. by intros ->.
Qed.
Lemma some_digits_lacks s d r : some_digits s = Some (d, r) -> lacks newline d = true.
Proof. unfold some_digits. pose proof (digits_split s). destruct (digits s) as [[|? ?] ?]; [done|]. by intros [= <- <-]. Qed.
Lemma one_lacks (p : ascii -> bool) c : p c = true -> p newline = false -> lacks newline (String c "") = true.
Proof. intros Hc Hn. cbn [lacks]. rewrite andb_true_r. apply negb_true_iff, Ascii.eqb_neq. intros ->. congruence. Qed.
Lemma number_lacks l : number_ok l = true -> lacks newline l = true.
Proof.
  intros E%number_ok_read. unfold read_number in E.
  assert (forall m s, lacks newline (fst (read_sign m s)) = true) as Hs.
  { intros m [|c s]; [done|]. cbn [read_sign]. destruct (_ || _) eqn:Ec; [|done].
    apply (one_lacks (fun c => char_is 45 c || (negb m && char_is 43 c)) c Ec). by destruct m. }
  pose proof (Hs true l) as Hg. destruct (read_sign true l) as [g s1]. cbn [fst] in Hg.
  assert (forall s w r, read_whole s = Some (w, r) -> lacks newline w = true) as Hw.
  { intros [|c s] w r; [done|]. cbn [read_whole]. destruct (char_is 48 c) eqn:Ec; [|apply some_digits_lacks].
    intros [= <- _]. by apply (one_lacks _ c Ec). }
  assert (forall s f r, read_fraction s = Some (f, r) -> lacks newline f = true) as Hf.
  { intros [|c s] f r; [by intros [= <- _]|]. cbn [read_fraction]. destruct (char_is 46 c) eqn:Ec; [|by intros [= <- _]].
    destruct (some_digits s) as [[d r']|] eqn:Ed; [|done]. intros [= <- _]. apply some_digits_lacks in Ed.
    change (String c d) with (String c "" ++ d). by rewrite lacks_app, Ed, (one_lacks _ c Ec). }
  assert (forall s e r, read_exponent s = Some (e, r) -> lacks newline e = true) as He.
  { intros [|c s] e r; [by intros [= <- _]|]. cbn [read_exponent]. destruct (_ || _) eqn:Ec; [|by intros [= <- _]].
    pose proof (Hs false s) as Hg'. destruct (read_sign false s) as [g' s']. cbn [fst] in Hg'.
    destruct (some_digits s') as [[d r']|] eqn:Ed; [|done]. intros [= <- _]. apply some_digits_lacks in Ed.
    change (String c (g' ++ d)) with (String c "" ++ (g' ++ d)).
    rewrite !lacks_app, Ed, Hg', (one_lacks (fun c => char_is 101 c || char_is 69 c) c Ec); done. }
  destruct (read_whole s1) as [[w s2]|] eqn:E1; [|done]. apply Hw in E1. cbn in E.
  destruct (read_fraction s2) as [[f s3]|] eqn:E2; [|done]. apply Hf in E2. cbn in E.
  destruct (read_exponent s3) as [[e s4]|] eqn:E3; [|done]. apply He in E3. cbn in E.
  injection E as <- _. by rewrite !lacks_app, Hg, E1, E2, E3.
Qed.

Lemma joined_lacks l : Forall (fun s => lacks newline s = true) l -> lacks newline (comma_separated l) = true.
Proof.
  induction 1 as [|x l Hx F IH]; [done|]. destruct l as [|y l]; [done|]. rewrite comma_cons, !lacks_app, Hx. exact IH.
Qed.
Lemma print_lacks j : well_formed j = true -> lacks newline (print j) = true.
Proof.
  induction j as [|[]|l|s|l IH|m IH] using json_nested; intros W; try done.
  - by apply number_lacks.
  - by apply quote_lacks.
  - cbn [print]. rewrite !lacks_app, joined_lacks; [done|]. apply Forall_map, Forall_forall. intros x Hx.
    cbn in W. rewrite Forall_forall in IH. apply IH; [done|]. rewrite forallb_forall in W. apply W. by apply list_elem_of_In.
  - rewrite print_obj, !lacks_app, joined_lacks; [done|]. apply Forall_map, Forall_forall. intros [k x] Hx.
    cbn in W. rewrite forallb_forall in W. specialize (W (k, x)). rewrite <- list_elem_of_In in W. specialize (W Hx).
    cbn in W. apply andb_true_iff in W as [Wk Wx]. unfold print_member. cbn [fst snd].
    rewrite !lacks_app, (quote_lacks k Wk). rewrite Forall_forall in IH. apply IH in Hx; [|done]. cbn [snd] in Hx. by rewrite Hx.
Qed.

Lemma ReadBytes_line t r : lacks newline t = true -> ReadBytes (t ++ String newline r) = Some (t ++ String newline "", r).
Proof.
  induction t as [|c t IH]; [done|]. cbn [lacks]. intros [Hc Ht]%andb_true_iff. rewrite !append_cons. cbn [ReadBytes].
  apply negb_true_iff in Hc. by rewrite Hc, (IH Ht).
Qed.
Lemma stream_cons j l : stream_of (j :: l) = print j ++ String newline (stream_of l).
Proof.
  unfold stream_of, line_of. cbn [map String.concat]. destruct (map line_of l) eqn:E; unfold line_of in E; rewrite E.
  - cbn. done.
  - rewrite append_nil, <- string_app_assoc. by rewrite append_cons, append_nil.
Qed.
(** The lines of a stream of values are the values, one by one. *)
Lemma lines_stream_aux l : forallb well_formed l = true -> lines (stream_of l) = map line_of l.
Proof.
  unfold lines. intros W. generalize (Nat.le_refl (String.length (stream_of l))). generalize (String.length (stream_of l)) at 2 3.
  induction l as [|j l IH]; intros n Hn; [by destruct n|]. cbn [forallb] in W. apply andb_true_iff in W as [Wj W].
  rewrite stream_cons in *. rewrite string_length_app in Hn. cbn [String.length] in Hn. destruct n as [|n]; [lia|].
  cbn [lines_from]. rewrite (ReadBytes_line _ _ (print_lacks j Wj)). cbn [map]. f_equal. apply IH; [done|lia].
Qed.

(** A stream of values, written one to a line, is read back as those values:
    each line ends where a value was written, and parses to it. *)
Lemma stream_parses_aux l :
  Forall (fun j => well_formed j = true /\ height j <= max_depth) l -> map Parse (lines (stream_of l)) = map Some l.
Proof.
  intros F. rewrite lines_stream_aux.
  - rewrite map_map. apply map_ext_Forall. eapply Forall_impl; [exact F|]. intros j [W H]. by apply Parse_print_aux.
  - apply forallb_forall. intros j Hj. rewrite Forall_forall in F. apply F. by apply list_elem_of_In.
Qed.

(** ** Floats

    [json.Marshal] of a float64: the shortest digits, with an exponent below 1e-6
    and from 1e21 on; infinities and NaN are errors. *)
Definition format_exp (d p : Z) : string :=
  let ds := digits_of d in
  let x := Z.of_nat (String.length ds) - 1 + p in
  let tail := substring 1 (String.length ds - 1) ds in
  substring 0 1 ds ++ (if String.eqb tail "" then "" else "." ++ tail)
    ++ "e" ++ (if x <? 0 then "-" else "+") ++ FormatUint (Z.abs x).
Definition Marshal_float (x : float64) : option string :=
  match x with
  | S754_nan | S754_infinity _ => None
  | S754_zero s => Some (with_sign s "0")
  | S754_finite s m e =>
      let a := S754_finite false m e in
      if fltb a (float_const 1 1000000) || fleb (float_of_Z (10 ^ 21)) a then
        let '(num, den) := fraction_of m e in
        match shortest_from 800 a num den 1 (log10_floor num den) with
        | Some (d, p) => Some (with_sign s (format_exp d p))
        | None => None
        end
      else Some (FormatFloat_shortest x)
  end.
Example marshal_floats : map Marshal_float [float_of_Z 16; float_const 1 1000000; float_const (-1) 10000000; float_of_Z (10 ^ 21); float_of_Z (-3 * 10 ^ 22); float_const 5 4]
  = map Some ["16"; "0.000001"; "-1e-7"; "1e+21"; "-3e+22"; "1.25"].
Proof. vm_compute. reflexivity. Qed.

(** A stream of JSON values, written one to a line as the pool and its miners
    write their messages, is read back as exactly those values: whatever the
    strings hold, a line ends where a value was written, and parses to it. *)
Theorem stream_parses l :
  Forall (fun j => well_formed j = true /\ height j <= max_depth) l -> map Parse (lines (stream_of l)) = map Some l.
Proof. apply stream_parses_aux. Qed.

Definition sample_values : list json :=
  [JObj [("id", JNum "4"); ("method", JStr "mining.submit"); ("params", JArr [JStr ("a" ++ String newline "<b>"); JNum "-1.5e-7"; JNull])];
   JStr (AppendRune 8232 ++ AppendRune 128512)].
Lemma stream_parses_witness : map Parse (lines (stream_of sample_values)) = map Some sample_values.
Proof. apply (stream_parses sample_values). repeat constructor; vm_compute; congruence. Defined.
