(* ===== verification/Config.v ===== *)
(** * Config: src/config

    The option records the components read, with the operations on them: the
    recipient's script, the payment defaults, the total fee and the address
    strings.  The records handed to the TLS, Redis and HTTP libraries are in
    Conversions, the loading of the file is in Startup. *)
From Stdlib Require Import ZArith Lia List Strings.String Floats.SpecFloat.
From stdpp Require Import base list strings.
From S2P Require Import Prelude Bytes Float Strconv Utils.
Import ListNotations.
Local Open Scope Z_scope.
Local Open Scope go_scope.
Local Open Scope string_scope.

(** The address codecs of third-party packages, with [None] for an error. *)
Class AddressCodec := {
  FastBase58Decoding : string -> option bytes;
  bech32_Decode : string -> option bytes;
  bech32_ConvertBits : bytes -> Z -> Z -> bool -> option bytes;
}.

(** A concrete codec for the witnesses: addresses are hexadecimal. *)
Definition hex_codec : AddressCodec :=
  let dec s := let '(b, ok) := hex_decode s in if ok then Some b else None in
  {| FastBase58Decoding := dec; bech32_Decode := dec;
     bech32_ConvertBits := fun b _ _ _ => Some b |}.

Record Recipient := mkRecipient {
  r_Address : string;
  r_Type : string;
  r_Percent : float64;
  r_script : option bytes;
}.

(** The script a recipient's type selects; nil for an unknown type. *)
Definition script_of_type `{AddressCodec} (r : Recipient) : result (option bytes) :=
  let t := to_lower (r_Type r) in
  let some (m : result bytes) := let! s := m in Val (Some s) in
  if String.eqb t "p2sh" then some (P2SHAddressToScript FastBase58Decoding (r_Address r))
  else if String.eqb t "p2pkh" then some (P2PKHAddressToScript FastBase58Decoding (r_Address r))
  else if String.eqb t "p2wsh" then some (P2WSHAddressToScript bech32_Decode bech32_ConvertBits (r_Address r))
  else if (String.eqb t "pk" || String.eqb t "publickey")%bool then some (PublicKeyToScript (r_Address r))
  else if String.eqb t "script" then some (ScriptPubKeyToScript (r_Address r))
  else Val None.

(** [GetScript] caches the script in the recipient; it returns the script and
    the recipient it leaves behind. *)
Definition GetScript `{AddressCodec} (r : Recipient) : result (option bytes * Recipient) :=
  match r_script r with
  | Some s => Val (Some s, r)
  | None =>
      let! s := script_of_type r in
      Val (s, mkRecipient (r_Address r) (r_Type r) (r_Percent r) s)
  end.

(** The bytes a caller of [GetScript] uses (nil is empty). *)
Definition recipient_script `{AddressCodec} (r : Recipient) : result bytes :=
  let! sr := GetScript r in Val (default [] (fst sr)).

(** ** Payment options *)
Definition PayModeProp := "prop".
Definition PayModePPLNS := "pplns".
Definition PayModeSolo := "solo".
Definition PayModePPS := "pps".

Record PaymentOptions := mkPaymentOptions {
  o_Interval : Z;
  o_MinPayment : float64;
  o_Daemon : Z;
  o_PayMode : string;
  o_PPLNSWindow : float64;
  o_PPSRate : float64;
  o_Magnitude : float64;
  o_MinConfirmations : Z;
  o_AddressCheckMethod : string;
  o_SendManyDummy : string;
  o_OmitSendManyDummy : bool;
}.

Definition WithDefaults (o : PaymentOptions) : PaymentOptions :=
  {| o_Interval := if o_Interval o <=? 0 then 600 else o_Interval o;
     o_MinPayment := o_MinPayment o;
     o_Daemon := o_Daemon o;
     o_PayMode := to_lower (if String.eqb (o_PayMode o) "" then PayModeProp else o_PayMode o);
     o_PPLNSWindow := o_PPLNSWindow o;
     o_PPSRate := o_PPSRate o;
     o_Magnitude := o_Magnitude o;
     o_MinConfirmations := if o_MinConfirmations o <=? 0 then 100 else o_MinConfirmations o;
     o_AddressCheckMethod := if String.eqb (o_AddressCheckMethod o) "" then "getaddressinfo"
                             else o_AddressCheckMethod o;
     o_SendManyDummy := o_SendManyDummy o;
     o_OmitSendManyDummy := o_OmitSendManyDummy o |}%Z.

(** ** The other option records *)
Record AlgorithmOptions := mkAlgorithmOptions {
  a_Name : string;
  a_Multiplier : Z;
  a_SHA256dBlockHasher : bool;
  a_BlockHasher : string;
  a_CoinbaseHasher : string;
}.

Record CoinOptions := mkCoinOptions {
  c_Name : string;
  c_Symbol : string;
  c_TxMessages : bool;
  c_GBTRules : option (list string);
  c_Reward : string;
  c_NoSubmitBlock : bool;
  c_Testnet : bool;
}.

Record BanningOptions := mkBanningOptions {
  b_Time : Z;
  b_InvalidPercent : float64;
  b_CheckThreshold : Z;
  b_PurgeInterval : Z;
}.

Record VarDiffOptions := mkVarDiffOptions {
  v_MinDiff : float64;
  v_MaxDiff : float64;
  v_TargetTime : Z;
  v_RetargetTime : Z;
  v_VariancePercent : float64;
  v_X2Mode : bool;
}.

Record PortOptions := mkPortOptions {
  po_Diff : float64;
  po_VarDiff : option VarDiffOptions;
  po_TLS : bool;
}.

Record DaemonOptions := mkDaemonOptions {
  d_Host : string;
  d_Port : Z;
  d_User : string;
  d_Password : string;
  d_TLS : bool;
  d_ZMQ : string;
}.
Definition DaemonOptions_String (d : DaemonOptions) : string :=
  d_User d ++ "@" ++ d_Host d ++ ":" ++ FormatInt (d_Port d).
Definition DaemonOptions_URL (d : DaemonOptions) : string :=
  if d_TLS d then "https://" ++ d_Host d ++ ":" ++ FormatInt (d_Port d)
  else "http://" ++ d_Host d ++ ":" ++ FormatInt (d_Port d).

Record P2POptions := mkP2POptions {
  p2p_Host : string;
  p2p_Port : Z;
  p2p_Magic : string;
  p2p_DisableTransactions : bool;
}.
Definition P2POptions_Addr (p2p : P2POptions) : string :=
  p2p_Host p2p ++ ":" ++ FormatInt (p2p_Port p2p).

(** The fields of [config.Options] the modelled components read. *)
Record Options := mkOptions {
  DisablePayment : bool;
  Coin : CoinOptions;
  Engine : string;
  PoolAddress : Recipient;
  RewardRecipients : list Recipient;
  BlockRefreshInterval : Z;
  JobRebroadcastTimeout : Z;
  ConnectionTimeout : Z;
  TCPProxyProtocol : bool;
  Banning : option BanningOptions;
  Ports : list (Z * PortOptions);
  Daemons : list DaemonOptions;
  P2P : option P2POptions;
  Algorithm : AlgorithmOptions;
  Payment : option PaymentOptions;
}.

Definition TotalFeePercent (o : Options) : float64 :=
  fold_left (fun total r => fadd total (r_Percent r)) (RewardRecipients o) fzero.

(** ** Lemmas *)

(** The cache is transparent: a second call returns the same script, and leaves
    the recipient as it is. *)
Lemma GetScript_cached `{AddressCodec} r s r' :
  GetScript r = Val (s, r') -> GetScript r' = Val (s, r').
Proof.
  unfold GetScript at 1. destruct (r_script r) as [c|] eqn:E.
  - intros [= <- <-]. unfold GetScript. by rewrite E.
  - destruct (script_of_type r) as [c|] eqn:E2; cbn [rbind]; [|done]. intros [= <- <-].
    unfold GetScript. cbn. destruct c as [c|]; [done|].
    unfold script_of_type in *. cbn in *. by rewrite E2.
Qed.

Lemma WithDefaults_idemp o : WithDefaults (WithDefaults o) = WithDefaults o.
Proof.
  pose proof (to_lower_idemp (o_PayMode o)) as Hl. destruct o as [i mp d pm w rate mag conf chk dummy omit]. cbn in Hl.
  unfold WithDefaults. cbn. f_equal.
  - by destruct (i <=? 0)%Z eqn:E; [|rewrite E].
  - destruct (String.eqb pm "") eqn:E; [done|].
    destruct (String.eqb (to_lower pm) "") eqn:E2; [|done].
    apply String.eqb_eq in E2. destruct pm; [done|discriminate].
  - by destruct (conf <=? 0)%Z eqn:E; [|rewrite E].
  - by destruct (String.eqb chk "") eqn:E; [|rewrite E].
Qed.
