(* ===== verification/Algorithm.v ===== *)
(** * Algorithm: src/algorithm/algorithm.go and src/engine/pow.go

    The registry of proof-of-work hash functions with its per-algorithm share
    multiplier, and the difficulty arithmetic the engines share.  SHA-256 is the
    Standard Library's of Go and is modelled; the other hash functions are
    third-party and are fields of [PowHashes]. *)
From Stdlib Require Import ZArith Lia List Strings.Ascii Strings.String Strings.Byte Floats.SpecFloat.
From stdpp Require Import base list strings gmap.
From S2P Require Import Prelude Bytes Float Utils.
Import ListNotations.
Local Open Scope Z_scope.
Local Open Scope go_scope.

(** The third-party primitives: scrypt.Key (whose error the source drops, a nil
    slice), x11, legacy Keccak-256, the 64-byte groestl, lyra2rev2.Sum and the
    verthash client with its initialisation, which fail with an error. *)
Class PowHashes := {
  scrypt_Key : bytes -> bytes -> Z -> Z -> Z -> Z -> bytes;
  x11_Hash : bytes -> bytes;
  LegacyKeccak256 : bytes -> bytes;
  groestl_512 : bytes -> bytes;
  lyra2rev2_Sum : bytes -> option bytes;
  verthash_New : option (bytes -> bytes);
}.

(** Concrete primitives for the witnesses: SHA-256 in every place. *)
Definition sha_primitives : PowHashes :=
  {| scrypt_Key := fun b _ _ _ _ _ => Sha256 b; x11_Hash := Sha256; LegacyKeccak256 := Sha256;
     groestl_512 := fun b => Sha256 b ++ Sha256 b; lyra2rev2_Sum := fun b => Some (Sha256 b);
     verthash_New := Some Sha256 |}.

Definition MaxTargetTruncated : Z :=
  0x00000000FFFF0000000000000000000000000000000000000000000000000000.
Definition MaxTarget : Z :=
  0x00000000FFFFFFFFFFFFFFFFFFFFFFFFFFFFFFFFFFFFFFFFFFFFFFFFFFFFFFFF.

Definition HashFunc : Type := bytes -> result bytes.

Section Hashes.
Context `{PowHashes}.

Definition ScryptHash : HashFunc := fun data => Val (scrypt_Key data data 1024 1 1 32).
(** [Hash(data, dst)] fills the 32 bytes of [dst]. *)
Definition X11Hash : HashFunc := fun data => Val (x11_Hash data).
Definition Sha256Hash : HashFunc := fun b => Val (Sha256 b).
Definition DoubleSha256Hash : HashFunc := fun b => Val (Sha256d b).
Definition KeccakHash : HashFunc := fun b => Val (LegacyKeccak256 b).
Definition GroestlHash : HashFunc := fun b => Val (take 32 (groestl_512 (groestl_512 b))).
Definition Lyra2Rev2Hash : HashFunc := fun b =>
  match lyra2rev2_Sum b with Some sum => Val sum | None => Panic "lyra2rev2 failed" end.
Definition VerthashHash : HashFunc := fun b =>
  match verthash_New with Some compute => Val (compute b) | None => Panic "verthash init failed" end.

(** The package's two maps. *)
Record Algorithms := mkAlgorithms {
  registry : gmap string HashFunc;
  defaultMultipliers : gmap string Z;
}.

Local Open Scope string_scope.
Definition initial_algorithms : Algorithms :=
  {| registry := list_to_map
       [("sha256", Sha256Hash); ("sha256d", DoubleSha256Hash); ("scrypt", ScryptHash);
        ("x11", X11Hash); ("keccak", KeccakHash); ("groestl", GroestlHash);
        ("lyra2rev2", Lyra2Rev2Hash); ("verthash", VerthashHash)];
     defaultMultipliers := list_to_map
       [("sha256", 0); ("sha256d", 0); ("scrypt", 16); ("x11", 30); ("keccak", 8);
        ("groestl", 8); ("lyra2rev2", 8); ("verthash", 8)] |}.

Definition RegisterHash (name : string) (defaultMultiplier : Z) (fn : HashFunc)
    (algs : Algorithms) : Algorithms :=
  let key := to_lower name in
  {| registry := <[key := fn]> (registry algs);
     defaultMultipliers := <[key := defaultMultiplier]> (defaultMultipliers algs) |}.

Definition IsSupported (algs : Algorithms) (hashName : string) : bool :=
  bool_decide (is_Some (registry algs !! to_lower hashName)).

Definition DefaultMultiplier (algs : Algorithms) (hashName : string) : Z :=
  default 0 (defaultMultipliers algs !! to_lower hashName).

Definition GetHashFunc (algs : Algorithms) (hashName : string) : result HashFunc :=
  match registry algs !! to_lower hashName with
  | Some fn => Val fn
  | None => Panic "is not officially supported yet"
  end.

(** The one algorithm with a costly initialisation, which can fail. *)
Definition Warmup `{PowHashes} (hashName : string) : result unit :=
  if String.eqb (to_lower hashName) "verthash" then
    match verthash_New with Some _ => Val tt | None => Panic "verthash init failed" end
  else Val tt.

Lemma GetHashFunc_supported algs name :
  is_val (GetHashFunc algs name) = IsSupported algs name.
Proof.
  unfold GetHashFunc, IsSupported. destruct (registry algs !! _) eqn:E; simpl.
  - done.
  - done.
Qed.

Lemma GetHashFunc_Register algs name mult fn name' :
  GetHashFunc (RegisterHash name mult fn algs) name'
  = if decide (to_lower name = to_lower name') then Val fn else GetHashFunc algs name'.
Proof.
  unfold GetHashFunc, RegisterHash. cbn. destruct (decide _) as [E|E].
  - rewrite E. by rewrite lookup_insert, decide_True.
  - by rewrite lookup_insert_ne.
Qed.

(** Names are matched case-insensitively. *)
Lemma GetHashFunc_case algs name : GetHashFunc algs (to_lower name) = GetHashFunc algs name.
Proof. unfold GetHashFunc. by rewrite to_lower_idemp. Qed.
End Hashes.

(** ** src/engine/pow.go *)
Definition Pow256 : Z := 2 ^ 256.

(** [big.NewFloat] panics on a NaN difficulty; [Int] gives nil for an infinite
    quotient, which cannot occur since a positive float64 divisor is at least
    2^-1074 and the exponent range is 32-bit. *)
Definition TargetFromDiff (base : Z) (diff : float64) : result (option Z) :=
  let diff := if fleb diff fzero then float_of_Z 1 else diff in
  let! d := NewBigFloat diff in
  let! q := Quo (SetInt base) d in
  Val (BigInt_of q).

Definition DiffFromValue (base value : Z) : result float64 :=
  if value <=? 0 then Val fzero
  else let! q := Quo (SetInt base) (SetInt value) in Val (Float64 q).

(** [t.Text(16)] *)
Fixpoint hex_text_digits (fuel : nat) (t : Z) (acc : string) : string :=
  match fuel with
  | O => acc
  | S f =>
      let acc' := String (ascii_of_byte (hex_digit (t mod 16))) acc in
      if t <? 16 then acc' else hex_text_digits f (t / 16) acc'
  end.
Definition Text16 (t : Z) : string :=
  if t <? 0 then String "-"%char (hex_text_digits (S (Z.to_nat (Z.log2 (- t)))) (- t) EmptyString)
  else hex_text_digits (S (Z.to_nat (Z.log2 t))) t EmptyString.

Fixpoint repeat_char (n : nat) (c : ascii) : string :=
  match n with O => EmptyString | S n' => String c (repeat_char n' c) end.

(** The literal of zeros the source slices has 128 of them. *)
Definition TargetHex (t : Z) : string :=
  let s := Text16 t in
  if 64 <? slen s then repeat_char 64 "f"%char
  else String.append (repeat_char (64 - String.length s) "0"%char) s.
