(* ===== verification/Effects.v ===== *)
(** * Effects: programs that talk to Redis and to a coin daemon

    The payment and storage code is a sequence of Redis round trips and wallet
    RPCs.  Both services are outside the repository, so a program is a tree of
    requests whose continuations take the replies ([prog]), and what a service
    does is a relation a theorem is stated against.  Redis replies carry an
    error; an RPC reply is nil when the call failed. *)
From Stdlib Require Import ZArith Lia List Strings.String Floats.SpecFloat.
From stdpp Require Import base list strings gmap.
From S2P Require Import Prelude Bytes Float Strconv Types.
Import ListNotations.
Local Open Scope Z_scope.

(** ** Results with an error *)
Inductive err_or (A : Type) : Type :=
| Ok (a : A)
| Err (msg : string).
Arguments Ok {A} a.
Arguments Err {A} msg.

Definition err_bind {A B} (m : err_or A) (f : A -> err_or B) : err_or B :=
  match m with Ok a => f a | Err e => Err e end.

(** ** Payment updates: storage.PaymentUpdate, which one hash field stores as JSON *)
Record PaymentUpdate := mkUpdate {
  u_Balances : gmap string float64;
  u_Paid : gmap string float64;
  u_Confirmed : list string;
  u_Orphaned : list string;
  u_DeleteRounds : list Z;
  u_PPSCursor : Z;
}.

(** The value of a hash field: text, or the JSON text of an update, represented
    by the update it denotes. *)
Inductive hval := HText (s : string) | HUpdate (u : PaymentUpdate).

(** ** Redis *)
Inductive wcmd : Type :=
| SAdd (key member : string)
| ZAdd (key : string) (score : float64) (member : string)
| ZRemRangeByRank (key : string) (start stop : Z)
| ZRemRangeByScore (key min max : string)
| HIncrByFloat (key field : string) (incr : float64)
| HIncrBy (key field : string) (incr : Z)
| HSet (key : string) (fields : list (string * hval))
| Rename (key newkey : string)
| SMove (source destination member : string)
| Del (key : string)
| SetKey (key value : string).

(** A request and the type of its successful reply. *)
Inductive redis : Type -> Type :=
| Exec (tx : bool) (cmds : list wcmd) : redis unit
| Incr (key : string) : redis Z
| HGetAll (key : string) : redis (gmap string hval)
| HGet (key field : string) : redis (option hval)
| Get (key : string) : redis (option string)
| SMembers (key : string) : redis (list string)
| ZRange (key : string) (start stop : Z) : redis (list string)
| ZRevRangeByScore (key min max : string) : redis (list string)
| ZRangeByScoreWithScores (key min max : string) : redis (list (string * float64)).

(** ** Wallet and node RPC *)
Inductive rpc_arg :=
| AStr (s : string)
| AAmounts (m : gmap string float64).

(** daemons.JsonRpcResponse: [Result] is the decoded JSON it holds. *)
Record JsonRpcError := mkRpcError { e_Code : Z; e_Message : string }.
Record JsonRpcResponse := mkRpcResponse { r_Result : json; r_Error : option JsonRpcError }.

(** ** Programs *)
Inductive prog (A : Type) : Type :=
| Ret (a : A)
| Redis {X : Type} (e : redis X) (k : err_or X -> prog A)
| Rpc (daemon : Z) (method : string) (params : list rpc_arg) (k : option JsonRpcResponse -> prog A).
Arguments Ret {A} a.
Arguments Redis {A X} e k.
Arguments Rpc {A} daemon method params k.

Fixpoint pbind {A B} (m : prog A) (f : A -> prog B) : prog B :=
  match m with
  | Ret a => f a
  | Redis e k => Redis e (fun x => pbind (k x) f)
  | Rpc d me ps k => Rpc d me ps (fun x => pbind (k x) f)
  end.

Declare Scope prog_scope.
Delimit Scope prog_scope with prog.
Notation "'do!' x ':=' m 'in' k" := (pbind m (fun x => k))
  (at level 10, x pattern, m at level 100, k at level 200,
   format "'do!'  x  ':='  m  'in' '//' k") : prog_scope.
(** [if err != nil { return err }] *)
Notation "'try!' x ':=' m 'in' k" :=
  (pbind m (fun r => match r with Ok x => k | Err e => Ret (Err e) end))
  (at level 10, x pattern, m at level 100, k at level 200,
   format "'try!'  x  ':='  m  'in' '//' k") : prog_scope.

Definition call {X} (e : redis X) : prog (err_or X) := Redis e Ret.
Definition rpc (daemon : Z) (method : string) (params : list rpc_arg) : prog (option JsonRpcResponse) :=
  Rpc daemon method params Ret.
(** A pure computation that may fail *)
Definition lift {A} (m : err_or A) : prog (err_or A) := Ret m.

(** ** A node: what it was asked, and its answer to the next request *)
Record Node (Q R : Type) := mkNode { node_log : list Q; node_answer : list Q -> Q -> R }.
Arguments mkNode {Q R}.
Arguments node_log {Q R}.
Arguments node_answer {Q R}.
Definition ask {Q R} (q : Q) (n : Node Q R) : R * Node Q R :=
  (node_answer n (node_log n) q, mkNode (node_log n ++ [q])%list (node_answer n)).

(** ** The order of a [range] over a Go map

    Go leaves it unspecified; every statement holds for whatever order [range]
    gives. *)
Class MapOrder := {
  range : forall {A : Type}, gmap string A -> list (string * A);
  range_perm : forall {A : Type} (m : gmap string A), range m ≡ₚ map_to_list m;
}.

(** A concrete order for the witnesses. *)
Definition listed_order : MapOrder.
Proof. refine {| range := fun A m => map_to_list m |}. reflexivity. Defined.

Lemma range_NoDup `{MapOrder} {A} (m : gmap string A) : NoDup (map fst (range m)).
Proof.
  rewrite (Permutation_map fst (range_perm m)). apply NoDup_fst_map_to_list.
Qed.

Lemma elem_of_range `{MapOrder} {A} (m : gmap string A) k x : (k, x) ∈ range m <-> m !! k = Some x.
Proof. rewrite (range_perm m). apply elem_of_map_to_list. Qed.

