(* ===== verification/Redis.v ===== *)
(** * Redis: what the storage layer relies on of its server

    The server is outside the repository: [RedisServer] names its operations and
    [RedisLaws] states, of its documented behaviour, what src/storage/redis.go
    uses.  A key holds nothing or a value of one type; a command acts on the keys
    it names; integer scores are exact.  A program runs against it one request at
    a time ([served]).  [sample_redis] is an instance, for concrete runs. *)
From Stdlib Require Import ZArith Lia List Strings.Ascii Strings.String Floats.SpecFloat Reals.
From stdpp Require Import base list strings gmap sorting.
From S2P Require Import Prelude Bytes Float FloatSpec Strconv Types Effects.
Import ListNotations.
Local Open Scope string_scope.
Local Open Scope Z_scope.

(** ** Values *)
Inductive rval :=
| VString (t : string)
| VHash (h : gmap string hval)
| VSet (m : gset string)
| VZset (z : gmap string float64).

(** What a key holds for the commands of a type; an absent key is empty. *)
Definition as_string (v : option rval) : option (option string) :=
  match v with None => Some None | Some (VString t) => Some (Some t) | _ => None end.
Definition as_hash (v : option rval) : option (gmap string hval) :=
  match v with None => Some ∅ | Some (VHash h) => Some h | _ => None end.
Definition as_set (v : option rval) : option (gset string) :=
  match v with None => Some ∅ | Some (VSet m) => Some m | _ => None end.
Definition as_zset (v : option rval) : option (gmap string float64) :=
  match v with None => Some ∅ | Some (VZset z) => Some z | _ => None end.

(** The keys a command names *)
Definition keys_of (c : wcmd) : list string :=
  match c with
  | SAdd k _ | ZAdd k _ _ | ZRemRangeByRank k _ _ | ZRemRangeByScore k _ _ | HIncrByFloat k _ _
  | HIncrBy k _ _ | HSet k _ | Del k | SetKey k _ => [k]
  | Rename a b | SMove a b _ => [a; b]
  end.

(** Scores that are integers, which doubles hold exactly below 2^53 *)
Definition int_score (sc : float64) : Prop := exists n, 0 <= n < 2 ^ 53 /\ sc = float_of_Z n.
Definition int_scores (z : gmap string float64) : Prop := forall m sc, z !! m = Some sc -> int_score sc.
Definition score_le (a b : string * float64) : Prop := fleb (snd a) (snd b) = true.

(** A trim by rank keeps the [n] members of highest score. *)
Definition trimmed_to (n : nat) (z z' : gmap string float64) : Prop :=
  z' ⊆ z /\ size z' = Nat.min n (size z) /\
  forall m sc m' sc', z !! m = Some sc -> z' !! m = None -> z' !! m' = Some sc' -> fleb sc sc' = true.

(** ** The server *)
Class RedisServer := {
  store : Type;
  value_at : store -> string -> option rval;
  (** one write of a pipeline or transaction; one that fails changes nothing *)
  do_cmd : wcmd -> store -> store;
  reply : forall {X}, redis X -> store -> err_or X * store;
  (** the text HINCRBYFLOAT leaves in a field, [None] when it refuses *)
  hash_incr : option hval -> float64 -> option hval;
}.
Definition do_cmds `{RedisServer} (cmds : list wcmd) (s : store) : store := fold_left (fun s c => do_cmd c s) cmds s.
Definition incr_field `{RedisServer} (h : gmap string hval) (f : string) (d : float64) : gmap string hval :=
  match hash_incr (h !! f) d with Some v => <[f := v]> h | None => h end.

Class RedisLaws `{RedisServer} : Prop := {
  (** writes *)
  do_cmd_frame c k s : k ∉ keys_of c -> value_at (do_cmd c s) k = value_at s k;
  do_zadd k sc m s z :
    as_zset (value_at s k) = Some z -> int_score sc ->
    as_zset (value_at (do_cmd (ZAdd k sc m) s) k) = Some (<[m := sc]> z);
  do_zremrangebyrank k n s z :
    as_zset (value_at s k) = Some z -> int_scores z -> 0 <= n ->
    exists z', as_zset (value_at (do_cmd (ZRemRangeByRank k 0 (- (n + 1))) s) k) = Some z' /\
      trimmed_to (Z.to_nat n) z z';
  do_zremrangebyscore k c s z :
    as_zset (value_at s k) = Some z -> int_scores z -> 0 <= c < 2 ^ 53 ->
    as_zset (value_at (do_cmd (ZRemRangeByScore k "0" (FormatInt c)) s) k)
      = Some (filter (fun p => fleb (snd p) (float_of_Z c) = false) z);
  do_hincrbyfloat k f d s h :
    as_hash (value_at s k) = Some h ->
    as_hash (value_at (do_cmd (HIncrByFloat k f d) s) k) = Some (incr_field h f d);
  hash_incr_new d : is_finite d = true -> is_Some (hash_incr None d);
  do_rename a b s v :
    value_at s a = Some v -> a <> b ->
    value_at (do_cmd (Rename a b) s) b = Some v /\ value_at (do_cmd (Rename a b) s) a = None;
  do_rename_absent a b s :
    value_at s a = None -> forall k, value_at (do_cmd (Rename a b) s) k = value_at s k;
  do_sadd k m s x :
    as_set (value_at s k) = Some x -> as_set (value_at (do_cmd (SAdd k m) s) k) = Some ({[m]} ∪ x);
  do_set k v s : value_at (do_cmd (SetKey k v) s) k = Some (VString v);
  (** requests *)
  reply_exec tx cmds s : snd (reply (Exec tx cmds) s) = do_cmds cmds s;
  reply_incr k s :
    let '(r, s') := reply (Incr k) s in
    (forall k', k' <> k -> value_at s' k' = value_at s k') /\
    (as_string (value_at s k) = Some None -> r = Ok 1 /\ value_at s' k = Some (VString (FormatInt 1))) /\
    (forall n, as_string (value_at s k) = Some (Some (FormatInt n)) -> 0 <= n < 2 ^ 62 ->
       r = Ok (n + 1) /\ value_at s' k = Some (VString (FormatInt (n + 1))));
  reply_get k s t : as_string (value_at s k) = Some t -> reply (Get k) s = (Ok t, s);
  reply_hgetall k s h : as_hash (value_at s k) = Some h -> reply (HGetAll k) s = (Ok h, s);
  reply_smembers k s x :
    as_set (value_at s k) = Some x -> exists l, reply (SMembers k) s = (Ok l, s) /\ l ≡ₚ elements x;
  reply_zrevrangebyscore k c s z :
    as_zset (value_at s k) = Some z -> int_scores z -> 0 <= c < 2 ^ 53 ->
    exists l, reply (ZRevRangeByScore k "-inf" (FormatInt c)) s = (Ok (map fst (rev l)), s) /\
      l ≡ₚ map_to_list (filter (fun p => fleb (snd p) (float_of_Z c) = true) z) /\ StronglySorted score_le l;
  reply_zrangebyscore k c s z :
    as_zset (value_at s k) = Some z -> int_scores z -> 0 <= c < 2 ^ 53 ->
    exists l, reply (ZRangeByScoreWithScores k ("(" ++ FormatInt c) "+inf") s = (Ok l, s) /\
      l ≡ₚ map_to_list (filter (fun p => fleb (snd p) (float_of_Z c) = false) z) /\ StronglySorted score_le l;
}.

(** A program without wallet calls, run to its end. *)
Fixpoint served `{RedisServer} {A} (m : prog A) (s : store) : option (A * store) :=
  match m with
  | Ret a => Some (a, s)
  | Redis e k => let '(r, s') := reply e s in served (k r) s'
  | Rpc _ _ _ _ => None
  end.
Lemma served_bind `{RedisServer} {A B} (m : prog A) (f : A -> prog B) s :
  served (pbind m f) s = match served m s with Some (a, s') => served (f a) s' | None => None end.
Proof.
  revert s; induction m as [a|X e k IH|d me ps k IH]; intros s; cbn [pbind served]; [done| |done].
  destruct (reply e s) as [r s']. apply IH.
Qed.

Lemma do_cmds_app `{RedisServer} a b s : do_cmds (a ++ b) s = do_cmds b (do_cmds a s).
Proof. apply fold_left_app. Qed.
Lemma do_cmds_frame `{RedisLaws} cmds k s :
  Forall (fun c => k ∉ keys_of c) cmds -> value_at (do_cmds cmds s) k = value_at s k.
Proof.
  intros F. revert s. induction F as [|c cmds Hc F IH]; intros s; [done|]. unfold do_cmds in *. cbn [fold_left].
  rewrite IH. by apply do_cmd_frame.
Qed.

(** ** Integer scores *)
Lemma fleb_ints a b : 0 <= a < 2 ^ 53 -> 0 <= b < 2 ^ 53 -> fleb (float_of_Z a) (float_of_Z b) = (a <=? b).
Proof.
  intros Ha Hb. destruct (float_of_Z_exact a Ha) as [Na Ea]. destruct (float_of_Z_exact b Hb) as [Nb Eb].
  destruct (fleb (float_of_Z a) (float_of_Z b)) eqn:E; symmetry.
  - apply (fleb_spec _ _ Na Nb) in E. rewrite Ea, Eb in E. apply Z.leb_le. by apply le_IZR.
  - apply (fleb_false _ _ Na Nb) in E. rewrite Ea, Eb in E. apply Z.leb_gt. by apply lt_IZR.
Qed.

(** ** An instance: a map of keys *)
Definition rank_of (p : string * float64) : Z := default 0 (trunc_Z (snd p)).
Definition rank_le (a b : string * float64) : Prop := rank_of a <= rank_of b.
#[export] Instance rank_le_dec a b : Decision (rank_le a b).
Proof. unfold rank_le. apply _. Defined.
#[export] Instance rank_le_total : Total rank_le.
Proof. intros a b. unfold rank_le. lia. Qed.
#[export] Instance rank_le_trans : Transitive rank_le.
Proof. intros a b c. unfold rank_le. lia. Qed.
Definition by_rank (z : gmap string float64) : list (string * float64) := merge_sort rank_le (map_to_list z).

(** The bounds of a range by score, which are integers here *)
Definition bound_of (t : string) : float64 := float_of_Z (fst (ParseInt t 10)).
Definition above (min : string) (sc : float64) : bool :=
  match min with
  | EmptyString => false
  | String c t =>
      if String.eqb min "-inf" then true
      else if Ascii.eqb c "(" then negb (fleb sc (bound_of t)) else fleb (bound_of min) sc
  end.
Definition below (max : string) (sc : float64) : bool :=
  if String.eqb max "+inf" then true else fleb sc (bound_of max).
Definition in_range (min max : string) (z : gmap string float64) : list (string * float64) :=
  by_rank (filter (fun p => above min (snd p) && below max (snd p) = true) z).
(** A rank range with negative ranks counted from the end *)
Definition rank_index (len : nat) (i : Z) : Z := if i <? 0 then Z.of_nat len + i else i.
Definition slice_ranks {A} (l : list A) (start stop : Z) : list A * list A :=
  let a := Z.to_nat (rank_index (length l) start) in
  let b := Z.to_nat (rank_index (length l) stop + 1) in
  (take (b - a) (drop a l), (take a l ++ drop (Nat.max a b) l)%list).

Definition sample_incr (v : option hval) (d : float64) : option hval :=
  match v with
  | None => Some (HText (FormatFloat_shortest d))
  | Some (HText t) =>
      match ParseFloat t with (x, None) => Some (HText (FormatFloat_shortest (fadd x d))) | _ => None end
  | _ => None
  end.

Definition sample_do (c : wcmd) (s : gmap string rval) : gmap string rval :=
  let on_zset k f := match as_zset (s !! k) with Some z => <[k := VZset (f z)]> s | None => s end in
  let on_hash k f := match as_hash (s !! k) with Some h => <[k := VHash (f h)]> s | None => s end in
  let on_set k f := match as_set (s !! k) with Some x => <[k := VSet (f x)]> s | None => s end in
  match c with
  | SAdd k m => on_set k (fun x => {[m]} ∪ x)
  | ZAdd k sc m => on_zset k (fun z => <[m := sc]> z)
  | ZRemRangeByRank k a b => on_zset k (fun z => list_to_map (snd (slice_ranks (by_rank z) a b)))
  | ZRemRangeByScore k lo hi => on_zset k (fun z => filter (fun p => above lo (snd p) && below hi (snd p) = false) z)
  | HIncrByFloat k f d =>
      on_hash k (fun h => match sample_incr (h !! f) d with Some v => <[f := v]> h | None => h end)
  | HIncrBy k f d =>
      on_hash k (fun h =>
        match h !! f with
        | None => <[f := HText (FormatInt d)]> h
        | Some (HText t) => match ParseInt t 10 with (n, None) => <[f := HText (FormatInt (n + d))]> h | _ => h end
        | Some _ => h
        end)
  | HSet k fields => on_hash k (fun h => fold_left (fun h p => <[fst p := snd p]> h) fields h)
  | Rename a b => match s !! a with Some v => <[b := v]> (delete a s) | None => s end
  | SMove a b m =>
      match as_set (s !! a), as_set (s !! b) with
      | Some x, Some y => if decide (m ∈ x) then <[b := VSet ({[m]} ∪ y)]> (<[a := VSet (x ∖ {[m]})]> s) else s
      | _, _ => s
      end
  | Del k => delete k s
  | SetKey k v => <[k := VString v]> s
  end.

Definition wrong_type {A} : err_or A := Err "WRONGTYPE".
Definition typed {A B} (v : option A) (f : A -> B) : err_or B :=
  match v with Some a => Ok (f a) | None => wrong_type end.
Definition sample_reply {X} (e : redis X) (s : gmap string rval) : err_or X * gmap string rval :=
  match e in redis X return err_or X * gmap string rval with
  | Exec _ cmds => (Ok tt, fold_left (fun s c => sample_do c s) cmds s)
  | Incr k =>
      match as_string (s !! k) with
      | Some None => (Ok 1, <[k := VString (FormatInt 1)]> s)
      | Some (Some t) =>
          match ParseInt t 10 with
          | (n, None) => (Ok (n + 1), <[k := VString (FormatInt (n + 1))]> s)
          | _ => (Err "ERR value is not an integer", s)
          end
      | None => (wrong_type, s)
      end
  | HGetAll k => (typed (as_hash (s !! k)) (fun h => h), s)
  | HGet k f => (typed (as_hash (s !! k)) (fun h => h !! f), s)
  | Get k => (typed (as_string (s !! k)) (fun t => t), s)
  | SMembers k => (typed (as_set (s !! k)) elements, s)
  | ZRange k a b => (typed (as_zset (s !! k)) (fun z => map fst (fst (slice_ranks (by_rank z) a b))), s)
  | ZRevRangeByScore k lo hi => (typed (as_zset (s !! k)) (fun z => map fst (rev (in_range lo hi z))), s)
  | ZRangeByScoreWithScores k lo hi => (typed (as_zset (s !! k)) (in_range lo hi), s)
  end.
#[export] Instance sample_redis : RedisServer := {|
  store := gmap string rval;
  value_at s k := s !! k;
  do_cmd := sample_do;
  reply := @sample_reply;
  hash_incr := sample_incr |}.

Lemma rank_of_int p n : 0 <= n < 2 ^ 53 -> snd p = float_of_Z n -> rank_of p = n.
Proof. intros Hn E. unfold rank_of. by rewrite E, trunc_float_of_Z. Qed.
Lemma by_rank_perm z : by_rank z ≡ₚ map_to_list z.
Proof. apply merge_sort_Permutation. Qed.
Lemma rank_score_le (l : list (string * float64)) :
  Forall (fun p => int_score (snd p)) l -> StronglySorted rank_le l -> StronglySorted score_le l.
Proof.
  intros F S. induction S as [|a l S IH Ha]; [constructor|]. apply Forall_cons in F as [(n & Hn & En) F].
  constructor; [by apply IH|]. rewrite Forall_forall in Ha, F. apply Forall_forall. intros b Hb.
  destruct (F b Hb) as (n' & Hn' & En'). unfold score_le. rewrite En, En', fleb_ints by done. apply Z.leb_le.
  specialize (Ha b Hb). unfold rank_le in Ha. by rewrite (rank_of_int a n), (rank_of_int b n') in Ha.
Qed.
Lemma by_rank_sorted z : int_scores z -> StronglySorted score_le (by_rank z).
Proof.
  intros Hz. apply rank_score_le; [|apply StronglySorted_merge_sort; apply _].
  rewrite by_rank_perm. apply Forall_forall. intros [m sc] Hin. apply elem_of_map_to_list in Hin. by eapply Hz.
Qed.
Lemma int_scores_sub z z' : int_scores z -> z' ⊆ z -> int_scores z'.
Proof. intros Hz Hs m sc E. eapply Hz. by eapply lookup_weaken. Qed.
Lemma bound_of_int c : 0 <= c < 2 ^ 53 -> bound_of (FormatInt c) = float_of_Z c.
Proof. intros Hc. unfold bound_of. by rewrite ParseInt_FormatInt by lia. Qed.
Lemma FormatInt_pos c : 0 <= c -> exists x t, FormatInt c = String x t /\ 48 <= code x <= 57.
Proof. intros Hc. unfold FormatInt. destruct (Z.ltb_spec c 0); [lia|]. by apply FormatUint_head. Qed.
Lemma below_int c sc : 0 <= c < 2 ^ 53 -> below (FormatInt c) sc = fleb sc (float_of_Z c).
Proof.
  intros Hc. unfold below. destruct (FormatInt_pos c ltac:(lia)) as (x & t & E & Hx).
  destruct (String.eqb_spec (FormatInt c) "+inf") as [E'|_]; [|by rewrite bound_of_int].
  rewrite E in E'. injection E' as -> ->. destruct Hx as [Hx _]. by vm_compute in Hx.
Qed.
Lemma above_inf sc : above "-inf" sc = true.
Proof. reflexivity. Qed.
Lemma above_zero sc : int_score sc -> above "0" sc = true.
Proof. intros (n & Hn & ->). change (fleb (float_of_Z 0) (float_of_Z n) = true). rewrite (fleb_ints 0 n) by lia. apply Z.leb_le. lia. Qed.
Lemma above_open c sc : 0 <= c < 2 ^ 53 -> above ("(" ++ FormatInt c) sc = negb (fleb sc (float_of_Z c)).
Proof. intros Hc. change (negb (fleb sc (bound_of (FormatInt c))) = negb (fleb sc (float_of_Z c))). by rewrite bound_of_int. Qed.

Lemma in_range_spec lo hi z (P : string * float64 -> Prop) `{!forall p, Decision (P p)} :
  int_scores z -> (forall m sc, z !! m = Some sc -> above lo sc && below hi sc = true <-> P (m, sc)) ->
  in_range lo hi z ≡ₚ map_to_list (filter P z) /\ StronglySorted score_le (in_range lo hi z).
Proof.
  intros Hz HP. unfold in_range.
  assert (filter (fun p => above lo (snd p) && below hi (snd p) = true) z = filter P z) as ->.
  { apply map_filter_ext. intros m sc E. by apply HP. }
  split; [apply by_rank_perm|]. apply by_rank_sorted. eapply int_scores_sub; [exact Hz|apply map_filter_subseteq].
Qed.

Lemma slice_tail (z : gmap string float64) n :
  0 <= n ->
  snd (slice_ranks (by_rank z) 0 (- (n + 1))) = drop (length (by_rank z) - Z.to_nat n) (by_rank z).
Proof.
  intros Hn. unfold slice_ranks, rank_index. cbn [snd]. change (0 <? 0) with false. cbv iota. rewrite take_0. cbn [app].
  replace (- (n + 1) <? 0) with true by (symmetry; apply Z.ltb_lt; lia).
  f_equal. lia.
Qed.
Lemma size_by_rank z : length (by_rank z) = size z.
Proof. rewrite by_rank_perm. apply length_map_to_list. Qed.
Lemma trimmed_by_rank z n : int_scores z -> trimmed_to n z (list_to_map (drop (length (by_rank z) - n) (by_rank z))).
Proof.
  intros Hz. set (k := (length (by_rank z) - n)%nat). pose proof (by_rank_sorted z Hz) as S.
  assert (NoDup (map fst (by_rank z))) as D.
  { rewrite (Permutation_map fst (by_rank_perm z)). apply NoDup_fst_map_to_list. }
  rewrite <- (take_drop k (by_rank z)) in S, D. rewrite map_app in D. apply NoDup_app in D as (D1 & D12 & D2).
  assert (forall m sc, list_to_map (M := gmap string float64) (drop k (by_rank z)) !! m = Some sc <-> (m, sc) ∈ drop k (by_rank z)) as L.
  { intros m sc. symmetry. by apply elem_of_list_to_map. }
  assert (forall m sc, (m, sc) ∈ by_rank z <-> z !! m = Some sc) as E.
  { intros m sc. rewrite by_rank_perm. apply elem_of_map_to_list. }
  split_and!.
  - apply map_subseteq_spec. intros m sc Hm. apply L in Hm. apply E. rewrite <- (take_drop k (by_rank z)).
    apply elem_of_app. by right.
  - rewrite <- length_map_to_list, map_to_list_to_map by done. rewrite length_drop.
    subst k. rewrite size_by_rank. lia.
  - intros m sc m' sc' Hm Hn Hm'. apply L in Hm'. apply E in Hm. rewrite <- (take_drop k (by_rank z)) in Hm.
    apply elem_of_app in Hm as [Hm|Hm]; [|apply L in Hm; congruence].
    by apply (StronglySorted_app_1_elem_of score_le _ _ (m, sc) (m', sc') S).
Qed.

#[export] Instance sample_redis_laws : RedisLaws.
Proof.
  split; cbn [value_at do_cmd reply hash_incr sample_redis store].
  - intros c k s Hk. destruct c; cbn [keys_of sample_do] in *; rewrite ?elem_of_cons, ?elem_of_nil in Hk;
      repeat case_match; try done; rewrite ?lookup_insert_ne, ?lookup_delete_ne by (intros ->; tauto); done.
  - intros k sc m s z E _. cbn. rewrite E. by rewrite lookup_insert_eq.
  - intros k n s z E Hz Hn. cbn [sample_do]. rewrite E, lookup_insert_eq.
    eexists. split; [reflexivity|]. rewrite slice_tail by done. by apply trimmed_by_rank.
  - intros k c s z E Hz Hc. cbn [sample_do]. rewrite E, lookup_insert_eq. cbn [as_zset]. f_equal. apply map_filter_ext.
    intros m sc Hm. cbn [snd]. rewrite below_int by done. rewrite above_zero by (by eapply Hz). by destruct (fleb _ _).
  - intros k f d s h E. cbn [sample_do]. rewrite E, lookup_insert_eq. done.
  - intros d _. by eexists.
  - intros a b s v E Hne. cbn [sample_do]. rewrite E, lookup_insert_eq, lookup_insert_ne, lookup_delete_eq by done. done.
  - intros a b s E k. cbn [sample_do]. by rewrite E.
  - intros k m s x E. cbn [sample_do]. rewrite E, lookup_insert_eq. done.
  - intros k v s. cbn. by rewrite lookup_insert_eq.
  - intros tx cmds s. reflexivity.
  - intros k s. cbn [sample_reply]. destruct (as_string (s !! k)) as [[t|]|] eqn:E; cbv iota.
    + destruct (ParseInt t 10) as [n [e|]] eqn:P; (split; [|split; [congruence|]]).
      * done.
      * intros n' [= ->] Hn'. rewrite ParseInt_FormatInt in P by lia. done.
      * intros k' Hk'. by rewrite lookup_insert_ne.
      * intros n' [= ->] Hn'. rewrite ParseInt_FormatInt in P by lia. injection P as ->. by rewrite lookup_insert_eq.
    + split; [intros k' Hk'; by rewrite lookup_insert_ne|]. split; [intros _; by rewrite lookup_insert_eq|congruence].
    + split; [done|]. split; congruence.
  - intros k s t E. cbn. by rewrite E.
  - intros k s h E. cbn. by rewrite E.
  - intros k s x E. cbn. rewrite E. eexists. split; [reflexivity|done].
  - intros k c s z E Hz Hc. cbn [sample_reply]. rewrite E. cbn [typed]. eexists. split; [reflexivity|].
    apply in_range_spec; [done|]. intros m sc Hm. rewrite above_inf, below_int by done. done.
  - intros k c s z E Hz Hc. cbn [sample_reply]. rewrite E. cbn [typed]. eexists. split; [reflexivity|].
    apply in_range_spec; [done|]. intros m sc Hm. rewrite above_open by done. cbn [snd].
    change (below "+inf" sc) with true. destruct (fleb _ _); cbn; split; congruence.
Qed.
