(* ===== verification/Storage.v ===== *)
(** * Storage: src/storage/block.go and src/storage/redis.go

    The pending-block record and its text form, and every operation of the
    storage layer as a program over Redis: recording shares, sealing rounds, the
    payout intent, applying a payment run, and the reads of the payer and the
    API. *)
From Stdlib Require Import ZArith Lia List Strings.Ascii Strings.String Floats.SpecFloat.
From stdpp Require Import base list strings gmap.
From S2P Require Import Prelude Bytes Float Strconv Types Effects.
Import ListNotations.
Local Open Scope string_scope.
Local Open Scope Z_scope.
Local Open Scope prog_scope.

(** ** block.go *)
Definition Immature := "immature".
Definition Send := "send".
Definition Orphan := "orphan".
Definition Generate := "generate".
Definition Receive := "receive".
Definition Move := "move".
Definition Kicked := "kicked".

Record PendingBlock := mkPendingBlock {
  pb_Hash : string;
  pb_TxHash : string;
  pb_Height : Z;
  pb_Finder : string;
  pb_Mark : Z;
}.

Definition PendingBlock_String (pb : PendingBlock) : string :=
  Join [pb_Hash pb; pb_TxHash pb; FormatUint (pb_Height pb); pb_Finder pb; FormatInt (pb_Mark pb)] ":".

(** Finder and mark are optional; a malformed mark reads as the value
    [ParseInt] leaves. *)
Definition NewPendingBlockFromString (str : string) : err_or PendingBlock :=
  match Split str ":" with
  | hash :: txhash :: h :: rest =>
      match ParseUint h 10 with
      | (height, None) =>
          Ok {| pb_Hash := hash; pb_TxHash := txhash; pb_Height := height;
                pb_Finder := default "" (head rest);
                pb_Mark := match rest with _ :: m :: _ => fst (ParseInt m 10) | _ => 0 end |}
      | (_, Some _) => Err "strconv.ParseUint"
      end
  | _ => Err "pending block string lacks element(s)"
  end.

(** ** redis.go *)

(** [shares] is the channel to the share writer, oldest first. *)
Record DB := mkDB {
  db_coin : string;
  db_ppsMode : bool;
  db_logCap : Z;
  db_shares : list (Share * bool);
}.
Definition pplnsLogCap : Z := 200000.

Definition SetPPSMode (pps : bool) (s : DB) : DB := mkDB (db_coin s) pps (db_logCap s) (db_shares s).

Definition PutShare (share : Share) (accepted : bool) (s : DB) : DB :=
  mkDB (db_coin s) (db_ppsMode s) (db_logCap s) (db_shares s ++ [(share, accepted)]).

(** Keys *)
Definition key (s : DB) (suffix : string) : string := db_coin s ++ suffix.
Definition round_key (s : DB) (height : Z) : string := key s (":shares:round" ++ FormatUint height).

(** The member of the share log: "miner:diff:seq". *)
Definition log_member (miner : string) (diff : float64) (seq : Z) : string :=
  miner ++ ":" ++ FormatFloat_shortest diff ++ ":" ++ FormatInt seq.

(** The commands of a valid share after its sequence number is known. *)
Definition valid_share_cmds (s : DB) (now : Z) (share : Share) (seq : Z) : list wcmd :=
  let miner := s_Miner share in
  let strDiff := FormatFloat_fixed 5 (s_Diff share) in
  [ZAdd (key s ":shares:pplnslog") (float_of_Z seq) (log_member miner (s_Diff share) seq)]
  ++ (if db_ppsMode s then []
      else [ZRemRangeByRank (key s ":shares:pplnslog") 0 (- (db_logCap s + 1))])
  ++ [HIncrByFloat (key s ":shares:roundCurrent") miner (s_Diff share);
      HIncrBy (key s ":miners:validShares") miner 1;
      HIncrBy (key s ":pool") "validShares" 1;
      ZAdd (key s ":pool:shares") (float_of_Z now) strDiff;
      ZAdd (key s (":miner:" ++ miner ++ ":hashes")) (float_of_Z now) strDiff;
      ZAdd (key s (":miner:" ++ miner ++ ":rig:" ++ s_Rig share ++ ":hashes")) (float_of_Z now) strDiff].

Definition invalid_share_cmds (s : DB) (share : Share) : list wcmd :=
  [HIncrBy (key s ":miners:invalidShares") (s_Miner share) 1;
   HIncrBy (key s ":pool") "invalidShares" 1].

Definition block_of_share (share : Share) (seq : Z) : PendingBlock :=
  {| pb_Hash := s_BlockHash share; pb_TxHash := s_TxHash share;
     pb_Height := u64 (s_BlockHeight share); pb_Finder := s_Miner share; pb_Mark := seq |}.

(** The round key of the seal is printed from the signed height. *)
Definition block_cmds (s : DB) (share : Share) (accepted : bool) (seq : Z) : list wcmd :=
  if 0 <? slen (s_BlockHex share) then
    if accepted then
      [Rename (key s ":shares:roundCurrent") (key s (":shares:round" ++ FormatInt (s_BlockHeight share)));
       SAdd (key s ":blocks:pending") (PendingBlock_String (block_of_share share seq));
       HIncrBy (key s ":pool") "validBlocks" 1]
    else [HIncrBy (key s ":pool") "invalidBlocks" 1]
  else [].

(** The sequence number is fetched in a round trip of its own (0 when it
    fails); everything else is one pipeline. *)
Definition putShareNow (s : DB) (now : Z) (share : Share) (accepted : bool) : prog unit :=
  let index := [SAdd (key s ":pool:miners") (s_Miner share);
                SAdd (key s (":miner:" ++ s_Miner share ++ ":rigs")) (s_Rig share)] in
  if s_ErrorCode share =? 0 then
    do! r := call (Incr (key s ":shares:seq")) in
    let seq := match r with Ok n => n | Err _ => 0 end in
    do! _ := call (Exec false (index ++ valid_share_cmds s now share seq ++ block_cmds s share accepted seq)) in
    Ret tt
  else
    do! _ := call (Exec false (index ++ invalid_share_cmds s share ++ block_cmds s share accepted 0)) in
    Ret tt.

(** One iteration of [shareWriter]: the oldest queued share is written. *)
Definition shareWriter (s : DB) (now : Z) : option (prog DB) :=
  match db_shares s with
  | [] => None
  | (share, accepted) :: rest =>
      Some (do! _ := putShareNow s now share accepted in
            Ret (mkDB (db_coin s) (db_ppsMode s) (db_logCap s) rest))
  end.

(** *** Typed reads of a reply *)
Definition text_of (v : hval) : string := match v with HText t => t | HUpdate _ => "" end.
Definition to_float (v : hval) : err_or float64 :=
  match v with
  | HText t => match ParseFloat t with (f, None) => Ok f | (_, Some _) => Err "strconv.ParseFloat" end
  | HUpdate _ => Err "strconv.ParseFloat"
  end.
Definition to_uint (v : hval) : err_or Z :=
  match v with
  | HText t => match ParseUint t 10 with (n, None) => Ok n | (_, Some _) => Err "strconv.ParseUint" end
  | HUpdate _ => Err "strconv.ParseUint"
  end.
(** [HGet(...).Float64()] and [.Uint64()]: a missing field is the error
    [redis.Nil]. *)
Definition hget_with {A} (conv : hval -> err_or A) (k f : string) : prog (err_or A) :=
  try! v := call (HGet k f) in
  Ret (match v with Some v => conv v | None => Err "redis: nil" end).

Section Queries.
Variable s : DB.

Definition GetMinerIndex : prog (err_or (list string)) := call (SMembers (key s ":pool:miners")).
Definition GetRigIndex (minerName : string) : prog (err_or (list string)) :=
  call (SMembers (key s (":miner:" ++ minerName ++ ":rigs"))).
Definition GetMinerCurrentRoundContrib (minerName : string) : prog (err_or float64) :=
  hget_with to_float (key s ":shares:roundCurrent") minerName.
Definition GetPoolTotalValidShares : prog (err_or Z) := hget_with to_uint (key s ":pool") "validShares".
Definition GetPoolTotalValidBlocks : prog (err_or Z) := hget_with to_uint (key s ":pool") "validBlocks".
(** The source reads the counter of the valid shares here. *)
Definition GetPoolTotalInvalidShares : prog (err_or Z) := hget_with to_uint (key s ":pool") "validShares".
Definition GetPoolTotalInvalidBlocks : prog (err_or Z) := hget_with to_uint (key s ":pool") "invalidBlocks".
Definition GetMinerRigs (minerName : string) : prog (err_or float64) :=
  hget_with to_float (key s ":shares:contrib") minerName.

(** The sum of the listed difficulties, left to right, over the time span. *)
Fixpoint sum_diffs (slice : list string) (totalDiff : float64) : err_or float64 :=
  match slice with
  | [] => Ok totalDiff
  | x :: slice' => err_bind (to_float (HText x)) (fun diff => sum_diffs slice' (fadd totalDiff diff))
  end.
Definition hashrate (k : string) (from to : Z) : prog (err_or float64) :=
  try! slice := call (ZRange k from to) in
  Ret (err_bind (sum_diffs slice fzero) (fun total => Ok (fdiv total (float_of_Z (i64 (to - from)))))).

Definition GetRigHashrate (minerName rigName : string) (from to : Z) : prog (err_or float64) :=
  hashrate (key s (":miner:" ++ minerName ++ ":rig:" ++ rigName ++ ":hashes")) from to.
(** The key read here, ":shares", is not the one shares are written to. *)
Definition GetMinerHashrate (minerName : string) (from to : Z) : prog (err_or float64) :=
  hashrate (key s (":miner:" ++ minerName ++ ":shares")) from to.
Definition GetPoolHashrate (from to : Z) : prog (err_or float64) :=
  hashrate (key s ":pool:shares") from to.

(** *** Payments *)
Definition pending := key s ":blocks:pending".
Definition intent_key := key s ":payouts:intent".

Context `{MapOrder}.

(** The commands of one payment run, executed in MULTI/EXEC. *)
Definition apply_cmds (u : PaymentUpdate) : list wcmd :=
  map (fun '(miner, bal) => HSet (key s ":balances") [(miner, HText (FormatFloat_shortest bal))])
      (range (u_Balances u))
  ++ map (fun '(miner, paid) => HIncrByFloat (key s ":payouts") miner paid) (range (u_Paid u))
  ++ map (fun b => SMove pending (key s ":blocks:confirmed") b) (u_Confirmed u)
  ++ map (fun b => SMove pending (key s ":blocks:orphaned") b) (u_Orphaned u)
  ++ map (fun h => Del (round_key s h)) (u_DeleteRounds u)
  ++ (if 0 <? u_PPSCursor u then
        [SetKey (key s ":pps:cursor") (FormatInt (u_PPSCursor u));
         ZRemRangeByScore (key s ":shares:pplnslog") "0" (FormatInt (u_PPSCursor u))]
      else [])
  ++ [Del intent_key].

Definition ApplyPayments (u : PaymentUpdate) : prog (err_or unit) := call (Exec true (apply_cmds u)).

(** [json.Marshal] refuses a float that is not finite. *)
Definition finite (x : float64) : bool :=
  match x with S754_nan | S754_infinity _ => false | _ => true end.
Definition marshals (u : PaymentUpdate) : bool :=
  forallb (fun p => finite (snd p)) (range (u_Balances u))
  && forallb (fun p => finite (snd p)) (range (u_Paid u)).

Definition PutPayoutIntent (u : PaymentUpdate) : prog (err_or unit) :=
  if marshals u
  then call (Exec false [HSet intent_key [("update", HUpdate u); ("txid", HText "")]])
  else Ret (Err "json: unsupported value").

Definition SetPayoutIntentTxid (txid : string) : prog (err_or unit) :=
  call (Exec false [HSet intent_key [("txid", HText txid)]]).

(** Update, txid and whether an intent exists. *)
Definition GetPayoutIntent : prog (err_or (option (PaymentUpdate * string))) :=
  try! m := call (HGetAll intent_key) in
  Ret (if bool_decide (m = ∅) then Ok None
       else match m !! "update" with
            | Some (HUpdate u) => Ok (Some (u, text_of (default (HText "") (m !! "txid"))))
            | _ => Err "json: cannot unmarshal"
            end).

Definition DelPayoutIntent : prog (err_or unit) := call (Exec false [Del intent_key]).

(** Every field of a hash as a float; one that is not fails the whole read. *)
Fixpoint floats_of (l : list (string * hval)) (acc : gmap string float64) : err_or (gmap string float64) :=
  match l with
  | [] => Ok acc
  | (name, v) :: l' => err_bind (to_float v) (fun f => floats_of l' (<[name := f]> acc))
  end.

Definition GetAllMinerBalances : prog (err_or (gmap string float64)) :=
  try! ss := call (HGetAll (key s ":balances")) in
  Ret (floats_of (range ss) ∅).

Fixpoint parse_blocks (l : list string) : err_or (list PendingBlock) :=
  match l with
  | [] => Ok []
  | x :: l' =>
      err_bind (NewPendingBlockFromString x) (fun b =>
      err_bind (parse_blocks l') (fun bs => Ok (b :: bs)))
  end.
Definition GetAllPendingBlocks : prog (err_or (list PendingBlock)) :=
  try! strBlocks := call (SMembers pending) in Ret (parse_blocks strBlocks).

(** The miner and difficulty of a log member; other members are skipped. *)
Definition parse_member (m : string) : option (string * float64) :=
  match SplitN m ":" 3 with
  | miner :: d :: _ => match ParseFloat d with (diff, None) => Some (miner, diff) | (_, Some _) => None end
  | _ => None
  end.
Definition add_share (out : gmap string float64) (miner : string) (diff : float64) : gmap string float64 :=
  <[miner := fadd (default fzero (out !! miner)) diff]> out.

(** Newest first, until the cumulative difficulty reaches the window. *)
Fixpoint pplns_window (members : list string) (window cum : float64) (out : gmap string float64)
  : gmap string float64 :=
  match members with
  | [] => out
  | m :: members' =>
      match parse_member m with
      | None => pplns_window members' window cum out
      | Some (miner, diff) =>
          let out := add_share out miner diff in
          let cum := fadd cum diff in
          if fltb fzero window && fleb window cum then out
          else pplns_window members' window cum out
      end
  end.

Definition GetPPLNSShares (uptoSeq : Z) (window : float64) : prog (err_or (gmap string float64)) :=
  try! members := call (ZRevRangeByScore (key s ":shares:pplnslog") "-inf" (FormatInt uptoSeq)) in
  Ret (Ok (pplns_window members window fzero ∅)).

Definition GetPPSCursor : prog (err_or Z) :=
  try! v := call (Get (key s ":pps:cursor")) in
  Ret (match v with
       | None => Ok 0
       | Some t => match ParseInt t 10 with (n, None) => Ok n | (_, Some _) => Err "strconv.ParseInt" end
       end).

(** [int64(z.Score)] *)
Definition int_of_score (score : float64) : Z := default 0 (trunc_Z score).

Fixpoint shares_since (zs : list (string * float64)) (maxSeq : Z) (out : gmap string float64)
  : gmap string float64 * Z :=
  match zs with
  | [] => (out, maxSeq)
  | (m, score) :: zs' =>
      match parse_member m with
      | None => shares_since zs' maxSeq out
      | Some (miner, diff) =>
          shares_since zs' (if maxSeq <? int_of_score score then int_of_score score else maxSeq)
            (add_share out miner diff)
      end
  end.

Definition GetSharesSince (cursor : Z) : prog (err_or (gmap string float64 * Z)) :=
  try! zs := call (ZRangeByScoreWithScores (key s ":shares:pplnslog") ("(" ++ FormatInt cursor) "+inf") in
  Ret (Ok (shares_since zs cursor ∅)).

Definition GetRoundContrib (height : Z) : prog (err_or (gmap string float64)) :=
  try! m := call (HGetAll (round_key s height)) in
  Ret (floats_of (range m) ∅).
End Queries.
