(* ===== verification/DaemonReplies.v ===== *)
(** * DaemonReplies: the reply records of src/daemons

    [BytesTo...] decodes the raw result of a reply; the wrappers that log a fatal
    error abandon the process.  A field no other code reads is only part of the
    schema, which says when decoding fails. *)
From Stdlib Require Import ZArith Lia List Strings.String Floats.SpecFloat.
From stdpp Require Import base list strings.
From S2P Require Import Prelude Bytes Float Strconv Types Json Effects.
Import ListNotations.
Local Open Scope string_scope.
Local Open Scope Z_scope.
Local Open Scope go_scope.

(** [err := json.Unmarshal(b, &v); if err != nil { log.Fatal }] *)
Definition must {A} (s : schema) (b : option json) (f : json -> A) : result A :=
  match Unmarshal s b with Some j => Val (f j) | None => Panic "call failed with error" end.
(** The same with an error returned. *)
Definition decode {A} (s : schema) (b : option json) (f : json -> A) : err_or A :=
  match Unmarshal s b with Some j => Ok (f j) | None => Err "unmarshal failed" end.

(** ** getblock.go *)
Definition getblock_schema : schema := SStruct
  [("hash", SString); ("confirmations", SInt); ("strippedsize", SInt); ("size", SInt); ("weight", SInt);
   ("height", SInt); ("version", SInt); ("versionHex", SString); ("merkleroot", SString); ("tx", SList SString);
   ("time", SInt); ("mediantime", SInt); ("nonce", SInt); ("bits", SString); ("difficulty", SFloat);
   ("chainwork", SString); ("nTx", SInt); ("previousblockhash", SString)].
(** [Tx] is nil when the field is absent or null. *)
Record GetBlock := mkGetBlock { gb_Hash : string; gb_Height : Z; gb_Tx : option (list string) }.
Definition strings_of (l : list json) : list string := map (fun j => match j with JStr s => s | _ => "" end) l.
Definition list_or_nil (j : json) (name : string) : option (list json) :=
  match last_value j name with Some (JArr l) => Some l | _ => None end.
Definition BytesToGetBlock (b : option json) : result GetBlock :=
  must getblock_schema b (fun j => mkGetBlock (field_string j "hash") (field_int j "height") (strings_of <$> list_or_nil j "tx")).

(** ** getbalance.go, sendmany.go, getdifficulty.go *)
Definition BytesToGetBalance (b : option json) : err_or float64 :=
  decode SFloat b (fun j => match j with JNum l => fst (ParseFloat l) | _ => fzero end).
Definition BytesToSendMany (b : option json) : err_or string :=
  decode SString b (fun j => match j with JStr s => s | _ => "" end).
(** A number decoded into [interface{}] must fit a float64. *)
Fixpoint any_fits (j : json) : bool :=
  match j with
  | JNum l => no_error (ParseFloat l)
  | JArr l => forallb any_fits l
  | JObj m => forallb (fun p => any_fits (snd p)) m
  | _ => true
  end.
Definition BytesToGetDifficulty (b : option json) : result json :=
  match b with
  | Some j => if any_fits j then Val j else Panic "getDifficulty call failed with error"
  | None => Panic "getDifficulty call failed with error"
  end.

(** ** getinfo.go, getmininginfo.go, getnetworkinfo.go, getwalletinfo.go *)
Definition getinfo_schema : schema := SStruct
  [("version", SInt); ("protocolversion", SInt); ("walletversion", SInt); ("balance", SFloat);
   ("privatesend_balance", SFloat); ("blocks", SInt); ("timeoffset", SInt); ("connections", SInt); ("proxy", SString);
   ("difficulty", SFloat); ("testnet", SBool); ("keypoololdest", SInt); ("keypoolsize", SInt); ("paytxfee", SFloat);
   ("relayfee", SFloat); ("errors", SString)].
Record GetInfo := mkGetInfo { gi_Protocolversion : Z; gi_Connections : Z; gi_Testnet : bool }.
Definition BytesToGetInfo (b : option json) : result GetInfo :=
  must getinfo_schema b (fun j => mkGetInfo (field_int j "protocolversion") (field_int j "connections") (field_bool j "testnet")).

Definition getmininginfo_schema : schema := SStruct
  [("blocks", SInt); ("currentblocksize", SInt); ("currentblocktx", SInt); ("difficulty", SFloat); ("errors", SString);
   ("networkhashps", SFloat); ("pooledtx", SInt); ("chain", SString)].
Record GetMiningInfo := mkGetMiningInfo { gm_Networkhashps : float64 }.
Definition BytesToGetMiningInfo (b : option json) : result GetMiningInfo :=
  must getmininginfo_schema b (fun j => mkGetMiningInfo (field_float j "networkhashps")).

Definition getnetworkinfo_schema : schema := SStruct
  [("version", SInt); ("subversion", SString); ("protocolversion", SInt); ("localservices", SString); ("localrelay", SBool);
   ("timeoffset", SInt); ("networkactive", SBool); ("connections", SInt);
   ("networks", SList (SStruct [("name", SString); ("limited", SBool); ("reachable", SBool); ("proxy", SString);
                                ("proxy_randomize_credentials", SBool)]));
   ("relayfee", SFloat); ("incrementalfee", SFloat); ("localaddresses", SList SAny); ("warnings", SAny)].
Record GetNetworkInfo := mkGetNetworkInfo { gn_Protocolversion : Z; gn_Connections : Z }.
Definition BytesToGetNetworkInfo (b : option json) : result GetNetworkInfo :=
  must getnetworkinfo_schema b (fun j => mkGetNetworkInfo (field_int j "protocolversion") (field_int j "connections")).

Definition getwalletinfo_schema : schema := SStruct
  [("walletversion", SInt); ("balance", SFloat); ("privatesend_balance", SFloat); ("unconfirmed_balance", SFloat);
   ("immature_balance", SFloat); ("txcount", SInt); ("keypoololdest", SInt); ("keypoolsize", SInt); ("keys_left", SInt);
   ("paytxfee", SFloat)].
Definition BytesToGetWalletInfo (b : option json) : result float64 :=
  must getwalletinfo_schema b (fun j => field_float j "balance").

(** ** getblockchaininfo.go *)
Definition deployment_schema : schema := SStruct
  [("status", SString); ("startTime", SInt); ("timeout", SInt); ("since", SInt)].
Definition getblockchaininfo_schema : schema := SStruct
  [("chain", SString); ("blocks", SInt); ("headers", SInt); ("bestblockhash", SString); ("difficulty", SFloat);
   ("mediantime", SInt); ("verificationprogress", SFloat); ("chainwork", SString); ("pruned", SBool); ("Softforks", SAny);
   ("bip9_softforks", SStruct [("csv", deployment_schema); ("dip0001", deployment_schema); ("dip0003", deployment_schema);
                               ("dip0008", deployment_schema); ("bip147", deployment_schema)])].
Record GetBlockchainInfo := mkGetBlockchainInfo { gc_Chain : string }.
Definition BytesToGetBlockchainInfo (b : option json) : result GetBlockchainInfo :=
  must getblockchaininfo_schema b (fun j => mkGetBlockchainInfo (field_string j "chain")).

(** ** getblocktemplate.go

    The last four fields have no tag, so their keys are the field names in any
    case: [payee_amount] and [masternode_payments] of a node are other keys. *)
Definition payee_schema : schema := SStruct [("payee", SString); ("script", SString); ("amount", SUint)].
Definition tx_schema : schema := SStruct
  [("data", SString); ("hash", SString); ("depends", SList SAny); ("fee", SUint); ("sigops", SInt); ("txid", SString)].
Definition template_schema : schema := SStruct
  [("version", SInt32); ("bits", SString); ("curtime", SUint32); ("height", SInt); ("previousblockhash", SString);
   ("transactions", SList tx_schema); ("coinbaseaux", SStruct [("flags", SString)]); ("coinbasevalue", SUint);
   ("default_witness_commitment", SString); ("target", SString); ("masternode", SList payee_schema);
   ("superblock", SList payee_schema); ("coinbase_payload", SString); ("Votes", SList SString);
   ("MasternodePayments", SAny); ("Payee", SAny); ("PayeeAmount", SAny)].
Definition payee_of (j : json) : PayeeParams :=
  mkPayee (field_string j "payee") (field_string j "script") (field_uint j "amount").
Definition tx_of (j : json) : TxParams := mkTx (field_string j "data") (field_string j "hash") (field_string j "txid").
(** A null transaction is a nil pointer, whose first use panics; here decoding
    does. *)
Definition no_null (l : list json) : bool := forallb (fun j => match j with JNull => false | _ => true end) l.
Definition BytesToGetBlockTemplate (b : option json) : result GetBlockTemplate :=
  let! j := must template_schema b (fun j => j) in
  if negb (no_null (field_list j "transactions")) then Panic "nil pointer dereference"
  else
    let any name := IJson (default JNull (last_value j name)) in
    Val {| g_Version := field_int j "version"; g_Bits := field_string j "bits"; g_CurTime := field_uint j "curtime";
           g_Height := field_int j "height"; g_PreviousBlockHash := field_string j "previousblockhash";
           g_Transactions := map tx_of (field_list j "transactions");
           g_CoinbaseAuxFlags := field_string (sub_object j "coinbaseaux") "flags";
           g_CoinbaseValue := field_uint j "coinbasevalue";
           g_DefaultWitnessCommitment := field_string j "default_witness_commitment"; g_Target := field_string j "target";
           g_Masternode := map payee_of (field_list j "masternode"); g_Superblock := map payee_of (field_list j "superblock");
           g_CoinbasePayload := field_string j "coinbase_payload"; g_Votes := strings_of (field_list j "Votes");
           g_MasternodePayments := any "MasternodePayments"; g_Payee := any "Payee"; g_PayeeAmount := any "PayeeAmount" |}.

(** ** The width of every field

    A value the decoder assigns fits the schema of its field. *)
Lemma same_key_field fields name k : same_key name k = true -> field_schema fields k = field_schema fields name.
Proof.
  unfold same_key. intros E. apply String.eqb_eq in E.
  induction fields as [|[n s] fields IH]; [done|]. cbn [field_schema]. unfold same_key. by rewrite <- E, IH.
Qed.
Lemma json_fits_le f f' s j : (f <= f')%nat -> json_fits f s j = true -> json_fits f' s j = true.
Proof.
  revert f' s j; induction f as [|f IH]; intros [|f'] s j Hf; [done|done|lia|]. intros E.
  destruct s, j; cbn [json_fits] in E |- *; try done.
  - rewrite forallb_forall in E |- *. intros x Hx. apply (IH f'); [lia|auto].
  - rewrite forallb_forall in E |- *. intros [k v] Hin. specialize (E _ Hin). cbn in E.
    destruct (field_schema fields k); [|done]. apply (IH f'); [lia|done].
Qed.

Lemma json_fits_depth f s j : json_fits f s j = true -> fits s j = true.
Proof.
  revert s j; induction f as [|f IH]; intros s j; [done|]. intros E. unfold fits.
  destruct s; try (cbn [depth json_fits] in *; exact E).
  - cbn [depth]. destruct j; cbn [json_fits] in *; try done. rewrite forallb_forall in E |- *. intros x Hx.
    exact (IH _ _ (E x Hx)).
  - cbn [depth]. destruct j; cbn [json_fits] in *; try done. rewrite forallb_forall in E |- *. intros [k v] Hx.
    specialize (E _ Hx). cbn in E. destruct (field_schema fields k) as [s|] eqn:Es; [|done].
    apply IH in E. apply (json_fits_le (depth s)); [|exact E]. clear -Es.
    induction fields as [|[n s'] fields IH]; [done|]. cbn [field_schema fold_right snd] in *.
    destruct (same_key n k); [injection Es as ->; lia|]. specialize (IH Es). lia.
Qed.

Lemma assigned_fits fields j name v s :
  fits (SStruct fields) j = true -> assigned j name = Some v -> field_schema fields name = Some s -> fits s v = true.
Proof.
  intros F A Es. destruct j; try discriminate A. unfold fits in F. cbn [depth json_fits] in F.
  rewrite forallb_forall in F. unfold assigned in A.
  enough (forall acc, (forall w, acc = Some w -> fits s w = true) ->
    fold_left (fun acc '(k, v) => if same_key name k then match v with JNull => acc | _ => Some v end else acc) m acc = Some v ->
    fits s v = true) as W by (apply (W None); [done|exact A]).
  clear A. induction m as [|[k w] m IH]; intros acc Hacc; cbn [fold_left]; [apply Hacc|].
  apply IH; [intros x Hx; apply F; by right|]. intros w' Hw. destruct (same_key name k) eqn:K; [|by apply Hacc].
  assert (fits s w = true) as Fw.
  { specialize (F (k, w) (or_introl eq_refl)). cbn in F. rewrite (same_key_field _ _ _ K), Es in F.
    by eapply json_fits_depth. }
  destruct w; (injection Hw as <-; exact Fw) || by apply Hacc.
Qed.
Lemma list_fits s l : fits (SList s) (JArr l) = true -> Forall (fun j => fits s j = true) l.
Proof. unfold fits. cbn [depth json_fits]. rewrite forallb_forall. intros F. apply Forall_forall. intros x Hx. apply F. by apply list_elem_of_In. Qed.

Lemma ParseUint_bounds l : 0 <= fst (ParseUint l 10) < 2 ^ 64.
Proof.
  unfold ParseUint. destruct l as [|c l]; [cbn; lia|]. remember (String c l) as s eqn:E. clear E c l.
  assert (forall n, 0 <= n < 2 ^ 64 -> 0 <= fst (parse_digits 10 s n) < 2 ^ 64) as W; [|apply W; lia].
  induction s as [|c s IH]; intros n Hn; cbn [parse_digits]; [done|].
  destruct (digit_value c) as [d|] eqn:Ed; [|cbn; lia]. destruct (10 <=? d) eqn:Ed'; [cbn; lia|].
  destruct (2 ^ 64 <=? n * 10 + d) eqn:Eo; [cbn; lia|]. zbool. apply IH.
  assert (0 <= d); [|lia]. revert Ed. unfold digit_value.
  repeat match goal with |- context [(?a <=? ?b)%Z] => destruct (Z.leb_spec a b) end;
    cbn; intros E; try discriminate; apply (inj Some) in E; lia.
Qed.
Lemma ParseInt_bounds l : - 2 ^ 63 <= fst (ParseInt l 10) < 2 ^ 63.
Proof.
  unfold ParseInt. destruct (match l with EmptyString => _ | String _ _ => _ end) as [neg t].
  pose proof (ParseUint_bounds t) as B. destruct (ParseUint t 10) as [un e]. cbn [fst] in B.
  destruct neg, e as [[]|]; cbn [negb andb]; try (cbn; lia).
  all: repeat case_match_eqn; cbn [fst]; zbool; lia.
Qed.
Lemma field_int32_range fields j name :
  fits (SStruct fields) j = true -> field_schema fields name = Some SInt32 -> - 2 ^ 31 <= field_int j name < 2 ^ 31.
Proof.
  intros F Es. unfold field_int. destruct (assigned j name) as [v|] eqn:A; [|lia].
  pose proof (assigned_fits _ _ _ _ _ F A Es) as Fv. destruct v; try lia.
  unfold fits in Fv. cbn [depth json_fits] in Fv. zbool. lia.
Qed.
Lemma field_uint32_range fields j name :
  fits (SStruct fields) j = true -> field_schema fields name = Some SUint32 -> 0 <= field_uint j name < 2 ^ 32.
Proof.
  intros F Es. unfold field_uint. destruct (assigned j name) as [v|] eqn:A; [|lia].
  pose proof (assigned_fits _ _ _ _ _ F A Es) as Fv. destruct v as [| |l| | |]; try lia.
  unfold fits in Fv. cbn [depth json_fits] in Fv. zbool. pose proof (ParseUint_bounds l). lia.
Qed.
Lemma field_uint_range j name : 0 <= field_uint j name < 2 ^ 64.
Proof. unfold field_uint. destruct (assigned j name) as [[| |l| | |]|]; try lia. apply ParseUint_bounds. Qed.
Lemma field_int_range j name : - 2 ^ 63 <= field_int j name < 2 ^ 63.
Proof. unfold field_int. destruct (assigned j name) as [[| |l| | |]|]; try lia. apply ParseInt_bounds. Qed.

(** C36: a template that decodes is well typed: its version fits 32 bits with
    sign, its time 32 bits, its height 64 bits with sign, its coinbase value and
    every payee amount 64 bits; whatever the JSON text says beyond that is a
    decoding error, which abandons the process. *)
Theorem BytesToGetBlockTemplate_ok (b : option json) (t : GetBlockTemplate) :
  BytesToGetBlockTemplate b = Val t -> template_ok t.
Proof.
  unfold BytesToGetBlockTemplate, must, Unmarshal. destruct b as [j|]; [|discriminate]. cbn [option_bind mbind].
  destruct (fits template_schema j) eqn:F; [|discriminate]. cbn [rbind].
  destruct (negb _); [discriminate|]. intros E. apply Val_inj in E as <-. unfold template_ok.
  cbn [g_Version g_CurTime g_Height g_CoinbaseValue g_Masternode g_Superblock]. split_and!.
  1,2: by apply (field_int32_range _ _ _ F). 1,2: by apply (field_uint32_range _ _ _ F).
  1,2: apply field_int_range. 1,2: apply field_uint_range.
  all: apply Forall_fmap, Forall_true; intros p; apply field_uint_range.
Qed.

(** ** Witness *)
Definition sample_template : json := JObj
  [("version", JNum "536870912"); ("bits", JStr "1d00ffff"); ("curtime", JNum "1700000000"); ("height", JNum "800000");
   ("previousblockhash", JStr "00ff"); ("coinbasevalue", JNum "625000000"); ("transactions", JArr []);
   ("masternode", JArr [JObj [("payee", JStr "X"); ("amount", JNum "5")]]); ("payee_amount", JNum "7")].
Definition decoded_template : result GetBlockTemplate := BytesToGetBlockTemplate (Some sample_template).
Definition no_template : GetBlockTemplate :=
  mkTemplate 0 "" 0 0 "" [] "" 0 "" "" [] [] "" [] (IJson JNull) (IJson JNull) (IJson JNull).
Lemma BytesToGetBlockTemplate_ok_witness : template_ok (get no_template decoded_template).
Proof. apply (BytesToGetBlockTemplate_ok (Some sample_template)). apply get_val. vm_compute. reflexivity. Defined.
(** A version past 32 bits is an error, and the amount of a node's
    [payee_amount] goes unread. *)
Example wide_version_rejected :
  BytesToGetBlockTemplate (Some (JObj [("version", JNum "2147483648")])) = Panic "call failed with error".
Proof. vm_compute. reflexivity. Qed.
Example payee_amount_unread : g_PayeeAmount (get no_template decoded_template) = IJson JNull.
Proof. vm_compute. reflexivity. Qed.
