(* ===== verification/Daemons.v ===== *)
(** * Daemons: src/daemons/manager.go, submitblock.go, getblocktemplate.go

    JSON-RPC over HTTP to the daemons of a coin.  The network is a [Node]: the
    requests sent so far and the answer to the next one.  [CmdAll] asks every
    daemon from a goroutine of its own and waits for all of them; its
    interleavings are a step relation, which the sequential [CmdAll] refines.  A
    process that ends in [log.Fatal] or [log.Panic] is a [Panic]. *)
From Stdlib Require Import ZArith Lia List Strings.String.
From stdpp Require Import base list strings gmap sets.
From S2P Require Import Prelude Bytes Float Strconv Types Json Config Effects DaemonReplies.
Import ListNotations.
Local Open Scope string_scope.
Local Open Scope Z_scope.
Local Open Scope go_scope.

(** ** Requests and responses *)
Record http_request := mkRequest { q_URL : string; q_Auth : option (string * string); q_TLS : bool; q_Body : json }.
(** [Body] is the JSON of the body, [None] when it is other text; [ReadFails]
    says that the connection broke while the body was read. *)
Record http_response := mkResponse { StatusCode : Z; Body : option json; ReadFails : bool }.
(** [None]: no response, the error of [client.Do]. *)
Definition network : Type := Node http_request (option http_response).

(** JsonRpcResponse; an absent result is nil, which no decoder accepts. *)
Record Response := mkRpc { Result : option json; Error : option JsonRpcError }.
Definition response_schema : schema := SStruct
  [("id", SAny); ("result", SAny); ("error", SStruct [("code", SInt); ("message", SString)])].
Definition response_of (j : json) : Response :=
  mkRpc (last_value j "result")
    (match last_value j "error" with
     | Some (JObj e) => Some (mkRpcError (field_int (JObj e) "code") (field_string (JObj e) "message"))
     | _ => None
     end).
Definition decode_response (body : option json) : option Response := response_of <$> Unmarshal response_schema body.

(** [json.Marshal] of a map writes its keys in order. *)
Definition envelope (id : Z) (method : string) (params : list json) : json :=
  JObj [("id", JNum (FormatInt id)); ("method", JStr method); ("params", JArr params)].

(** A call that never returns is a computation abandoned: the goroutine that made
    it does not continue. *)
Definition await {A} (m : result (option A * network)) : result (A * network) :=
  let! (r, n) := m in
  match r with Some a => Val (a, n) | None => Panic "blocked for ever" end.

(** ** The manager *)
Record DaemonManager := mkDaemonManager {
  dm_Daemons : list DaemonOptions;
  dm_clients : gmap string bool;
  dm_Coin : option CoinOptions;
}.
(** A client is its TLS configuration; daemons that print alike share one. *)
Definition NewDaemonManager (daemons : option (list DaemonOptions)) (coin : option CoinOptions) : result DaemonManager :=
  match daemons, coin with
  | Some ds, Some _ =>
      Val (mkDaemonManager ds (fold_left (fun m d => <[DaemonOptions_String d := d_TLS d]> m) ds ∅) coin)
  | _, _ => Panic "new daemon with empty options!"
  end.

Section Manager.
(** Whether [http.NewRequest] accepts a URL. *)
Variable ValidURL : string -> bool.
Variable dm : DaemonManager.

Definition http_request_for (d : DaemonOptions) (body : json) : result http_request :=
  match dm_clients dm !! DaemonOptions_String d with
  | None => Panic "nil pointer dereference"
  | Some tls =>
      if negb (ValidURL (DaemonOptions_URL d)) then Panic "invalid URL"
      else Val (mkRequest (DaemonOptions_URL d)
                  (if String.eqb (d_User d) "" then None else Some (d_User d, d_Password d)) tls body)
  end.
Definition DoHttpRequest (d : DaemonOptions) (body : json) (n : network) : result (option http_response * network) :=
  let! q := http_request_for d body in
  Val (ask q n).

(** [id] is what [RandPositiveInt64] gives.  A response without a usable body
    comes with no result. *)
Definition cmdToIndex (i : nat) (id : Z) (method : string) (params : list json) (n : network)
  : result ((option DaemonOptions * option Response * option http_response) * network) :=
  match dm_Daemons dm !! i with
  | None => Panic "index out of range"
  | Some d =>
      let! (res, n) := DoHttpRequest d (envelope id method params) n in
      Val (match res with
           | None => ((Some d, None, None), n)
           | Some res =>
               if ReadFails res then ((Some d, None, Some res), n)
               else ((Some d, decode_response (Body res), Some res), n)
           end)
  end.
Definition CmdToDaemon (index id : Z) (method : string) (params : list json) (n : network) :=
  if (index <? 0) || (Z.of_nat (length (dm_Daemons dm)) <=? index) then Val ((None, None, None), n)
  else cmdToIndex (Z.to_nat index) id method params n.
(** The loop over the daemons returns in its first iteration. *)
Definition Cmd (id : Z) (method : string) (params : list json) (n : network) :=
  match dm_Daemons dm with
  | [] => Val ((None, None, None), n)
  | _ :: _ => cmdToIndex 0 id method params n
  end.

Definition BatchCmd (ids : list Z) (commands : list (string * list json)) (n : network)
  : result ((option DaemonOptions * option (list (option Response)) * bool) * network) :=
  let body := JArr (zip_with (fun id c => envelope id (fst c) (snd c)) ids commands) in
  match dm_Daemons dm with
  | [] => Val ((None, None, true), n)
  | d :: _ =>
      let! (res, n) := DoHttpRequest d body n in
      Val (match res with
           | None => ((Some d, None, false), n)
           | Some res =>
               match Unmarshal (SList response_schema) (Body res) with
               | Some (JArr l) =>
                   ((Some d, Some (map (fun j => match j with JNull => None | _ => Some (response_of j) end) l), true), n)
               | Some _ => ((Some d, None, true), n)
               | None => ((Some d, None, false), n)
               end
           end)
  end.

(** ** CmdAll

    [answer i] is what daemon [i] answers.  The goroutine of a daemon that did
    not answer returns before [wg.Done]; a body that is not a response ends the
    process. *)
Definition answers : Type := nat -> result (option http_response).
Record call := mkCall {
  cl_spawned : nat;
  cl_wg : Z;
  cl_running : gset nat;
  cl_responses : list (option http_response);
  cl_results : list (option Response);
}.
Definition start (n : nat) : call := mkCall 0 0 ∅ (replicate n None) (replicate n None).
Definition spawn (c : call) : call :=
  mkCall (S (cl_spawned c)) (cl_wg c + 1) ({[cl_spawned c]} ∪ cl_running c) (cl_responses c) (cl_results c).
Definition goroutine (answer : answers) (i : nat) (c : call) : result call :=
  let running := cl_running c ∖ {[i]} in
  let! a := answer i in
  match a with
  | None => Val (mkCall (cl_spawned c) (cl_wg c) running (cl_responses c) (cl_results c))
  | Some res =>
      match decode_response (Body res) with
      | None => Panic "failed to unmarshal response body"
      | Some r => Val (mkCall (cl_spawned c) (cl_wg c - 1) running
                         (<[i := Some res]> (cl_responses c)) (<[i := Some r]> (cl_results c)))
      end
  end.
Inductive call_step (n : nat) (answer : answers) : call -> call -> Prop :=
| step_spawn c : (cl_spawned c < n)%nat -> call_step n answer c (spawn c)
| step_run c i c' : i ∈ cl_running c -> goroutine answer i c = Val c' -> call_step n answer c c'.
(** [wg.Wait] returned. *)
Definition returned (n : nat) (c : call) : Prop := cl_spawned c = n /\ cl_wg c = 0.

(** What the call comes to: the process ends, the call never returns ([None]),
    or the responses and results, all present. *)
Definition answered (answer : answers) (i : nat) : result (option (http_response * Response)) :=
  let! a := answer i in
  match a with
  | None => Val None
  | Some res =>
      match decode_response (Body res) with
      | None => Panic "failed to unmarshal response body"
      | Some r => Val (Some (res, r))
      end
  end.
Definition fan_out (answer : answers) (n : nat) : result (option (list (option http_response) * list (option Response))) :=
  let! l := rmap (answered answer) (seq 0 n) in
  Val (l' ← mapM id l; Some (map (fun p => Some (fst p)) l', map (fun p => Some (snd p)) l')).

(** Every daemon sees the same request; the answers of different daemons do not
    depend on the order they are asked in. *)
Definition all_answers (body : json) (n : network) : answers := fun i =>
  match dm_Daemons dm !! i with
  | None => Panic "index out of range"
  | Some d => let! q := http_request_for d body in Val (node_answer n (node_log n) q)
  end.
Definition log_all (body : json) (n : network) : network :=
  fold_left (fun n d => match http_request_for d body with Val q => snd (ask q n) | Panic _ => n end) (dm_Daemons dm) n.
Definition CmdAll (id : Z) (method : string) (params : list json) (n : network)
  : result (option (list (option http_response) * list (option Response)) * network) :=
  let body := envelope id method params in
  let! r := fan_out (all_answers body n) (length (dm_Daemons dm)) in
  Val (r, log_all body n).

(** ** The commands built on it; [None] is a call that never returns *)
Definition has_result (r : option Response) : bool :=
  match r with Some r => match Error r with None => true | Some _ => false end | None => false end.
(** The first transaction of the first block that lists its transactions. *)
Fixpoint first_tx (results : list (option Response)) : result string :=
  match results with
  | [] => Val ""
  | None :: l => first_tx l
  | Some r :: l =>
      let! gb := BytesToGetBlock (Result r) in
      match gb_Tx gb with
      | None => first_tx l
      | Some [] => Panic "index out of range"
      | Some (tx :: _) => Val tx
      end
  end.
Definition block_verdict (results : list (option Response)) : result (bool * string) :=
  let! tx := first_tx results in Val (forallb has_result results, tx).
Definition CheckBlockAccepted (id : Z) (blockHash : string) (n : network) : result (option (bool * string) * network) :=
  let! (r, n) := CmdAll id "getblock" [JStr blockHash] n in
  match r with
  | None => Val (None, n)
  | Some (_, results) => let! v := block_verdict results in Val (Some v, n)
  end.

(** submitblock.go: what is logged about each daemon *)
Inductive submission := Submitted | NotSubmitted | SubmitError (e : JsonRpcError) | SubmitRejected (reason : string).
Definition submission_of (r : option Response) : submission :=
  match r with
  | None => NotSubmitted
  | Some r =>
      match Error r with
      | Some e => SubmitError e
      | None =>
          match Unmarshal SString (Result r) with
          | Some (JStr reason) => if String.eqb reason "" then Submitted else SubmitRejected reason
          | _ => Submitted
          end
      end
  end.
Definition SubmitBlock (id : Z) (blockHex : string) (n : network) : result (option (list submission) * network) :=
  match dm_Coin dm with
  | None => Panic "nil pointer dereference"
  | Some coin =>
      let! (r, n) :=
        (if c_NoSubmitBlock coin
         then CmdAll id "getblocktemplate" [JObj [("data", JStr blockHex); ("mode", JStr "submit")]] n
         else CmdAll id "submitblock" [JStr blockHex] n) in
      Val ((fun p => map submission_of (snd p)) <$> r, n)
  end.

(** A body that is not a response makes [CmdAll] panic before this looks at it. *)
Definition online (res : option http_response) : result bool :=
  match res with
  | None => Panic "nil pointer dereference"
  | Some res =>
      Val (if negb (Z.quot (StatusCode res) 100 =? 2) then false
           else match decode_response (Body res) with
                | None => false
                | Some r => match Error r with None => true | Some _ => false end
                end)
  end.
Fixpoint all_online (l : list (option http_response)) : result bool :=
  match l with
  | [] => Val true
  | res :: l => let! b := online res in if b then all_online l else Val false
  end.
Definition IsAllOnline (id : Z) (n : network) : result (option bool * network) :=
  let! (r, n) := CmdAll id "getpeerinfo" [] n in
  match r with
  | None => Val (None, n)
  | Some (responses, _) => let! b := all_online responses in Val (Some b, n)
  end.
Definition Check_ (id : Z) (n : network) : result (option unit * network) :=
  let! (r, n) := IsAllOnline id n in
  match r with
  | None => Val (None, n)
  | Some b => if b then Val (Some tt, n) else Panic "daemons are not all online!"
  end.

Definition CheckStatusCode (statusCode : Z) : option string :=
  let unknown := Some ("unknown status code:" ++ FormatInt statusCode) in
  let class := Z.quot statusCode 100 in
  if class =? 2 then None
  else if class =? 4 then
    let code := Z.rem statusCode 100 in
    if code =? 0 then Some "daemon cannot understand the request"
    else if code =? 1 then Some "daemon requires authorization (have to login before request)"
    else if code =? 3 then Some "daemon rejected the request"
    else if code =? 4 then Some "daemon cannot find the resource requested"
    else if code =? 13 then Some "daemon cannot deal this large request"
    else unknown
  else if class =? 5 then Some "daemon internal error"
  else unknown.

(** getblocktemplate.go; [err] is never set, and the result is used unchecked. *)
Definition template_rules : list string :=
  match dm_Coin dm with Some c => default ["segwit"] (c_GBTRules c) | None => ["segwit"] end.
Definition template_params : list json :=
  [JObj [("capabilities", JArr (map JStr ["coinbasetxn"; "workid"; "coinbase/append"])); ("rules", JArr (map JStr template_rules))]].
Definition GetBlockTemplate_cmd (id : Z) (n : network) : result (err_or GetBlockTemplate * network) :=
  let! ((_, r, _), n) := Cmd id "getblocktemplate" template_params n in
  match r with
  | None => Panic "nil pointer dereference"
  | Some r =>
      match Error r with
      | Some _ => Val (Err "getblocktemplate call failed for daemon instance", n)
      | None => let! t := BytesToGetBlockTemplate (Result r) in Val (Ok t, n)
      end
  end.

(** ** The interleavings of [CmdAll]

    [slot i] is what the finished goroutine [i] left behind; the wait group
    counts the goroutines that run and those that returned early. *)
Definition slot (answer : answers) (i : nat) : option (http_response * Response) :=
  match answered answer i with Val (Some p) => Some p | _ => None end.
Definition finished (c : call) (i : nat) : Prop := (i < cl_spawned c)%nat /\ i ∉ cl_running c.
Record call_inv (n : nat) (answer : answers) (c : call) (lost : gset nat) : Prop := {
  inv_spawned : (cl_spawned c <= n)%nat;
  inv_running : forall i, i ∈ cl_running c -> (i < cl_spawned c)%nat;
  inv_lost : forall i, i ∈ lost <-> finished c i /\ answered answer i = Val None;
  inv_finished : forall i, finished c i -> is_val (answered answer i) = true;
  inv_wg : cl_wg c = Z.of_nat (size (cl_running c)) + Z.of_nat (size lost);
  inv_pending : forall i, (i < n)%nat -> ~ finished c i ->
    cl_responses c !! i = Some None /\ cl_results c !! i = Some None;
  inv_lengths : length (cl_responses c) = n /\ length (cl_results c) = n;
  inv_slots : forall i, finished c i ->
    cl_responses c !! i = Some (fst <$> slot answer i) /\ cl_results c !! i = Some (snd <$> slot answer i);
}.

Lemma goroutine_answered answer i c c' :
  goroutine answer i c = Val c' ->
  match answered answer i with
  | Val None => c' = mkCall (cl_spawned c) (cl_wg c) (cl_running c ∖ {[i]}) (cl_responses c) (cl_results c)
  | Val (Some (res, r)) => c' = mkCall (cl_spawned c) (cl_wg c - 1) (cl_running c ∖ {[i]})
                                  (<[i := Some res]> (cl_responses c)) (<[i := Some r]> (cl_results c))
  | Panic _ => False
  end.
Proof.
  unfold goroutine, answered. destruct (answer i) as [[res|]|]; cbn [rbind]; [|by intros [= <-]|done].
  destruct (decode_response (Body res)); [|done]. by intros [= <-].
Qed.

Lemma inv_start n answer : call_inv n answer (start n) ∅.
Proof.
  assert (forall i, ~ finished (start n) i) as F by (intros i [? _]; cbn in *; lia).
  split; try (intros i Hf; by destruct (F i Hf)); cbn [start cl_spawned cl_running cl_wg cl_responses cl_results].
  - lia.
  - intros i Hi. by apply elem_of_empty in Hi.
  - intros i. split; [intros Hi; by apply elem_of_empty in Hi|]. intros [Hf _]. by destruct (F i Hf).
  - done.
  - intros i Hi _. by rewrite !lookup_replicate_2 by done.
  - by rewrite !length_replicate.
Qed.

Lemma finished_spawn c i :
  (forall i, i ∈ cl_running c -> (i < cl_spawned c)%nat) -> finished (spawn c) i <-> finished c i.
Proof.
  intros I2. unfold finished. cbn. rewrite elem_of_union, elem_of_singleton. split.
  - intros [? Hr]. assert (i <> cl_spawned c) by tauto. split; [lia|tauto].
  - intros [? ?]. split; [lia|]. intros [->|?]; [lia|done].
Qed.
Lemma inv_spawn n answer c lost : (cl_spawned c < n)%nat -> call_inv n answer c lost -> call_inv n answer (spawn c) lost.
Proof.
  intros Hn [I1 I2 I3 I4 I5 Ip I6 I7]. pose proof (fun i => finished_spawn c i I2) as F.
  split; cbn [spawn cl_spawned cl_running cl_wg cl_responses cl_results].
  - lia.
  - intros i [->%elem_of_singleton|Hi%I2]%elem_of_union; lia.
  - intros i. rewrite F. apply I3.
  - intros i Hi%F. by apply I4.
  - rewrite size_union, size_singleton; [lia|]. apply disjoint_singleton_l. intros Hi%I2. lia.
  - intros i Hi Hf. apply Ip; [done|]. by rewrite <- F.
  - done.
  - intros i Hi%F. by apply I7.
Qed.

Lemma finished_run c c' i k :
  i ∈ cl_running c -> (i < cl_spawned c)%nat -> cl_spawned c' = cl_spawned c -> cl_running c' = cl_running c ∖ {[i]} ->
  finished c' k <-> k = i \/ finished c k.
Proof.
  intros Hi Hs Es Er. unfold finished. rewrite Es, Er, elem_of_difference, elem_of_singleton.
  destruct (decide (k = i)) as [->|]; [|tauto]. split; [by left|]. intros _. split; [done|tauto].
Qed.
Lemma size_remove (i : nat) (X : gset nat) : i ∈ X -> size X = S (size (X ∖ {[i]})).
Proof.
  intros Hi. rewrite (union_difference_L {[i]} X) at 1 by (by apply singleton_subseteq_l).
  rewrite size_union, size_singleton; [done|]. apply disjoint_singleton_l. intros Hd.
  apply elem_of_difference in Hd as [_ Hd]. by apply Hd, elem_of_singleton.
Qed.
Lemma inv_run n answer c lost i c' :
  i ∈ cl_running c -> goroutine answer i c = Val c' -> call_inv n answer c lost -> exists lost', call_inv n answer c' lost'.
Proof.
  intros Hi E [I1 I2 I3 I4 I5 Ip [L1 L2] I7]. apply goroutine_answered in E. pose proof (I2 i Hi) as Hs.
  assert (~ finished c i) as Hf by (by intros [_ ?]).
  assert (i ∉ lost) as Hl by (rewrite I3; tauto). pose proof (size_remove i (cl_running c) Hi) as Hsz.
  destruct (Ip i) as [P1 P2]; [lia|done|].
  assert (cl_spawned c' = cl_spawned c /\ cl_running c' = cl_running c ∖ {[i]}) as [Es Er].
  { destruct (answered answer i) as [[[]|]|]; [by subst|by subst|done]. }
  pose proof (fun k => finished_run c c' i k Hi Hs Es Er) as F. clear Es Er.
  assert (forall k, k ∈ cl_running c ∖ {[i]} -> (k < cl_spawned c)%nat) as I2'.
  { intros k [? _]%elem_of_difference. by apply I2. }
  destruct (answered answer i) as [[[res r]|]|] eqn:A; [exists lost|exists ({[i]} ∪ lost)|done].
  all: subst c'; split; cbn [cl_spawned cl_running cl_wg cl_responses cl_results].
  all: try exact I1. all: try exact I2'. all: try (intros k [->|Hk]%F; [by rewrite A|by apply I4]). all: try lia.
  all: try (by rewrite ?length_insert).
  - intros k. rewrite I3, F. split; [tauto|]. intros [[->|?] ?]; [congruence|done].
  - intros k Hk Hn. rewrite F in Hn. rewrite !list_lookup_insert_ne by (intros ->; tauto). apply Ip; tauto.
  - intros k [->|Hk]%F.
    + unfold slot. rewrite A. cbn. rewrite !list_lookup_insert_eq by lia. done.
    + rewrite !list_lookup_insert_ne by (intros ->; done). by apply I7.
  - intros k. rewrite elem_of_union, elem_of_singleton, I3, F. split; [intros [->|[? ?]]; tauto|].
    intros [[->|?] ?]; tauto.
  - rewrite (size_union {[i]} lost), size_singleton by (by apply disjoint_singleton_l). lia.
  - intros k Hk Hn. rewrite F in Hn. apply Ip; tauto.
  - intros k [->|Hk]%F; [|by apply I7]. unfold slot. rewrite A, P1, P2. done.
Qed.

Lemma reachable_inv n answer c : rtc (call_step n answer) (start n) c -> exists lost, call_inv n answer c lost.
Proof.
  intros R. assert (exists lost, call_inv n answer (start n) lost) as Hi by (eexists; apply inv_start).
  revert Hi. generalize (start n) R. clear R. intros c0 R. induction R as [|c0 c1 c2 S R IH]; [done|].
  intros [lost I]. apply IH. destruct S as [c0 Hn|c0 i c1 Hi E]; [exists lost; by apply inv_spawn|by eapply inv_run].
Qed.

(** *** The sequential reading *)
Lemma fan_out_cases answer n :
  match fan_out answer n with
  | Val (Some _) => forall i, (i < n)%nat -> exists p, answered answer i = Val (Some p)
  | Val None => exists i, (i < n)%nat /\ answered answer i = Val None
  | Panic _ => exists i, (i < n)%nat /\ is_val (answered answer i) = false
  end.
Proof.
  unfold fan_out. assert (forall l, match rmap (answered answer) l with
    | Val k => Forall2 (fun i o => answered answer i = Val o) l k
    | Panic _ => exists i, i ∈ l /\ is_val (answered answer i) = false end) as W.
  { induction l as [|i l IH]; cbn [rmap]; [constructor|]. destruct (answered answer i) as [o|] eqn:E; cbn [rbind].
    - destruct (rmap (answered answer) l); cbn [rbind]; [by constructor|]. destruct IH as (j & ? & ?). exists j. split; [by right|done].
    - exists i. rewrite E. split; [by left|done]. }
  specialize (W (seq 0 n)). destruct (rmap _ _) as [k|]; cbn [rbind].
  2:{ destruct W as (i & Hi%elem_of_seq & ?). exists i. split; [lia|done]. }
  destruct (mapM id k) as [l|] eqn:E; cbn [mbind option_bind].
  - apply mapM_Some in E. intros i Hi. destruct (Forall2_lookup_l _ _ _ _ _ W (lookup_seq_lt 0 n i Hi)) as (o & Ho & A).
    destruct (Forall2_lookup_l _ _ _ _ _ E Ho) as (p & _ & Hp). exists p. unfold id in Hp. subst o. exact A.
  - apply mapM_None, Exists_exists in E as (o & Ho & En). unfold id in En. subst o. apply list_elem_of_lookup in Ho as [j Hj].
    destruct (Forall2_lookup_r _ _ _ _ _ W Hj) as (i & Hi & A). apply lookup_seq in Hi as [-> Hi]. by exists j.
Qed.

Lemma fan_out_slots answer n :
  (forall i, (i < n)%nat -> exists p, answered answer i = Val (Some p)) ->
  fan_out answer n = Val (Some (map (fun i => fst <$> slot answer i) (seq 0 n), map (fun i => snd <$> slot answer i) (seq 0 n))).
Proof.
  intros A. unfold fan_out. rewrite (rmap_all_val _ (slot answer)).
  2:{ intros i Hi%elem_of_seq. destruct (A i) as [p Hp]; [lia|]. unfold slot. by rewrite Hp. }
  cbn [rbind]. destruct (mapM id (map (slot answer) (seq 0 n))) as [l|] eqn:E; cbn [mbind option_bind].
  - assert (map (slot answer) (seq 0 n) = map Some l) as El.
    { apply mapM_Some in E. clear A. remember (map (slot answer) (seq 0 n)) as k eqn:Ek. clear Ek.
      induction E as [|x y k l Hx _ IH]; [done|]. cbn [map] in *. cbn in Hx. congruence. }
    do 2 f_equal.
    transitivity (map (fmap fst) (map Some l), map (fmap (M := option) snd) (map Some l)); [by rewrite !map_map|].
    rewrite <- El, !map_map. done.
  - apply mapM_None, Exists_exists in E as (o & Ho & En). apply list_elem_of_fmap in Ho as (i & -> & Hi%elem_of_seq).
    destruct (A i) as [p Hp]; [lia|]. unfold slot in En. by rewrite Hp in En.
Qed.

Lemma returned_answered n answer c :
  rtc (call_step n answer) (start n) c -> returned n c ->
  (forall i, (i < n)%nat -> exists p, answered answer i = Val (Some p)) /\
  cl_responses c = map (fun i => fst <$> slot answer i) (seq 0 n) /\
  cl_results c = map (fun i => snd <$> slot answer i) (seq 0 n).
Proof.
  intros R [Hs Hw]. apply reachable_inv in R as [lost [I1 I2 I3 I4 I5 Ip [L1 L2] I7]].
  assert (cl_running c ≡ ∅ /\ lost ≡ ∅) as [Hr Hl] by (split; apply size_empty_iff; lia).
  assert (forall i, (i < n)%nat -> finished c i) as F.
  { intros i Hi. split; [lia|]. rewrite Hr. apply not_elem_of_empty. }
  split; [|split].
  - intros i Hi. specialize (I4 i (F i Hi)). destruct (answered answer i) as [[p|]|] eqn:A; [by exists p| |done].
    assert (i ∈ lost) as Hin by (by apply I3; auto). rewrite Hl in Hin. by apply elem_of_empty in Hin.
  - apply list_eq. intros i. destruct (decide (i < n)%nat) as [Hi|Hi].
    + rewrite (proj1 (I7 i (F i Hi))), list_lookup_fmap, lookup_seq_lt by done. done.
    + rewrite !lookup_ge_None_2; [done| |]; rewrite ?length_map, ?length_seq; lia.
  - apply list_eq. intros i. destruct (decide (i < n)%nat) as [Hi|Hi].
    + rewrite (proj2 (I7 i (F i Hi))), list_lookup_fmap, lookup_seq_lt by done. done.
    + rewrite !lookup_ge_None_2; [done| |]; rewrite ?length_map, ?length_seq; lia.
Qed.

(** *** Progress *)
Definition work_left (n : nat) (c : call) : nat := 2 * (n - cl_spawned c) + size (cl_running c).
Lemma call_step_work n answer c c' :
  (forall i, i ∈ cl_running c -> (i < cl_spawned c)%nat) -> call_step n answer c c' -> work_left n c = S (work_left n c').
Proof.
  intros I2 S. unfold work_left. destruct S as [c Hn|c i c' Hi E].
  - cbn. rewrite (size_union {[cl_spawned c]} (cl_running c)), size_singleton; [lia|].
    apply disjoint_singleton_l. intros Hi%I2. lia.
  - apply goroutine_answered in E. rewrite (size_remove i (cl_running c) Hi).
    destruct (answered answer i) as [[[]|]|]; [| |done]; subst c'; cbn [cl_spawned cl_running]; lia.
Qed.
Lemma goroutine_val answer i c : is_val (answered answer i) = true -> exists c', goroutine answer i c = Val c'.
Proof.
  unfold goroutine, answered. destruct (answer i) as [[res|]|]; cbn [rbind]; [|by eexists|done].
  destruct (decode_response (Body res)); [by eexists|done].
Qed.
Lemma call_progress n answer c lost :
  call_inv n answer c lost -> (forall i, (i < n)%nat -> exists p, answered answer i = Val (Some p)) ->
  returned n c \/ exists c', call_step n answer c c'.
Proof.
  intros [I1 I2 I3 I4 I5 Ip L I7] A. destruct (decide (cl_spawned c < n)%nat); [right; eexists; by apply step_spawn|].
  destruct (set_choose_or_empty (cl_running c)) as [[i Hi]|He].
  - right. destruct (A i) as [p Hp]; [specialize (I2 i Hi); lia|].
    destruct (goroutine_val answer i c) as [c' E]; [by rewrite Hp|]. exists c'. by eapply step_run.
  - left. split; [lia|]. assert (lost ≡ ∅) as Hl.
    { apply elem_of_equiv_empty. intros i [[Hf _] Hn]%I3. destruct (A i) as [p Hp]; [lia|]. congruence. }
    rewrite I5, He, Hl, !size_empty. done.
Qed.
Lemma call_completes n answer c :
  rtc (call_step n answer) (start n) c -> (forall i, (i < n)%nat -> exists p, answered answer i = Val (Some p)) ->
  exists c', rtc (call_step n answer) c c' /\ returned n c'.
Proof.
  intros R A. remember (work_left n c) as m eqn:Em. revert c R Em. induction m as [|m IH]; intros c R Em.
  all: destruct (reachable_inv _ _ _ R) as [lost I]; destruct (call_progress n answer c lost I A) as [|[c' S]];
    [exists c; by split|].
  all: pose proof (call_step_work _ _ _ _ (inv_running _ _ _ _ I) S) as W.
  { lia. }
  destruct (IH c') as (c2 & R2 & H2); [by eapply rtc_r|lia|]. exists c2. split; [by eapply rtc_l|done].
Qed.
Lemma call_crashes n answer c i :
  rtc (call_step n answer) (start n) c -> (i < n)%nat -> is_val (answered answer i) = false ->
  exists c' m, rtc (call_step n answer) c c' /\ i ∈ cl_running c' /\ goroutine answer i c' = Panic m.
Proof.
  intros R Hi A. remember (n - cl_spawned c)%nat as m eqn:Em. revert c R Em. induction m as [|m IH]; intros c R Em.
  all: destruct (decide (i ∈ cl_running c)) as [Hr|Hr];
    [exists c; destruct (goroutine answer i c) as [c'|msg] eqn:E; [|by exists msg];
     apply goroutine_answered in E; by destruct (answered answer i)|].
  all: destruct (reachable_inv _ _ _ R) as [lost I];
    assert (~ finished c i) as Hf by (intros Hf%(inv_finished _ _ _ _ I); congruence).
  - destruct Hf. split; [lia|done].
  - assert (cl_spawned c < n)%nat by lia. destruct (IH (spawn c)) as (c2 & msg & R2 & H2).
    + eapply rtc_r; [exact R|by apply step_spawn].
    + cbn. lia.
    + exists c2, msg. split; [eapply rtc_l; [by apply step_spawn|done]|done].
Qed.

(** C15: [CmdAll] under every interleaving of its goroutines comes to what
    [fan_out] says.  When every daemon answers with a response, every run ends,
    with the responses and results in the order of the daemons; when one of them
    does not answer at all, no run ever returns; when a body is not a response,
    no run returns and the process ends in a panic.  No run has more than two
    steps per daemon. *)
Theorem CmdAll_refines (answer : answers) (n : nat) :
  match fan_out answer n with
  | Val (Some r) => forall c, rtc (call_step n answer) (start n) c ->
      (returned n c -> (cl_responses c, cl_results c) = r) /\
      exists c', rtc (call_step n answer) c c' /\ returned n c'
  | Val None => forall c, rtc (call_step n answer) (start n) c -> ~ returned n c
  | Panic _ => forall c, rtc (call_step n answer) (start n) c -> ~ returned n c /\
      exists c' i m, rtc (call_step n answer) c c' /\ i ∈ cl_running c' /\ goroutine answer i c' = Panic m
  end /\ forall k c, nsteps (call_step n answer) k (start n) c -> (k <= 2 * n)%nat.
Proof.
  split.
  - pose proof (fan_out_cases answer n) as C. destruct (fan_out answer n) as [[r|]|msg] eqn:E.
    + intros c R. split; [|by apply call_completes]. intros Hr.
      destruct (returned_answered n answer c R Hr) as (_ & -> & ->).
      rewrite (fan_out_slots answer n C) in E. by injection E.
    + intros c R Hr. destruct C as (i & Hi & A). destruct (returned_answered n answer c R Hr) as [A' _].
      destruct (A' i Hi). congruence.
    + intros c R. destruct C as (i & Hi & A). split.
      * intros Hr. destruct (returned_answered n answer c R Hr) as [A' _]. destruct (A' i Hi) as [p Hp]. by rewrite Hp in A.
      * destruct (call_crashes n answer c i R Hi A) as (c' & m & ?). by exists c', i, m.
  - assert (forall k c, nsteps (call_step n answer) k (start n) c ->
      rtc (call_step n answer) (start n) c /\ (k + work_left n c = 2 * n)%nat) as W; [|intros k c [_ Hk]%W; lia].
    induction k as [|k IH]; intros c N.
    + inversion N; subst. split; [done|]. unfold work_left. cbn [start cl_spawned cl_running]. rewrite size_empty. lia.
    + apply nsteps_inv_r in N as (c1 & N & S). destruct (IH c1 N) as [R W]. split; [by eapply rtc_r|].
      destruct (reachable_inv _ _ _ R) as [lost I]. pose proof (call_step_work _ _ _ _ (inv_running _ _ _ _ I) S). lia.
Qed.

(** ** The commands *)
Lemma CmdAll_answered id method params n r n' :
  CmdAll id method params n = Val (Some r, n') ->
  let a := all_answers (envelope id method params) n in
  let k := length (dm_Daemons dm) in
  (forall i, (i < k)%nat -> exists p, answered a i = Val (Some p)) /\
  r = (map (fun i => fst <$> slot a i) (seq 0 k), map (fun i => snd <$> slot a i) (seq 0 k)).
Proof.
  unfold CmdAll. cbv zeta. set (a := all_answers _ _). set (k := length _). pose proof (fan_out_cases a k) as C.
  destruct (fan_out a k) as [o|] eqn:E; [|discriminate]. cbn [rbind]. intros H. apply Val_pair_inj in H as [-> _].
  split; [exact C|]. rewrite (fan_out_slots a k C) in E. by injection E.
Qed.

(** Whatever one daemon would answer, the check of a block waits for all. *)
Lemma down_answered id method params n i d q :
  dm_Daemons dm !! i = Some d -> http_request_for d (envelope id method params) = Val q ->
  node_answer n (node_log n) q = None -> forall r n', CmdAll id method params n <> Val (Some r, n').
Proof.
  intros Hd Hq Ha r n' E. apply CmdAll_answered in E as [A _]. destruct (A i) as [p Hp]; [by eapply lookup_lt_Some|].
  revert Hp. unfold answered, all_answers. rewrite Hd, Hq. cbn [rbind]. by rewrite Ha.
Qed.

Lemma http_request_URL d body q : http_request_for d body = Val q -> q_URL q = DaemonOptions_URL d.
Proof. unfold http_request_for. destruct (dm_clients dm !! _); [|done]. destruct (negb _); [done|]. by intros [= <-]. Qed.

(** One daemon that does not answer stops the pool.  [CmdAll] is meant to
    leave a nil for it; instead its wait group is never done, and the check of a
    found block, the submission of a block and the start-up check of the daemons
    give no verdict, whatever the other daemons say. *)
Theorem daemon_down_no_verdict (i : nat) (d : DaemonOptions) (n : network) :
  dm_Daemons dm !! i = Some d ->
  (forall body, is_val (http_request_for d body) = true) ->
  (forall log q, q_URL q = DaemonOptions_URL d -> node_answer n log q = None) ->
  forall id x v n', CheckBlockAccepted id x n <> Val (Some v, n') /\
    (forall l, SubmitBlock id x n <> Val (Some l, n')) /\
    (forall b, IsAllOnline id n <> Val (Some b, n')) /\ Check_ id n <> Val (Some tt, n').
Proof.
  intros Hd Hv Ha id x v n'.
  assert (forall method params r n', CmdAll id method params n <> Val (Some r, n')) as W.
  { intros method params r m. pose proof (Hv (envelope id method params)) as Hr.
    destruct (http_request_for d (envelope id method params)) as [q|] eqn:Eq; [|done].
    apply (down_answered id method params n i d q Hd Eq). apply Ha. by eapply http_request_URL. }
  assert (forall b m, IsAllOnline id n <> Val (Some b, m)) as Wo.
  { intros b m. unfold IsAllOnline. destruct (CmdAll _ _ _ _) as [[[r|] m']|] eqn:E; cbn [rbind]; [|discriminate|discriminate].
    by destruct (W _ _ _ _ E). }
  split_and!; [| |exact (fun b => Wo b n')|].
  - unfold CheckBlockAccepted. destruct (CmdAll _ _ _ _) as [[[r|] m]|] eqn:E; cbn [rbind]; [|discriminate|discriminate].
    by destruct (W _ _ _ _ E).
  - intros l. unfold SubmitBlock. destruct (dm_Coin dm) as [coin|]; [|discriminate].
    destruct (c_NoSubmitBlock coin); destruct (CmdAll _ _ _ _) as [[[r|] m]|] eqn:E; cbn [rbind fmap option_fmap option_map];
      try discriminate; by destruct (W _ _ _ _ E).
  - unfold Check_. destruct (IsAllOnline id n) as [[[b|] m]|] eqn:E; cbn [rbind]; [|discriminate|discriminate].
    by destruct (Wo b m).
Qed.

Lemma first_tx_spec l tx : first_tx l = Val tx -> tx <> "" ->
  exists r gb txs, Some r ∈ l /\ BytesToGetBlock (Result r) = Val gb /\ gb_Tx gb = Some (tx :: txs).
Proof.
  induction l as [|[r|] l IH]; cbn [first_tx]; [by intros [= <-]| |].
  - destruct (BytesToGetBlock (Result r)) as [gb|] eqn:Eg; [|discriminate]. cbn [rbind].
    destruct (gb_Tx gb) as [[|t txs]|] eqn:Et; [discriminate| |].
    + intros [= ->] _. exists r, gb, txs. split; [by left|done].
    + intros E Hn. destruct (IH E Hn) as (r' & gb' & txs' & ? & ?). exists r', gb', txs'. split; [by right|done].
  - intros E Hn. destruct (IH E Hn) as (r' & gb' & txs' & ? & ?). exists r', gb', txs'. split; [by right|done].
Qed.

(** The verdict on a found block is unanimous and its coinbase is one a
    daemon reported: when [CheckBlockAccepted] returns, every daemon answered;
    the block is accepted exactly when none of them answered with an error; and a
    transaction id is the first transaction of the block as some daemon has it. *)
Theorem CheckBlockAccepted_unanimous (id : Z) (blockHash : string) (n n' : network) (ok : bool) (tx : string) :
  CheckBlockAccepted id blockHash n = Val (Some (ok, tx), n') ->
  let a := all_answers (envelope id "getblock" [JStr blockHash]) n in
  exists rs : list Response,
    Forall2 (fun i r => exists res, a i = Val (Some res) /\ decode_response (Body res) = Some r)
      (seq 0 (length (dm_Daemons dm))) rs /\
    (ok = true <-> Forall (fun r => Error r = None) rs) /\
    (tx <> "" -> exists r gb txs, r ∈ rs /\ BytesToGetBlock (Result r) = Val gb /\ gb_Tx gb = Some (tx :: txs)).
Proof.
  unfold CheckBlockAccepted. destruct (CmdAll _ _ _ _) as [[[r|] m]|] eqn:E; cbn [rbind]; [|discriminate|discriminate].
  apply CmdAll_answered in E as [A ->]. set (a := all_answers _ _) in *. set (k := length _) in *.
  unfold block_verdict. destruct (first_tx _) as [tx'|] eqn:Et; [|discriminate]. cbn [rbind].
  intros V. apply Val_pair_inj in V as [V _]. injection V as <- <-. cbv zeta.
  assert (exists rs, map (fun i => snd <$> slot a i) (seq 0 k) = map Some rs /\
    Forall2 (fun i r => exists res, a i = Val (Some res) /\ decode_response (Body res) = Some r) (seq 0 k) rs) as (rs & Ers & F).
  { assert (Forall (fun i => exists p, answered a i = Val (Some p)) (seq 0 k)) as Al.
    { apply Forall_forall. intros i Hi%elem_of_seq. apply A. lia. }
    clear -Al. induction (seq 0 k) as [|i l IH]; [by exists []|]. apply Forall_cons in Al as [[[res r] Hp] Al].
    destruct (IH Al) as (rs & E & F). exists (r :: rs). cbn [map]. rewrite E. unfold slot. rewrite Hp. split; [done|].
    constructor; [|done]. exists res. revert Hp. unfold answered. destruct (a i) as [[res'|]|]; cbn [rbind]; try done.
    destruct (decode_response (Body res')) eqn:Ed; [|done]. by intros [= -> ->]. }
  exists rs. split; [exact F|]. rewrite Ers in *. split.
  - rewrite forallb_forall, Forall_forall. split.
    + intros Hf r Hr. assert (has_result (Some r) = true) as Hh.
      { apply Hf, in_map_iff. exists r. split; [done|]. by apply list_elem_of_In. }
      cbn in Hh. by destruct (Error r).
    + intros Hf o (r & <- & Hr)%in_map_iff. cbn. rewrite Hf; [done|]. by apply list_elem_of_In.
  - intros Hn. destruct (first_tx_spec _ _ Et Hn) as (r & gb & txs & Hr & ?). exists r, gb, txs. split; [|done].
    apply list_elem_of_fmap in Hr as (r' & [= ->] & Hr). exact Hr.
Qed.

(** [Cmd] asks the first daemon and no other, and gives what it answers. *)
Lemma Cmd_first_daemon id method params n d ds q :
  dm_Daemons dm = d :: ds -> http_request_for d (envelope id method params) = Val q ->
  exists r res, Cmd id method params n = Val ((Some d, r, res), mkNode (node_log n ++ [q])%list (node_answer n)) /\
    (node_answer n (node_log n) q = None -> r = None /\ res = None).
Proof.
  intros Hd Hq. unfold Cmd, cmdToIndex. rewrite Hd. cbn [lookup list_lookup]. unfold DoHttpRequest. rewrite Hq.
  cbn [rbind ask]. unfold ask. destruct (node_answer n (node_log n) q) as [res|].
  - destruct (ReadFails res); do 2 eexists; (split; [reflexivity|discriminate]).
  - do 2 eexists. split; [reflexivity|done].
Qed.

(** The template of the pool hangs on one daemon, and its absence is not an
    error but the end of the process: when the first daemon does not answer,
    [GetBlockTemplate] dereferences the nil result, whatever the other daemons
    would say. *)
Theorem GetBlockTemplate_first_daemon_down (id : Z) (n : network) (d : DaemonOptions) (ds : list DaemonOptions) (q : http_request) :
  dm_Daemons dm = d :: ds -> http_request_for d (envelope id "getblocktemplate" template_params) = Val q ->
  node_answer n (node_log n) q = None ->
  GetBlockTemplate_cmd id n = Panic "nil pointer dereference".
Proof.
  intros Hd Hq Ha. destruct (Cmd_first_daemon id "getblocktemplate" template_params n d ds q Hd Hq) as (r & res & E & Hr).
  destruct (Hr Ha) as [-> _]. unfold GetBlockTemplate_cmd. by rewrite E.
Qed.
End Manager.

(** ** Witnesses: two daemons, of which the second has the block *)
Definition daemon1 : DaemonOptions := mkDaemonOptions "10.0.0.1" 8332 "rpc" "secret" false "".
Definition daemon2 : DaemonOptions := mkDaemonOptions "10.0.0.2" 8332 "" "" false "".
Definition sample_coin : CoinOptions := mkCoinOptions "Bitcoin" "BTC" false None "" false false.
Definition sample_manager : DaemonManager :=
  get (mkDaemonManager [] ∅ None) (NewDaemonManager (Some [daemon1; daemon2]) (Some sample_coin)).
Definition reply (result : json) : option http_response :=
  Some (mkResponse 200 (Some (JObj [("result", result); ("error", JNull); ("id", JNum "1")])) false).
Definition down1 : network :=
  mkNode [] (fun _ q => if String.eqb (q_URL q) "http://10.0.0.1:8332" then None else reply (JObj [("tx", JArr [JStr "c0ffee"])])).
Definition up : network := mkNode [] (fun _ _ => reply (JObj [("tx", JArr [JStr "c0ffee"])])).
Lemma daemon_down_no_verdict_witness :
  CheckBlockAccepted (fun _ => true) sample_manager 1 "00ab" down1 <> Val (Some (true, "c0ffee"), down1) /\
    (forall l, SubmitBlock (fun _ => true) sample_manager 1 "00ab" down1 <> Val (Some l, down1)) /\
    (forall b, IsAllOnline (fun _ => true) sample_manager 1 down1 <> Val (Some b, down1)) /\
    Check_ (fun _ => true) sample_manager 1 down1 <> Val (Some tt, down1).
Proof.
  apply (daemon_down_no_verdict (fun _ => true) sample_manager 0 daemon1 down1).
  - reflexivity.
  - intros body. vm_compute. reflexivity.
  - intros log q Hq. cbn. rewrite Hq. reflexivity.
Defined.
Definition verdict : result (option (bool * string) * network) := CheckBlockAccepted (fun _ => true) sample_manager 1 "00ab" up.
Definition up_after : network := get up (rbind verdict (fun r => Val (snd r))).
Lemma CheckBlockAccepted_unanimous_witness :
  exists rs : list Response,
    Forall2 (fun i r => exists res, all_answers (fun _ => true) sample_manager (envelope 1 "getblock" [JStr "00ab"]) up i = Val (Some res) /\
        decode_response (Body res) = Some r) (seq 0 2) rs /\
    (true = true <-> Forall (fun r => Error r = None) rs) /\
    ("c0ffee" <> "" -> exists r gb txs, r ∈ rs /\ BytesToGetBlock (Result r) = Val gb /\ gb_Tx gb = Some ("c0ffee" :: txs)).
Proof.
  apply (CheckBlockAccepted_unanimous (fun _ => true) sample_manager 1 "00ab" up up_after true "c0ffee").
  change (Some (true, "c0ffee")) with (get None (rbind verdict (fun r => Val (fst r)))).
  apply (get_pair None up). vm_compute. reflexivity.
Defined.
Lemma GetBlockTemplate_first_daemon_down_witness :
  GetBlockTemplate_cmd (fun _ => true) sample_manager 1 down1 = Panic "nil pointer dereference".
Proof.
  apply (GetBlockTemplate_first_daemon_down (fun _ => true) sample_manager 1 down1 daemon1 [daemon2]
    (mkRequest "http://10.0.0.1:8332" (Some ("rpc", "secret")) false
       (envelope 1 "getblocktemplate" (template_params sample_manager)))); vm_compute; reflexivity.
Defined.
(** A daemon that leaves out the result of an error ends the process. *)
Example missing_result_is_fatal :
  first_tx [Some (mkRpc None (Some (mkRpcError (-5) "Block not found")))] = Panic "call failed with error".
Proof. vm_compute. reflexivity. Qed.
