(* ===== verification/Payments.v ===== *)
(** * Payments: src/payments/payer.go

    The payment manager: classification of pending blocks, the split of a reward
    over share weights, the settlement of workers with its fee back-off, the
    reconciliation of an interrupted run and the two payout cycles.  Runs are
    programs over Redis and the wallet; arithmetic is float64 as in the source. *)
From Stdlib Require Import ZArith Lia List Strings.Ascii Strings.String Floats.SpecFloat.
From stdpp Require Import base list strings gmap.
From S2P Require Import Prelude Bytes Float Strconv Types Json Config Effects Storage.
Import ListNotations.
Local Open Scope string_scope.
Local Open Scope Z_scope.
Local Open Scope prog_scope.

(** ** The daemon replies the payer decodes *)
Definition validateaddress_schema : schema :=
  SStruct [("isvalid", SBool); ("address", SString); ("scriptPubKey", SString); ("ismine", SBool);
    ("iswatchonly", SBool); ("isscript", SBool); ("iswitness", SBool); ("script", SString);
    ("hex", SString); ("pubkey", SString);
    ("embedded", SStruct [("isscript", SBool); ("iswitness", SBool); ("witness_version", SInt);
       ("witness_program", SString); ("pubkey", SString); ("address", SString); ("scriptPubKey", SString)]);
    ("addresses", SList SString); ("label", SString); ("timestamp", SInt); ("hdkeypath", SString);
    ("hdseedid", SString); ("hdmasterkeyid", SString); ("labels", SList SAny)].
Record ValidateAddress := mkValidate { va_Isvalid : bool; va_IsMine : bool }.
Definition BytesToValidateAddress (b : json) : err_or ValidateAddress :=
  if fits validateaddress_schema b
  then Ok {| va_Isvalid := field_bool b "isvalid"; va_IsMine := field_bool b "ismine" |}
  else Err "unmashal validateAddress response failed".

Definition detail_schema : schema :=
  SStruct [("address", SString); ("category", SString); ("amount", SFloat); ("label", SString); ("vout", SInt)].
Definition gettransaction_schema : schema :=
  SStruct [("amount", SFloat); ("confirmations", SInt); ("generated", SBool); ("blockhash", SString);
    ("blockheight", SInt); ("blockindex", SInt); ("blocktime", SInt); ("txid", SString);
    ("walletconflicts", SList SAny); ("time", SInt); ("timereceived", SInt);
    ("bip125-replaceable", SString); ("details", SList detail_schema); ("hex", SString)].
Record TxDetail := mkDetail { td_Address : string; td_Category : string; td_Amount : float64 }.
Record GetTransaction := mkGetTransaction {
  gt_Amount : float64; gt_Confirmations : Z; gt_Details : list TxDetail }.
Definition BytesToGetTransaction (b : json) : err_or GetTransaction :=
  if fits gettransaction_schema b
  then Ok {| gt_Amount := field_float b "amount"; gt_Confirmations := field_int b "confirmations";
             gt_Details := map (fun d => mkDetail (field_string d "address") (field_string d "category")
                                          (field_float d "amount")) (field_list b "details") |}
  else Err "getTransaction call failed".

(** ** The manager *)
Record PaymentManager := mkPaymentManager {
  pm_options : PaymentOptions;
  pm_PoolAddress : Recipient;
  pm_Magnitude : float64;
  pm_MinPayment : Z;
  pm_validAddr : gmap string bool;
}.
Definition set_magnitude (m : float64) (min : Z) (pm : PaymentManager) : PaymentManager :=
  {| pm_options := pm_options pm; pm_PoolAddress := pm_PoolAddress pm; pm_Magnitude := m;
     pm_MinPayment := min; pm_validAddr := pm_validAddr pm |}.
Definition cache_addr (addr : string) (ok : bool) (pm : PaymentManager) : PaymentManager :=
  {| pm_options := pm_options pm; pm_PoolAddress := pm_PoolAddress pm; pm_Magnitude := pm_Magnitude pm;
     pm_MinPayment := pm_MinPayment pm; pm_validAddr := <[addr := ok]> (pm_validAddr pm) |}.

Definition NewPaymentManager (options : PaymentOptions) (poolAddr : Recipient) : PaymentManager :=
  {| pm_options := WithDefaults options; pm_PoolAddress := poolAddr; pm_Magnitude := fzero;
     pm_MinPayment := 0; pm_validAddr := ∅ |}.

(** [1e8] and the back-off constants, as the compiler rounds them. *)
Definition satoshis : float64 := float_of_Z 100000000.
Definition first_withhold : float64 := float_const 1 100.
Definition fone : float64 := float_of_Z 1.
Definition ftwo : float64 := float_of_Z 2.

Record worker := mkWorker { w_Address : string; w_Balance : Z; w_Reward : Z; w_Sent : Z }.
Definition set_sent (sent : Z) (w : worker) : worker :=
  mkWorker (w_Address w) (w_Balance w) (w_Reward w) sent.

Section Payer.
Context `{Platform} `{MapOrder}.
Variable db : DB.

Definition SatToCoin (pm : PaymentManager) (sat : Z) : float64 := fdiv (float_of_Z sat) (pm_Magnitude pm).

Definition CoinToSat (pm : PaymentManager) (coin : float64) : Z :=
  if fleb coin fzero then 0
  else uint64_of_float (ffloor (fadd (fmul coin (pm_Magnitude pm)) fhalf)).

(** [pm.cmd] *)
Definition cmd (pm : PaymentManager) (method : string) (params : list rpc_arg)
  : prog (option JsonRpcResponse) :=
  rpc (o_Daemon (pm_options pm)) method params.

(** ** Splitting a reward *)
Definition splitByShares (rewardSat : Z) (shares : gmap string float64) : gmap string Z :=
  let total := fold_left (fun t p => fadd t (snd p)) (range shares) fzero in
  if fleb total fzero then ∅
  else fmap (fun s => uint64_of_float (ffloor (fmul (float_of_Z rewardSat) (fdiv s total)))) shares.

Definition attribute (pm : PaymentManager) (pb : PendingBlock) (rewardSat : Z)
  : prog (err_or (gmap string Z)) :=
  let round :=
    try! shares := GetRoundContrib db (pb_Height pb) in
    Ret (Ok (splitByShares rewardSat shares)) in
  if String.eqb (o_PayMode (pm_options pm)) PayModeSolo then
    Ret (Ok (if String.eqb (pb_Finder pb) "" then ∅ else {[ pb_Finder pb := rewardSat ]}))
  else if String.eqb (o_PayMode (pm_options pm)) PayModePPLNS then
    if fleb (o_PPLNSWindow (pm_options pm)) fzero then round
    else
      try! shares := GetPPLNSShares db (pb_Mark pb) (o_PPLNSWindow (pm_options pm)) in
      Ret (Ok (splitByShares rewardSat shares))
  else round.

(** ** Addresses *)
Definition validatePoolAddress (pm : PaymentManager) : prog (err_or unit) :=
  do! result := cmd pm (o_AddressCheckMethod (pm_options pm)) [AStr (r_Address (pm_PoolAddress pm))] in
  Ret (match result with
       | None => Err "no response from payment daemon"
       | Some r =>
           match r_Error r with
           | Some e => Err (e_Message e)
           | None =>
               err_bind (BytesToValidateAddress (r_Result r)) (fun va =>
               if va_IsMine va then Ok tt else Err "payment daemon does not own pool address")
           end
       end).

(** The answer, and the manager with it cached. *)
Definition validRecipient (pm : PaymentManager) (addr : string) : prog (bool * PaymentManager) :=
  match pm_validAddr pm !! addr with
  | Some v => Ret (v, pm)
  | None =>
      do! result := cmd pm (o_AddressCheckMethod (pm_options pm)) [AStr addr] in
      let ok :=
        match result with
        | Some r =>
            match r_Error r with
            | None =>
                if String.eqb (o_AddressCheckMethod (pm_options pm)) "validateaddress" then
                  match BytesToValidateAddress (r_Result r) with
                  | Ok va => va_Isvalid va
                  | Err _ => false
                  end
                else true
            | Some _ => false
            end
        | None => false
        end in
      Ret (ok, cache_addr addr ok pm)
  end.

Definition setMagnitude (pm : PaymentManager) : PaymentManager :=
  let m := if fltb fzero (o_Magnitude (pm_options pm)) then o_Magnitude (pm_options pm) else satoshis in
  let pm' := set_magnitude m (pm_MinPayment pm) pm in
  set_magnitude m (CoinToSat pm' (o_MinPayment (pm_options pm))) pm'.

(** [Init]: the manager ready to serve and the storage in its retention mode. *)
Definition Init (pm : PaymentManager) : prog (err_or (PaymentManager * DB)) :=
  let mode := o_PayMode (pm_options pm) in
  let supported :=
    if (String.eqb mode PayModeProp || String.eqb mode PayModePPLNS || String.eqb mode PayModeSolo)%bool
    then Ok tt
    else if String.eqb mode PayModePPS
         then if fleb (o_PPSRate (pm_options pm)) fzero then Err "requires a positive ppsRate" else Ok tt
         else Err "unsupported payMode" in
  match supported with
  | Err e => Ret (Err e)
  | Ok _ =>
      try! _ := validatePoolAddress pm in
      Ret (Ok (setMagnitude pm, SetPPSMode (String.eqb mode PayModePPS) db))
  end.

(** ** Classifying a pending block *)

(** Reward, category and confirmations; [None] when the block must be retried. *)
Definition classification : Type := option (float64 * string * Z).

Definition getblock_schema : schema := SStruct [("confirmations", SInt)].
Definition classifyMissingTx (pm : PaymentManager) (pb : PendingBlock) : prog classification :=
  do! result := cmd pm "getblock" [AStr (pb_Hash pb)] in
  Ret (match result with
       | None => None
       | Some r =>
           match r_Error r with
           | Some _ => Some (fzero, Orphan, 0)
           | None =>
               if fits getblock_schema (r_Result r)
               then if field_int (r_Result r) "confirmations" <? 0 then Some (fzero, Orphan, 0) else None
               else None
           end
       end).

(** The first detail that credits the pool address, over the transaction's own
    amount. *)
Fixpoint pool_detail (addr : string) (l : list TxDetail) : option TxDetail :=
  match l with
  | [] => None
  | d :: l' => if String.eqb (td_Address d) addr then Some d else pool_detail addr l'
  end.

Definition classifyBlock (pm : PaymentManager) (pb : PendingBlock) : prog classification :=
  do! result := cmd pm "gettransaction" [AStr (pb_TxHash pb)] in
  match result with
  | None => Ret None
  | Some r =>
      match r_Error r with
      | Some e => if e_Code e =? -5 then classifyMissingTx pm pb else Ret None
      | None =>
          Ret (match BytesToGetTransaction (r_Result r) with
               | Err _ => None
               | Ok gt =>
                   if gt_Confirmations gt <? 0 then Some (fzero, Orphan, 0)
                   else
                     match pool_detail (r_Address (pm_PoolAddress pm)) (gt_Details gt) with
                     | Some d => Some (td_Amount d, td_Category d, gt_Confirmations gt)
                     | None => Some (gt_Amount gt, Generate, gt_Confirmations gt)
                     end
               end)
      end
  end.

(** ** Settlement *)

(** What a worker is sent at a given withholding rate. *)
Definition owed (w : worker) : Z := u64 (w_Balance w + w_Reward w).
Definition to_send (w : worker) (withhold : float64) : Z :=
  uint64_of_float (ffloor (fmul (float_of_Z (owed w)) (fsub fone withhold))).

(** The first loop of [settle]: decide and record each worker's payment. *)
Fixpoint settle_workers (pm : PaymentManager) (withhold : float64) (l : list (string * worker))
    (amounts : gmap string float64) (done : list (string * worker))
  : prog (gmap string float64 * list (string * worker) * PaymentManager) :=
  match l with
  | [] => Ret (amounts, done, pm)
  | (m, w) :: l' =>
      let toSend := to_send w withhold in
      if (pm_MinPayment pm <=? toSend) && (0 <? toSend) then
        do! r := validRecipient pm (w_Address w) in
        let '(ok, pm) := r in
        if ok
        then settle_workers pm withhold l' (<[w_Address w := SatToCoin pm toSend]> amounts)
               (done ++ [(m, set_sent toSend w)])
        else settle_workers pm withhold l' amounts (done ++ [(m, set_sent 0 w)])
      else settle_workers pm withhold l' amounts (done ++ [(m, set_sent 0 w)])
  end.

(** The second loop: balances and payouts of the update. *)
Definition record_worker (pm : PaymentManager) (u : PaymentUpdate) (p : string * worker) : PaymentUpdate :=
  let w := snd p in
  {| u_Balances := <[w_Address w := SatToCoin pm (u64 (owed w - w_Sent w))]> (u_Balances u);
     u_Paid := if 0 <? w_Sent w then <[w_Address w := SatToCoin pm (w_Sent w)]> (u_Paid u)
               else delete (w_Address w) (u_Paid u);
     u_Confirmed := u_Confirmed u; u_Orphaned := u_Orphaned u;
     u_DeleteRounds := u_DeleteRounds u; u_PPSCursor := u_PPSCursor u |}.

Definition sendmany_args (pm : PaymentManager) (amounts : gmap string float64) : list rpc_arg :=
  (if o_OmitSendManyDummy (pm_options pm) then [] else [AStr (o_SendManyDummy (pm_options pm))])
  ++ [AAmounts amounts].

Definition next_withhold (withhold : float64) : float64 :=
  let next := fmul withhold ftwo in
  if fltb next first_withhold then first_withhold else next.

(** One attempt per unit of fuel; the rates are 0, 1%, 2%, 4%, ..., 64%, so
    [settle_fuel] attempts are enough (see PaymentsSpec).  The filled update or
    the error is returned with the manager, whose address cache persists. *)
Definition settle_fuel : nat := 9.
Fixpoint settle (fuel : nat) (pm : PaymentManager) (workers : gmap string worker)
    (update : PaymentUpdate) (withhold : float64)
  : prog (err_or PaymentUpdate * PaymentManager) :=
  match fuel with
  | O => Ret (Err "out of fuel", pm)
  | S fuel' =>
      do! r := settle_workers pm withhold (range workers) ∅ [] in
      let '(amounts, ws, pm) := r in
      let workers := list_to_map ws in
      let update := fold_left (record_worker pm) (range workers) update in
      if bool_decide (amounts = ∅) then Ret (Ok update, pm)
      else
        do! put := PutPayoutIntent db update in
        match put with
        | Err e => Ret (Err e, pm)
        | Ok _ =>
            do! result := cmd pm "sendmany" (sendmany_args pm amounts) in
            match result with
            | None => Ret (Err "no response from payment daemon on sendmany (payout intent left for review)", pm)
            | Some r =>
                match r_Error r with
                | Some e =>
                    if e_Code e =? -6 then
                      let next := next_withhold withhold in
                      if fleb fone next then
                        do! _ := DelPayoutIntent db in
                        Ret (Err "wallet cannot cover sendmany fees even at 100% withholding", pm)
                      else settle fuel' pm workers update next
                    else
                      do! _ := DelPayoutIntent db in
                      Ret (Err "sendmany failed", pm)
                | None =>
                    let txid := match r_Result r with JStr t => t | _ => "" end in
                    do! stamped := SetPayoutIntentTxid db txid in
                    match stamped with
                    | Err e => Ret (Err e, pm)
                    | Ok _ => Ret (Ok update, pm)
                    end
                end
            end
        end
  end.

(** [if err := pm.settle(...); err != nil { return err }; return pm.db.ApplyPayments(update)] *)
Definition settle_and_apply (pm : PaymentManager) (workers : gmap string worker) (update : PaymentUpdate)
  : prog (err_or unit * PaymentManager) :=
  do! r := settle settle_fuel pm workers update fzero in
  match r with
  | (Err e, pm) => Ret (Err e, pm)
  | (Ok update, pm) => do! applied := ApplyPayments db update in Ret (applied, pm)
  end.

(** ** The payout cycles *)
Definition reconcile : prog (err_or unit) :=
  try! intent := GetPayoutIntent db in
  match intent with
  | None => Ret (Ok tt)
  | Some (update, txid) =>
      if negb (String.eqb txid "") then ApplyPayments db update
      else Ret (Err "in-flight payout intent has no txid")
  end.

Definition empty_update (cursor : Z) : PaymentUpdate := mkUpdate ∅ ∅ [] [] [] cursor.
Definition orphan (pb : PendingBlock) (u : PaymentUpdate) : PaymentUpdate :=
  mkUpdate (u_Balances u) (u_Paid u) (u_Confirmed u) (u_Orphaned u ++ [PendingBlock_String pb])
    (u_DeleteRounds u ++ [pb_Height pb]) (u_PPSCursor u).
Definition confirm (u : PaymentUpdate) (pb : PendingBlock) : PaymentUpdate :=
  mkUpdate (u_Balances u) (u_Paid u) (u_Confirmed u ++ [PendingBlock_String pb]) (u_Orphaned u)
    (u_DeleteRounds u ++ [pb_Height pb]) (u_PPSCursor u).

Definition seed_workers (pm : PaymentManager) (balances : gmap string float64) : gmap string worker :=
  map_imap (fun miner bal => Some (mkWorker miner (CoinToSat pm bal) 0 0)) balances.

(** [w.Reward += r], creating the worker. *)
Definition credit (workers : gmap string worker) (miner : string) (r : Z) : gmap string worker :=
  let w := default (mkWorker miner 0 0 0) (workers !! miner) in
  <[miner := mkWorker (w_Address w) (w_Balance w) (u64 (w_Reward w + r)) (w_Sent w)]> workers.

Definition is_orphan (category : string) : bool := (String.eqb category Orphan || String.eqb category Kicked)%bool.

(** The loop over pending blocks: the update with the orphans, the workers with
    their rewards, and the matured blocks. *)
Fixpoint process_blocks (pm : PaymentManager) (l : list PendingBlock) (u : PaymentUpdate)
    (workers : gmap string worker) (matured : list PendingBlock)
  : prog (err_or (PaymentUpdate * gmap string worker * list PendingBlock)) :=
  match l with
  | [] => Ret (Ok (u, workers, matured))
  | pb :: l' =>
      do! c := classifyBlock pm pb in
      match c with
      | None => process_blocks pm l' u workers matured
      | Some (reward, category, confirmations) =>
          if is_orphan category then process_blocks pm l' (orphan pb u) workers matured
          else if confirmations <? o_MinConfirmations (pm_options pm)
               then process_blocks pm l' u workers matured
          else
            try! dist := attribute pm pb (CoinToSat pm reward) in
            if bool_decide (dist = ∅) then process_blocks pm l' (orphan pb u) workers matured
            else
              let workers := fold_left (fun ws p => credit ws (fst p) (snd p)) (range dist) workers in
              process_blocks pm l' u workers (matured ++ [pb])
      end
  end.

(** In PPS mode the reward refills the pool: matured blocks are only confirmed. *)
Fixpoint process_blocks_pps (pm : PaymentManager) (l : list PendingBlock) (u : PaymentUpdate)
  : prog PaymentUpdate :=
  match l with
  | [] => Ret u
  | pb :: l' =>
      do! c := classifyBlock pm pb in
      match c with
      | None => process_blocks_pps pm l' u
      | Some (_, category, confirmations) =>
          if is_orphan category then process_blocks_pps pm l' (orphan pb u)
          else if confirmations <? o_MinConfirmations (pm_options pm) then process_blocks_pps pm l' u
          else process_blocks_pps pm l' (confirm u pb)
      end
  end.

(** The workers and the update of a PPS run. *)
Definition prepare_pps (pm : PaymentManager) : prog (err_or (gmap string worker * PaymentUpdate)) :=
  try! cursor := GetPPSCursor db in
  try! sm := GetSharesSince db cursor in
  let '(newShares, maxSeq) := sm in
  try! balances := GetAllMinerBalances db in
  let workers :=
    fold_left (fun ws p => credit ws (fst p) (CoinToSat pm (fmul (snd p) (o_PPSRate (pm_options pm)))))
      (range newShares) (seed_workers pm balances) in
  try! pendingBlocks := GetAllPendingBlocks db in
  do! update := process_blocks_pps pm pendingBlocks (empty_update maxSeq) in
  Ret (Ok (workers, update)).

Definition processPPS (pm : PaymentManager) : prog (err_or unit * PaymentManager) :=
  do! r := prepare_pps pm in
  match r with
  | Err e => Ret (Err e, pm)
  | Ok (workers, update) => settle_and_apply pm workers update
  end.

(** The workers, the update and the matured blocks of a run over the pending
    blocks; [None] when there are none. *)
Definition prepare (pm : PaymentManager)
  : prog (err_or (option (PaymentUpdate * gmap string worker * list PendingBlock))) :=
  try! pendingBlocks := GetAllPendingBlocks db in
  match pendingBlocks with
  | [] => Ret (Ok None)
  | _ =>
      try! balances := GetAllMinerBalances db in
      try! r := process_blocks pm pendingBlocks (empty_update 0) (seed_workers pm balances) [] in
      Ret (Ok (Some r))
  end.

Definition processPayments (pm : PaymentManager) : prog (err_or unit * PaymentManager) :=
  do! reconciled := reconcile in
  match reconciled with
  | Err e => Ret (Err e, pm)
  | Ok _ =>
      if String.eqb (o_PayMode (pm_options pm)) PayModePPS then processPPS pm
      else
        do! r := prepare pm in
        match r with
        | Err e => Ret (Err e, pm)
        | Ok None => Ret (Ok tt, pm)
        | Ok (Some (update, workers, matured)) =>
            match matured with
            | [] =>
                match u_Orphaned update with
                | [] => Ret (Ok tt, pm)
                | _ => do! applied := ApplyPayments db update in Ret (applied, pm)
                end
            | _ => settle_and_apply pm workers (fold_left confirm matured update)
            end
        end
  end.
End Payer.
