(* ===== verification/PaymentSafety.v ===== *)
(** * PaymentSafety: a payout is broadcast at most once, whatever fails

    The payment runs of src/payments/payer.go against an adversarial
    environment.  Redis may fail a request, apply it and lose the reply, or
    apply a prefix of a plain pipeline; MULTI/EXEC is all or nothing.  The wallet
    may answer, reject, or lose the reply of a sendmany that it has or has not
    broadcast; a reply with an error means it has not.  The process may crash
    between any two requests and start again, and an operator may delete the
    intent while it is down.  Every other reply is arbitrary. *)
From Stdlib Require Import ZArith Lia List Strings.Ascii Strings.String Floats.SpecFloat FunctionalExtensionality.
From stdpp Require Import base list strings gmap relations.
From S2P Require Import Prelude Bytes Float Strconv Types Json Config Effects Storage Payments.
Import ListNotations.
Local Open Scope string_scope.
Local Open Scope Z_scope.
Local Open Scope prog_scope.

(** ** The environment *)
Inductive entry :=
| Broadcast (params : list rpc_arg)
| Applied (cmds : list wcmd)
| Cleared.

Record world := mkWorld { w_intent : gmap string hval; w_log : list entry }.

(** The effect of a command on the hash at the intent key [ik]. *)
Definition hset (h : gmap string hval) (fields : list (string * hval)) : gmap string hval :=
  fold_left (fun h p => <[fst p := snd p]> h) fields h.
Definition on_intent (ik : string) (h : gmap string hval) (c : wcmd) : gmap string hval :=
  match c with
  | HSet k fields => if String.eqb k ik then hset h fields else h
  | Del k => if String.eqb k ik then ∅ else h
  | _ => h
  end.

(** Only [ApplyPayments] uses a transaction, so a committed one is a payment run
    applied to the books. *)
Definition commit (ik : string) (tx : bool) (cmds : list wcmd) (w : world) : world :=
  {| w_intent := fold_left (on_intent ik) cmds (w_intent w);
     w_log := if tx then w_log w ++ [Applied cmds] else w_log w |}.

Inductive redis_step (ik : string) : forall X, redis X -> world -> err_or X -> world -> Prop :=
| exec_ok tx cmds w : redis_step ik unit (Exec tx cmds) w (Ok tt) (commit ik tx cmds w)
| exec_lost tx cmds w e : redis_step ik unit (Exec tx cmds) w (Err e) (commit ik tx cmds w)
| exec_failed tx cmds w e : redis_step ik unit (Exec tx cmds) w (Err e) w
| exec_partial cmds rest w e :
    redis_step ik unit (Exec false (cmds ++ rest)) w (Err e) (commit ik false cmds w)
| hgetall_intent w : redis_step ik _ (HGetAll ik) w (Ok (w_intent w)) w
| hgetall_other k r w : k <> ik -> redis_step ik _ (HGetAll k) w r w
| hgetall_failed k e w : redis_step ik _ (HGetAll k) w (Err e) w
| incr_any k r w : redis_step ik _ (Incr k) w r w
| hget_any k f r w : redis_step ik _ (HGet k f) w r w
| get_any k r w : redis_step ik _ (Get k) w r w
| smembers_any k r w : redis_step ik _ (SMembers k) w r w
| zrange_any k a b r w : redis_step ik _ (ZRange k a b) w r w
| zrevrange_any k a b r w : redis_step ik _ (ZRevRangeByScore k a b) w r w
| zrangescores_any k a b r w : redis_step ik _ (ZRangeByScoreWithScores k a b) w r w.

Definition log_broadcast (params : list rpc_arg) (w : world) : world :=
  {| w_intent := w_intent w; w_log := w_log w ++ [Broadcast params] |}.

Inductive rpc_step : string -> list rpc_arg -> world -> option JsonRpcResponse -> world -> Prop :=
| rpc_other method params r w : method <> "sendmany" -> rpc_step method params w r w
| send_done params r w :
    r_Error r = None -> rpc_step "sendmany" params w (Some r) (log_broadcast params w)
| send_rejected params r e w :
    r_Error r = Some e -> rpc_step "sendmany" params w (Some r) w
| send_reply_lost params w : rpc_step "sendmany" params w None (log_broadcast params w)
| send_lost params w : rpc_step "sendmany" params w None w.

(** ** The process *)
Section System.
Context `{Platform} `{MapOrder}.
Variable db : DB.
Abbreviation ik := (intent_key db).

Inductive prog_step {A} : prog A * world -> prog A * world -> Prop :=
| step_redis X (e : redis X) k w x w' :
    redis_step ik X e w x w' -> prog_step (Redis e k, w) (k x, w')
| step_rpc daemon method params k w r w' :
    rpc_step method params w r w' -> prog_step (Rpc daemon method params k, w) (k r, w').

Definition run_result : Type := err_or unit * PaymentManager.

Inductive sys_step : option (prog run_result) * world -> option (prog run_result) * world -> Prop :=
| sys_start pm w :
    o_AddressCheckMethod (pm_options pm) <> "sendmany" ->
    sys_step (None, w) (Some (processPayments db pm), w)
| sys_progress m w m' w' : prog_step (m, w) (m', w') -> sys_step (Some m, w) (Some m', w')
| sys_finish r w : sys_step (Some (Ret r), w) (None, w)
| sys_crash m w : sys_step (Some m, w) (None, w)
| sys_clear w : sys_step (None, w) (None, {| w_intent := ∅; w_log := w_log w ++ [Cleared] |}).

Definition start_state : option (prog run_result) * world := (None, mkWorld ∅ []).

(** The parameters of a sendmany pay the payouts of an update. *)
Definition pays (params : list rpc_arg) (u : PaymentUpdate) : Prop :=
  exists pm, params = sendmany_args pm (u_Paid u).

(** Well-formed histories, with the broadcast not applied yet: a broadcast only
    when none is open, each followed by the application of its own payouts (or
    by the operator's decision), and nothing applied that pays without one. *)
Inductive good : list entry -> option (list rpc_arg) -> Prop :=
| good_nil : good [] None
| good_broadcast l p : good l None -> good (l ++ [Broadcast p]) (Some p)
| good_applied l p u :
    good l (Some p) -> pays p u -> good (l ++ [Applied (apply_cmds db u)]) None
| good_moves l u :
    good l None -> u_Paid u = ∅ -> good (l ++ [Applied (apply_cmds db u)]) None
| good_cleared l o : good l o -> good (l ++ [Cleared]) None.

(** ** The invariant at every point where the process may crash *)
Definition intent (u : PaymentUpdate) (txid : string) : gmap string hval :=
  <["txid" := HText txid]> {["update" := HUpdate u]}.

Definition intent_ok (h : gmap string hval) (o : option (list rpc_arg)) : Prop :=
  match o with
  | Some p => exists u t, h = intent u t /\ pays p u
  | None => h = ∅ \/ exists u, h = intent u ""
  end.
Definition crash_ok (w : world) : Prop := exists o, good (w_log w) o /\ intent_ok (w_intent w) o.

(** ** Weakest preconditions *)
Fixpoint wp {A} (m : prog A) (Q : A -> world -> Prop) (w : world) : Prop :=
  match m with
  | Ret a => Q a w
  | Redis e k => crash_ok w /\ forall x w', redis_step ik _ e w x w' -> wp (k x) Q w'
  | Rpc _ method params k =>
      crash_ok w /\ forall r w', rpc_step method params w r w' -> wp (k r) Q w'
  end.

Lemma wp_mono {A} (m : prog A) (P Q : A -> world -> Prop) w :
  (forall a w, P a w -> Q a w) -> wp m P w -> wp m Q w.
Proof.
  intros PQ. revert w. induction m as [a|X e k IH|d me ps k IH]; intros w; cbn.
  - apply PQ.
  - intros [C K]. split; [done|]. intros x w' S. by apply IH, K.
  - intros [C K]. split; [done|]. intros x w' S. by apply IH, K.
Qed.

Lemma wp_bind {A B} (m : prog A) (f : A -> prog B) (Q : B -> world -> Prop) w :
  wp m (fun a w => wp (f a) Q w) w -> wp (pbind m f) Q w.
Proof.
  revert w. induction m as [a|X e k IH|d me ps k IH]; intros w; cbn; [done| |];
    intros [C K]; (split; [done|]); intros x w' S; by apply IH, K.
Qed.

(** A program whose requests leave the world alone and whose results satisfy
    [P]: reads, and calls of the wallet other than sendmany. *)
Definition is_read {X} (e : redis X) : bool := match e with Exec _ _ => false | _ => true end.
Fixpoint quiet {A} (P : A -> Prop) (m : prog A) : Prop :=
  match m with
  | Ret a => P a
  | Redis e k => is_read e = true /\ forall x, quiet P (k x)
  | Rpc _ method _ k => method <> "sendmany" /\ forall r, quiet P (k r)
  end.

Lemma quiet_mono {A} (P Q : A -> Prop) m : (forall a, P a -> Q a) -> quiet P m -> quiet Q m.
Proof.
  intros PQ. induction m as [a|X e k IH|d me ps k IH]; cbn; [apply PQ| |]; intros [E K];
    (split; [done|]); intros x; apply IH, K.
Qed.

Lemma quiet_bind {A B} (P : B -> Prop) (m : prog A) (f : A -> prog B) :
  quiet (fun a => quiet P (f a)) m -> quiet P (pbind m f).
Proof.
  induction m as [a|X e k IH|d me ps k IH]; cbn; [done| |]; intros [E K];
    (split; [done|]); intros x; apply IH, K.
Qed.

Lemma redis_read_world X (e : redis X) w x w' :
  is_read e = true -> redis_step ik X e w x w' -> w' = w.
Proof. intros E S. by destruct S. Qed.

Lemma wp_quiet {A} (P : A -> Prop) (m : prog A) (Q : A -> world -> Prop) w :
  quiet P m -> crash_ok w -> (forall a, P a -> Q a w) -> wp m Q w.
Proof.
  intros Hq C HQ. induction m as [a|X e k IH|d me ps k IH]; cbn in *; [by apply HQ| |];
    destruct Hq as [E K]; (split; [done|]); intros x w' S.
  - apply redis_read_world in S as ->; [|done]. apply IH, K.
  - inversion S; subst; try done. apply IH, K.
Qed.

(** ** Inversion of a Redis step, by the request *)
Definition exec_spec {X} (e : redis X) : world -> err_or X -> world -> Prop :=
  match e with
  | Exec tx cmds => fun w x w' =>
      (x = Ok tt /\ w' = commit ik tx cmds w) \/
      (exists msg, x = Err msg) /\
      (w' = w \/ w' = commit ik tx cmds w \/
       tx = false /\ exists c r, cmds = c ++ r /\ w' = commit ik false c w)
  | HGetAll k => fun w x w' => k = ik -> w' = w /\ (x = Ok (w_intent w) \/ exists msg, x = Err msg)
  | _ => fun _ _ _ => True
  end%list.

Lemma redis_step_spec X (e : redis X) w x w' : redis_step ik X e w x w' -> exec_spec e w x w'.
Proof.
  intros S. destruct S; cbn; try done.
  - by left.
  - right. split; [by eexists|]. by right; left.
  - right. split; [by eexists|]. by left.
  - right. split; [by eexists|]. right; right. split; [done|]. by exists cmds, rest.
  - intros _. split; [done|]. by left.
  - intros _. split; [done|]. right. by eexists.
Qed.

(** ** The writes of the payer *)
Lemma apply_cmds_clears u h : fold_left (on_intent ik) (apply_cmds db u) h = ∅.
Proof.
  unfold apply_cmds. rewrite !app_assoc, fold_left_app. cbn. by rewrite String.eqb_refl.
Qed.

(** A run may be applied when its payouts are the ones broadcast last, or when
    it has none and nothing is outstanding. *)
Definition applicable (u : PaymentUpdate) (o : option (list rpc_arg)) : Prop :=
  match o with Some p => pays p u | None => u_Paid u = ∅ end.

Lemma good_apply l o u : good l o -> applicable u o -> good (l ++ [Applied (apply_cmds db u)])%list None.
Proof. destruct o; cbn; intros G A; [by eapply good_applied|by apply good_moves]. Qed.

Lemma ApplyPayments_wp u w o :
  good (w_log w) o -> intent_ok (w_intent w) o -> applicable u o ->
  wp (ApplyPayments db u)
    (fun r w' => crash_ok w' /\ (r = Ok tt -> good (w_log w') None /\ w_intent w' = ∅)) w.
Proof.
  intros G I A. unfold ApplyPayments, call. cbn [wp]. split; [by exists o|]. intros x w' S.
  apply redis_step_spec in S. cbn in S.
  assert (good (w_log (commit ik true (apply_cmds db u) w)) None) as G'.
  { cbn [commit w_log]. by eapply good_apply. }
  assert (w_intent (commit ik true (apply_cmds db u) w) = ∅) as I' by apply apply_cmds_clears.
  assert (crash_ok (commit ik true (apply_cmds db u) w)) as C'.
  { exists None. split; [done|]. left. done. }
  destruct S as [[-> ->]|[[m ->] [->|[->|[? _]]]]]; [done| | |done]; (split; [|done]).
  - by exists o.
  - done.
Qed.

(** The state before and after writing the intent. *)
Definition quiescent (w : world) : Prop := good (w_log w) None /\ intent_ok (w_intent w) None.
Lemma quiescent_crash_ok w : quiescent w -> crash_ok w.
Proof. intros [G I]. by exists None. Qed.

Lemma put_intent_effect u (h : gmap string hval) :
  h = ∅ \/ (exists u', h = intent u' "") ->
  fold_left (on_intent ik) [HSet ik [("update", HUpdate u); ("txid", HText "")]] h = intent u "".
Proof.
  intros Hh. cbn. rewrite String.eqb_refl. unfold intent. destruct Hh as [->|[u' ->]]; [done|].
  unfold intent. apply map_eq. intros k.
  destruct (decide (k = "txid")) as [->|N1]; [by rewrite !lookup_insert, !decide_True by done|].
  rewrite !(lookup_insert_ne _ "txid") by done.
  destruct (decide (k = "update")) as [->|N2]; [by rewrite !lookup_insert, decide_True by done|].
  rewrite lookup_insert_ne by done. rewrite lookup_insert_ne by done.
  rewrite lookup_singleton_ne by done. by rewrite lookup_singleton_ne.
Qed.

Lemma PutPayoutIntent_wp u w :
  quiescent w ->
  wp (PutPayoutIntent db u)
    (fun r w' => quiescent w' /\ (r = Ok tt -> w_intent w' = intent u "")) w.
Proof.
  intros [G I]. unfold PutPayoutIntent, call. destruct (marshals u); cbn [wp]; [|done].
  split; [by exists None|]. intros x w' S. apply redis_step_spec in S. cbn -[commit] in S.
  assert (w_intent (commit ik false [HSet ik [("update", HUpdate u); ("txid", HText "")]] w) = intent u "") as E.
  { by apply put_intent_effect. }
  destruct S as [[-> ->]|[[m ->] [->|[->|[_ (c & r & Hc & ->)]]]]]; try done.
  - split; [|done]. split; [done|]. right. by exists u.
  - split; [|done]. split; [done|]. right. by exists u.
  - destruct c as [|c0 c]; [done|]. injection Hc as <- Hc.
    destruct c; [|done]. split; [|done]. split; [done|]. right. by exists u.
Qed.

Lemma DelPayoutIntent_wp w : quiescent w -> wp (DelPayoutIntent db) (fun _ w' => quiescent w') w.
Proof.
  intros [G I]. unfold DelPayoutIntent, call. cbn [wp]. split; [by exists None|]. intros x w' S.
  apply redis_step_spec in S. cbn -[commit] in S.
  assert (quiescent (commit ik false [Del ik] w)) as Q.
  { split; [done|]. left. cbn. by rewrite String.eqb_refl. }
  destruct S as [[-> ->]|[[m ->] [->|[->|[_ (c & r & Hc & ->)]]]]]; try done.
  destruct c as [|c0 c]; [done|]. injection Hc as <- Hc. by destruct c.
Qed.

(** After the broadcast the stamp changes only the txid of the intent. *)
Lemma SetPayoutIntentTxid_wp u p t w :
  good (w_log w) (Some p) -> w_intent w = intent u "" -> pays p u ->
  wp (SetPayoutIntentTxid db t)
    (fun r w' => good (w_log w') (Some p) /\ intent_ok (w_intent w') (Some p)) w.
Proof.
  intros G I P. unfold SetPayoutIntentTxid, call. cbn [wp].
  assert (intent_ok (w_intent w) (Some p)) as I0 by (by exists u, "").
  split; [by exists (Some p)|]. intros x w' S. apply redis_step_spec in S. cbn -[commit] in S.
  assert (intent_ok (w_intent (commit ik false [HSet ik [("txid", HText t)]] w)) (Some p)) as I1.
  { exists u, t. split; [|done]. cbn. rewrite String.eqb_refl, I. cbn. unfold intent.
    by rewrite insert_insert_eq. }
  destruct S as [[-> ->]|[[m ->] [->|[->|[_ (c & r & Hc & ->)]]]]]; try done.
  destruct c as [|c0 c]; [done|]. injection Hc as <- Hc. by destruct c.
Qed.

(** ** What the settlement computes *)
Definition same_config (pm pm' : PaymentManager) : Prop :=
  pm_options pm' = pm_options pm /\ pm_PoolAddress pm' = pm_PoolAddress pm /\
  pm_Magnitude pm' = pm_Magnitude pm /\ pm_MinPayment pm' = pm_MinPayment pm.

Lemma same_config_refl pm : same_config pm pm.
Proof. done. Qed.
Lemma same_config_trans a b c : same_config a b -> same_config b c -> same_config a c.
Proof. intros (? & ? & ? & ?) (? & ? & ? & ?). repeat split; congruence. Qed.

Lemma SatToCoin_config pm pm' n : same_config pm pm' -> SatToCoin pm' n = SatToCoin pm n.
Proof. intros (_ & _ & E & _). unfold SatToCoin. by rewrite E. Qed.

Lemma validRecipient_quiet pm addr :
  o_AddressCheckMethod (pm_options pm) <> "sendmany" ->
  quiet (fun r => same_config pm (snd r)) (validRecipient pm addr).
Proof.
  intros Hm. unfold validRecipient. destruct (pm_validAddr pm !! addr); cbn; [done|].
  split; [done|]. intros r. done.
Qed.

(** The amount a settled worker contributes to the batch. *)
Definition add_amount (pm : PaymentManager) (a : gmap string float64) (p : string * worker)
  : gmap string float64 :=
  if 0 <? w_Sent (snd p) then <[w_Address (snd p) := SatToCoin pm (w_Sent (snd p))]> a else a.

(** A settled worker is the worker with a payment of nothing, or of what the
    rate allows when that reaches the minimum. *)
Definition settled (pm : PaymentManager) (withhold : float64) (p q : string * worker) : Prop :=
  fst q = fst p /\ exists sent, snd q = set_sent sent (snd p) /\
    (sent = 0 \/ sent = to_send (snd p) withhold /\ pm_MinPayment pm <= sent /\ 0 < sent).

Lemma settle_workers_quiet pm withhold l amounts done :
  o_AddressCheckMethod (pm_options pm) <> "sendmany" ->
  quiet (fun r => let '(amounts', ws, pm') := r in
           same_config pm pm' /\ exists ws', ws = (done ++ ws')%list /\
             amounts' = fold_left (add_amount pm) ws' amounts /\ Forall2 (settled pm withhold) l ws')
        (settle_workers pm withhold l amounts done).
Proof.
  revert pm amounts done. induction l as [|[m w] l IH]; intros pm amounts done Hm; cbn [settle_workers].
  { cbn. split; [done|]. exists []. by rewrite app_nil_r. }
  assert (forall pm' a sent, same_config pm pm' -> a = add_amount pm amounts (m, set_sent sent w) ->
    sent = 0 \/ sent = to_send w withhold /\ pm_MinPayment pm <= sent /\ 0 < sent ->
    quiet (fun r => let '(amounts', ws, pm'') := r in
           same_config pm pm'' /\ exists ws', ws = (done ++ ws')%list /\
             amounts' = fold_left (add_amount pm) ws' amounts /\
             Forall2 (settled pm withhold) ((m, w) :: l) ws')
      (settle_workers pm' withhold l a (done ++ [(m, set_sent sent w)]))) as K.
  { intros pm' a sent Hc -> Hs. eapply quiet_mono; [|apply IH; destruct Hc as (E & _); by rewrite E].
    intros [[amounts' ws] pm''] (Hc' & ws' & -> & -> & Hf). split; [by eapply same_config_trans|].
    exists ((m, set_sent sent w) :: ws'). split; [by rewrite <- app_assoc|]. split.
    - cbn [fold_left]. clear -Hc. revert amounts.
      assert (forall a p, add_amount pm' a p = add_amount pm a p) as E.
      { intros a p. unfold add_amount. by rewrite (SatToCoin_config pm pm'). }
      generalize (add_amount pm) (add_amount pm') E. clear. intros f g E amounts.
      generalize (f amounts (m, set_sent sent w)). induction ws' as [|x ws' IH]; intros b; cbn; [done|].
      by rewrite E, IH.
    - constructor; [split; [done|]; by exists sent|].
      eapply Forall2_impl; [exact Hf|]. intros p q (E & s' & E2 & Hs'). split; [done|].
      exists s'. split; [done|]. destruct Hc as (_ & _ & _ & Em). by rewrite Em in Hs'. }
  destruct ((pm_MinPayment pm <=? to_send w withhold) && (0 <? to_send w withhold)) eqn:Hc.
  - apply andb_prop in Hc as [H1 H2]. apply Z.leb_le in H1. pose proof H2 as H3. apply Z.ltb_lt in H3.
    apply quiet_bind. eapply quiet_mono; [|by apply validRecipient_quiet].
    intros [ok pm'] Hpm. cbn in Hpm. destruct ok.
    + apply K; [done| |by right]. unfold add_amount. cbn. rewrite H2.
      by rewrite (SatToCoin_config pm pm').
    + apply K; [done|done|by left].
  - apply K; [done|done|by left].
Qed.

(** Workers are stored under their address. *)
Definition keyed (workers : gmap string worker) : Prop :=
  forall m w, workers !! m = Some w -> w_Address w = m.
Definition keyed_list (l : list (string * worker)) : Prop :=
  Forall (fun p => w_Address (snd p) = fst p) l.

Lemma list_to_map_range {A} (m : gmap string A) : list_to_map (range m) = m.
Proof.
  rewrite <- (list_to_map_to_list m) at 2. apply list_to_map_proper.
  - change (NoDup (map fst (range m))). apply range_NoDup.
  - apply range_perm.
Qed.

Definition paid_at (pm : PaymentManager) (w : worker) : option float64 :=
  if 0 <? w_Sent w then Some (SatToCoin pm (w_Sent w)) else None.

Lemma amounts_lookup pm l a k :
  NoDup (map fst l) -> keyed_list l ->
  fold_left (add_amount pm) l a !! k
  = match list_to_map (M := gmap string worker) l !! k with
    | Some w => match paid_at pm w with Some x => Some x | None => a !! k end
    | None => a !! k
    end.
Proof.
  revert a. induction l as [|[m w] l IH]; intros a Hn Hk; [done|]. cbn [fold_left list_to_map foldr fst snd].
  cbn [map fst] in Hn. apply NoDup_cons in Hn as [Hm Hn].
  apply Forall_cons in Hk as [Hw Hk]. cbn in Hw.
  change (foldr _ ∅ l) with (list_to_map (M := gmap string worker) l).
  rewrite IH by done. unfold add_amount, paid_at. cbn [snd].
  destruct (decide (m = k)) as [<-|Hne].
  - assert (list_to_map (M := gmap string worker) l !! m = None) as E by (by apply not_elem_of_list_to_map_1).
    rewrite E, lookup_insert, decide_True by done.
    destruct (0 <? w_Sent w); [|done]. by rewrite Hw, lookup_insert, decide_True.
  - rewrite (lookup_insert_ne _ m) by done.
    assert ((if 0 <? w_Sent w then <[w_Address w:=SatToCoin pm (w_Sent w)]> a else a) !! k = a !! k) as E.
    { destruct (0 <? w_Sent w); [|done]. rewrite Hw. by rewrite lookup_insert_ne. }
    by rewrite E.
Qed.

Lemma record_paid_lookup pm l u k :
  NoDup (map fst l) -> keyed_list l ->
  u_Paid (fold_left (record_worker pm) l u) !! k
  = match list_to_map (M := gmap string worker) l !! k with
    | Some w => paid_at pm w
    | None => u_Paid u !! k
    end.
Proof.
  revert u. induction l as [|[m w] l IH]; intros u Hn Hk; [done|]. cbn [fold_left list_to_map foldr fst snd].
  cbn [map fst] in Hn. apply NoDup_cons in Hn as [Hm Hn].
  apply Forall_cons in Hk as [Hw Hk]. cbn in Hw.
  change (foldr _ ∅ l) with (list_to_map (M := gmap string worker) l).
  rewrite IH by done. unfold record_worker, paid_at. cbn [snd u_Paid].
  destruct (decide (m = k)) as [<-|Hne].
  - assert (list_to_map (M := gmap string worker) l !! m = None) as E by (by apply not_elem_of_list_to_map_1).
    rewrite E, lookup_insert, decide_True by done. rewrite Hw.
    destruct (0 <? w_Sent w); [by rewrite lookup_insert, decide_True|by rewrite lookup_delete, decide_True].
  - rewrite (lookup_insert_ne _ m) by done. rewrite Hw.
    destruct (list_to_map l !! k); [done|].
    destruct (0 <? w_Sent w); [by rewrite lookup_insert_ne|by rewrite lookup_delete_ne].
Qed.

Lemma settled_keys pm x l ws :
  Forall2 (settled pm x) l ws -> map fst ws = map fst l.
Proof. induction 1 as [|p q l ws (E & _) _ IH]; [done|]. cbn. by rewrite E, IH. Qed.

Lemma settled_keyed pm x l ws :
  Forall2 (settled pm x) l ws -> keyed_list l -> keyed_list ws.
Proof.
  induction 1 as [|p q l ws (E & s' & E2 & _) _ IH]; intros Hk; [constructor|].
  apply Forall_cons in Hk as [Hp Hk]. constructor; [|by apply IH]. by rewrite E2, E.
Qed.

Lemma keyed_range workers : keyed workers -> keyed_list (range workers).
Proof.
  intros Hk. apply Forall_forall. intros [m w] Hin. cbn. apply Hk. by apply elem_of_range.
Qed.

Lemma keyed_list_to_map l : NoDup (map fst l) -> keyed_list l -> keyed (list_to_map l).
Proof.
  intros Hn Hk m w Hm. apply elem_of_list_to_map_2 in Hm.
  apply (proj1 (Forall_forall _ _) Hk) in Hm. done.
Qed.

(** One attempt, as the update it leaves: the payouts are exactly the amounts. *)
Definition paid_in (u : PaymentUpdate) (workers : gmap string worker) : Prop :=
  forall k, is_Some (u_Paid u !! k) -> is_Some (workers !! k).

Lemma attempt_paid pm pm' x (workers : gmap string worker) ws update :
  keyed workers -> paid_in update workers -> same_config pm pm' ->
  Forall2 (settled pm x) (range workers) ws ->
  let workers' := list_to_map (M := gmap string worker) ws in
  let update' := fold_left (record_worker pm') (range workers') update in
  keyed workers' /\ paid_in update' workers' /\
  u_Paid update' = fold_left (add_amount pm) ws ∅.
Proof.
  intros Hk Hp Hc Hf. cbv zeta.
  assert (NoDup (map fst ws)) as Hn by (rewrite (settled_keys _ _ _ _ Hf); apply range_NoDup).
  assert (keyed_list ws) as Hkl by (eapply settled_keyed; [done|by apply keyed_range]).
  assert (keyed (list_to_map ws)) as Hk' by (by apply keyed_list_to_map).
  assert (forall k, is_Some (list_to_map (M := gmap string worker) ws !! k) <-> is_Some (workers !! k)) as Hdom.
  { intros k. rewrite <- (list_to_map_range workers).
    assert (forall l : list (string * worker), is_Some (list_to_map (M := gmap string worker) l !! k) <-> k ∈ map fst l) as D.
    { intros l. destruct (decide (k ∈ l.*1)) as [E|E].
      - split; [done|]. intros _. apply not_eq_None_Some. intros N.
        by apply not_elem_of_list_to_map_2 in N.
      - apply not_elem_of_list_to_map_1 in E as N. rewrite N. split; [by intros []|done]. }
    rewrite !D, (settled_keys _ _ _ _ Hf). done. }
  assert (u_Paid (fold_left (record_worker pm') (range (list_to_map (M := gmap string worker) ws)) update)
          = fold_left (add_amount pm) ws ∅) as E.
  { apply map_eq. intros k. rewrite record_paid_lookup by (apply range_NoDup || by apply keyed_range).
    rewrite amounts_lookup by done. rewrite list_to_map_range.
    destruct (list_to_map ws !! k) as [w|] eqn:Ew.
    - unfold paid_at. rewrite (SatToCoin_config pm pm') by done. destruct (0 <? _); [done|by rewrite lookup_empty].
    - rewrite lookup_empty. destruct (u_Paid update !! k) as [y|] eqn:Ey; [|done].
      exfalso. assert (is_Some (list_to_map (M := gmap string worker) ws !! k)) as [? Hs].
      { apply Hdom, Hp. by eexists. } congruence. }
  split; [done|]. split; [|done].
  intros k [y Hy]. rewrite record_paid_lookup in Hy by (apply range_NoDup || by apply keyed_range).
  rewrite list_to_map_range in Hy. destruct (list_to_map ws !! k) eqn:Ew; [by eexists|].
  assert (is_Some (list_to_map (M := gmap string worker) ws !! k)) as [? Hs].
  { apply Hdom, Hp. by eexists. } congruence.
Qed.

(** The post-condition of a settlement: it may be applied. *)
Definition settle_post (r : err_or PaymentUpdate * PaymentManager) (w : world) : Prop :=
  crash_ok w /\ forall u, fst r = Ok u ->
    exists o, good (w_log w) o /\ intent_ok (w_intent w) o /\ applicable u o.

Lemma settle_post_err e pm w : crash_ok w -> settle_post (Err e, pm) w.
Proof. intros C. split; [done|]. intros u E. discriminate E. Qed.

Lemma settle_wp fuel pm workers update withhold w :
  o_AddressCheckMethod (pm_options pm) <> "sendmany" ->
  keyed workers -> paid_in update workers -> quiescent w ->
  wp (settle db fuel pm workers update withhold) settle_post w.
Proof.
  revert pm workers update withhold w.
  induction fuel as [|fuel IH]; intros pm workers update withhold w Hm Hk Hp Q.
  { cbn. by apply settle_post_err, quiescent_crash_ok. }
  cbn [settle]. apply wp_bind. eapply wp_quiet; [by apply settle_workers_quiet|by apply quiescent_crash_ok|].
  intros [[amounts ws] pm'] (Hc & ws' & -> & Ham & Hf). cbn [app] in *.
  destruct (attempt_paid pm pm' withhold workers ws' update Hk Hp Hc Hf) as (Hk' & Hp' & Hpaid).
  cbv zeta in *. set (workers' := list_to_map ws') in *.
  set (update' := fold_left (record_worker pm') (range workers') update) in *.
  rewrite <- Ham in Hpaid. clear Ham.
  assert (o_AddressCheckMethod (pm_options pm') <> "sendmany") as Hm' by (destruct Hc as (E & _); by rewrite E).
  destruct (bool_decide (amounts = ∅)) eqn:Ea.
  { apply bool_decide_eq_true in Ea. cbn. split; [by apply quiescent_crash_ok|].
    intros u [= <-]. exists None. destruct Q as [G I]. split; [done|]. split; [done|]. cbn. congruence. }
  apply wp_bind. eapply wp_mono; [|by apply PutPayoutIntent_wp].
  intros [[]|e] w1 [Q1 I1]; [|by apply settle_post_err, quiescent_crash_ok].
  specialize (I1 eq_refl). pose proof (quiescent_crash_ok _ Q1) as C1.
  unfold cmd, rpc. cbn [pbind wp]. split; [done|]. intros r w2 S.
  assert (pays (sendmany_args pm' amounts) update') as P by (exists pm'; by rewrite Hpaid).
  assert (good (w_log (log_broadcast (sendmany_args pm' amounts) w1)) (Some (sendmany_args pm' amounts))) as G2.
  { cbn. apply good_broadcast, Q1. }
  inversion S as [? ? ? ? Hne|params r' ? Hr|params r' e ? Hr|params ?|params ?]; subst; [done| | | |].
  - (* broadcast *)
    rewrite Hr. apply wp_bind. eapply wp_mono; [|by eapply SetPayoutIntentTxid_wp].
    intros [[]|e] w3 [G3 I3]; [|apply settle_post_err; by eexists].
    cbn. split; [by eexists|]. intros u [= <-]. by eexists.
  - (* rejected *)
    rewrite Hr. destruct (e_Code e =? -6).
    + destruct (fleb fone (next_withhold withhold)).
      * apply wp_bind. eapply wp_mono; [|by apply DelPayoutIntent_wp].
        intros ? w3 Q3. by apply settle_post_err, quiescent_crash_ok.
      * by apply IH.
    + apply wp_bind. eapply wp_mono; [|by apply DelPayoutIntent_wp].
      intros ? w3 Q3. by apply settle_post_err, quiescent_crash_ok.
  - (* reply lost after the broadcast *)
    apply settle_post_err. eexists. split; [exact G2|]. exists update', "". by split.
  - (* nothing happened *)
    by apply settle_post_err.
Qed.

Lemma settle_and_apply_wp pm workers update w :
  o_AddressCheckMethod (pm_options pm) <> "sendmany" ->
  keyed workers -> paid_in update workers -> quiescent w ->
  wp (settle_and_apply db pm workers update) (fun _ => crash_ok) w.
Proof.
  intros Hm Hk Hp Q. unfold settle_and_apply. apply wp_bind.
  eapply wp_mono; [|by apply settle_wp]. intros [[u|e] pm'] w1 [C1 K]; [|done].
  destruct (K u eq_refl) as (o & G & I & A). apply wp_bind.
  eapply wp_mono; [|by eapply ApplyPayments_wp]. intros r w2 [C2 _]. done.
Qed.

(** ** The reads of a run *)
Ltac quiet_reads :=
  repeat first
    [ done
    | apply quiet_bind
    | progress cbn [quiet call rpc cmd is_read]
    | split
    | case_match
    | intros ? ].

Lemma classifyBlock_quiet pm pb : quiet (fun _ => True) (classifyBlock pm pb).
Proof. unfold classifyBlock, classifyMissingTx, cmd, rpc. quiet_reads. Qed.

Lemma attribute_quiet pm pb n : quiet (fun _ => True) (attribute db pm pb n).
Proof. unfold attribute, GetRoundContrib, GetPPLNSShares, call. quiet_reads. Qed.

Lemma GetAllMinerBalances_quiet : quiet (fun _ => True) (GetAllMinerBalances db).
Proof. unfold GetAllMinerBalances, call. quiet_reads. Qed.

Lemma GetAllPendingBlocks_quiet : quiet (fun _ => True) (GetAllPendingBlocks db).
Proof. unfold GetAllPendingBlocks, call. quiet_reads. Qed.

Lemma GetPPSCursor_quiet : quiet (fun _ => True) (GetPPSCursor db).
Proof. unfold GetPPSCursor, call. quiet_reads. Qed.

Lemma GetSharesSince_quiet cursor : quiet (fun _ => True) (GetSharesSince db cursor).
Proof. unfold GetSharesSince, call. quiet_reads. Qed.

Lemma credit_keyed ws m r : keyed ws -> keyed (credit ws m r).
Proof.
  intros Hk m' w. unfold credit. rewrite lookup_insert_Some. intros [[<- <-]|[_ Hm]]; [|by apply Hk].
  cbn. destruct (ws !! m) as [x|] eqn:E; [|done]. cbn. by apply Hk.
Qed.

Lemma credits_keyed {A} (f : A -> string) (g : A -> Z) l ws :
  keyed ws -> keyed (fold_left (fun ws p => credit ws (f p) (g p)) l ws).
Proof. revert ws. induction l as [|p l IH]; intros ws Hk; cbn; [done|]. by apply IH, credit_keyed. Qed.

Lemma seed_keyed pm balances : keyed (seed_workers pm balances).
Proof.
  intros m w. unfold seed_workers. rewrite map_lookup_imap.
  destruct (balances !! m); cbn; [|done]. by intros [= <-].
Qed.

Lemma process_blocks_quiet pm l u ws matured :
  u_Paid u = ∅ -> keyed ws ->
  quiet (fun r => match r with Ok (u', ws', _) => u_Paid u' = ∅ /\ keyed ws' | Err _ => True end)
    (process_blocks db pm l u ws matured).
Proof.
  revert u ws matured. induction l as [|pb l IH]; intros u ws matured Hu Hk; cbn [process_blocks]; [done|].
  apply quiet_bind. eapply quiet_mono; [|apply classifyBlock_quiet]. intros c _.
  destruct c as [[[reward category] conf]|]; [|by apply IH].
  destruct (is_orphan category); [by apply IH|]. destruct (conf <? _); [by apply IH|].
  apply quiet_bind. eapply quiet_mono; [|apply attribute_quiet]. intros [dist|] _; [|done].
  destruct (bool_decide _); [by apply IH|]. apply IH; [done|]. by apply credits_keyed.
Qed.

Lemma process_blocks_pps_quiet pm l u :
  u_Paid u = ∅ -> quiet (fun u' => u_Paid u' = ∅) (process_blocks_pps pm l u).
Proof.
  revert u. induction l as [|pb l IH]; intros u Hu; cbn [process_blocks_pps]; [done|].
  apply quiet_bind. eapply quiet_mono; [|apply classifyBlock_quiet]. intros c _.
  destruct c as [[[reward category] conf]|]; [|by apply IH].
  destruct (is_orphan category); [by apply IH|]. destruct (conf <? _); by apply IH.
Qed.

Lemma prepare_quiet pm :
  quiet (fun r => match r with Ok (Some (u, ws, _)) => u_Paid u = ∅ /\ keyed ws | _ => True end)
    (prepare db pm).
Proof.
  unfold prepare. apply quiet_bind. eapply quiet_mono; [|apply GetAllPendingBlocks_quiet].
  intros [[|pb l]|] _; [done| |done]. apply quiet_bind.
  eapply quiet_mono; [|apply GetAllMinerBalances_quiet]. intros [balances|] _; [|done].
  apply quiet_bind. eapply quiet_mono; [|apply process_blocks_quiet; [done|apply seed_keyed]].
  intros [[[u ws] matured]|] K; done.
Qed.

Lemma prepare_pps_quiet pm :
  quiet (fun r => match r with Ok (ws, u) => u_Paid u = ∅ /\ keyed ws | _ => True end)
    (prepare_pps db pm).
Proof.
  unfold prepare_pps. apply quiet_bind. eapply quiet_mono; [|apply GetPPSCursor_quiet].
  intros [cursor|] _; [|done]. apply quiet_bind. eapply quiet_mono; [|apply GetSharesSince_quiet].
  intros [[sh mx]|] _; [|done]. apply quiet_bind. eapply quiet_mono; [|apply GetAllMinerBalances_quiet].
  intros [balances|] _; [|done]. apply quiet_bind. eapply quiet_mono; [|apply GetAllPendingBlocks_quiet].
  intros [pbs|] _; [|done]. apply quiet_bind. eapply quiet_mono; [|by apply process_blocks_pps_quiet].
  intros u Hu. split; [done|]. apply credits_keyed, seed_keyed.
Qed.

Lemma confirm_paid l u : u_Paid (fold_left confirm l u) = u_Paid u.
Proof. revert u. induction l as [|pb l IH]; intros u; cbn; [done|]. by rewrite IH. Qed.

Lemma intent_nonempty u t : intent u t <> ∅.
Proof. unfold intent. apply insert_non_empty. Qed.
Lemma intent_update u t : intent u t !! "update" = Some (HUpdate u).
Proof. reflexivity. Qed.
Lemma intent_txid u t : intent u t !! "txid" = Some (HText t).
Proof. reflexivity. Qed.

Lemma reconcile_wp w :
  crash_ok w -> wp (reconcile db) (fun r w' => crash_ok w' /\ (r = Ok tt -> quiescent w')) w.
Proof.
  intros (o & G & I). unfold reconcile, GetPayoutIntent, call. cbn [pbind wp].
  split; [by exists o|]. intros x w' S. apply redis_step_spec in S. cbn in S.
  destruct (S eq_refl) as [-> [->|[m ->]]]; [|split; [by exists o|done]].
  assert (forall u t, w_intent w = intent u t -> applicable u o \/ t = "" ->
    wp (pbind (Ret (if bool_decide (w_intent w = ∅) then Ok None
                    else match w_intent w !! "update" with
                         | Some (HUpdate u) => Ok (Some (u, text_of (default (HText "") (w_intent w !! "txid"))))
                         | _ => Err "json: cannot unmarshal"
                         end))
         (fun r => match r with
                   | Ok intent => match intent with
                       | Some (update, txid) => if negb (String.eqb txid "") then ApplyPayments db update
                                                else Ret (Err "in-flight payout intent has no txid")
                       | None => Ret (Ok tt) end
                   | Err e => Ret (Err e) end))
       (fun r w' => crash_ok w' /\ (r = Ok tt -> quiescent w')) w) as K.
  { intros u t E HA. cbn [pbind]. rewrite E, bool_decide_false by apply intent_nonempty.
    rewrite intent_update, intent_txid.
    change (wp (if negb (String.eqb t "") then ApplyPayments db u
                else Ret (Err "in-flight payout intent has no txid"))
              (fun r w' => crash_ok w' /\ (r = Ok tt -> quiescent w')) w).
    destruct (String.eqb_spec t "") as [->|Hne]; cbn [negb].
    - cbn. split; [by exists o|done].
    - destruct HA as [HA|]; [|done]. eapply wp_mono; [|by eapply ApplyPayments_wp].
      intros r w1 [C K]. split; [done|]. intros Hr. destruct (K Hr) as [G1 I1].
      split; [done|]. by left. }
  destruct o as [p|].
  - destruct I as (u & t & E & P). apply (K u t E). by left.
  - destruct I as [E|[u E]].
    + cbn. rewrite E. cbn. split; [by exists None; split; [|left]|]. intros _. split; [done|]. by left.
    + apply (K u "" E). by right.
Qed.

Lemma processPayments_wp pm w :
  o_AddressCheckMethod (pm_options pm) <> "sendmany" -> crash_ok w ->
  wp (processPayments db pm) (fun _ => crash_ok) w.
Proof.
  intros Hm C. unfold processPayments. apply wp_bind. eapply wp_mono; [|by apply reconcile_wp].
  intros [[]|e] w1 [C1 Q1]; [|done]. specialize (Q1 eq_refl).
  assert (forall u ws, u_Paid u = ∅ -> paid_in u ws) as Hin.
  { intros u ws E k. rewrite E, lookup_empty. by intros []. }
  destruct (String.eqb _ PayModePPS).
  - unfold processPPS. apply wp_bind. eapply wp_quiet; [apply prepare_pps_quiet|done|].
    intros [[ws u]|] K; [|done]. destruct K as [Hu Hk]. apply settle_and_apply_wp; auto.
  - apply wp_bind. eapply wp_quiet; [apply prepare_quiet|done|].
    intros [[[[u ws] matured]|]|] K; [|done|done]. destruct K as [Hu Hk].
    destruct matured as [|pb l].
    + destruct (u_Orphaned u); [done|]. apply wp_bind. destruct Q1 as [G I].
      eapply wp_mono; [|eapply ApplyPayments_wp; [exact G|exact I|exact Hu]]. intros r w2 [C2 _]. done.
    + apply settle_and_apply_wp; [done|done| |done]. apply Hin. by rewrite confirm_paid.
Qed.

(** ** The system *)
Lemma wp_crash_ok {A} (m : prog A) (Q : A -> world -> Prop) w :
  (forall a w, Q a w -> crash_ok w) -> wp m Q w -> crash_ok w.
Proof. intros HQ. destruct m; cbn; [apply HQ| |]; by intros [? _]. Qed.

Definition sys_ok (st : option (prog run_result) * world) : Prop :=
  match st with
  | (Some m, w) => wp m (fun _ => crash_ok) w
  | (None, w) => crash_ok w
  end.

Lemma sys_step_ok st st' : sys_ok st -> sys_step st st' -> sys_ok st'.
Proof.
  intros Hs S. destruct S as [pm w Hm|m w m' w' S|r w|m w|w]; cbn in *.
  - by apply processPayments_wp.
  - inversion S; subst; cbn in Hs; destruct Hs as [_ K]; by apply K.
  - done.
  - eapply wp_crash_ok; [|exact Hs]. done.
  - destruct Hs as (o & G & _). exists None. split; [by eapply good_cleared|]. by left.
Qed.

Lemma sys_reachable_ok st : rtc sys_step start_state st -> sys_ok st.
Proof.
  intros R. assert (sys_ok start_state) as S0.
  { exists None. split; [constructor|]. by left. }
  induction R as [|x y z S R IH]; [done|]. apply IH. by eapply sys_step_ok.
Qed.

Lemma sys_good m w : rtc sys_step start_state (m, w) -> exists o, good (w_log w) o.
Proof.
  intros R. apply sys_reachable_ok in R. destruct m as [m|]; cbn in R.
  - apply wp_crash_ok in R as (o & G & _); [by exists o|done].
  - destruct R as (o & G & _). by exists o.
Qed.

(** ** Reading histories *)
Lemma good_cut l o a e b :
  good l o -> l = (a ++ e :: b)%list ->
  exists o', good a o' /\
    match e with
    | Broadcast p => o' = None
    | Applied cmds => exists u, cmds = apply_cmds db u /\ applicable u o'
    | Cleared => True
    end.
Proof.
  intros G. revert b. induction G as [|l p G IH|l p u G IH P|l u G IH P|l o G IH]; intros b E.
  { by destruct a. }
  all: destruct b as [|e' b _] using rev_ind;
    [apply app_inj_tail in E as [-> <-]; eexists; split; [exact G|]; done || by exists u
    |rewrite app_comm_cons, app_assoc in E; apply app_inj_tail in E as [E _]; by eapply IH].
Qed.

Lemma good_closed l o l1 p l2 :
  good l o -> l = (l1 ++ Broadcast p :: l2)%list ->
  (exists u, Applied (apply_cmds db u) ∈ l2 /\ pays p u) \/ Cleared ∈ l2 \/ o = Some p.
Proof.
  intros G. revert l2. induction G as [|l q G IH|l q u G IH P|l u G IH P|l o G IH]; intros l2 E.
  { by destruct l1. }
  all: destruct l2 as [|e' l2 _] using rev_ind;
    [apply app_inj_tail in E as [_ E2]; first [injection E2 as ->; by right; right|discriminate E2]
    |rewrite app_comm_cons, app_assoc in E; apply app_inj_tail in E as [E <-];
     destruct (IH _ E) as [(v & Hin & Hv)|[Hin|Ho]];
     [left; exists v; split; [set_solver|done]|right; left; set_solver|]].
  - discriminate Ho.
  - injection Ho as ->. left. exists u. split; [set_solver|done].
  - discriminate Ho.
  - right. left. set_solver.
Qed.

(** An open broadcast is the last entry. *)
Lemma good_open l p : good l (Some p) -> exists l1, l = (l1 ++ [Broadcast p])%list.
Proof.
  intros G. inversion G; subst; by eexists.
Qed.
End System.

(** ** The back-off of the settlement *)
Section Backoff.
Context `{Platform} `{MapOrder}.
Variable db : DB.

(** Whether the rates that follow [w] reach 1 within [n] attempts. *)
Fixpoint reaches_one (n : nat) (w : float64) : bool :=
  match n with
  | O => false
  | S n' => fleb fone (next_withhold w) || reaches_one n' (next_withhold w)
  end.

Lemma settle_fuel_irrelevant n f pm workers update w :
  reaches_one n w = true -> (n <= f)%nat ->
  settle db f pm workers update w = settle db n pm workers update w.
Proof.
  revert f pm workers update w. induction n as [|n IH]; intros f pm workers update w R L; [done|].
  destruct f as [|f]; [lia|]. cbn [settle reaches_one] in *. f_equal. apply functional_extensionality.
  intros [[amounts ws] pm']. destruct (bool_decide _); [done|]. f_equal. apply functional_extensionality.
  intros [|]; [|done]. f_equal. apply functional_extensionality. intros [r|]; [|done].
  destruct (r_Error r) as [e|]; [|done]. destruct (e_Code e =? -6); [|done].
  destruct (fleb fone (next_withhold w)); [done|]. apply IH; [done|lia].
Qed.

(** What a program asked the wallet, with the answers, when it returned [a]; Redis
    may answer anything. *)
Definition wallet_call : Type := string * list rpc_arg * option JsonRpcResponse.
Fixpoint answered {A} (m : prog A) (calls : list wallet_call) (a : A) : Prop :=
  match m with
  | Ret b => calls = [] /\ a = b
  | Redis e k => exists x, answered (k x) calls a
  | Rpc _ method params k => exists r l, calls = (method, params, r) :: l /\ answered (k r) l a
  end.
(** The attempts to pay: the arguments of each sendmany and its answer *)
Definition sent (calls : list wallet_call) : list (list rpc_arg * option JsonRpcResponse) :=
  omap (fun c => let '(method, params, r) := c in if String.eqb method "sendmany" then Some (params, r) else None) calls.
Definition declined (r : option JsonRpcResponse) : Prop :=
  exists j e, r = Some j /\ r_Error j = Some e /\ e_Code e = -6.

Lemma answered_bind {A B} (m : prog A) (f : A -> prog B) calls b :
  answered (pbind m f) calls b ->
  exists l1 l2 a, answered m l1 a /\ answered (f a) l2 b /\ calls = (l1 ++ l2)%list.
Proof.
  revert calls. induction m as [a|X e k IH|d me ps k IH]; intros calls R; cbn [pbind answered] in R.
  - by exists [], calls, a.
  - destruct R as [x R]. destruct (IH x _ R) as (l1 & l2 & a & R1 & R2 & ->). exists l1, l2, a. split; [by exists x|done].
  - destruct R as (r & l & -> & R). destruct (IH r _ R) as (l1 & l2 & a & R1 & R2 & ->).
    exists ((me, ps, r) :: l1), l2, a. split; [by exists r, l1|done].
Qed.
Lemma sent_app l1 l2 : sent (l1 ++ l2) = (sent l1 ++ sent l2)%list.
Proof. apply omap_app. Qed.
Lemma quiet_answered {A} (P : A -> Prop) m calls a : quiet P m -> answered m calls a -> sent calls = [] /\ P a.
Proof.
  revert calls. induction m as [b|X e k IH|d me ps k IH]; intros calls Q R; cbn [quiet answered] in *.
  - by destruct R as [-> ->].
  - destruct R as [x R]. by apply (IH x); [apply Q|].
  - destruct R as (r & l & -> & R). destruct Q as [Hne Q]. destruct (IH r l (Q r) R) as [E HP].
    split; [|done]. unfold sent in *. cbn. apply String.eqb_neq in Hne. by rewrite Hne.
Qed.

(** Programs that only talk to Redis *)
Fixpoint redis_only {A} (m : prog A) : Prop :=
  match m with Ret _ => True | Redis _ k => forall x, redis_only (k x) | Rpc _ _ _ _ => False end.
Lemma redis_only_sent {A} (m : prog A) calls a : redis_only m -> answered m calls a -> sent calls = [].
Proof.
  revert calls. induction m as [b|X e k IH|d me ps k IH]; intros calls Hm R; cbn in *; [by destruct R as [-> _]| |done].
  destruct R as [x R]. by apply (IH x).
Qed.
Lemma PutPayoutIntent_redis update : redis_only (PutPayoutIntent db update).
Proof. unfold PutPayoutIntent, call. by destruct (marshals _). Qed.

(** One attempt at a rate: to each worker of the batch what that rate leaves of what
    it is owed, when it reaches the minimum. *)
Definition attempt (pm : PaymentManager) (workers : gmap string worker) (rate : float64) (params : list rpc_arg) : Prop :=
  exists amounts, params = sendmany_args pm amounts /\ amounts <> ∅ /\
    forall k x, amounts !! k = Some x -> exists w, workers !! k = Some w /\
      x = SatToCoin pm (to_send w rate) /\ pm_MinPayment pm <= to_send w rate.
(** The rates a settlement may go through from [rate] on *)
Fixpoint rates_from (n : nat) (rate : float64) : list float64 :=
  match n with
  | O => []
  | S n' => rate :: (if fleb fone (next_withhold rate) then [] else rates_from n' (next_withhold rate))
  end.
(** The same workers, but for what they were sent. *)
Definition same_workers (ws ws' : gmap string worker) : Prop :=
  forall k w', ws' !! k = Some w' -> exists w s, ws !! k = Some w /\ w' = set_sent s w.

Lemma attempted pm0 pm pm' ws0 workers rate ws amounts :
  keyed workers -> same_workers ws0 workers -> same_config pm0 pm -> same_config pm pm' ->
  Forall2 (settled pm rate) (range workers) ws -> amounts = fold_left (add_amount pm) ws ∅ ->
  keyed (list_to_map ws) /\ same_workers ws0 (list_to_map ws) /\
  (amounts <> ∅ -> attempt pm0 ws0 rate (sendmany_args pm' amounts)).
Proof.
  intros Hk Hw Hc0 Hc Hf ->.
  assert (NoDup (map fst ws)) as Hn by (rewrite (settled_keys _ _ _ _ Hf); apply range_NoDup).
  assert (keyed_list ws) as Hkl by (eapply settled_keyed; [done|by apply keyed_range]).
  assert (forall k w', list_to_map (M := gmap string worker) ws !! k = Some w' -> exists w0 s0,
    ws0 !! k = Some w0 /\ w' = set_sent s0 w0 /\
    (s0 = 0 \/ s0 = to_send w0 rate /\ pm_MinPayment pm0 <= s0 /\ 0 < s0)) as L.
  { intros k w' E. apply elem_of_list_to_map_2 in E. apply list_elem_of_lookup in E as [i E].
    destruct (Forall2_lookup_r _ _ _ _ _ Hf E) as ([k0 w1] & Hin & Ek & s1 & Es & Hs). cbn in Ek, Es, Hs. subst k0.
    apply list_elem_of_lookup_2 in Hin. apply elem_of_range in Hin. destruct (Hw _ _ Hin) as (w0 & s & E0 & ->).
    exists w0, s1. split; [done|]. split; [exact Es|]. destruct Hc0 as (_ & _ & _ & Em). by rewrite Em in Hs. }
  split; [by apply keyed_list_to_map|]. split.
  { intros k w' E. destruct (L k w' E) as (w0 & s0 & E0 & E1 & _). by exists w0, s0. }
  intros Hne. exists (fold_left (add_amount pm) ws ∅). split.
  { unfold sendmany_args. destruct Hc0 as (E1 & _), Hc as (E2 & _). by rewrite E2, E1. }
  split; [done|]. intros k x Hx. rewrite amounts_lookup, lookup_empty in Hx by done.
  destruct (list_to_map ws !! k) as [w'|] eqn:E; [|done]. destruct (L k w' E) as (w0 & s0 & E0 & -> & Hs).
  unfold paid_at in Hx. cbn [set_sent w_Sent] in Hx. destruct (Z.ltb_spec 0 s0) as [Hp|]; [|done].
  injection Hx as <-. destruct Hs as [->|(-> & Hm & _)]; [lia|]. exists w0. split; [done|]. split; [|done].
  by apply SatToCoin_config.
Qed.

(** What the back-off promises of the attempts [sends], from [rate] on. *)
Definition backs_off (fuel : nat) (pm : PaymentManager) (workers : gmap string worker) (rate : float64)
    (sends : list (list rpc_arg * option JsonRpcResponse)) : Prop :=
  (length sends <= length (rates_from fuel rate))%nat /\
  Forall2 (fun rate c => attempt pm workers rate (fst c)) (take (length sends) (rates_from fuel rate)) sends /\
  Forall (fun c => declined (snd c)) (removelast sends).
Lemma backs_off_none fuel pm workers rate : backs_off fuel pm workers rate [].
Proof. split_and!; [cbn; lia|constructor|constructor]. Qed.
Lemma backs_off_last fuel pm workers rate c :
  attempt pm workers rate (fst c) -> backs_off (S fuel) pm workers rate [c].
Proof. intros Ha. split_and!; [cbn; lia|by constructor|constructor]. Qed.
Lemma backs_off_again fuel pm workers rate c sends :
  attempt pm workers rate (fst c) -> declined (snd c) -> fleb fone (next_withhold rate) = false ->
  backs_off fuel pm workers (next_withhold rate) sends -> backs_off (S fuel) pm workers rate (c :: sends).
Proof.
  intros Ha Hd Hn (L & F & D). unfold backs_off. cbn [rates_from]. rewrite Hn. cbn [length take].
  split_and!; [lia|by constructor|]. destruct sends as [|c' sends]; [constructor|by constructor].
Qed.

Lemma settle_attempts fuel pm0 ws0 pm workers update rate calls r :
  o_AddressCheckMethod (pm_options pm0) <> "sendmany" ->
  keyed workers -> same_workers ws0 workers -> same_config pm0 pm ->
  answered (settle db fuel pm workers update rate) calls r -> backs_off fuel pm0 ws0 rate (sent calls).
Proof.
  intros Hm. revert pm workers update rate calls. induction fuel as [|fuel IH]; intros pm workers update rate calls Hk Hw Hc R.
  { cbn in R. destruct R as [-> _]. apply backs_off_none. }
  cbn [settle] in R. apply answered_bind in R as (l1 & l2 & [[amounts ws] pm1] & R1 & R & ->).
  assert (o_AddressCheckMethod (pm_options pm) <> "sendmany") as Hm1 by (destruct Hc as (E & _); by rewrite E).
  destruct (quiet_answered _ _ _ _ (settle_workers_quiet pm rate (range workers) ∅ [] Hm1) R1)
    as [Q1 (Hc1 & ws' & -> & Ham & Hf)]. cbn [app] in *. rewrite sent_app, Q1. cbn [app].
  destruct (attempted pm0 pm pm1 ws0 workers rate ws' amounts Hk Hw Hc Hc1 Hf Ham) as (Hk' & Hw' & Hat).
  destruct (bool_decide (amounts = ∅)) eqn:Ea; [cbn in R; destruct R as [-> _]; apply backs_off_none|].
  apply bool_decide_eq_false in Ea. specialize (Hat Ea).
  apply answered_bind in R as (l3 & l4 & put & R3 & R & ->).
  rewrite sent_app, (redis_only_sent _ _ _ (PutPayoutIntent_redis _) R3). cbn [app].
  destruct put as [[]|e]; [|cbn in R; destruct R as [-> _]; apply backs_off_none].
  unfold cmd, rpc in R. cbn [pbind answered] in R. destruct R as (reply & l5 & -> & R).
  change (sent ((?m, ?ps, ?x) :: l5)) with ((ps, x) :: sent l5).
  assert (sent l5 = [] -> backs_off (S fuel) pm0 ws0 rate ((sendmany_args pm1 amounts, reply) :: sent l5)) as Last
    by (intros ->; by apply backs_off_last).
  destruct reply as [j|]; [|cbn in R; apply Last; by destruct R as [-> _]].
  destruct (r_Error j) as [e|] eqn:Ee.
  2:{ apply Last. refine (redis_only_sent _ _ _ _ R). by intros []. }
  destruct (e_Code e =? -6) eqn:Ec; [|apply Last; refine (redis_only_sent _ _ _ _ R); by intros []].
  apply Z.eqb_eq in Ec. destruct (fleb fone (next_withhold rate)) eqn:En.
  - apply Last. refine (redis_only_sent _ _ _ _ R). by intros [].
  - apply backs_off_again; [done|by exists j, e|done|]. eapply IH; [exact Hk'|exact Hw'|by eapply same_config_trans|exact R].
Qed.
End Backoff.

(** ** An ideal environment, for the witnesses

    Redis executes every request and the wallet answers every call; the reads
    return one pending block of one round with one miner. *)
Section Ideal.
Context `{Platform} `{MapOrder}.
Variable db : DB.

Definition ideal_redis {X} (e : redis X) : world -> err_or X * world :=
  match e in redis X return world -> err_or X * world with
  | Exec tx cmds => fun w => (Ok tt, commit (intent_key db) tx cmds w)
  | HGetAll k => fun w =>
      (Ok (if String.eqb k (intent_key db) then w_intent w
           else if String.eqb k (round_key db 5) then {["alice" := HText "3"]} else ∅), w)
  | Incr _ => fun w => (Ok 1, w)
  | HGet _ _ => fun w => (Ok None, w)
  | Get _ => fun w => (Ok None, w)
  | SMembers _ => fun w => (Ok ["hash:tx:5:alice:1"], w)
  | ZRange _ _ _ => fun w => (Ok [], w)
  | ZRevRangeByScore _ _ _ => fun w => (Ok [], w)
  | ZRangeByScoreWithScores _ _ _ => fun w => (Ok [], w)
  end.

Definition ideal_rpc (method : string) (params : list rpc_arg) (w : world)
  : option JsonRpcResponse * world :=
  if String.eqb method "sendmany" then
    (Some (mkRpcResponse (JStr "txid") None), log_broadcast params w)
  else if String.eqb method "gettransaction" then
    (Some (mkRpcResponse (JObj [("amount", JNum "50"); ("confirmations", JNum "200")]) None), w)
  else (Some (mkRpcResponse JNull None), w).

Fixpoint ideal_run {A} (m : prog A) (w : world) : A * world :=
  match m with
  | Ret a => (a, w)
  | Redis e k => let '(x, w') := ideal_redis e w in ideal_run (k x) w'
  | Rpc _ method params k => let '(r, w') := ideal_rpc method params w in ideal_run (k r) w'
  end.

Lemma ideal_redis_step X (e : redis X) w : redis_step (intent_key db) X e w (fst (ideal_redis e w)) (snd (ideal_redis e w)).
Proof.
  destruct e; cbn;
    lazymatch goal with |- redis_step _ _ (HGetAll _) _ _ _ => idtac | _ => constructor end.
  destruct (String.eqb_spec key (intent_key db)) as [->|].
  - constructor.
  - by constructor.
Qed.

Lemma ideal_rpc_step method params w :
  rpc_step method params w (fst (ideal_rpc method params w)) (snd (ideal_rpc method params w)).
Proof.
  unfold ideal_rpc. destruct (String.eqb_spec method "sendmany") as [->|]; [by constructor|].
  destruct (String.eqb method "gettransaction"); by constructor.
Qed.

Lemma ideal_run_steps {A} (m : prog A) w :
  rtc (prog_step db) (m, w) (Ret (fst (ideal_run m w)), snd (ideal_run m w)).
Proof.
  revert w. induction m as [a|X e k IH|d me ps k IH]; intros w; cbn [ideal_run]; [done| |].
  - pose proof (ideal_redis_step X e w) as S. destruct (ideal_redis e w) as [x w'].
    eapply rtc_l; [by constructor|apply IH].
  - pose proof (ideal_rpc_step me ps w) as S. destruct (ideal_rpc me ps w) as [x w'].
    eapply rtc_l; [by constructor|apply IH].
Qed.

(** A whole run, from one idle state to the next. *)
Lemma ideal_sys_run pm w :
  o_AddressCheckMethod (pm_options pm) <> "sendmany" ->
  rtc (sys_step db) (None, w) (None, snd (ideal_run (processPayments db pm) w)).
Proof.
  intros Hm. eapply rtc_l; [by apply sys_start|].
  pose proof (ideal_run_steps (processPayments db pm) w) as R.
  eapply rtc_r; [|apply sys_finish].
  remember (processPayments db pm, w) as st eqn:E1.
  remember (Ret (fst (ideal_run (processPayments db pm) w)), snd (ideal_run (processPayments db pm) w)) as st' eqn:E2.
  assert (forall a b, rtc (prog_step db) a b ->
    rtc (sys_step db) (Some (fst a), snd a) (Some (fst b), snd b)) as L.
  { intros a b R'. induction R' as [|[m1 w1] [m2 w2] z S R' IH]; [done|].
    eapply rtc_l; [by apply sys_progress|exact IH]. }
  apply L in R. by rewrite E1, E2 in R.
Qed.
End Ideal.

(** ** Properties *)
Section Properties.
Context `{Platform} `{MapOrder}.
Variable db : DB.

(** C4: no round is paid twice: in any history of payment runs, with crashes at
    any point, lost Redis and wallet replies and restarts, between two sendmany
    broadcasts the payouts of the first have been applied to the books (balances,
    payouts, block moves, in one transaction), or an operator has cleared the
    payout intent. *)
Theorem payout_broadcast_once m w l1 p l2 q l3 :
  rtc (sys_step db) start_state (m, w) ->
  w_log w = (l1 ++ Broadcast p :: l2 ++ Broadcast q :: l3)%list ->
  (exists u, Applied (apply_cmds db u) ∈ l2 /\ pays p u) \/ Cleared ∈ l2.
Proof.
  intros R E. destruct (sys_good db m w R) as [o G]. rewrite app_comm_cons, app_assoc in E.
  destruct (good_cut db _ _ _ _ _ G E) as (o' & G' & ->).
  destruct (good_closed db _ _ l1 p l2 G' eq_refl) as [Ha|[Hc|Hn]]; [by left|by right|discriminate Hn].
Qed.

(** C5: the books record only money that was sent: every payment run applied
    either pays nothing, or comes right after the broadcast of exactly its own
    payouts, so an interrupted run is completed once and never invented. *)
Theorem applied_payouts_were_broadcast m w l1 cmds l2 :
  rtc (sys_step db) start_state (m, w) -> w_log w = (l1 ++ Applied cmds :: l2)%list ->
  exists u, cmds = apply_cmds db u /\
    (u_Paid u = ∅ \/ exists l0 p, l1 = (l0 ++ [Broadcast p])%list /\ pays p u).
Proof.
  intros R E. destruct (sys_good db m w R) as [o G].
  destruct (good_cut db _ _ _ _ _ G E) as (o' & G' & u & -> & A). exists u. split; [done|].
  destruct o' as [p|]; [|by left]. right. destruct (good_open db _ _ G') as [l0 ->]. by exists l0, p.
Qed.

(** C38: the fee back-off.  Whatever Redis and the wallet answer, a settlement asks the
    wallet at most eight times to pay.  The attempts withhold 0, 1%, 2%, 4%, 8%, 16%,
    32% and 64% in this order: the k-th sends each worker in its batch what the k-th
    rate leaves of the worker's balance and reward, if that reaches the minimum
    payment.  Another attempt follows only an answer with error -6 (the wallet cannot
    cover the fee), and the loop ends by itself: more fuel than eight turns changes
    nothing.  Workers are kept under their addresses, and addresses are not checked
    with a call that pays. *)
Theorem settle_attempts_bounded pm workers update calls r :
  o_AddressCheckMethod (pm_options pm) <> "sendmany" -> keyed workers ->
  answered (settle db settle_fuel pm workers update fzero) calls r ->
  let sends := sent calls in
  let rates := [fzero; float_const 1 100; float_const 2 100; float_const 4 100; float_const 8 100;
                float_const 16 100; float_const 32 100; float_const 64 100] in
  (length sends <= 8)%nat /\
  Forall2 (fun rate c => attempt pm workers rate (fst c)) (take (length sends) rates) sends /\
  Forall (fun c => declined (snd c)) (removelast sends) /\
  (forall fuel, (8 <= fuel)%nat -> settle db fuel pm workers update fzero = settle db settle_fuel pm workers update fzero).
Proof.
  intros Hm Hk R. cbv zeta.
  destruct (settle_attempts db settle_fuel pm workers pm workers update fzero calls r Hm Hk) as (L & F & D);
    [intros k w E; exists w, (w_Sent w); by destruct w|done|exact R|].
  assert (rates_from settle_fuel fzero = [fzero; float_const 1 100; float_const 2 100; float_const 4 100; float_const 8 100;
    float_const 16 100; float_const 32 100; float_const 64 100]) as E by (vm_compute; reflexivity).
  rewrite E in L, F. split_and!; [exact L|exact F|exact D|].
  intros fuel Hf. rewrite !(settle_fuel_irrelevant db 8) by (unfold settle_fuel; first [lia|vm_compute; reflexivity]). done.
Qed.
End Properties.

Definition sample_db : DB := mkDB "coin" false 200000 [].
Definition sample_payment_options : PaymentOptions :=
  mkPaymentOptions 0 (float_const 1 1000) 0 "" fzero fzero fzero 0 "" "" false.
Definition sample_payer : PaymentManager :=
  @setMagnitude amd64 (NewPaymentManager sample_payment_options (mkRecipient "pool" "p2pkh" fzero None)).
Definition after_run (w : world) : world :=
  snd (ideal_run sample_db (@processPayments amd64 listed_order sample_db sample_payer) w).
Definition world2 : world := after_run (after_run (mkWorld ∅ [])).
Definition nth_entry (n : nat) : entry := default Cleared (w_log world2 !! n).
Definition sent_params (e : entry) : list rpc_arg := match e with Broadcast p => p | _ => [] end.
Definition applied_cmds (e : entry) : list wcmd := match e with Applied c => c | _ => [] end.

Lemma world2_reached :
  rtc (@sys_step amd64 listed_order sample_db) start_state (None, world2).
Proof.
  etrans; apply ideal_sys_run; discriminate.
Qed.

Lemma payout_broadcast_once_witness :
  (exists u, Applied (@apply_cmds sample_db listed_order u) ∈ [nth_entry 1] /\
     pays (sent_params (nth_entry 0)) u) \/ Cleared ∈ [nth_entry 1].
Proof.
  apply (@payout_broadcast_once amd64 listed_order sample_db None world2 [] (sent_params (nth_entry 0))
           [nth_entry 1] (sent_params (nth_entry 2)) [nth_entry 3]).
  - exact world2_reached.
  - vm_compute. reflexivity.
Defined.

Lemma applied_payouts_were_broadcast_witness :
  exists u, applied_cmds (nth_entry 1) = @apply_cmds sample_db listed_order u /\
    (u_Paid u = ∅ \/ exists l0 p, [nth_entry 0] = (l0 ++ [Broadcast p])%list /\ pays p u).
Proof.
  apply (@applied_payouts_were_broadcast amd64 listed_order sample_db None world2 [nth_entry 0]
           (applied_cmds (nth_entry 1)) [nth_entry 2; nth_entry 3]).
  - exact world2_reached.
  - vm_compute. reflexivity.
Defined.

(** A wallet that never covers the fee, and what a settlement asks of it. *)
Fixpoint poor_run {A} (m : prog A) : list wallet_call * A :=
  match m with
  | Ret a => ([], a)
  | Redis e k => poor_run (k (fst (ideal_redis sample_db e (mkWorld ∅ []))))
  | Rpc _ method params k =>
      let r := if String.eqb method "sendmany" then Some (mkRpcResponse JNull (Some (mkRpcError (-6) "insufficient funds")))
               else Some (mkRpcResponse (JObj [("isvalid", JBool true)]) None) in
      let '(l, a) := poor_run (k r) in ((method, params, r) :: l, a)
  end.
Lemma poor_run_answered {A} (m : prog A) : answered m (fst (poor_run m)) (snd (poor_run m)).
Proof.
  induction m as [a|X e k IH|d me ps k IH]; cbn [poor_run answered]; [done|by eexists|].
  match goal with |- context [poor_run (k ?r)] => specialize (IH r); destruct (poor_run (k r)) as [l a] end.
  by do 2 eexists.
Qed.
Definition two_workers : gmap string worker :=
  {["alice" := mkWorker "alice" 1000000 500000 0; "bob" := mkWorker "bob" 0 250000 0]}.
Definition poor_settlement := poor_run (@settle amd64 listed_order sample_db settle_fuel sample_payer two_workers (empty_update 0) fzero).
(** Eight attempts; in the last, bob is left out as his part is below the minimum. *)
Example poor_attempts :
  map (fun c => match fst c with [_; AAmounts m] | [AAmounts m] => Some (size m) | _ => None end) (sent (fst poor_settlement))
    = [Some 2; Some 2; Some 2; Some 2; Some 2; Some 2; Some 2; Some 1]%nat /\
  fst (snd poor_settlement) = Err "wallet cannot cover sendmany fees even at 100% withholding".
Proof. vm_compute. split; reflexivity. Qed.

Lemma settle_attempts_bounded_witness :
  let sends := sent (fst poor_settlement) in
  let rates := [fzero; float_const 1 100; float_const 2 100; float_const 4 100; float_const 8 100;
                float_const 16 100; float_const 32 100; float_const 64 100] in
  (length sends <= 8)%nat /\
  Forall2 (fun rate c => @attempt amd64 sample_payer two_workers rate (fst c)) (take (length sends) rates) sends /\
  Forall (fun c => declined (snd c)) (removelast sends) /\
  (forall fuel, (8 <= fuel)%nat ->
     @settle amd64 listed_order sample_db fuel sample_payer two_workers (empty_update 0) fzero
     = @settle amd64 listed_order sample_db settle_fuel sample_payer two_workers (empty_update 0) fzero).
Proof.
  apply (@settle_attempts_bounded amd64 listed_order sample_db sample_payer two_workers (empty_update 0)
           (fst poor_settlement) (snd poor_settlement)).
  - discriminate.
  - intros m w E. unfold two_workers in E.
    apply lookup_insert_Some in E as [[<- <-]|[_ E]]; [done|]. by apply lookup_singleton_Some in E as [<- <-].
  - exact (poor_run_answered _).
Defined.
