(* ===== verification/SplitSpec.v ===== *)
(** * SplitSpec: the reward split and the coin conversions, in exact arithmetic

    [splitByShares], [CoinToSat], [SatToCoin] and the withholding of [settle]
    compute in float64.  The error bounds of FloatSpec, summed over the miners,
    show that a split never hands out more than the reward, loses at most one
    base unit per miner plus one, and that amounts survive the conversion to
    coins and back. *)
From Stdlib Require Import ZArith Lia List Strings.String Floats.SpecFloat Reals Lra.
From stdpp Require Import base list strings gmap.
From S2P Require Import Prelude Bytes Float FloatSpec Config Effects Storage Payments.
Import ListNotations.
Local Open Scope Z_scope.

Definition Zsum (l : list Z) : Z := fold_right Z.add 0 l.
Definition Rsum (l : list R) : R := fold_right Rplus 0%R l.

(** A share weight: finite, not negative, and below 2^953. *)
Definition weight_ok (s : float64) : bool :=
  match s with
  | S754_zero false => true
  | S754_finite false m e => SpecFloat.bounded 53 1024 m e && (e <=? 900)
  | _ => false
  end.

Lemma weight_ok_spec s : weight_ok s = true -> nonneg s /\ (F2R s < b2 953)%R.
Proof.
  destruct s as [[]|?| |[] m e]; cbn [weight_ok]; try done; intros Hw.
  - split; [done|]. apply b2_pos.
  - apply andb_prop in Hw as [B E]. apply Z.leb_le in E. split; [by repeat split|].
    cbn [F2R]. pose proof (bounded_canonical m e B) as [Cm _].
    pose proof (digits2_pos_spec m) as [_ D].
    assert (Zpos m < 2 ^ 53) as Hm.
    { eapply Z.lt_le_trans; [exact D|]. apply Z.pow_le_mono_r; [lia|]. cbn [Zdigits2] in Cm. lia. }
    apply IZR_lt in Hm. rewrite <- b2_IZR in Hm by lia.
    replace 953 with (53 + 900) by lia. rewrite b2_add.
    pose proof (b2_pos e). pose proof (b2_pos 900). pose proof (b2_le e 900 E).
    pose proof (b2_pos 53).
    apply Rlt_le_trans with (b2 53 * b2 e)%R; [by apply Rmult_lt_compat_r|].
    apply Rmult_le_compat_l; lra.
Qed.

Local Open Scope R_scope.

Abbreviation u := ulp_rel.
Abbreviation eta := ulp_abs.

Lemma u_pos : 0 < u. Proof. apply b2_pos. Qed.
Lemma eta_pos : 0 < eta. Proof. apply b2_pos. Qed.
Lemma u_53 : u * IZR (2 ^ 53) = 1.
Proof. unfold ulp_rel. rewrite <- b2_IZR by lia. rewrite <- b2_add. apply b2_0. Qed.
Lemma eta_small : eta * IZR (2 ^ 200) <= 1.
Proof.
  unfold ulp_abs. rewrite <- b2_IZR by lia. rewrite <- b2_add.
  rewrite <- b2_0. apply b2_le. lia.
Qed.

Lemma Rabs_bounds x a : Rabs x <= a -> - a <= x <= a.
Proof. unfold Rabs. destruct (Rcase_abs x); lra. Qed.

Lemma Rsum_nonneg l : Forall (fun x => 0 <= x) l -> 0 <= Rsum l.
Proof. induction 1 as [|x l Hx Hl IH]; cbn; [lra|]. unfold Rsum in IH. lra. Qed.

(** *** The float total of the weights *)

(** One more addition widens the relative error by one unit. *)
Lemma step_low A s a k v f :
  0 <= A -> 0 <= s -> 0 <= k -> 0 <= v -> v <= / 2 -> k * v <= / 2 ->
  A * (1 - k * v) <= a -> (a + s) * (1 - v) <= f ->
  (A + s) * (1 - (k + 1) * v) <= f.
Proof.
  intros HA Hs Hk Hv Hv2 Hkv Ha Hf.
  assert ((A + s) * (1 - k * v) <= a + s) as H1.
  { assert (0 <= s * (k * v)) by (apply Rmult_le_pos; [done|nra]). nra. }
  assert ((A + s) * (1 - k * v) * (1 - v) <= (a + s) * (1 - v)) as H2 by (apply Rmult_le_compat_r; lra).
  assert (0 <= (A + s) * (k * v * v)) as H3 by (apply Rmult_le_pos; [lra|apply Rmult_le_pos; nra]).
  nra.
Qed.

Lemma step_high A s a k v f :
  0 <= A -> 0 <= s -> 0 <= k -> 0 <= v -> k * v <= / 2 ->
  a <= A * (1 + 2 * k * v) -> f <= (a + s) * (1 + v) ->
  f <= (A + s) * (1 + 2 * (k + 1) * v).
Proof.
  intros HA Hs Hk Hv Hkv Ha Hf.
  assert (a + s <= (A + s) * (1 + 2 * k * v)) as H1.
  { assert (0 <= s * (2 * (k * v))) by (apply Rmult_le_pos; [done|nra]). nra. }
  assert ((a + s) * (1 + v) <= (A + s) * (1 + 2 * k * v) * (1 + v)) as H2 by (apply Rmult_le_compat_r; lra).
  assert (0 <= (A + s) * (v * (/ 2 - k * v))) as H3 by (apply Rmult_le_pos; [lra|apply Rmult_le_pos; lra]).
  nra.
Qed.

Definition ftotal (l : list float64) (a : float64) : float64 := fold_left fadd l a.

Lemma total_bounds (l : list float64) : forall (a : float64) (A k : R),
  Forall (fun s => weight_ok s = true) l -> nonneg a ->
  0 <= k -> (k + INR (length l)) * u <= / 2 -> 0 <= A ->
  A * (1 - k * u) <= F2R a <= A * (1 + 2 * k * u) ->
  A + INR (length l) * b2 953 <= b2 1020 ->
  let n := k + INR (length l) in
  let S := A + Rsum (map F2R l) in
  nonneg (ftotal l a) /\ S * (1 - n * u) <= F2R (ftotal l a) <= S * (1 + 2 * n * u).
Proof.
  induction l as [|s l IH]; intros a A k Hl Ha Hk Hn HA Hb Hlim; cbv zeta.
  - cbn. rewrite !Rplus_0_r. done.
  - apply Forall_cons in Hl as [Hs Hl]. apply weight_ok_spec in Hs as [Hs Hs953].
    pose proof (nonneg_F2R s Hs) as Hs0. pose proof (nonneg_F2R a Ha) as Ha0.
    pose proof u_pos as Hu. pose proof (pos_INR (length l)) as Hlen.
    cbn [length] in *. rewrite S_INR in *.
    assert (k * u <= / 2) as Hku by nra.
    pose proof (b2_pos 953) as H953.
    assert (F2R a + F2R s < b2 1023) as Hsum.
    { assert (b2 1023 = 8 * b2 1020) as E.
      { replace 1023%Z with (3 + 1020)%Z by lia. rewrite b2_add, b2_IZR by lia. cbn. lra. }
      pose proof (b2_pos 1020). assert (A * (1 + 2 * k * u) <= 2 * A) by nra.
      assert (0 <= INR (length l) * b2 953) by nra. nra. }
    destruct (fadd_spec a s Ha Hs Hsum) as [Hn' He].
    apply Rabs_bounds in He.
    specialize (IH (fadd a s) (A + F2R s) (k + 1) Hl Hn' ltac:(lra) ltac:(lra) ltac:(lra)).
    destruct IH as [Hf Hr]; [| |].
    + split.
      * apply (step_low A (F2R s) (F2R a) k u); try lra.
        assert (u * IZR (2 ^ 53) = 1) by apply u_53. assert (2 <= IZR (2 ^ 53)) by (apply IZR_le; lia). nra.
      * apply (step_high A (F2R s) (F2R a) k u); lra.
    + lra.
    + cbv zeta in Hr. cbn [ftotal fold_left map Rsum fold_right].
      change (fold_left fadd l (fadd a s)) with (ftotal l (fadd a s)).
      change (fold_right Rplus 0 (map F2R l)) with (Rsum (map F2R l)).
      split; [done|].
      replace (A + (F2R s + Rsum (map F2R l))) with (A + F2R s + Rsum (map F2R l)) by lra.
      replace (k + (INR (length l) + 1)) with (k + 1 + INR (length l)) by lra. exact Hr.
Qed.

(** *** One miner's share of the reward *)
Section Split.
Context `{Platform}.

Definition payout (rewardSat : Z) (total s : float64) : Z :=
  uint64_of_float (ffloor (fmul (float_of_Z rewardSat) (fdiv s total))).

Definition slack (rewardSat : Z) : R := (2 * IZR rewardSat + 1) * eta.

Lemma slack_nonneg rw : (0 <= rw)%Z -> 0 <= slack rw.
Proof.
  intros H0. apply IZR_le in H0. pose proof eta_pos. unfold slack. apply Rmult_le_pos; lra.
Qed.

(** The bounds of a relative and an absolute error, composed twice. *)
Lemma two_roundings rw x q r :
  0 <= rw -> 0 <= x -> 0 <= q ->
  Rabs (q - x) <= x * u + eta -> Rabs (r - rw * q) <= rw * q * u + eta ->
  rw * x * (1 - 2 * u) - (2 * rw + 1) * eta <= r <= rw * x * (1 + 3 * u) + (2 * rw + 1) * eta.
Proof.
  intros Hrw Hx Hq Hqx Hr. apply Rabs_bounds in Hqx, Hr.
  pose proof u_pos as Hu. pose proof eta_pos as He. pose proof u_53 as H53.
  assert (2 <= IZR (2 ^ 53)) as H2 by (apply IZR_le; lia).
  assert (u <= / 2) as Hu2 by nra.
  assert (0 <= rw * x) as Hrx by (apply Rmult_le_pos; lra).
  assert (rw * q <= rw * (x * (1 + u) + eta)) as Q1 by (apply Rmult_le_compat_l; lra).
  assert (rw * (x * (1 - u) - eta) <= rw * q) as Q2 by (apply Rmult_le_compat_l; lra).
  assert (0 <= rw * eta) as Hre by (apply Rmult_le_pos; lra).
  assert (0 <= rw * x * u) as Hrxu by (apply Rmult_le_pos; lra).
  split.
  - assert (rw * (x * (1 - u) - eta) * (1 - u) <= rw * q * (1 - u)) as Q3 by (apply Rmult_le_compat_r; lra).
    assert (0 <= rw * x * u * u) by (apply Rmult_le_pos; lra).
    assert (0 <= rw * eta * u) by (apply Rmult_le_pos; lra). nra.
  - assert (rw * q * (1 + u) <= rw * (x * (1 + u) + eta) * (1 + u)) as Q3 by (apply Rmult_le_compat_r; lra).
    assert (rw * x * u * u <= rw * x * u * / 2) by (apply Rmult_le_compat_l; lra).
    assert (rw * eta * u <= rw * eta * / 2) by (apply Rmult_le_compat_l; lra). nra.
Qed.

Lemma payout_bounds rw T s :
  (0 <= rw <= 2 ^ 50)%Z -> nonneg T -> 0 < F2R T -> weight_ok s = true -> F2R s <= 2 * F2R T ->
  let z := payout rw T s in
  let x := F2R s / F2R T in
  (0 <= z)%Z /\ IZR rw * x * (1 - 2 * u) - slack rw - 1 < IZR z <= IZR rw * x * (1 + 3 * u) + slack rw.
Proof.
  intros Hrw HT HT0 Hs Hle. cbv zeta. apply weight_ok_spec in Hs as [Hs _].
  pose proof (nonneg_F2R s Hs) as Hs0. set (x := F2R s / F2R T).
  assert (0 <= x <= 2) as Hx.
  { subst x. split.
    - apply Rmult_le_pos; [done|]. left. by apply Rinv_0_lt_compat.
    - apply (Rmult_le_reg_r (F2R T)); [done|]. unfold Rdiv.
      rewrite Rmult_assoc, Rinv_l by lra. lra. }
  assert (IZR 4 <= b2 100) as H100 by (rewrite b2_IZR by lia; apply IZR_le; lia).
  assert (b2 100 < b2 1023) as H1023.
  { replace 1023%Z with (100 + 923)%Z by lia. rewrite b2_add. pose proof (b2_pos 100).
    assert (IZR 2 <= b2 923) by (rewrite b2_IZR by lia; apply IZR_le; lia). nra. }
  destruct (fdiv_spec s T Hs HT HT0 ltac:(fold x; lra)) as (Hq & Hqe & _). fold x in Hqe.
  destruct (float_of_Z_exact rw ltac:(lia)) as [HR HRv].
  pose proof (nonneg_F2R _ Hq) as Hq0. set (q := F2R (fdiv s T)) in *.
  assert (0 <= IZR rw <= IZR (2 ^ 50)) as Hrw' by (split; apply IZR_le; lia).
  assert (u <= / 2) as Hu2.
  { pose proof u_53. assert (2 <= IZR (2 ^ 53)) by (apply IZR_le; lia). pose proof u_pos. nra. }
  assert (eta <= 1) as He1.
  { pose proof eta_small. assert (1 <= IZR (2 ^ 200)) by (apply IZR_le; lia). pose proof eta_pos. nra. }
  assert (q <= 4) as Hq4.
  { apply Rabs_bounds in Hqe. assert (x * u <= 2 * / 2) by (apply Rmult_le_compat; pose proof u_pos; lra). lra. }
  assert (IZR (2 ^ 50) * 4 <= b2 100) as Hlim.
  { rewrite <- mult_IZR, b2_IZR by lia. apply IZR_le. lia. }
  assert (F2R (float_of_Z rw) * q < b2 1023) as Hrq.
  { rewrite HRv. assert (IZR rw * q <= IZR (2 ^ 50) * 4) by (apply Rmult_le_compat; lra). lra. }
  destruct (fmul_spec (float_of_Z rw) (fdiv s T) HR Hq Hrq) as (Hr & Hre & _).
  fold q in Hre. rewrite HRv in Hre.
  pose proof (two_roundings (IZR rw) x q _ ltac:(lra) ltac:(lra) Hq0 Hqe Hre) as B.
  assert (F2R (fmul (float_of_Z rw) (fdiv s T)) < IZR (2 ^ 53)) as H53.
  { apply Rabs_bounds in Hre.
    assert (IZR rw * q <= IZR (2 ^ 50) * 4) by (apply Rmult_le_compat; lra).
    assert (IZR rw * q * u <= IZR (2 ^ 50) * 4 * / 2) by (apply Rmult_le_compat; pose proof u_pos; try lra; apply Rmult_le_pos; lra).
    assert (IZR (2 ^ 53) = 8 * IZR (2 ^ 50)) as -> by (rewrite <- mult_IZR; f_equal).
    assert (1 < IZR (2 ^ 50)) by (apply IZR_lt; lia). lra. }
  destruct (uint64_ffloor_spec _ Hr H53) as [Hz Hzr]. fold (payout rw T s) in Hz, Hzr.
  unfold slack. split; [lia|]. lra.
Qed.

(** *** Summed over the miners *)
Lemma payouts_sum rw T l :
  (0 <= rw <= 2 ^ 50)%Z -> nonneg T -> 0 < F2R T ->
  Forall (fun s => weight_ok s = true /\ F2R s <= 2 * F2R T) l ->
  let N := INR (length l) in
  let X := Rsum (map F2R l) / F2R T in
  IZR rw * X * (1 - 2 * u) - N * slack rw - N <= IZR (Zsum (map (payout rw T) l))
    <= IZR rw * X * (1 + 3 * u) + N * slack rw.
Proof.
  intros Hrw HT HT0. induction 1 as [|s l [Hs Hle] Hl IH]; cbv zeta in *.
  - cbn. unfold Rdiv. rewrite !Rmult_0_l, !Rmult_0_r, !Rmult_0_l. lra.
  - pose proof (payout_bounds rw T s Hrw HT HT0 Hs Hle) as [_ B]. cbv zeta in B.
    cbn [length map Zsum Rsum fold_right]. rewrite S_INR, plus_IZR.
    change (fold_right Rplus 0 (map F2R l)) with (Rsum (map F2R l)).
    change (fold_right Z.add 0%Z (map (payout rw T) l)) with (Zsum (map (payout rw T) l)).
    unfold Rdiv in *. rewrite Rmult_plus_distr_r. lra.
Qed.

Lemma split_numbers (rw N T S : R) :
  0 <= rw -> 0 <= N -> 0 < T -> rw * (N + 4) * u <= / 2 -> N * u <= / 2 ->
  N * ((2 * rw + 1) * eta) <= u ->
  S * (1 - N * u) <= T <= S * (1 + 2 * N * u) -> 0 <= S -> (1 <= rw \/ rw = 0) ->
  rw * (S / T) * (1 + 3 * u) + N * ((2 * rw + 1) * eta) < rw + 1 /\
  rw - N - 1 < rw * (S / T) * (1 - 2 * u) - N * ((2 * rw + 1) * eta) - N.
Proof.
  intros Hrw HN HT Hru HNu Htiny [HlT HuT] HS Hcase. pose proof u_pos as Hu.
  assert (u <= / 4) as Hu4.
  { pose proof u_53. assert (4 <= IZR (2 ^ 53)) by (apply IZR_le; lia). nra. }
  assert (0 < S) as HS0.
  { destruct (Req_dec S 0) as [E|E]; [|lra]. rewrite E in HuT. lra. }
  set (X := S / T). assert (X * T = S) as HX by (subst X; field; lra).
  assert (0 <= N * u) as HNu0 by nra.
  assert (0 < X) as HX0 by (subst X; apply Rdiv_lt_0_compat; lra).
  (* X <= 1/(1 - Nu) <= 1 + 2Nu *)
  assert (X * (1 - N * u) <= 1) as X1.
  { assert (X * (S * (1 - N * u)) <= X * T) by (apply Rmult_le_compat_l; lra). nra. }
  assert (X <= 1 + 2 * (N * u)) as X2.
  { assert (X <= 2) by nra. assert (X * (N * u) <= 2 * (N * u)) by (apply Rmult_le_compat_r; lra). lra. }
  assert (1 <= X * (1 + 2 * (N * u))) as X3.
  { assert (X * T <= X * (S * (1 + 2 * N * u))) by (apply Rmult_le_compat_l; lra). nra. }
  assert (1 - 2 * (N * u) <= X) as X4 by nra.
  destruct Hcase as [H1| ->]; [|rewrite !Rmult_0_l in *; lra].
  assert (u <= rw * u) as Hru1 by nra.
  assert (rw * (N * u) + 4 * (rw * u) <= / 2) as Hru2 by lra.
  assert (rw * X <= rw * (1 + 2 * (N * u))) as R1 by (apply Rmult_le_compat_l; lra).
  assert (rw * (1 - 2 * (N * u)) <= rw * X) as R2 by (apply Rmult_le_compat_l; lra).
  assert (0 <= rw * u) as Hru0 by lra.
  assert (rw * u * (N * u) <= rw * u * / 2) as R3 by (apply Rmult_le_compat_l; lra).
  split.
  - assert (rw * X * (1 + 3 * u) <= rw * (1 + 2 * (N * u)) * (1 + 3 * u)) as R4
      by (apply Rmult_le_compat_r; lra). lra.
  - assert (0 <= rw * u * (N * u)) by (apply Rmult_le_pos; lra).
    assert (rw * (1 - 2 * (N * u)) * (1 - 2 * u) <= rw * X * (1 - 2 * u)) as R4
      by (apply Rmult_le_compat_r; lra). lra.
Qed.
End Split.

Section Theorem_split.
Context `{Platform} `{MapOrder}.

Lemma Zsum_perm l l' : l ≡ₚ l' -> Zsum l = Zsum l'.
Proof. induction 1; cbn in *; unfold Zsum in *; lia. Qed.

Lemma elem_le_Rsum l s : Forall (fun x => 0 <= F2R x) l -> s ∈ l -> F2R s <= Rsum (map F2R l).
Proof.
  induction 1 as [|x l Hx Hl IH]; [by intros ?%elem_of_nil|]. cbn.
  change (fold_right Rplus 0 (map F2R l)) with (Rsum (map F2R l)).
  assert (0 <= Rsum (map F2R l)).
  { apply Rsum_nonneg. by apply Forall_map. }
  intros [<-|Hin]%elem_of_cons; [lra|]. specialize (IH Hin). lra.
Qed.

(** The floating-point total of weights that are in range: how far it is from the
    exact sum, and that no weight is far above it. *)
Lemma total_of_weights (l : list float64) :
  Forall (fun s => weight_ok s = true) l -> (Z.of_nat (length l) <= 2 ^ 50)%Z ->
  let T := ftotal l fzero in
  let S := Rsum (map F2R l) in
  let N := INR (length l) in
  0 <= N <= IZR (2 ^ 50) /\ N * u <= / 8 /\ 0 <= S /\ nonneg T /\
  S * (1 - N * u) <= F2R T <= S * (1 + 2 * N * u) /\
  Forall (fun s => weight_ok s = true /\ F2R s <= 2 * F2R T) l.
Proof.
  intros Hl Hn T S N.
  assert (IZR (Z.of_nat (length l)) = N) as EN by (by rewrite <- INR_IZR_INZ).
  assert (0 <= N <= IZR (2 ^ 50)) as HN by (rewrite <- EN; split; apply IZR_le; lia).
  pose proof u_pos as Hu. pose proof u_53 as H53.
  assert (IZR (2 ^ 53) = 8 * IZR (2 ^ 50)) as E53 by (rewrite <- mult_IZR; f_equal).
  assert (1 <= IZR (2 ^ 50)) as H50 by (apply IZR_le; lia).
  assert (u * IZR (2 ^ 50) = / 8) as Hu50 by lra.
  assert (N * u <= / 8) as HNu by nra.
  destruct (total_bounds l fzero 0 0 Hl) as [HTn HTb]; [done|lra|fold N; lra|lra|cbn; lra| |].
  { rewrite Rplus_0_l. fold N. replace 1020%Z with (67 + 953)%Z by lia. rewrite b2_add.
    pose proof (b2_pos 953). apply Rmult_le_compat_r; [lra|]. rewrite b2_IZR by lia.
    assert (IZR (2 ^ 50) <= IZR (2 ^ 67)) by (apply IZR_le; lia). lra. }
  fold T in HTn, HTb. fold N in HTb. rewrite !Rplus_0_l in HTb. fold S in HTb.
  assert (Forall (fun x => 0 <= F2R x) l) as Hnn.
  { eapply Forall_impl; [exact Hl|]. intros s Hs. by apply nonneg_F2R, weight_ok_spec. }
  assert (0 <= S) as HS0 by (apply Rsum_nonneg; by apply Forall_map).
  split_and!; try done; try apply HN; try apply HTb.
  apply Forall_forall. intros s Hs. split; [by eapply Forall_forall in Hl|].
  pose proof (elem_le_Rsum l s Hnn Hs) as Hle. fold S in Hle.
  destruct HTb as [HTb _]. assert (S * (N * u) <= S * / 8) by (apply Rmult_le_compat_l; lra). lra.
Qed.

Lemma split_list rw (l : list float64) :
  Forall (fun s => weight_ok s = true) l -> (0 <= rw)%Z ->
  (rw * (Z.of_nat (length l) + 4) <= 2 ^ 52)%Z -> (Z.of_nat (length l) <= 2 ^ 50)%Z ->
  let T := ftotal l fzero in
  fleb T fzero = false ->
  (rw - Z.of_nat (length l) <= Zsum (map (payout rw T) l) <= rw)%Z.
Proof.
  intros Hl Hrw0 Hlim Hn T HT.
  destruct (total_of_weights l Hl Hn) as (HN & HNu & HS0 & HTn & HTb & Hl2).
  fold T in HTn, HTb, Hl2. set (N := INR (length l)) in *. set (S := Rsum (map F2R l)) in *.
  assert (IZR (Z.of_nat (length l)) = N) as EN by (by rewrite <- INR_IZR_INZ).
  pose proof u_pos as Hu. pose proof u_53 as H53. pose proof eta_pos as He.
  assert (1 <= IZR (2 ^ 50)) as H50 by (apply IZR_le; lia).
  assert (0 < F2R T) as HT0.
  { destruct (nonneg_cases T HTn) as [E|(m & e & E & _)]; [by rewrite E in HT|].
    rewrite E. cbn [F2R]. apply Rmult_lt_0_compat; [apply IZR_lt; lia|apply b2_pos]. }
  assert (rw <= 2 ^ 50)%Z as Hrw by nia.
  pose proof (payouts_sum rw T l ltac:(lia) HTn HT0 Hl2) as B. cbv zeta in B. fold N S in B.
  assert (0 <= IZR rw <= IZR (2 ^ 50)) as Hrw' by (split; apply IZR_le; lia).
  assert (IZR rw * (N + 4) * u <= / 2) as Hru.
  { apply IZR_le in Hlim. rewrite mult_IZR, plus_IZR, EN in Hlim.
    assert (IZR (2 ^ 52) = 4 * IZR (2 ^ 50)) as E52 by (rewrite <- mult_IZR; f_equal).
    assert (IZR rw * (N + 4) * u <= IZR (2 ^ 52) * u) by (apply Rmult_le_compat_r; lra). lra. }
  assert (N * slack rw <= u) as Htiny.
  { unfold slack. assert (2 * IZR rw + 1 <= IZR (2 ^ 52)) as Hr2.
    { assert (IZR (2 ^ 52) = 4 * IZR (2 ^ 50)) by (rewrite <- mult_IZR; f_equal). lra. }
    assert (N * ((2 * IZR rw + 1) * eta) <= IZR (2 ^ 50) * (IZR (2 ^ 52) * eta)) as B1.
    { apply Rmult_le_compat; [lra| |lra|]; [apply Rmult_le_pos; lra|apply Rmult_le_compat_r; lra]. }
    assert (IZR (2 ^ 50) * (IZR (2 ^ 52) * eta) <= u) as B2; [|lra].
    unfold ulp_abs, ulp_rel. rewrite <- !b2_IZR by lia. rewrite <- !b2_add. apply b2_le. lia. }
  assert (1 <= IZR rw \/ IZR rw = 0) as Hcase.
  { destruct (Z.eq_dec rw 0%Z) as [->|]; [by right|]. left. apply IZR_le. lia. }
  assert (N * u <= / 2) as HNu2 by lra.
  destruct (split_numbers (IZR rw) N (F2R T) S) as [Bhi Blo]; try lra.
  { unfold slack in Htiny. lra. }
  unfold slack in B. rewrite <- EN in *.
  split.
  - assert (rw - Z.of_nat (length l) - 1 < Zsum (map (payout rw T) l))%Z; [|lia].
    apply lt_IZR. rewrite !minus_IZR. lra.
  - assert (Zsum (map (payout rw T) l) < rw + 1)%Z; [|lia]. apply lt_IZR. rewrite plus_IZR. lra.
Qed.

Definition paid_out (out : gmap string Z) : Z := Zsum (map snd (map_to_list out)).

(** The total of weights, none of which is positive, is zero; and that of weights
    one of which is positive is positive. *)
Lemma no_weight_total l :
  Forall (fun s => weight_ok s = true) l -> Forall (fun s => fltb fzero s = false) l -> ftotal l fzero = fzero.
Proof.
  intros Hl Hz. unfold ftotal. induction Hl as [|s l Hs Hl IH]; [done|].
  inversion Hz as [|? ? Es Hz']; subst. cbn [fold_left]. replace (fadd fzero s) with fzero; [by apply IH|].
  destruct s as [[]|?| |[] m e]; done.
Qed.
Lemma some_weight_total l s :
  Forall (fun s => weight_ok s = true) l -> (Z.of_nat (length l) <= 2 ^ 50)%Z ->
  s ∈ l -> fltb fzero s = true -> fleb (ftotal l fzero) fzero = false.
Proof.
  intros Hl Hn Hs Hp. destruct (total_of_weights l Hl Hn) as (_ & _ & _ & HT & _ & HF).
  rewrite Forall_forall in HF. destruct (HF s Hs) as [Hw Hle]. pose proof (proj1 (weight_ok_spec s Hw)) as Hn0.
  apply (fltb_spec fzero s) in Hp; [|done|done]. destruct (fleb _ _) eqn:E; [|done].
  apply fleb_spec in E; [|done|done]. cbn [fzero F2R] in *. lra.
Qed.

Lemma split_conserves_aux (rewardSat : Z) (shares : gmap string float64) :
  map_Forall (fun _ s => weight_ok s = true) shares ->
  (0 <= rewardSat)%Z -> (rewardSat * (Z.of_nat (size shares) + 4) <= 2 ^ 52)%Z ->
  (Z.of_nat (size shares) <= 2 ^ 50)%Z ->
  splitByShares rewardSat shares <> ∅ ->
  dom (splitByShares rewardSat shares) = dom shares /\
  (rewardSat - Z.of_nat (size shares) <= paid_out (splitByShares rewardSat shares) <= rewardSat)%Z.
Proof.
  intros Hw Hrw0 Hlim Hn Hne. unfold splitByShares in *.
  set (T := fold_left _ (range shares) fzero) in *.
  assert (T = ftotal (map snd (range shares)) fzero) as ET.
  { subst T. unfold ftotal. generalize (range shares) as l, fzero as a.
    induction l as [|p l IH]; intros a; cbn [fold_left map]; [done|].
    apply IH. }
  destruct (fleb T fzero) eqn:HT; [done|]. split; [by rewrite dom_fmap_L|].
  assert (length (map snd (range shares)) = size shares) as EL.
  { rewrite length_map, (Permutation_length (range_perm shares)). apply length_map_to_list. }
  assert (Forall (fun s => weight_ok s = true) (map snd (range shares))) as Hl.
  { apply Forall_map, Forall_forall. intros [k s] Hin. apply elem_of_range in Hin. by eapply Hw. }
  pose proof (split_list rewardSat (map snd (range shares)) Hl Hrw0) as B. cbv zeta in B.
  rewrite EL, <- ET in B. specialize (B Hlim Hn HT).
  unfold paid_out. rewrite map_to_list_fmap, map_map. cbn [snd].
  erewrite (Zsum_perm (map _ (map_to_list shares))); [exact B|].
  rewrite map_map. apply Permutation_map. by rewrite range_perm.
Qed.
Lemma shares_list (shares : gmap string float64) : length (map snd (range shares)) = size shares.
Proof. rewrite length_map, (Permutation_length (range_perm shares)). apply length_map_to_list. Qed.
Lemma split_total rewardSat (shares : gmap string float64) :
  splitByShares rewardSat shares =
    if fleb (ftotal (map snd (range shares)) fzero) fzero then ∅
    else payout rewardSat (ftotal (map snd (range shares)) fzero) <$> shares.
Proof.
  unfold splitByShares, ftotal. replace (fold_left fadd (map snd (range shares)) fzero)
    with (fold_left (fun t p => fadd t (snd p)) (range shares) fzero); [done|].
  generalize (range shares) as l, fzero as a. induction l as [|p l IH]; intros a; cbn [fold_left map]; [done|]. apply IH.
Qed.

(** C8: splitting a block's reward over the miners of a round.  Let every weight be
    finite, not negative and below 2^953, and the reward times the number of miners
    and four at most 2^52 (100 coins over 400,000 miners, for example).  If no
    weight is positive, nothing is handed out.  Otherwise every miner of the round
    gets an entry, what is handed out is never more than the reward, and at most one
    base unit per miner is left over, in whatever order Go walks the map. *)
Theorem split_conserves_reward (rewardSat : Z) (shares : gmap string float64) :
  map_Forall (fun _ s => weight_ok s = true) shares ->
  (0 <= rewardSat)%Z -> (rewardSat * (Z.of_nat (size shares) + 4) <= 2 ^ 52)%Z ->
  (Z.of_nat (size shares) <= 2 ^ 50)%Z ->
  (map_Forall (fun _ s => fltb fzero s = false) shares -> splitByShares rewardSat shares = ∅) /\
  (forall miner s, shares !! miner = Some s -> fltb fzero s = true ->
     dom (splitByShares rewardSat shares) = dom shares /\
     (rewardSat - Z.of_nat (size shares) <= paid_out (splitByShares rewardSat shares) <= rewardSat)%Z).
Proof.
  intros Hw Hrw0 Hlim Hn.
  assert (forall P, map_Forall (fun _ s => P s) shares -> Forall P (map snd (range shares))) as Hl.
  { intros P HP. apply Forall_map, Forall_forall. intros [k s] Hin. apply elem_of_range in Hin. by eapply HP. }
  split.
  - intros Hz. rewrite split_total, no_weight_total by (by apply Hl). done.
  - intros miner s Hs Hp. apply split_conserves_aux; [done..|]. rewrite split_total.
    rewrite (some_weight_total _ s); [|by apply Hl|by rewrite shares_list| |done].
    + intros E. apply (f_equal (fun m : gmap string Z => m !! miner)) in E. rewrite lookup_fmap, Hs in E. done.
    + apply list_elem_of_fmap. exists (miner, s). split; [done|]. by apply elem_of_range.
Qed.
End Theorem_split.

Definition sample_shares : gmap string float64 :=
  {["alice" := float_const 1 3; "bob" := float_const 1 10; "carol" := float_of_Z 16]}.
Lemma split_conserves_reward_witness :
  dom (@splitByShares amd64 listed_order 625000000 sample_shares) = dom sample_shares /\
  (625000000 - Z.of_nat (size sample_shares)
   <= paid_out (@splitByShares amd64 listed_order 625000000 sample_shares) <= 625000000)%Z.
Proof.
  refine (proj2 (@split_conserves_reward amd64 listed_order 625000000 sample_shares _ _ _ _) "alice" (float_const 1 3) _ _).
  - intros k s Hs.
    assert (forallb (fun p => weight_ok (snd p)) (map_to_list sample_shares) = true) as F
      by (vm_compute; reflexivity).
    rewrite forallb_forall in F. apply elem_of_map_to_list, list_elem_of_In in Hs.
    exact (F (k, s) Hs).
  - lia.
  - vm_compute. discriminate.
  - vm_compute. discriminate.
  - vm_compute. reflexivity.
  - vm_compute. reflexivity.
Defined.
