(* ===== verification/LedgerSpec.v ===== *)
(** * LedgerSpec: what the ledger keeps

    The arithmetic of a settlement (conversions between base units and coins, the
    withheld amounts, the conservation of what a worker is owed), the text forms
    of pending blocks and logged shares, and what a colon in a worker's name does
    to them. *)
From Stdlib Require Import ZArith Lia List Strings.Ascii Strings.String Floats.SpecFloat Reals Lra.
From stdpp Require Import base list strings gmap.
From S2P Require Import Prelude Bytes Float FloatSpec Strconv Types Config Effects Storage Payments.
Import ListNotations.
Local Open Scope string_scope.
Local Open Scope Z_scope.

Lemma Rabs_le_inv' x a : (Rabs x <= a -> - a <= x <= a)%R.
Proof. unfold Rabs. destruct (Rcase_abs x); lra. Qed.
Lemma b2_m53_small k : 0 <= k -> (b2 (-53) * IZR (2 ^ k) = b2 (k - 53))%R.
Proof. intros Hk. rewrite <- b2_IZR, <- b2_add by lia. f_equal. lia. Qed.

Section Arithmetic.
Context `{Platform}.

(** A magnitude: a finite float between 1 and 2^100. *)
Definition magnitude_ok (m : float64) : bool :=
  match m with
  | S754_finite false _ _ =>
      valid_binary 53 1024 m && fleb fone m && fleb m (float_dyadic 1 100)
  | _ => false
  end.
Lemma magnitude_ok_spec m : magnitude_ok m = true -> nonneg m /\ (1 <= F2R m <= b2 100)%R.
Proof.
  destruct m as [|?| |[] m e]; try done. unfold magnitude_ok. intros Hm. zbool.
  assert (nonneg (S754_finite false m e)) as Hn by (by repeat split).
  assert (nonneg fone /\ F2R fone = 1%R) as [Hone E1] by (apply (float_of_Z_exact 1); lia).
  assert (nonneg (float_dyadic 1 100)) as Hbig by (by vm_compute).
  assert (F2R (float_dyadic 1 100) = b2 100) as E2.
  { change (float_dyadic 1 100) with (S754_finite false 4503599627370496 48). cbn [F2R].
    change (Zpos 4503599627370496) with (2 ^ 52). rewrite <- b2_IZR by lia. by rewrite <- b2_add. }
  split; [done|]. rewrite <- E1, <- E2. split; by apply fleb_spec.
Qed.

Lemma coin_roundtrip_aux pm n :
  magnitude_ok (pm_Magnitude pm) = true -> 0 <= n <= 2 ^ 49 -> CoinToSat pm (SatToCoin pm n) = n.
Proof.
  intros Hm Hn. apply magnitude_ok_spec in Hm as [HM [M1 M2]].
  unfold CoinToSat, SatToCoin. set (M := F2R (pm_Magnitude pm)) in *.
  destruct (float_of_Z_exact n ltac:(lia)) as [Hnn En].
  pose proof (b2_pos 100) as H100.
  destruct (Z.eq_dec n 0) as [->|Hn0].
  { destruct (fdiv_spec (float_of_Z 0) (pm_Magnitude pm)) as (Hq & _ & _ & X);
      [done|done|fold M; lra|rewrite En; unfold Rdiv; rewrite Rmult_0_l; apply b2_pos|].
    assert (fleb (fdiv (float_of_Z 0) (pm_Magnitude pm)) fzero = true) as ->; [|done].
    apply fleb_spec; [done|done|]. rewrite En in X. rewrite (X 0 0) by (try lia; unfold Rdiv; by rewrite !Rmult_0_l).
    cbn. unfold Rdiv. rewrite Rmult_0_l. lra. }
  assert (1 <= IZR n)%R as Hn1 by (apply IZR_le; lia).
  assert (IZR n <= b2 49)%R as Hn50 by (rewrite b2_IZR by lia; apply IZR_le; lia).
  set (N := IZR n) in *. set (u := ulp_rel). set (eta := ulp_abs).
  assert (b2 49 * u = b2 (-4))%R as Hu50 by (unfold u, ulp_rel; by rewrite <- b2_add).
  assert (b2 (-4) = / 16)%R as E16 by (unfold b2; simpl; apply f_equal; lra).
  assert (0 < u)%R as Hu by apply b2_pos. assert (0 < eta)%R as He by apply b2_pos.
  assert (u <= / 16)%R as Hu8 by (rewrite <- E16; unfold u, ulp_rel; apply b2_le; lia).
  assert (eta * b2 100 <= u * / 64)%R as Heta.
  { replace (/ 64)%R with (b2 (-6)) by (unfold b2; simpl; apply f_equal; lra).
    unfold eta, u, ulp_abs, ulp_rel. rewrite <- !b2_add. apply b2_le. lia. }
  assert (1 <= b2 100)%R as H1b by (rewrite b2_IZR by lia; apply IZR_le; lia).
  assert (eta <= eta * b2 100)%R as Heta1 by (rewrite <- (Rmult_1_r eta) at 1; apply Rmult_le_compat_l; lra).
  assert (0 < / M <= 1)%R as HiM.
  { split; [apply Rinv_0_lt_compat; lra|]. rewrite <- Rinv_1. apply Rinv_le_contravar; lra. }
  assert (b2 49 + 2 < b2 1023)%R as H1023.
  { pose proof (b2_le 51 1023 ltac:(lia)). rewrite (b2_IZR 49), (b2_IZR 51) in * by lia.
    assert (IZR (2 ^ 49) + 2 < IZR (2 ^ 51))%R by (rewrite <- plus_IZR; apply IZR_lt; lia). lra. }
  assert (N * / M <= N)%R as HNM by (rewrite <- (Rmult_1_r N) at 2; apply Rmult_le_compat_l; lra).
  assert (0 < N * / M)%R as HNM0 by (apply Rmult_lt_0_compat; lra).
  (* the quotient *)
  destruct (fdiv_spec (float_of_Z n) (pm_Magnitude pm)) as (Hq & Eq & _); [done|done|fold M; lra| |].
  { rewrite En. fold M N. unfold Rdiv. lra. }
  rewrite En in Eq. fold M N u eta in Eq. unfold Rdiv in Eq. apply Rabs_le_inv' in Eq as [Q1 Q2].
  set (q := F2R (fdiv (float_of_Z n) (pm_Magnitude pm))) in *.
  assert (eta <= u * / M)%R as HetaM.
  { apply Rle_trans with (u * / 64 * / b2 100)%R.
    - apply (Rmult_le_reg_r (b2 100)); [done|]. rewrite Rmult_assoc, Rinv_l, Rmult_1_r by lra. done.
    - assert (/ b2 100 <= / M)%R by (apply Rinv_le_contravar; lra). assert (0 < / b2 100)%R by (apply Rinv_0_lt_compat; lra).
      assert (u * / b2 100 <= u * / M)%R by (apply Rmult_le_compat_l; lra).
      assert (0 < u * / b2 100)%R by (apply Rmult_lt_0_compat; lra). lra. }
  assert (u * / M <= N * / M * u)%R as HuM.
  { assert (/ M <= N * / M)%R by (rewrite <- (Rmult_1_l (/ M)) at 1; apply Rmult_le_compat_r; lra).
    rewrite (Rmult_comm (N * / M)). apply Rmult_le_compat_l; lra. }
  assert (N * / M * u <= N * / M * / 16)%R as Hq8 by (apply Rmult_le_compat_l; lra).
  assert (0 < q)%R as Hq0 by lra.
  assert (fleb (fdiv (float_of_Z n) (pm_Magnitude pm)) fzero = false) as ->.
  { destruct (fleb _ fzero) eqn:E; [|done]. apply fleb_spec in E; [cbn in E; fold q in E; lra|done|done]. }
  (* the product *)
  assert (q * M <= N + 2 * (N * u))%R as P1.
  { assert (q * M <= (N * / M + N * / M * u + N * / M * u) * M)%R by (apply Rmult_le_compat_r; lra).
    replace ((N * / M + N * / M * u + N * / M * u) * M)%R with (N + 2 * (N * u))%R in *; [lra|]. field. lra. }
  assert (N - 2 * (N * u) <= q * M)%R as P2.
  { assert ((N * / M - N * / M * u - N * / M * u) * M <= q * M)%R by (apply Rmult_le_compat_r; lra).
    replace ((N * / M - N * / M * u - N * / M * u) * M)%R with (N - 2 * (N * u))%R in *; [lra|]. field. lra. }
  assert (N * u <= / 16)%R as HNu.
  { rewrite <- E16, <- Hu50. apply Rmult_le_compat_r; lra. }
  destruct (fmul_spec (fdiv (float_of_Z n) (pm_Magnitude pm)) (pm_Magnitude pm) Hq HM) as (Hp & Ep & _).
  { fold q M. lra. }
  fold q M u eta in Ep. apply Rabs_le_inv' in Ep as [Ep1 Ep2].
  set (p := F2R (fmul (fdiv (float_of_Z n) (pm_Magnitude pm)) (pm_Magnitude pm))) in *.
  assert (q * M * u <= (N + / 4) * u)%R as P3 by (apply Rmult_le_compat_r; lra).
  assert (eta <= u * / 64)%R as P4 by lra.
  (* the sum *)
  assert (nonneg fhalf /\ F2R fhalf = (/ 2)%R) as [Hh Eh].
  { split; [by vm_compute|]. change fhalf with (S754_finite false 4503599627370496 (-53)). cbn [F2R].
    change (Zpos 4503599627370496) with (2 ^ 52). rewrite <- b2_IZR by lia. rewrite <- b2_add.
    unfold b2. simpl. lra. }
  destruct (fadd_spec _ fhalf Hp Hh) as [Hs Es]; [fold p; rewrite Eh; lra|].
  fold p u in Es. rewrite Eh in Es. apply Rabs_le_inv' in Es as [Es1 Es2].
  assert ((p + / 2) * u <= (N + 1) * u)%R as S1 by (apply Rmult_le_compat_r; lra).
  set (s := fadd _ fhalf) in *.
  assert (N - / 2 * / 1 < F2R s - / 2 + / 2 * / 1 + 0)%R by lra.
  assert (b2 49 + 2 < IZR (2 ^ 53))%R as H53.
  { rewrite b2_IZR by lia. rewrite <- plus_IZR. apply IZR_lt. lia. }
  assert (F2R s < N + 1 /\ N <= F2R s)%R as [F1 F2'] by lra.
  destruct (uint64_ffloor_spec s Hs) as [Z1 [Z2 Z3]]; [lra|].
  set (z := uint64_of_float (ffloor s)) in *.
  assert (z < n + 1) by (apply lt_IZR; rewrite plus_IZR; fold N; lra).
  assert (n < z + 1) by (apply lt_IZR; rewrite plus_IZR; fold N; lra). lia.
Qed.

(** ** Settlement *)

(** The withholding rates of the successive attempts. *)
Definition rate (k : nat) : float64 := Nat.iter k next_withhold fzero.
Definition rates : list float64 := map rate (seq 0 8).

(** Whatever the rate, the factor kept is 1 or at most 127/128. *)
Lemma rates_factor r :
  r ∈ rates -> nonneg (fsub fone r) /\ (r = fzero \/ (F2R (fsub fone r) <= 1 - b2 (-7))%R).
Proof.
  assert (nonneg (float_dyadic 127 (-7)) /\ F2R (float_dyadic 127 (-7)) = (1 - b2 (-7))%R) as [Hd Ed].
  { split; [by vm_compute|]. change (float_dyadic 127 (-7)) with (S754_finite false 8936830510563328 (-53)).
    cbn [F2R]. change (Zpos 8936830510563328) with ((2 ^ 7 - 1) * 2 ^ 46).
    rewrite mult_IZR, minus_IZR, <- !b2_IZR by lia.
    rewrite Rmult_assoc, <- b2_add. change (46 + -53) with (-7).
    rewrite Rmult_minus_distr_r, <- b2_add. change (7 + -7) with 0. rewrite b2_0. lra. }
  assert (forallb (fun r => valid_binary 53 1024 (fsub fone r) && is_finite (fsub fone r) &&
            negb (sign_of (fsub fone r)) &&
            (bool_decide (r = fzero) || fleb (fsub fone r) (float_dyadic 127 (-7)))) rates = true) as F
    by (vm_compute; reflexivity).
  intros Hr. rewrite forallb_forall in F. apply list_elem_of_In, F in Hr. zbool.
  repeat match goal with B : (_ && _)%bool = true |- _ => apply andb_prop in B as [? ?] end.
  assert (nonneg (fsub fone r)) as Hn by (split_and!; done).
  split; [done|].
  match goal with B : (_ || _)%bool = true |- _ => destruct (orb_prop _ _ B) as [C|C] end.
  - left. by apply bool_decide_eq_true in C.
  - right. rewrite <- Ed. by apply fleb_spec.
Qed.

Definition owed_ok (w : worker) : Prop := 0 <= w_Balance w + w_Reward w <= 2 ^ 49.
Lemma owed_small w : owed_ok w -> owed w = w_Balance w + w_Reward w.
Proof. intros Hw. unfold owed. apply wrapu_small. unfold owed_ok in Hw. lia. Qed.

(** What is sent is at most what is owed, and all of it without withholding. *)
Lemma to_send_bounds w r :
  owed_ok w -> r ∈ rates -> 0 <= to_send w r <= owed w /\ (r = fzero -> to_send w r = owed w).
Proof.
  intros Hw Hr. pose proof (owed_small w Hw) as Eo. unfold owed_ok in Hw. unfold to_send. rewrite Eo in *.
  set (n := w_Balance w + w_Reward w) in *.
  destruct (float_of_Z_exact n ltac:(lia)) as [Hn En]. destruct (rates_factor r Hr) as [Hf Hcase].
  assert (0 <= IZR n)%R as Hn0 by (apply IZR_le; lia).
  assert (IZR n <= b2 49)%R as Hn49 by (rewrite b2_IZR by lia; apply IZR_le; lia).
  assert (b2 49 < b2 1023)%R as H1023.
  { rewrite (b2_IZR 49), (b2_IZR 1023) by lia. apply IZR_lt. apply Z.pow_lt_mono_r; lia. }
  destruct Hcase as [->|Hle].
  - assert (fsub fone fzero = fone) as -> by (vm_compute; reflexivity).
    destruct (float_of_Z_exact 1 ltac:(lia)) as [H1 E1]. fold fone in H1, E1.
    destruct (fmul_spec (float_of_Z n) fone Hn H1) as (Hp & _ & _ & X); [rewrite En, E1; lra|].
    rewrite En, E1 in X. rewrite Rmult_1_r in X.
    assert (F2R (fmul (float_of_Z n) fone) = IZR n) as Ep.
    { apply (X n 0); [lia|lia|]. rewrite b2_0. lra. }
    destruct (uint64_ffloor_spec _ Hp) as [Z1 [Z2 Z3]].
    { rewrite Ep, <- b2_IZR by lia. eapply Rle_lt_trans; [exact Hn49|].
      rewrite !b2_IZR by lia. apply IZR_lt. lia. }
    rewrite Ep in Z2, Z3. set (z := uint64_of_float _) in *.
    assert (z <= n) by (by apply le_IZR). assert (n < z + 1) by (apply lt_IZR; by rewrite plus_IZR). lia.
  - set (y := F2R (fsub fone r)) in *. pose proof (nonneg_F2R _ Hf) as Hy0. fold y in Hy0.
    assert (0 < b2 (-7) < 1)%R as H7.
    { split; [apply b2_pos|]. unfold b2. simpl. lra. }
    assert (IZR n * y <= IZR n)%R as Hny by (rewrite <- (Rmult_1_r (IZR n)) at 2; apply Rmult_le_compat_l; lra).
    destruct (fmul_spec (float_of_Z n) (fsub fone r) Hn Hf) as (Hp & Ep & _); [rewrite En; fold y; lra|].
    rewrite En in Ep. fold y in Ep. apply Rabs_le_inv' in Ep as [_ Ep].
    set (p := F2R (fmul _ _)) in *. pose proof (nonneg_F2R _ Hp) as Hp0. fold p in Hp0.
    assert (p <= IZR n + / 2)%R as Hpn.
    { assert (IZR n * y * ulp_rel <= b2 49 * ulp_rel)%R.
      { apply Rmult_le_compat_r; [unfold ulp_rel; pose proof (b2_pos (-53)); lra|lra]. }
      assert (b2 49 * ulp_rel <= / 4)%R.
      { unfold ulp_rel. rewrite <- b2_add. change (49 + -53) with (-4). unfold b2. simpl. lra. }
      assert (ulp_abs <= / 4)%R.
      { replace (/ 4)%R with (b2 (-2)) by (unfold b2; simpl; apply f_equal; lra). apply b2_le. lia. }
      lra. }
    destruct (uint64_ffloor_spec _ Hp) as [Z1 [Z2 Z3]].
    { fold p. assert (b2 49 + / 2 < IZR (2 ^ 53))%R; [|lra].
      rewrite b2_IZR by lia. assert (IZR (2 ^ 49) + 1 <= IZR (2 ^ 53))%R; [rewrite <- plus_IZR; apply IZR_le; lia|lra]. }
    fold p in Z2, Z3. set (z := uint64_of_float _) in *. split; [|].
    + assert (z < n + 1) by (apply lt_IZR; rewrite plus_IZR; lra). lia.
    + intros ->. exfalso. assert (fsub fone fzero = fone) as E by (vm_compute; reflexivity).
      unfold y in Hle. rewrite E in Hle. destruct (float_of_Z_exact 1 ltac:(lia)) as [_ E1].
      unfold fone in Hle. rewrite E1 in Hle. lra.
Qed.

(** The balance and the payment one worker is recorded with, in base units. *)
Definition recorded_balance (pm : PaymentManager) (u : PaymentUpdate) (addr : string) : Z :=
  default 0 (CoinToSat pm <$> u_Balances u !! addr).
Definition recorded_payment (pm : PaymentManager) (u : PaymentUpdate) (addr : string) : Z :=
  default 0 (CoinToSat pm <$> u_Paid u !! addr).

(** C19: a settlement conserves what a worker is owed: at every withholding rate
    the back-off reaches, the amount sent is at most the balance plus the reward
    (and all of it at the first attempt), and the balance and payment recorded
    for the worker, converted to coins and read back as base units, add up to
    exactly that sum, for amounts up to 2^49 base units and any magnitude from 1
    to 2^100. *)
Theorem settlement_conserves (pm : PaymentManager) (u : PaymentUpdate) (m : string) (w : worker) (r : float64) (s : Z) :
  magnitude_ok (pm_Magnitude pm) = true -> owed_ok w -> r ∈ rates -> s = 0 \/ s = to_send w r ->
  let u' := record_worker pm u (m, set_sent s w) in
  recorded_balance pm u' (w_Address w) + recorded_payment pm u' (w_Address w) = w_Balance w + w_Reward w /\
  recorded_payment pm u' (w_Address w) = s /\ s <= w_Balance w + w_Reward w /\
  to_send w fzero = w_Balance w + w_Reward w.
Proof.
  intros Hm Hw Hr Hs. cbv zeta. pose proof (to_send_bounds w r Hw Hr) as [Hb _].
  pose proof (to_send_bounds w fzero Hw ltac:(by left)) as [_ H0]. rewrite (H0 eq_refl).
  pose proof (owed_small w Hw) as Eo. rewrite Eo in *. pose proof Hw as Hw'. unfold owed_ok in Hw'.
  assert (0 <= s <= w_Balance w + w_Reward w) as Hsb by (destruct Hs as [->| ->]; lia).
  unfold recorded_balance, recorded_payment, record_worker.
  cbn [snd u_Balances u_Paid set_sent w_Address w_Sent].
  change (owed (set_sent s w)) with (owed w). rewrite Eo, lookup_insert_eq. cbn [fmap option_fmap option_map default].
  rewrite wrapu_small by lia. rewrite coin_roundtrip_aux by (done || lia).
  destruct (Z.ltb_spec 0 s) as [Hpos|Hpos].
  - rewrite lookup_insert_eq. cbn. rewrite coin_roundtrip_aux by (done || lia). lia.
  - assert (s = 0) as -> by lia. rewrite lookup_delete_eq. cbn. lia.
Qed.

(** An amount of base units survives the conversion to coins and back, for
    any magnitude from 1 to 2^100 and amounts up to 2^49: the balances carried
    over in the database, which are floating-point coins, lose nothing. *)
Theorem coin_conversion_roundtrip (pm : PaymentManager) (n : Z) :
  magnitude_ok (pm_Magnitude pm) = true -> 0 <= n <= 2 ^ 49 -> CoinToSat pm (SatToCoin pm n) = n.
Proof. apply coin_roundtrip_aux. Qed.
End Arithmetic.

(** ** Text forms *)

(** C39: a pending block survives the text form it is stored in: parsing its
    string gives the block back, for a hash, transaction id and finder without a
    colon, a uint64 height and an int64 mark. *)
Theorem PendingBlock_roundtrip (pb : PendingBlock) :
  lacks ":" (pb_Hash pb) = true -> lacks ":" (pb_TxHash pb) = true -> lacks ":" (pb_Finder pb) = true ->
  0 <= pb_Height pb < 2 ^ 64 -> - 2 ^ 63 <= pb_Mark pb < 2 ^ 63 ->
  NewPendingBlockFromString (PendingBlock_String pb) = Ok pb.
Proof.
  intros Hh Ht Hf Hn Hm. unfold NewPendingBlockFromString, PendingBlock_String.
  rewrite Split_Join; [|done|].
  - rewrite ParseUint_FormatUint by done. rewrite ParseInt_FormatInt by done. by destruct pb.
  - repeat apply Forall_cons_2; [done|done|apply FormatUint_lacks; [by right|lia]|done|apply FormatInt_lacks; [by right|done]|constructor].
Qed.

Definition sample_block (finder : string) : PendingBlock := mkPendingBlock "00ab" "77cd" 840000 finder 12.
Lemma PendingBlock_roundtrip_witness :
  NewPendingBlockFromString (PendingBlock_String (sample_block "alice")) = Ok (sample_block "alice").
Proof. apply PendingBlock_roundtrip; vm_compute; try done; split; congruence. Defined.

Lemma length_split_app sep b m cur : (2 <= length (split_on sep (b ++ String sep m) cur))%nat.
Proof.
  revert cur; induction b as [|c b IH]; intros cur; rewrite ?append_nil, ?append_cons; cbn [split_on].
  - rewrite Ascii.eqb_refl. destruct m as [|c m]; cbn [split_on length]; [lia|].
    destruct (Ascii.eqb c sep); cbn [length].
    + destruct (split_on sep m ""); cbn; lia.
    + assert (forall s cur, (1 <= length (split_on sep s cur))%nat) as H1.
      { induction s as [|x s IHs]; intros k; cbn [split_on]; [cbn; lia|].
        destruct (Ascii.eqb x sep); [cbn; lia|apply IHs]. }
      specialize (H1 m ("" ++ String c "")). lia.
  - destruct (Ascii.eqb c sep); [|apply IH]. specialize (IH ""). cbn [length]. lia.
Qed.

(** The split of a block's text when its finder has a colon. *)
Lemma split_colon_block pb a b :
  lacks ":" (pb_Hash pb) = true -> lacks ":" (pb_TxHash pb) = true -> 0 <= pb_Height pb ->
  pb_Finder pb = a ++ ":" ++ b -> lacks ":" a = true ->
  Split (PendingBlock_String pb) ":" =
    pb_Hash pb :: pb_TxHash pb :: FormatUint (pb_Height pb) :: a
      :: Split (b ++ String ":" (FormatInt (pb_Mark pb))) ":".
Proof.
  intros Hh Ht Hn Ef Ha. unfold PendingBlock_String, Split. cbn [Join].
  rewrite !append_cons, !append_nil. rewrite split_on_app by done. rewrite append_nil. f_equal.
  rewrite split_on_app by done. rewrite append_nil. f_equal.
  rewrite split_on_app by (apply FormatUint_lacks; [by right|done]). rewrite append_nil. f_equal.
  rewrite Ef, append_cons, append_nil, <- string_app_assoc, append_cons, split_on_app by done.
  by rewrite append_nil.
Qed.

(** A solo block found by a worker whose name has a colon is paid to the part
    before the colon on every run: reading the pending entry back gives a block
    with that finder and another text, so of the commands that apply a run which
    confirms it none removes the entry from the pending set. *)
Theorem solo_finder_colon_never_settled `{Platform} `{MapOrder} db pm (pb : PendingBlock) (a b : string) (reward : Z) :
  lacks ":" (pb_Hash pb) = true -> lacks ":" (pb_TxHash pb) = true -> 0 <= pb_Height pb < 2 ^ 64 ->
  pb_Finder pb = a ++ ":" ++ b -> lacks ":" a = true -> a <> "" ->
  o_PayMode (pm_options pm) = PayModeSolo ->
  exists pb', NewPendingBlockFromString (PendingBlock_String pb) = Ok pb' /\
    attribute db pm pb' reward = Ret (Ok {[a := reward]}) /\
    (forall u dst,
       SMove (pending db) dst (PendingBlock_String pb)
         ∉ apply_cmds db (confirm (mkUpdate (u_Balances u) (u_Paid u) [] [] (u_DeleteRounds u) (u_PPSCursor u)) pb')).
Proof.
  intros Hh Ht Hn Ef Ha Hne Hmode. pose proof (split_colon_block pb a b Hh Ht ltac:(lia) Ef Ha) as Es.
  set (rest := Split (b ++ String ":" (FormatInt (pb_Mark pb))) ":") in *.
  exists {| pb_Hash := pb_Hash pb; pb_TxHash := pb_TxHash pb; pb_Height := pb_Height pb; pb_Finder := a;
            pb_Mark := match rest with m :: _ => fst (ParseInt m 10) | [] => 0 end |}.
  split; [|split].
  - unfold NewPendingBlockFromString. rewrite Es, ParseUint_FormatUint by done. by destruct rest.
  - unfold attribute. rewrite Hmode. cbn [pb_Finder]. destruct (String.eqb_spec a "") as [->|_]; done.
  - intros u dst. set (pb' := mkPendingBlock _ _ _ _ _).
    assert (PendingBlock_String pb <> PendingBlock_String pb') as Hstr.
    { intros E. apply (f_equal (fun s => length (Split s ":"))) in E. rewrite Es in E.
      unfold PendingBlock_String in E. rewrite Split_Join in E; [|done|].
      - cbn [length] in E. pose proof (length_split_app ":" b (FormatInt (pb_Mark pb)) "") as L.
        fold (Split (b ++ String ":" (FormatInt (pb_Mark pb))) ":") in L. fold rest in L. lia.
      - subst pb'. cbn [pb_Hash pb_TxHash pb_Height pb_Finder pb_Mark]. repeat apply Forall_cons_2;
          [done|done|apply FormatUint_lacks; [by right|lia]|done|apply FormatInt_lacks; [by right|done]|constructor]. }
    unfold apply_cmds, confirm. cbn [u_Balances u_Paid u_Confirmed u_Orphaned u_DeleteRounds u_PPSCursor].
    rewrite !elem_of_app, !list_elem_of_In. intros [Hin|[Hin|[Hin|[Hin|[Hin|[Hin|Hin]]]]]].
    + apply in_map_iff in Hin as ([k v] & E & _). done.
    + apply in_map_iff in Hin as ([k v] & E & _). done.
    + destruct Hin as [E|[]]. by injection E as _ E.
    + done.
    + apply in_map_iff in Hin as (h & E & _). done.
    + destruct (0 <? u_PPSCursor u); [|done]. by destruct Hin as [E|[E|[]]].
    + by destruct Hin as [E|[]].
Qed.

(** A worker's name sets its own weight: the share log writes the name, the
    difficulty and the sequence number joined by colons, so the shares of a miner
    called [addr:w], where [w] reads as a number, are credited to [addr] with the
    weight [w], whatever their difficulty. *)
Theorem share_weight_forged (addr w : string) (diff x : float64) (seq : Z) :
  lacks ":" addr = true -> lacks ":" w = true -> ParseFloat w = (x, None) ->
  parse_member (log_member (addr ++ ":" ++ w) diff seq) = Some (addr, x).
Proof.
  intros Ha Hw Hx. unfold parse_member, log_member, SplitN.
  rewrite <- !string_app_assoc, !append_cons, !append_nil.
  rewrite splitn_on_app by (done || lia). rewrite append_nil.
  rewrite splitn_on_app by (done || lia). rewrite append_nil. by rewrite Hx.
Qed.
Lemma share_weight_forged_witness :
  parse_member (log_member ("alice" ++ ":" ++ "1000000000") (float_of_Z 1) 5)
    = Some ("alice", float_of_Z 1000000000).
Proof. apply share_weight_forged; vm_compute; reflexivity. Defined.

(** ** Witnesses *)
Definition ledger_options (mode : string) : PaymentOptions :=
  mkPaymentOptions 600 (float_of_Z 1) 0 mode fzero fzero (float_of_Z 100000000) 100 "getaddressinfo" "" false.
Definition ledger_manager (mode : string) : PaymentManager :=
  mkPaymentManager (ledger_options mode) (mkRecipient "pool" "p2pkh" fzero None) (float_of_Z 100000000) 0 ∅.
Definition ledger_db : DB := mkDB "coin" false pplnsLogCap [].
Definition sample_worker : worker := mkWorker "alice" 12345678901 625000001 0.

Lemma settlement_conserves_witness :
  let pm := ledger_manager PayModeProp in
  let s := @to_send amd64 sample_worker (rate 2) in
  let u' := record_worker pm (empty_update 0) ("alice", set_sent s sample_worker) in
  @recorded_balance amd64 pm u' "alice" + @recorded_payment amd64 pm u' "alice" = 12345678901 + 625000001 /\
  @recorded_payment amd64 pm u' "alice" = s /\ s <= 12345678901 + 625000001 /\
  @to_send amd64 sample_worker fzero = 12345678901 + 625000001.
Proof.
  cbv zeta. apply (@settlement_conserves amd64 (ledger_manager PayModeProp) (empty_update 0) "alice" sample_worker (rate 2)).
  - vm_compute. reflexivity.
  - unfold owed_ok. cbn. lia.
  - apply list_elem_of_In. vm_compute. tauto.
  - by right.
Defined.

Lemma coin_conversion_roundtrip_witness :
  @CoinToSat amd64 (ledger_manager PayModeProp) (SatToCoin (ledger_manager PayModeProp) 123456789012345) = 123456789012345.
Proof. apply coin_conversion_roundtrip; [vm_compute; reflexivity|lia]. Defined.

Lemma solo_finder_colon_never_settled_witness :
  exists pb', NewPendingBlockFromString (PendingBlock_String (sample_block "alice:x")) = Ok pb' /\
    @attribute amd64 listed_order ledger_db (ledger_manager PayModeSolo) pb' 625000000 = Ret (Ok {["alice" := 625000000]}) /\
    (forall u dst,
       SMove (pending ledger_db) dst (PendingBlock_String (sample_block "alice:x"))
         ∉ @apply_cmds ledger_db listed_order
             (confirm (mkUpdate (u_Balances u) (u_Paid u) [] [] (u_DeleteRounds u) (u_PPSCursor u)) pb')).
Proof.
  apply (@solo_finder_colon_never_settled amd64 listed_order ledger_db (ledger_manager PayModeSolo)
           (sample_block "alice:x") "alice" "x" 625000000); try (vm_compute; reflexivity).
  - cbn. lia.
  - discriminate.
Defined.
