(* ===== verification/ShareLog.v ===== *)
(** * ShareLog: what the storage holds after shares were recorded

    The share writer of src/storage/redis.go against any server with the laws of
    [RedisLaws].  [ShareBook] is the abstract state, the valid shares cut into
    rounds by the accepted blocks; every recorded share is one step of it
    ([record]), and the store holds its rounds, its pending blocks and its share
    log ([represents]).  Then the readers of the payer: a round, the window of
    PPLNS, and the shares PPS credits, with the payer and the writer interleaved. *)
From Stdlib Require Import ZArith Lia List Strings.Ascii Strings.String Floats.SpecFloat.
From stdpp Require Import base list strings gmap sorting relations.
From S2P Require Import Prelude Bytes Float FloatSpec Strconv Types Effects Redis Storage.
Import ListNotations.
Local Open Scope string_scope.
Local Open Scope Z_scope.
Local Open Scope prog_scope.

(** ** Keys *)
Lemma key_inj s a b : key s a = key s b -> a = b.
Proof. unfold key. induction (db_coin s) as [|c t IH]; [done|]. cbn. intros [=]. auto. Qed.
Lemma key_ne s a b : a <> b -> key s a <> key s b.
Proof. intros Hne E. by apply key_inj in E. Qed.
Definition seq_key (s : DB) : string := key s ":shares:seq".
Definition log_key (s : DB) : string := key s ":shares:pplnslog".
Definition current_key (s : DB) : string := key s ":shares:roundCurrent".

(** A digit follows [":shares:round"] in the key of a sealed round. *)
Lemma round_not_current t h : 0 <= h -> (":shares:round" ++ FormatInt h)%string <> (":shares:round" ++ String "C" t)%string.
Proof.
  intros Hh E. destruct (FormatInt_pos h Hh) as (x & u & Ex & Hx). rewrite Ex in E. cbn in E.
  injection E as -> _. destruct Hx as [_ Hx]. by vm_compute in Hx.
Qed.
Lemma FormatInt_inj a b : - 2 ^ 63 <= a < 2 ^ 63 -> - 2 ^ 63 <= b < 2 ^ 63 -> FormatInt a = FormatInt b -> a = b.
Proof. intros Ha Hb E. apply (f_equal (fun s => fst (ParseInt s 10))) in E. by rewrite !ParseInt_FormatInt in E. Qed.
Lemma FormatInt_FormatUint h : 0 <= h -> FormatInt h = FormatUint h.
Proof. intros Hh. unfold FormatInt. destruct (Z.ltb_spec h 0); [lia|done]. Qed.

(** ** The abstract state *)
Definition entry : Type := string * float64.
Record ShareBook := mkShareBook {
  sb_blocks : list (PendingBlock * list entry);
  sb_round : list entry;
}.
Definition empty_sharebook : ShareBook := mkShareBook [] [].
(** Every valid share, oldest first *)
Definition sb_shares (b : ShareBook) : list entry := (concat (map snd (sb_blocks b)) ++ sb_round b)%list.
Definition add_entry (e : entry) (b : ShareBook) : ShareBook := mkShareBook (sb_blocks b) (sb_round b ++ [e]).
Definition seal (pb : PendingBlock) (b : ShareBook) : ShareBook := mkShareBook (sb_blocks b ++ [(pb, sb_round b)]) [].
Definition entry_of (share : Share) : entry := (s_Miner share, s_Diff share).
Definition is_valid (share : Share) : bool := s_ErrorCode share =? 0.
Definition seals (share : Share) (accepted : bool) : bool := (0 <? slen (s_BlockHex share)) && accepted.
(** A valid share enters the current round; a block it finds seals the round,
    its own share included, and is marked with the number of valid shares. *)
Definition record (b : ShareBook) (j : Share * bool) : ShareBook :=
  let '(share, accepted) := j in
  let b := if is_valid share then add_entry (entry_of share) b else b in
  if seals share accepted then seal (block_of_share share (Z.of_nat (length (sb_shares b)))) b else b.

Lemma sb_shares_add e b : sb_shares (add_entry e b) = (sb_shares b ++ [e])%list.
Proof. unfold sb_shares. cbn. by rewrite app_assoc. Qed.
Lemma sb_shares_seal pb b : sb_shares (seal pb b) = sb_shares b.
Proof. unfold sb_shares. cbn. rewrite map_app, concat_app. cbn. by rewrite !app_nil_r. Qed.
Lemma sb_shares_record b share accepted :
  sb_shares (record b (share, accepted)) = (sb_shares b ++ (if is_valid share then [entry_of share] else []))%list.
Proof.
  unfold record. destruct (is_valid share), (seals share accepted);
    rewrite ?sb_shares_seal, ?sb_shares_add, ?app_nil_r; done.
Qed.
(** Rounds partition the valid shares. *)
Lemma sb_shares_records js b :
  sb_shares (fold_left record js b) =
  (sb_shares b ++ map (fun j => entry_of (fst j)) (List.filter (fun j => is_valid (fst j)) js))%list.
Proof.
  revert b; induction js as [|[sh acc] js IH]; intros b; cbn [fold_left List.filter map fst]; [by rewrite app_nil_r|].
  rewrite IH, sb_shares_record, <- app_assoc. by destruct (is_valid sh).
Qed.

(** The round a height names: the last one sealed at it. *)
Definition round_at (b : ShareBook) (h : Z) : list entry :=
  fold_left (fun r p => if pb_Height (fst p) =? h then snd p else r) (sb_blocks b) [].

(** ** The share log as a sorted set *)
Lemma lacks_mid c a s : lacks c (a ++ String c s) = false.
Proof. induction a as [|x a IH]; [rewrite append_nil|rewrite append_cons]; cbn [lacks]; [by rewrite Ascii.eqb_refl|].
  by rewrite IH, andb_false_r. Qed.
Lemma last_part_inj c a b s t :
  lacks c s = true -> lacks c t = true -> (a ++ String c s = b ++ String c t)%string -> s = t.
Proof.
  intros Hs Ht. revert b; induction a as [|x a IH]; intros [|y b] E; rewrite ?append_nil, ?append_cons in E.
  - by injection E.
  - injection E as -> ->. by rewrite lacks_mid in Hs.
  - injection E as -> <-. by rewrite lacks_mid in Ht.
  - injection E as _ E. by eapply IH.
Qed.
Lemma log_member_seq m1 d1 n1 m2 d2 n2 :
  0 <= n1 < 2 ^ 63 -> 0 <= n2 < 2 ^ 63 -> log_member m1 d1 n1 = log_member m2 d2 n2 -> n1 = n2.
Proof.
  intros H1 H2 E. apply FormatInt_inj; [lia|lia|]. unfold log_member in E.
  change (":" ++ FormatInt n1)%string with (String ":" (FormatInt n1)) in E.
  change (":" ++ FormatInt n2)%string with (String ":" (FormatInt n2)) in E.
  rewrite !string_app_assoc in E.
  eapply (last_part_inj ":"); [| |exact E]; apply FormatInt_lacks; vm_compute; (by right) || done.
Qed.

(** The share log: the member of the share with sequence number [i + 1]. *)
Definition log_entry (i : nat) (e : entry) : string * float64 :=
  let seq := Z.of_nat i + 1 in (log_member (fst e) (snd e) seq, float_of_Z seq).
Definition log_list (lo : nat) (l : list entry) : list (string * float64) := drop lo (imap log_entry l).
Definition log_map (lo : nat) (l : list entry) : gmap string float64 := list_to_map (log_list lo l).
Definition short (l : list entry) : Prop := Z.of_nat (length l) < 2 ^ 53 - 1.

Lemma elem_of_log_list lo l p : p ∈ log_list lo l <-> exists i e, l !! i = Some e /\ (lo <= i)%nat /\ p = log_entry i e.
Proof.
  unfold log_list. rewrite list_elem_of_lookup. split.
  - intros [j Hj]. rewrite lookup_drop, list_lookup_imap in Hj. destruct (l !! (lo + j)%nat) as [e|] eqn:E; [|done].
    injection Hj as <-. exists (lo + j)%nat, e. split; [done|]. split; [lia|done].
  - intros (i & e & E & Hi & ->). exists (i - lo)%nat. rewrite lookup_drop, list_lookup_imap.
    replace (lo + (i - lo))%nat with i by lia. by rewrite E.
Qed.
Lemma log_list_NoDup lo l : short l -> NoDup (map fst (log_list lo l)).
Proof.
  intros Hl. apply NoDup_alt. intros i j m Hi Hj. rewrite list_lookup_fmap in Hi, Hj. unfold log_list in *.
  rewrite lookup_drop, list_lookup_imap in Hi, Hj.
  destruct (l !! (lo + i)%nat) as [e1|] eqn:E1; [|done]. destruct (l !! (lo + j)%nat) as [e2|] eqn:E2; [|done].
  cbn in Hi, Hj. assert (log_member (fst e1) (snd e1) (Z.of_nat (lo + i) + 1) = log_member (fst e2) (snd e2) (Z.of_nat (lo + j) + 1)) as E
    by congruence.
  apply lookup_lt_Some in E1, E2. unfold short in Hl. apply log_member_seq in E; lia.
Qed.
Lemma log_map_Some lo l m sc :
  short l -> log_map lo l !! m = Some sc <->
  exists i e, l !! i = Some e /\ (lo <= i)%nat /\ (m, sc) = log_entry i e.
Proof. intros Hl. unfold log_map. rewrite <- elem_of_log_list. symmetry. apply elem_of_list_to_map. by apply log_list_NoDup. Qed.
Lemma log_map_list lo l : short l -> map_to_list (log_map lo l) ≡ₚ log_list lo l.
Proof. intros Hl. unfold log_map. by apply map_to_list_to_map, log_list_NoDup. Qed.
Lemma log_map_ints lo l : short l -> int_scores (log_map lo l).
Proof.
  intros Hl m sc E. apply log_map_Some in E as (i & e & Hi & _ & [= _ ->]); [|done].
  apply lookup_lt_Some in Hi. unfold short in Hl. exists (Z.of_nat i + 1). split; [lia|done].
Qed.
Lemma log_map_size lo l : short l -> size (log_map lo l) = (length l - lo)%nat.
Proof. intros Hl. rewrite <- length_map_to_list, log_map_list by done. unfold log_list. by rewrite length_drop, length_imap. Qed.
Lemma log_map_snoc lo l e :
  short (l ++ [e]) -> (lo <= length l)%nat ->
  log_map lo (l ++ [e]) = <[fst (log_entry (length l) e) := snd (log_entry (length l) e)]> (log_map lo l).
Proof.
  intros Hs Hlo. assert (short l) as Hl by (unfold short in *; rewrite length_app in Hs; cbn in Hs; lia).
  apply map_eq. intros m. apply option_eq. intros sc. rewrite (log_map_Some lo (l ++ [e])) by done.
  rewrite lookup_insert_Some, (log_map_Some lo l) by done. split.
  - intros (i & e' & Hi & Hlo' & E). apply lookup_app_Some in Hi as [Hi|[Hge Hi]].
    + right. split; [|by exists i, e']. intros Em. pose proof (lookup_lt_Some _ _ _ Hi). injection E as Em' _.
      rewrite Em' in Em. unfold short in Hl. apply log_member_seq in Em; lia.
    + destruct (i - length l)%nat as [|k] eqn:Ek; [|done]. injection Hi as <-. assert (i = length l) as -> by lia.
      left. by injection E as -> ->.
  - intros [[<- <-]|[_ (i & e' & Hi & Hlo' & E)]].
    + exists (length l), e. rewrite lookup_app_r, Nat.sub_diag by lia. done.
    + exists i, e'. split; [by apply lookup_app_l_Some|done].
Qed.
(** A trim by rank drops the oldest shares. *)
Lemma trimmed_log n lo l z' :
  short l -> trimmed_to n (log_map lo l) z' -> z' = log_map (Nat.max lo (length l - n)) l.
Proof.
  intros Hl (Hsub & Hsize & Htop). set (z2 := log_map _ l). symmetry.
  assert (z2 ⊆ log_map lo l) as Hsub2.
  { apply map_subseteq_spec. intros m sc E. apply log_map_Some in E as (i & e & Hi & Hlo & E); [|done].
    apply log_map_Some; [done|]. exists i, e. split; [done|]. split; [lia|done]. }
  assert (size z2 = size z') as Hsz.
  { rewrite Hsize. unfold z2. rewrite !log_map_size by done. lia. }
  apply map_subseteq_size_eq; [|lia]. apply map_subseteq_spec. intros m sc E.
  destruct (z' !! m) as [sc'|] eqn:E'.
  { pose proof (lookup_weaken _ _ _ _ E' Hsub). pose proof (lookup_weaken _ _ _ _ E Hsub2). congruence. }
  exfalso. assert (exists m' sc', z' !! m' = Some sc' /\ z2 !! m' = None) as (m' & sc' & Em' & Hn').
  { destruct (decide (map_Forall (fun k _ => is_Some (z2 !! k)) z')) as [Hall|Hno].
    - assert (z' ⊂ z2) as Hss.
      { split.
        - apply map_subseteq_spec. intros k x Hk. destruct (Hall k x Hk) as [y Hy].
          pose proof (lookup_weaken _ _ _ _ Hk Hsub). pose proof (lookup_weaken _ _ _ _ Hy Hsub2). congruence.
        - intros Hs. pose proof (lookup_weaken _ _ _ _ E Hs). congruence. }
      apply map_subset_size in Hss. lia.
    - apply map_not_Forall in Hno as (m' & x & Hm' & Hno); [|apply _]. exists m', x. split; [done|].
      by apply eq_None_not_Some. }
  pose proof (lookup_weaken _ _ _ _ E Hsub2) as E0. pose proof (Htop m sc m' sc' E0 E' Em') as Hle.
  pose proof (lookup_weaken _ _ _ _ Em' Hsub) as Em0.
  apply log_map_Some in E as (i & e & Hi & Hlo & [= _ ->]); [|done].
  apply log_map_Some in Em0 as (j & e' & Hj & Hlo' & Ej); [|done].
  assert ((j < Nat.max lo (length l - n))%nat) as Hj2.
  { destruct (decide (Nat.max lo (length l - n) <= j)%nat) as [Hge|]; [|lia]. exfalso.
    assert (z2 !! m' = Some sc') by (apply log_map_Some; [done|]; by exists j, e'). congruence. }
  injection Ej as _ ->. pose proof (lookup_lt_Some _ _ _ Hi). unfold short in Hl.
  rewrite fleb_ints in Hle by lia. zbool. lia.
Qed.

(** A sorted reading of a log lists it in order. *)
Lemma StronglySorted_lookup {A} (R : A -> A -> Prop) l :
  (forall i j x y, (i < j)%nat -> l !! i = Some x -> l !! j = Some y -> R x y) -> StronglySorted R l.
Proof.
  induction l as [|a l IH]; intros Hl; [constructor|]. constructor.
  - apply IH. intros i j x y Hij Hi Hj. apply (Hl (S i) (S j)); [lia|done|done].
  - apply Forall_lookup. intros i x Hi. apply (Hl 0%nat (S i)); [lia|done|done].
Qed.
Lemma log_list_sorted lo l : short l -> StronglySorted score_le (log_list lo l).
Proof.
  intros Hl. apply StronglySorted_lookup. intros i j x y Hij Hi Hj. unfold log_list in *.
  rewrite lookup_drop, list_lookup_imap in Hi, Hj.
  destruct (l !! (lo + i)%nat) as [e1|]; [|done]. destruct (l !! (lo + j)%nat) as [e2|] eqn:E2; [|done].
  injection Hi as <-. injection Hj as <-. apply lookup_lt_Some in E2. unfold short in Hl. unfold score_le. cbn [snd log_entry].
  rewrite fleb_ints by lia. apply Z.leb_le. lia.
Qed.
Lemma log_list_unique lo l l' :
  short l -> l' ≡ₚ map_to_list (log_map lo l) -> StronglySorted score_le l' -> l' = log_list lo l.
Proof.
  intros Hl Hp Hs. rewrite log_map_list in Hp by done.
  eapply StronglySorted_unique_strong; [|exact Hs|by apply log_list_sorted|exact Hp].
  intros x y Hx Hy H1 H2. rewrite Hp in Hx. apply elem_of_log_list in Hx as (i & e & Hi & _ & ->), Hy as (j & e' & Hj & _ & ->).
  unfold score_le in *. cbn [snd log_entry] in H1, H2. pose proof (lookup_lt_Some _ _ _ Hi). pose proof (lookup_lt_Some _ _ _ Hj).
  unfold short in Hl. rewrite fleb_ints in H1, H2 by lia. zbool. assert (i = j) as -> by lia. congruence.
Qed.
Lemma log_upto c lo l :
  short l -> 0 <= c < 2 ^ 53 ->
  filter (fun p => fleb (snd p) (float_of_Z c) = true) (log_map lo l) = log_map lo (take (Z.to_nat c) l).
Proof.
  intros Hl Hc. assert (short (take (Z.to_nat c) l)) as Hl' by (unfold short in *; rewrite length_take; lia).
  apply map_eq. intros m. apply option_eq. intros sc. rewrite map_lookup_filter_Some, !log_map_Some by done. cbn [snd]. split.
  - intros [(i & e & Hi & Hlo & [= -> ->]) Hle]. pose proof (lookup_lt_Some _ _ _ Hi). unfold short in Hl.
    rewrite fleb_ints in Hle by lia. zbool. exists i, e. rewrite lookup_take_lt by lia. done.
  - intros (i & e & Hi & Hlo & [= -> ->]). pose proof (lookup_lt_Some _ _ _ Hi). rewrite length_take in *. unfold short in Hl.
    rewrite lookup_take_lt in Hi by lia. split; [by exists i, e|]. rewrite fleb_ints by lia. apply Z.leb_le. lia.
Qed.
Lemma log_after c lo l :
  short l -> 0 <= c < 2 ^ 53 ->
  filter (fun p => fleb (snd p) (float_of_Z c) = false) (log_map lo l) = log_map (Nat.max lo (Z.to_nat c)) l.
Proof.
  intros Hl Hc. apply map_eq. intros m. apply option_eq. intros sc.
  rewrite map_lookup_filter_Some, !log_map_Some by done. cbn [snd]. split.
  - intros [(i & e & Hi & Hlo & [= -> ->]) Hle]. pose proof (lookup_lt_Some _ _ _ Hi). unfold short in Hl.
    rewrite fleb_ints in Hle by lia. zbool. exists i, e. split; [done|]. split; [lia|done].
  - intros (i & e & Hi & Hlo & [= -> ->]). pose proof (lookup_lt_Some _ _ _ Hi). unfold short in Hl.
    split; [exists i, e; split; [done|]; split; [lia|done]|]. rewrite fleb_ints by lia. apply Z.leb_gt. lia.
Qed.

(** ** What the store holds *)
Section Store.
Context `{RL : RedisLaws}.
Variable db : DB.

Definition contrib (l : list entry) : gmap string hval :=
  fold_left (fun h e => incr_field h (fst e) (snd e)) l ∅.
Lemma contrib_snoc l e : contrib (l ++ [e]) = incr_field (contrib l) (fst e) (snd e).
Proof. unfold contrib. by rewrite fold_left_app. Qed.
Lemma contrib_nonempty l e :
  is_finite (snd e) = true -> contrib (l ++ [e]) <> ∅.
Proof.
  intros Hf. rewrite contrib_snoc. unfold incr_field. destruct (hash_incr (contrib l !! fst e) (snd e)) as [v|] eqn:E.
  - apply insert_non_empty.
  - intros E0. rewrite E0, lookup_empty in E. destruct (hash_incr_new _ Hf). congruence.
Qed.

(** How many of the oldest shares are trimmed away outside PPS mode *)
Definition trimmed (n : nat) : nat := if db_ppsMode db then 0%nat else (n - Z.to_nat (db_logCap db))%nat.

(** The counter and the log, of which the first [lo] shares are gone *)
Definition counted (n : nat) (s : store) : Prop :=
  as_string (value_at s (seq_key db)) = Some (match n with O => None | _ => Some (FormatInt (Z.of_nat n)) end).
Definition logged (lo : nat) (l : list entry) (s : store) : Prop :=
  as_zset (value_at s (log_key db)) = Some (log_map lo l).
Definition holds_log (lo : nat) (l : list entry) (s : store) : Prop := counted (length l) s /\ logged lo l s.
Definition holds_rounds (b : ShareBook) (s : store) : Prop :=
  as_hash (value_at s (current_key db)) = Some (contrib (sb_round b)) /\
  (forall h, 0 <= h < 2 ^ 63 -> as_hash (value_at s (round_key db h)) = Some (contrib (round_at b h))) /\
  as_set (value_at s (pending db)) = Some (list_to_set (map (fun p => PendingBlock_String (fst p)) (sb_blocks b))).
Definition represents (b : ShareBook) (s : store) : Prop :=
  holds_log (trimmed (length (sb_shares b))) (sb_shares b) s /\ holds_rounds b s.

(** ** One share *)

(** The commands of a share, by what they touch *)
Definition index_cmds (share : Share) : list wcmd :=
  [SAdd (key db ":pool:miners") (s_Miner share); SAdd (key db (":miner:" ++ s_Miner share ++ ":rigs")) (s_Rig share)].
Definition log_cmds (share : Share) (seq : Z) : list wcmd :=
  ZAdd (log_key db) (float_of_Z seq) (log_member (s_Miner share) (s_Diff share) seq)
  :: (if db_ppsMode db then [] else [ZRemRangeByRank (log_key db) 0 (- (db_logCap db + 1))]).
Definition stat_cmds (now : Z) (share : Share) : list wcmd :=
  let miner := s_Miner share in
  let strDiff := FormatFloat_fixed 5 (s_Diff share) in
  [HIncrBy (key db ":miners:validShares") miner 1;
   HIncrBy (key db ":pool") "validShares" 1;
   ZAdd (key db ":pool:shares") (float_of_Z now) strDiff;
   ZAdd (key db (":miner:" ++ miner ++ ":hashes")) (float_of_Z now) strDiff;
   ZAdd (key db (":miner:" ++ miner ++ ":rig:" ++ s_Rig share ++ ":hashes")) (float_of_Z now) strDiff].
Definition round_cmd (share : Share) : wcmd := HIncrByFloat (current_key db) (s_Miner share) (s_Diff share).
Lemma valid_share_cmds_eq now share seq :
  valid_share_cmds db now share seq = (log_cmds share seq ++ [round_cmd share] ++ stat_cmds now share)%list.
Proof. unfold valid_share_cmds, log_cmds. by destruct (db_ppsMode db). Qed.

(** Keys of the bookkeeping, which no statistic uses *)
Inductive book_key : string -> Prop :=
| bk_shares t : book_key (":shares:" ++ t)
| bk_pending : book_key ":blocks:pending"
| bk_cursor : book_key ":pps:cursor".
Lemma bk_current : book_key ":shares:roundCurrent".
Proof. exact (bk_shares "roundCurrent"). Qed.
Lemma bk_log : book_key ":shares:pplnslog".
Proof. exact (bk_shares "pplnslog"). Qed.
Lemma bk_seq : book_key ":shares:seq".
Proof. exact (bk_shares "seq"). Qed.
Lemma bk_round h : book_key (":shares:round" ++ FormatUint h).
Proof. exact (bk_shares ("round" ++ FormatUint h)). Qed.
Ltac other_key :=
  cbn [keys_of]; rewrite ?elem_of_cons, ?elem_of_nil; intros Hin; repeat (destruct Hin as [Hin|Hin]); try done;
  apply key_inj in Hin; try discriminate Hin.
Ltac other_keys := repeat (constructor; [other_key|]); try constructor.
Definition frame (k : string) (cmds : list wcmd) : Prop := Forall (fun c => k ∉ keys_of c) cmds.
Lemma index_frame t share : book_key t -> frame (key db t) (index_cmds share).
Proof. intros []; unfold frame; other_keys. Qed.
Lemma stat_frame t now share : book_key t -> frame (key db t) (stat_cmds now share).
Proof. intros []; unfold frame; other_keys. Qed.
Lemma invalid_frame t share : book_key t -> frame (key db t) (invalid_share_cmds db share).
Proof. intros []; unfold frame; other_keys. Qed.
Lemma round_frame t share : t <> ":shares:roundCurrent" -> frame (key db t) [round_cmd share].
Proof. intros Ht. unfold frame, round_cmd, current_key. other_keys. by destruct (Ht Hin) || by subst. Qed.
Lemma log_frame t share seq : t <> ":shares:pplnslog" -> frame (key db t) (log_cmds share seq).
Proof. intros Ht. unfold frame, log_cmds. destruct (db_ppsMode db); other_keys; by destruct (Ht Hin) || by subst. Qed.
Lemma block_frame t share accepted seq :
  book_key t -> t <> ":shares:roundCurrent" -> t <> (":shares:round" ++ FormatInt (s_BlockHeight share))%string ->
  t <> ":blocks:pending" -> frame (key db t) (block_cmds db share accepted seq).
Proof.
  intros Hb H1 H2 H3. unfold frame, block_cmds. destruct (0 <? _); [|constructor].
  destruct accepted; destruct Hb; other_keys; congruence.
Qed.

(** *** The sequence number *)
Lemma incr_counted n s :
  counted n s -> Z.of_nat n < 2 ^ 62 ->
  exists s1, reply (Incr (seq_key db)) s = (Ok (Z.of_nat n + 1), s1) /\ counted (S n) s1 /\
    forall k, k <> seq_key db -> value_at s1 k = value_at s k.
Proof.
  intros Hc Hn. pose proof (reply_incr (seq_key db) s) as R. destruct (reply (Incr (seq_key db)) s) as [r s1].
  destruct R as (Hf & Hnone & Hsome). exists s1. unfold counted in *. destruct n as [|n].
  - destruct (Hnone Hc) as [-> ->]. done.
  - destruct (Hsome _ Hc ltac:(lia)) as [-> E]. rewrite E. split; [done|]. split; [|done]. cbn [as_string]. do 3 f_equal. lia.
Qed.

(** *** The log *)
Definition next_lo (lo : nat) (n : nat) : nat := if db_ppsMode db then lo else Nat.max lo (n - Z.to_nat (db_logCap db)).
Lemma log_cmds_logged lo l share s :
  logged lo l s -> short (l ++ [entry_of share]) -> (lo <= length l)%nat -> 0 <= db_logCap db ->
  logged (next_lo lo (S (length l))) (l ++ [entry_of share])
    (do_cmds (log_cmds share (Z.of_nat (length l) + 1)) s).
Proof.
  intros Hl Hs Hlo Hcap. unfold logged, log_cmds, next_lo, do_cmds in *. cbn [fold_left].
  assert (int_score (float_of_Z (Z.of_nat (length l) + 1))) as Hi.
  { exists (Z.of_nat (length l) + 1). unfold short in Hs. rewrite length_app in Hs. cbn in Hs. split; [lia|done]. }
  pose proof (do_zadd _ _ (log_member (s_Miner share) (s_Diff share) (Z.of_nat (length l) + 1)) _ _ Hl Hi) as Hz.
  change (log_member _ _ _) with (fst (log_entry (length l) (entry_of share))) in Hz at 2.
  change (float_of_Z _) with (snd (log_entry (length l) (entry_of share))) in Hz at 2.
  rewrite <- log_map_snoc in Hz by done. destruct (db_ppsMode db); [exact Hz|]. cbn [fold_left].
  edestruct (do_zremrangebyrank _ (db_logCap db) _ _ Hz) as (z' & -> & Ht); [by apply log_map_ints|done|].
  apply trimmed_log in Ht as ->; [|done]. rewrite length_app. cbn [length]. do 3 f_equal. lia.
Qed.
Lemma framed t cmds s : frame (key db t) cmds -> value_at (do_cmds cmds s) (key db t) = value_at s (key db t).
Proof. apply do_cmds_frame. Qed.

Definition share_cmds (now : Z) (share : Share) (accepted : bool) (seq : Z) : list wcmd :=
  (index_cmds share ++ (if is_valid share then valid_share_cmds db now share seq else invalid_share_cmds db share)
   ++ block_cmds db share accepted seq)%list.
Lemma share_cmds_logged lo l now share accepted s :
  is_valid share = true ->
  logged lo l s -> short (l ++ [entry_of share]) -> (lo <= length l)%nat -> 0 <= db_logCap db ->
  logged (next_lo lo (S (length l))) (l ++ [entry_of share])
    (do_cmds (share_cmds now share accepted (Z.of_nat (length l) + 1)) s).
Proof.
  intros Hv Hl Hs Hlo Hcap. unfold share_cmds. rewrite Hv, valid_share_cmds_eq, !do_cmds_app.
  set (s1 := do_cmds (index_cmds share) s).
  assert (logged lo l s1) as H1 by (unfold logged, log_key; subst s1; rewrite framed; [exact Hl|apply index_frame, bk_log]).
  pose proof (log_cmds_logged lo l share s1 H1 Hs Hlo Hcap) as H2. unfold logged, log_key in *.
  rewrite framed by (apply block_frame; [apply bk_log|done| |done]; by intros [=]).
  rewrite framed by (apply stat_frame, bk_log).
  rewrite framed; [exact H2|]. by apply round_frame.
Qed.

(** *** The rounds *)
Lemma holds_rounds_frame b s s' :
  (forall t, book_key t -> t <> ":shares:seq" -> value_at s' (key db t) = value_at s (key db t)) -> holds_rounds b s -> holds_rounds b s'.
Proof.
  intros Hf (H1 & H2 & H3). unfold holds_rounds, current_key, round_key, pending in *. split_and!.
  - rewrite (Hf _ bk_current) by done. exact H1.
  - intros h Hh. rewrite (Hf _ (bk_round h)) by (by intros [=]). by apply H2.
  - rewrite (Hf _ bk_pending) by done. exact H3.
Qed.
Lemma holds_rounds_cmds b cmds s :
  (forall t, book_key t -> t <> ":shares:pplnslog" -> frame (key db t) cmds) -> holds_rounds b s -> holds_rounds b (do_cmds cmds s).
Proof.
  intros Hf (H1 & H2 & H3). unfold holds_rounds, current_key, round_key, pending in *. split_and!.
  - rewrite framed by (apply Hf; [apply bk_current|done]). exact H1.
  - intros h Hh. rewrite framed by (apply Hf; [apply (bk_round h)|by intros [=]]). by apply H2.
  - rewrite framed by (apply Hf; [apply bk_pending|done]). exact H3.
Qed.
Lemma round_key_not_current h : 0 <= h -> round_key db h <> current_key db.
Proof.
  intros Hh E. unfold round_key, current_key in E. apply key_inj in E. rewrite <- FormatInt_FormatUint in E by done.
  by apply (round_not_current "urrent" h Hh).
Qed.
Lemma round_cmd_rounds b share s :
  holds_rounds b s -> holds_rounds (add_entry (entry_of share) b) (do_cmds [round_cmd share] s).
Proof.
  intros (H1 & H2 & H3). unfold holds_rounds, do_cmds. cbn [fold_left add_entry sb_round sb_blocks]. split_and!.
  - rewrite contrib_snoc. by apply do_hincrbyfloat.
  - intros h Hh. rewrite do_cmd_frame; [by apply H2|]. cbn [keys_of round_cmd]. rewrite elem_of_cons, elem_of_nil.
    intros [E|[]]. apply (round_key_not_current h); [lia|done].
  - rewrite do_cmd_frame; [done|]. cbn [keys_of round_cmd]. rewrite elem_of_cons, elem_of_nil.
    intros [E|[]]. by apply key_inj in E.
Qed.
Lemma round_at_seal pb b h : round_at (seal pb b) h = if pb_Height pb =? h then sb_round b else round_at b h.
Proof. unfold round_at, seal. cbn [sb_blocks]. by rewrite fold_left_app. Qed.

Lemma round_key_inj h h' : 0 <= h < 2 ^ 63 -> 0 <= h' < 2 ^ 63 -> round_key db h = round_key db h' -> h = h'.
Proof.
  intros Hh Hh' E. unfold round_key in E. apply key_inj in E.
  change (":shares:round" ++ FormatUint h)%string with (":shares:roun" ++ String "d" (FormatUint h))%string in E.
  change (":shares:round" ++ FormatUint h')%string with (":shares:roun" ++ String "d" (FormatUint h'))%string in E.
  apply last_part_inj in E; [|apply FormatUint_lacks; [by right|lia]..].
  apply (f_equal (fun t => fst (ParseUint t 10))) in E. by rewrite !ParseUint_FormatUint in E by lia.
Qed.
(** A seal moves the current round under its height. *)
Lemma block_cmds_rounds b share seq e s :
  0 < slen (s_BlockHex share) -> 0 <= s_BlockHeight share < 2 ^ 63 -> is_finite (snd e) = true ->
  holds_rounds (add_entry e b) s ->
  holds_rounds (seal (block_of_share share seq) (add_entry e b)) (do_cmds (block_cmds db share true seq) s).
Proof.
  intros Hx Hh Hf (H1 & H2 & H3). unfold block_cmds. replace (0 <? slen (s_BlockHex share)) with true by (symmetry; by apply Z.ltb_lt).
  assert (u64 (s_BlockHeight share) = s_BlockHeight share) as Hu by (apply wrapu_small; lia).
  assert (key db (":shares:round" ++ FormatInt (s_BlockHeight share)) = round_key db (s_BlockHeight share)) as Ek
    by (unfold round_key; by rewrite FormatInt_FormatUint by lia).
  rewrite Ek. unfold do_cmds. cbn [fold_left].
  cbn [add_entry sb_round] in H1. pose proof (contrib_nonempty (sb_round b) e Hf) as Hne.
  destruct (value_at s (current_key db)) as [v|] eqn:Ev; [|by injection H1 as E; destruct Hne].
  pose proof (round_key_not_current (s_BlockHeight share) ltac:(lia)) as Hrc.
  destruct (do_rename (current_key db) (round_key db (s_BlockHeight share)) s v Ev) as [Hr Hc]; [done|].
  set (s1 := do_cmd (Rename _ _) s) in *. set (s2 := do_cmd (SAdd _ _) s1).
  assert (forall t, t <> ":pool" -> value_at (do_cmd (HIncrBy (key db ":pool") "validBlocks" 1) s2) (key db t) = value_at s2 (key db t)) as E3.
  { intros t Ht. apply do_cmd_frame. other_key. congruence. }
  assert (forall t, t <> ":blocks:pending" -> value_at s2 (key db t) = value_at s1 (key db t)) as E2.
  { intros t Ht. apply do_cmd_frame. other_key. congruence. }
  unfold holds_rounds. split_and!.
  - unfold current_key. rewrite E3, E2 by done. unfold current_key in Hc. rewrite Hc. done.
  - intros h Hh'. unfold round_key at 1. rewrite E3, E2 by (by intros [=]). rewrite round_at_seal. cbn [block_of_share pb_Height].
    rewrite Hu. fold (round_key db h). destruct (Z.eqb_spec (s_BlockHeight share) h) as [<-|Hne'].
    + rewrite Hr. exact H1.
    + unfold s1. rewrite do_cmd_frame; [by apply H2|]. cbn [keys_of]. rewrite !elem_of_cons, elem_of_nil.
      intros [E|[E|[]]]; [by apply (round_key_not_current h); [lia|]|]. apply Hne'. symmetry. by apply round_key_inj in E.
  - unfold pending. rewrite E3 by done. assert (as_set (value_at s1 (key db ":blocks:pending")) =
      Some (list_to_set (map (fun p => PendingBlock_String (fst p)) (sb_blocks b)))) as E1.
    { unfold s1. rewrite do_cmd_frame; [exact H3|]. cbn [keys_of]. rewrite !elem_of_cons, elem_of_nil.
      intros [E|[E|[]]]; by apply key_inj in E. }
    unfold s2. rewrite (do_sadd _ _ _ _ E1). cbn [seal add_entry sb_blocks]. rewrite map_app, list_to_set_app_L. cbn [map list_to_set fst].
    by rewrite (right_id_L ∅ (∪)), (comm_L (∪)).
Qed.

Lemma share_cmds_rounds b now share accepted s seq :
  (accepted = true -> is_valid share = true /\ 0 <= s_BlockHeight share < 2 ^ 63) ->
  (is_valid share = true -> is_finite (s_Diff share) = true /\ seq = Z.of_nat (length (sb_shares b)) + 1) ->
  holds_rounds b s -> holds_rounds (record b (share, accepted)) (do_cmds (share_cmds now share accepted seq) s).
Proof.
  intros Ha Hv Hb. unfold share_cmds, record. rewrite !do_cmds_app.
  assert (holds_rounds b (do_cmds (index_cmds share) s)) as H1 by (apply holds_rounds_cmds; [by intros; apply index_frame|done]).
  assert (forall b' s', (accepted = false \/ seals share accepted = false) -> holds_rounds b' s' ->
            holds_rounds b' (do_cmds (block_cmds db share accepted seq) s')) as Hno.
  { intros b' s' Hor Hb'. apply holds_rounds_cmds; [|done]. intros t Ht _. unfold frame, block_cmds, seals in *.
    destruct (0 <? slen (s_BlockHex share)); [|constructor]. cbn [andb] in Hor. assert (accepted = false) as -> by tauto. destruct Ht; other_keys. }
  destruct (is_valid share) eqn:Ev.
  - destruct (Hv eq_refl) as [Hf ->]. rewrite valid_share_cmds_eq, !do_cmds_app.
    assert (holds_rounds (add_entry (entry_of share) b) (do_cmds (stat_cmds now share) (do_cmds [round_cmd share]
      (do_cmds (log_cmds share (Z.of_nat (length (sb_shares b)) + 1)) (do_cmds (index_cmds share) s))))) as H2.
    { apply holds_rounds_cmds; [by intros; apply stat_frame|]. apply round_cmd_rounds.
      apply holds_rounds_cmds; [by intros; apply log_frame|done]. }
    destruct (seals share accepted) eqn:Es; [|apply Hno; [by right|exact H2]].
    unfold seals in Es. apply andb_prop in Es as [Ex ->]. zbool. destruct (Ha eq_refl) as [_ Hh].
    rewrite sb_shares_add, length_app. cbn [length].
    replace (Z.of_nat (length (sb_shares b) + 1)) with (Z.of_nat (length (sb_shares b)) + 1) by lia.
    by apply block_cmds_rounds.
  - destruct accepted; [by destruct (Ha eq_refl)|]. unfold seals. rewrite andb_false_r. apply Hno; [by left|].
    apply holds_rounds_cmds; [by intros; apply invalid_frame|done].
Qed.

(** ** The writer refines [record] *)
Definition recordable (j : Share * bool) : Prop :=
  (is_valid (fst j) = true -> is_finite (s_Diff (fst j)) = true) /\
  (snd j = true -> is_valid (fst j) = true /\ 0 <= s_BlockHeight (fst j) < 2 ^ 63).

Lemma next_trimmed n : next_lo (trimmed n) (S n) = trimmed (S n).
Proof. unfold next_lo, trimmed. destruct (db_ppsMode db); lia. Qed.
Lemma counted_frame cmds n s : frame (seq_key db) cmds -> counted n s -> counted n (do_cmds cmds s).
Proof. intros Hf Hc. unfold counted. by rewrite do_cmds_frame. Qed.
Lemma share_cmds_frame t now share accepted seq :
  book_key t -> t <> ":shares:pplnslog" -> t <> ":shares:roundCurrent" -> t <> ":blocks:pending" ->
  t <> (":shares:round" ++ FormatInt (s_BlockHeight share))%string -> frame (key db t) (share_cmds now share accepted seq).
Proof.
  intros Hb H1 H2 H3 H4. unfold share_cmds, frame. apply Forall_app. split; [by apply index_frame|]. apply Forall_app. split.
  - destruct (is_valid share); [|by apply invalid_frame]. rewrite valid_share_cmds_eq.
    apply Forall_app. split; [by apply log_frame|]. apply Forall_app. split; [by apply round_frame|by apply stat_frame].
  - by apply block_frame.
Qed.
Lemma share_cmds_seq now share accepted seq : frame (seq_key db) (share_cmds now share accepted seq).
Proof. apply share_cmds_frame; [apply bk_seq|done|done|done|by intros [=]]. Qed.
Lemma share_cmds_cursor now share accepted seq : frame (key db ":pps:cursor") (share_cmds now share accepted seq).
Proof. apply share_cmds_frame; [apply bk_cursor|done|done|done|by intros [=]]. Qed.

Lemma putShareNow_served now share accepted s :
  served (putShareNow db now share accepted) s =
  Some (tt, if is_valid share
            then let '(r, s1) := reply (Incr (seq_key db)) s in
                 do_cmds (share_cmds now share accepted (match r with Ok n => n | Err _ => 0 end)) s1
            else do_cmds (share_cmds now share accepted 0) s).
Proof.
  unfold putShareNow, share_cmds, call. fold (is_valid share). fold (index_cmds share) (seq_key db).
  destruct (is_valid share); cbn [pbind served].
  - destruct (reply (Incr _) s) as [r s1]. cbn [pbind served].
    match goal with |- context [reply (Exec false ?c) s1] => pose proof (reply_exec false c s1) as E; destruct (reply (Exec false c) s1) as [r2 s2] end.
    cbn in E |- *. by rewrite E.
  - match goal with |- context [reply (Exec false ?c) s] => pose proof (reply_exec false c s) as E; destruct (reply (Exec false c) s) as [r2 s2] end.
    cbn in E |- *. by rewrite E.
Qed.

Lemma putShareNow_represents b now share accepted s :
  represents b s -> recordable (share, accepted) -> 0 <= db_logCap db -> short (sb_shares b ++ [entry_of share]) ->
  exists s', served (putShareNow db now share accepted) s = Some (tt, s') /\ represents (record b (share, accepted)) s'.
Proof.
  intros ((Hc & Hl) & Hr) (Hf & Ha) Hcap Hs. cbn [fst snd] in *. rewrite putShareNow_served. eexists. split; [reflexivity|].
  unfold represents. rewrite sb_shares_record. destruct (is_valid share) eqn:Ev.
  - destruct (incr_counted _ s Hc) as (s1 & -> & Hc1 & Hf1); [unfold short in Hs; rewrite length_app in Hs; cbn in Hs; lia|].
    assert (logged (trimmed (length (sb_shares b))) (sb_shares b) s1) as Hl1.
    { unfold logged, log_key. rewrite Hf1; [exact Hl|]. by apply key_ne. }
    assert (holds_rounds b s1) as Hr1.
    { eapply holds_rounds_frame; [|exact Hr]. intros t _ Ht. apply Hf1. by apply key_ne. }
    split; [split|].
    + rewrite length_app, Nat.add_1_r. apply counted_frame; [|exact Hc1]. apply share_cmds_seq.
    + rewrite length_app, Nat.add_1_r, <- next_trimmed. apply share_cmds_logged; [done|done|done| |done].
      unfold trimmed. destruct (db_ppsMode db); lia.
    + apply share_cmds_rounds; [rewrite Ev; exact Ha|rewrite Ev; by intros _; split; [apply Hf|]|exact Hr1].
  - rewrite app_nil_r. split; [split|].
    + apply counted_frame; [|exact Hc]. apply share_cmds_seq.
    + unfold logged, log_key. rewrite framed; [exact Hl|]. unfold share_cmds, frame. rewrite Ev.
      apply Forall_app. split; [apply index_frame, bk_log|]. apply Forall_app. split; [apply invalid_frame, bk_log|].
      apply block_frame; [apply bk_log|done|by intros [=]|done].
    + apply share_cmds_rounds; [rewrite Ev; exact Ha|by rewrite Ev|exact Hr].
Qed.

(** *** The queue *)
Fixpoint drain (clock : list Z) (q : DB) (s : store) : option (DB * store) :=
  match clock with
  | [] => Some (q, s)
  | now :: clock =>
      match shareWriter q now with
      | None => Some (q, s)
      | Some p => match served p s with Some (q, s) => drain clock q s | None => None end
      end
  end.
Definition with_queue (js : list (Share * bool)) : DB := mkDB (db_coin db) (db_ppsMode db) (db_logCap db) js.
Definition bounded (b : ShareBook) (js : list (Share * bool)) : Prop :=
  Z.of_nat (length (sb_shares b)) + Z.of_nat (length js) < 2 ^ 53 - 1.

Lemma drain_represents clock js b s :
  represents b s -> Forall recordable js -> 0 <= db_logCap db -> bounded b js -> length clock = length js ->
  exists s', drain clock (with_queue js) s = Some (with_queue [], s') /\ represents (fold_left record js b) s'.
Proof.
  intros Hr Hj Hcap. revert clock b s Hr. induction Hj as [|[share accepted] js Hj Hjs IH]; intros [|now clock] b s Hr Hb Hlen; try done.
  { by exists s. }
  cbn [drain shareWriter with_queue db_shares fold_left]. rewrite served_bind.
  change (putShareNow (with_queue _) now share accepted) with (putShareNow db now share accepted).
  destruct (putShareNow_represents b now share accepted s Hr Hj Hcap) as (s1 & -> & Hr1).
  { unfold short, bounded in *. rewrite length_app. cbn [length] in *. lia. }
  cbn [served]. apply IH; [exact Hr1| |by injection Hlen].
  unfold bounded in *. rewrite sb_shares_record, length_app. cbn [length] in Hb. destruct (is_valid share); cbn [length]; lia.
Qed.
Definition empty_store (s : store) : Prop := forall k, value_at s k = None.
Lemma empty_represents s : empty_store s -> represents empty_sharebook s.
Proof.
  intros He. unfold represents, holds_log, counted, logged, holds_rounds. rewrite !He. split; [split; [done|]|].
  - cbn. unfold log_map, log_list. cbn. by rewrite drop_nil.
  - split; [done|]. split; [|done]. intros h _. by rewrite He.
Qed.

(** ** The readers of the payer *)

(** An entry whose member of the log reads back as itself: a name without a
    colon, and a difficulty whose text does. *)
Definition readable (e : entry) : bool :=
  let t := FormatFloat_shortest (snd e) in
  lacks ":" (fst e) && lacks ":" t && match ParseFloat t with (x, None) => bool_decide (x = snd e) | _ => false end.
Lemma parse_log_entry i e : readable e = true -> parse_member (fst (log_entry i e)) = Some e.
Proof.
  unfold readable. intros Hr. apply andb_prop in Hr as [Hr Hp]. apply andb_prop in Hr as [Hm Ht].
  destruct (ParseFloat _) as [x [?|]] eqn:Ep; [done|]. apply bool_decide_eq_true in Hp as ->. unfold parse_member, log_entry, log_member, SplitN. cbn [fst].
  rewrite !append_cons, !append_nil. rewrite splitn_on_app by (done || lia). rewrite append_nil.
  rewrite splitn_on_app by (done || lia). rewrite append_nil, Ep. by destruct e.
Qed.

(** Newest first, until the cumulative difficulty reaches the window. *)
Fixpoint window_of (l : list entry) (window cum : float64) (out : gmap string float64) : gmap string float64 :=
  match l with
  | [] => out
  | (miner, diff) :: l' =>
      let out := add_share out miner diff in
      let cum := fadd cum diff in
      if fltb fzero window && fleb window cum then out else window_of l' window cum out
  end.
Definition sums (l : list entry) : gmap string float64 :=
  fold_left (fun out e => add_share out (fst e) (snd e)) l ∅.

Definition logs (p : string * float64) (e : entry) : Prop := exists i, p = log_entry i e.
Lemma log_list_logs lo l : Forall2 logs (log_list lo l) (drop lo l).
Proof.
  unfold log_list. apply Forall2_drop. apply Forall2_same_length_lookup. split; [by rewrite length_imap|].
  intros i p e Hp He. rewrite list_lookup_imap, He in Hp. injection Hp as <-. by exists i.
Qed.
Lemma pplns_window_logs ps l window cum out :
  Forall2 logs ps l -> Forall (fun e => readable e = true) l ->
  pplns_window (map fst ps) window cum out = window_of l window cum out.
Proof.
  intros F. revert cum out. induction F as [|p e ps l [i ->] F IH]; intros cum out Hr; [done|].
  apply Forall_cons in Hr as [He Hr]. cbn [map pplns_window window_of]. rewrite parse_log_entry by done.
  destruct e as [m d]. destruct (fltb fzero window && _); [done|]. by apply IH.
Qed.
Lemma Forall2_rev {A B} (R : A -> B -> Prop) l k : Forall2 R l k -> Forall2 R (rev l) (rev k).
Proof. induction 1; cbn [rev]; [constructor|]. apply Forall2_app; [done|by repeat constructor]. Qed.

Context `{MapOrder}.

Lemma GetRoundContrib_served b s h :
  holds_rounds b s -> 0 <= h < 2 ^ 63 ->
  served (GetRoundContrib db h) s = Some (floats_of (range (contrib (round_at b h))) ∅, s).
Proof.
  intros (_ & Hr & _) Hh. unfold GetRoundContrib, call. cbn [pbind served].
  rewrite (reply_hgetall _ _ _ (Hr h Hh)). done.
Qed.
Lemma GetPPLNSShares_served lo l s mark window :
  logged lo l s -> short l -> Forall (fun e => readable e = true) l -> 0 <= mark < 2 ^ 53 ->
  served (GetPPLNSShares db mark window) s
    = Some (Ok (window_of (rev (drop lo (take (Z.to_nat mark) l))) window fzero ∅), s).
Proof.
  intros Hl Hs Hr Hm. unfold GetPPLNSShares, call. cbn [pbind served].
  destruct (reply_zrevrangebyscore (key db ":shares:pplnslog") mark s _ Hl) as (l' & -> & Hp & Hsort); [by apply log_map_ints|done|].
  cbn [pbind served]. rewrite log_upto in Hp by done.
  assert (short (take (Z.to_nat mark) l)) as Hs' by (unfold short in *; rewrite length_take; lia).
  rewrite (log_list_unique _ _ _ Hs' Hp Hsort). do 3 f_equal.
  rewrite (pplns_window_logs (rev (log_list lo (take (Z.to_nat mark) l))) (rev (drop lo (take (Z.to_nat mark) l)))); [done| |].
  - apply Forall2_rev, log_list_logs.
  - apply Forall_rev, Forall_drop, Forall_take, Hr.
Qed.
Lemma shares_since_logs ps l maxSeq out :
  Forall2 logs ps l -> Forall (fun e => readable e = true) l ->
  fst (shares_since ps maxSeq out) = fold_left (fun out e => add_share out (fst e) (snd e)) l out.
Proof.
  intros F. revert maxSeq out. induction F as [|p e ps l [i ->] F IH]; intros maxSeq out Hr; [done|].
  apply Forall_cons in Hr as [He Hr]. unfold log_entry. cbn [shares_since fold_left].
  change (log_member (fst e) (snd e) (Z.of_nat i + 1)) with (fst (log_entry i e)). rewrite parse_log_entry by done.
  destruct e as [m d]. by apply IH.
Qed.
Lemma shares_since_max lo l maxSeq out :
  short l -> Forall (fun e => readable e = true) l -> (lo <= length l)%nat -> maxSeq = Z.of_nat lo ->
  snd (shares_since (log_list lo l) maxSeq out) = Z.of_nat (length l).
Proof.
  intros Hs Hr Hlo. revert lo maxSeq out Hlo.
  enough (forall k lo maxSeq out, (length l - lo = k)%nat -> (lo <= length l)%nat -> maxSeq = Z.of_nat lo ->
    snd (shares_since (log_list lo l) maxSeq out) = Z.of_nat (length l)) as K by (intros lo m o; by apply (K (length l - lo)%nat)).
  induction k as [|k IH]; intros lo maxSeq out Hk Hlo ->; unfold log_list.
  - rewrite drop_ge by (rewrite length_imap; lia). cbn. lia.
  - destruct (l !! lo) as [e|] eqn:E; [|apply lookup_ge_None in E; lia].
    assert (imap log_entry l !! lo = Some (log_entry lo e)) as Ei by (by rewrite list_lookup_imap, E).
    rewrite (drop_S _ _ _ Ei). unfold log_entry at 1. cbn [shares_since].
    change (log_member (fst e) (snd e) (Z.of_nat lo + 1)) with (fst (log_entry lo e)).
    rewrite Forall_lookup in Hr. rewrite parse_log_entry by (by eapply Hr). destruct e as [m d].
    assert (int_of_score (float_of_Z (Z.of_nat lo + 1)) = Z.of_nat lo + 1) as Hi.
    { unfold int_of_score. rewrite trunc_float_of_Z; [done|]. unfold short in Hs. lia. }
    rewrite Hi. replace (Z.of_nat lo <? Z.of_nat lo + 1) with true by (symmetry; apply Z.ltb_lt; lia).
    apply (IH (S lo)); lia.
Qed.
Lemma GetSharesSince_reply lo l s c :
  logged lo l s -> short l -> Forall (fun e => readable e = true) l -> c = Z.of_nat lo -> (lo <= length l)%nat ->
  served (GetSharesSince db c) s = Some (Ok (sums (drop lo l), Z.of_nat (length l)), s).
Proof.
  intros Hl Hs Hr -> Hlo. unfold GetSharesSince, call. cbn [pbind served].
  destruct (reply_zrangebyscore (key db ":shares:pplnslog") (Z.of_nat lo) s _ Hl) as (l' & -> & Hp & Hsort).
  { by apply log_map_ints. } { unfold short in Hs. lia. }
  cbn [pbind served]. rewrite log_after in Hp by (done || unfold short in Hs; lia).
  rewrite Nat2Z.id, Nat.max_id in Hp. rewrite (log_list_unique _ _ _ Hs Hp Hsort).
  pose proof (shares_since_logs (log_list lo l) (drop lo l) (Z.of_nat lo) ∅ (log_list_logs lo l) (Forall_drop _ _ _ Hr)) as H1.
  pose proof (shares_since_max lo l (Z.of_nat lo) ∅ Hs Hr Hlo eq_refl) as H2.
  destruct (shares_since _ _ _) as [a b]. cbn in H1, H2. by rewrite H1, H2.
Qed.

(** ** PPS: the writer and the payer, interleaved

    The writer takes shares off its queue one at a time; the payer reads the
    cursor, then the shares since, and later applies an update with the cursor it
    read, or gives the run up.  Each request of one may fall between any two of
    the other.  [pp_valid] lists the valid shares whose pipeline was executed,
    [pp_paid] the sums of the runs that were applied. *)
Definition pps_read : prog (err_or (gmap string float64 * Z)) :=
  try! cursor := GetPPSCursor db in GetSharesSince db cursor.
Inductive payer :=
| PIdle
| PReading (m : prog (err_or (gmap string float64 * Z)))
| PBatch (newShares : gmap string float64) (maxSeq : Z).
Record pps := mkPps {
  pp_store : store;
  pp_writer : option (prog unit * (Share * bool));
  pp_payer : payer;
  pp_valid : list entry;
  pp_paid : list (gmap string float64);
}.
Definition added (j : Share * bool) : list entry := if is_valid (fst j) then [entry_of (fst j)] else [].
(** One request of a program, and whether it is a pipeline *)
Definition request {A} (m : prog A) (s : store) : option (prog A * store) :=
  match m with Redis e k => let '(r, s') := reply e s in Some (k r, s') | _ => None end.
Definition is_exec {A} (m : prog A) : bool := match m with Redis (Exec _ _) _ => true | _ => false end.
Inductive pps_step : pps -> pps -> Prop :=
| ps_take now share accepted s p l d :
    recordable (share, accepted) ->
    pps_step (mkPps s None p l d) (mkPps s (Some (putShareNow db now share accepted, (share, accepted))) p l d)
| ps_write m m' j s s' p l d :
    request m s = Some (m', s') ->
    pps_step (mkPps s (Some (m, j)) p l d) (mkPps s' (Some (m', j)) p (l ++ if is_exec m then added j else []) d)
| ps_done j s p l d : pps_step (mkPps s (Some (Ret tt, j)) p l d) (mkPps s None p l d)
| ps_start s w l d : pps_step (mkPps s w PIdle l d) (mkPps s w (PReading pps_read) l d)
| ps_read m m' s s' w l d :
    request m s = Some (m', s') -> pps_step (mkPps s w (PReading m) l d) (mkPps s' w (PReading m') l d)
| ps_batch newShares maxSeq s w l d :
    pps_step (mkPps s w (PReading (Ret (Ok (newShares, maxSeq)))) l d) (mkPps s w (PBatch newShares maxSeq) l d)
| ps_fail p s w l d : pps_step (mkPps s w p l d) (mkPps s w PIdle l d)
| ps_apply newShares maxSeq u r s s' w l d :
    u_PPSCursor u = maxSeq -> served (ApplyPayments db u) s = Some (r, s') ->
    pps_step (mkPps s w (PBatch newShares maxSeq) l d) (mkPps s' w PIdle l (d ++ [newShares])).

(** *** The invariant *)
Definition cursor_is (c : nat) (s : store) : Prop :=
  as_string (value_at s (key db ":pps:cursor")) = Some (match c with O => None | _ => Some (FormatInt (Z.of_nat c)) end).
Definition after_incr (now : Z) (j : Share * bool) (seq : Z) : prog unit :=
  do! _ := call (Exec false (share_cmds now (fst j) (snd j) seq)) in Ret tt.
Definition writer_ok (w : option (prog unit * (Share * bool))) (l : list entry) (s : store) : Prop :=
  match w with
  | None => counted (length l) s
  | Some (m, j) =>
      recordable j /\
      ((exists now, m = putShareNow db now (fst j) (snd j)) /\ counted (length l) s \/
       (exists now, is_valid (fst j) = true /\ m = after_incr now j (Z.of_nat (length l) + 1)) /\ counted (S (length l)) s \/
       m = Ret tt /\ counted (length l) s)
  end.
(** What a read from cursor [c] amounts to *)
Definition batch_ok (c : nat) (l : list entry) (out : gmap string float64) (maxSeq : Z) : Prop :=
  exists n, (c <= n <= length l)%nat /\ maxSeq = Z.of_nat n /\ out = sums (drop c (take n l)).
Definition payer_ok (p : payer) (c : nat) (l : list entry) : Prop :=
  match p with
  | PIdle => True
  | PReading m =>
      m = pps_read \/ m = GetSharesSince db (Z.of_nat c) \/
      exists out maxSeq, m = Ret (Ok (out, maxSeq)) /\ batch_ok c l out maxSeq
  | PBatch out maxSeq => batch_ok c l out maxSeq
  end.
(** The paid batches are the sums of consecutive stretches of the valid shares. *)
Definition pps_inv (st : pps) : Prop :=
  exists c, (c <= length (pp_valid st))%nat /\ logged c (pp_valid st) (pp_store st) /\ cursor_is c (pp_store st) /\
    writer_ok (pp_writer st) (pp_valid st) (pp_store st) /\ payer_ok (pp_payer st) c (pp_valid st) /\
    exists bs, pp_paid st = map sums bs /\ concat bs = take c (pp_valid st).

Hypothesis pps_mode : db_ppsMode db = true.

Lemma batch_ok_app c l out m e : batch_ok c l out m -> batch_ok c (l ++ e) out m.
Proof.
  intros (n & Hn & -> & ->). exists n. rewrite length_app. split; [lia|]. split; [done|]. by rewrite take_app_le by lia.
Qed.
Lemma payer_ok_app p c l e : payer_ok p c l -> payer_ok p c (l ++ e).
Proof.
  destruct p as [|m|out m]; cbn; [done| |apply batch_ok_app].
  intros [?|[?|(out & mx & ? & ?)]]; [by left|right; by left|]. right. right. exists out, mx. split; [done|by apply batch_ok_app].
Qed.
Lemma putShareNow_prog now share accepted :
  putShareNow db now share accepted =
  if is_valid share
  then Redis (Incr (seq_key db)) (fun r => after_incr now (share, accepted) (match r with Ok n => n | Err _ => 0 end))
  else Redis (Exec false (share_cmds now share accepted 0)) (fun _ => Ret tt).
Proof.
  unfold putShareNow, after_incr, share_cmds, call. fold (is_valid share). cbn [fst snd].
  destruct (is_valid share); reflexivity.
Qed.

(** *** Its steps *)
Lemma exec_store tx cmds s r s' : reply (Exec tx cmds) s = (r, s') -> s' = do_cmds cmds s.
Proof. intros E. pose proof (reply_exec tx cmds s) as R. by rewrite E in R. Qed.
Lemma cursor_frame c s s' :
  value_at s' (key db ":pps:cursor") = value_at s (key db ":pps:cursor") -> cursor_is c s -> cursor_is c s'.
Proof. intros E Hc. unfold cursor_is. by rewrite E. Qed.

(** The commands of a share keep what the invariant says of the store. *)
Lemma share_cmds_pps c l now j seq s :
  logged c l s -> cursor_is c s -> (is_valid (fst j) = true -> seq = Z.of_nat (length l) + 1) ->
  short (l ++ added j) -> (c <= length l)%nat -> 0 <= db_logCap db ->
  logged c (l ++ added j) (do_cmds (share_cmds now (fst j) (snd j) seq) s) /\
  cursor_is c (do_cmds (share_cmds now (fst j) (snd j) seq) s).
Proof.
  intros Hl Hc Hseq Hs Hle Hcap. destruct j as [share accepted]. unfold added in *. cbn [fst snd] in *. split.
  2:{ eapply cursor_frame; [|exact Hc]. apply framed, share_cmds_cursor. }
  destruct (is_valid share) eqn:Ev.
  - rewrite (Hseq eq_refl). pose proof (share_cmds_logged c l now share accepted s Ev Hl Hs Hle Hcap) as H1.
    unfold next_lo in H1. by rewrite pps_mode in H1.
  - rewrite app_nil_r. unfold logged, log_key. rewrite framed; [exact Hl|]. unfold share_cmds, frame. rewrite Ev.
    apply Forall_app. split; [apply index_frame, bk_log|]. apply Forall_app. split; [apply invalid_frame, bk_log|].
    apply block_frame; [apply bk_log|done|by intros [=]|done].
Qed.

(** An applied update advances the cursor and trims the log to it. *)
Lemma apply_cmds_split u :
  exists a, apply_cmds db u = (a ++ (if 0 <? u_PPSCursor u then
      [SetKey (key db ":pps:cursor") (FormatInt (u_PPSCursor u));
       ZRemRangeByScore (key db ":shares:pplnslog") "0" (FormatInt (u_PPSCursor u))] else []) ++ [Del (intent_key db)])%list /\
    forall t, t = ":shares:seq" \/ t = ":shares:pplnslog" \/ t = ":pps:cursor" -> frame (key db t) a.
Proof.
  unfold apply_cmds. rewrite !app_assoc. rewrite <- (app_assoc _ _ [Del _]). eexists. split; [reflexivity|].
  intros t Ht. unfold frame. rewrite !Forall_app, !Forall_map. unfold round_key, pending.
  split_and!; apply Forall_forall; intros x _; try destruct x; other_key; destruct Ht as [->|[->| ->]]; discriminate.
Qed.
Lemma apply_pps u s r s' c l n :
  served (ApplyPayments db u) s = Some (r, s') -> u_PPSCursor u = Z.of_nat n -> (c <= n <= length l)%nat -> short l ->
  logged c l s -> cursor_is c s ->
  logged n l s' /\ cursor_is n s' /\ value_at s' (seq_key db) = value_at s (seq_key db).
Proof.
  intros Ha Hu Hn Hs Hl Hc. unfold ApplyPayments, call in Ha. cbn [served] in Ha.
  destruct (reply _ s) as [r0 s0] eqn:E. apply exec_store in E. cbn [served] in Ha. injection Ha as _ <-. rewrite E. clear s0 E.
  destruct (apply_cmds_split u) as (a & -> & Hf). rewrite !do_cmds_app, Hu. set (s1 := do_cmds a s).
  assert (value_at s1 (log_key db) = value_at s (log_key db)) as Fl by (apply framed, Hf; by right; left).
  assert (value_at s1 (key db ":pps:cursor") = value_at s (key db ":pps:cursor")) as Fc by (apply framed, Hf; by right; right).
  assert (value_at s1 (seq_key db) = value_at s (seq_key db)) as Fs by (apply framed, Hf; by left).
  assert (logged c l s1) as Hl1 by (unfold logged; by rewrite Fl).
  assert (forall t s2, t <> ":payouts:intent" -> value_at (do_cmds [Del (intent_key db)] s2) (key db t) = value_at s2 (key db t)) as Fd.
  { intros t s2 Ht. apply framed. unfold frame, intent_key. other_keys. congruence. }
  destruct (Z.ltb_spec 0 (Z.of_nat n)) as [Hpos|Hpos].
  - assert (forall x y, do_cmds [x; y] s1 = do_cmd y (do_cmd x s1)) as -> by done. set (s2 := do_cmd (SetKey _ _) s1).
    assert (forall t, t <> ":pps:cursor" -> value_at s2 (key db t) = value_at s1 (key db t)) as F2.
    { intros t Ht. apply do_cmd_frame. other_key. congruence. }
    set (s3 := do_cmd (ZRemRangeByScore _ _ _) s2).
    assert (forall t, t <> ":shares:pplnslog" -> value_at s3 (key db t) = value_at s2 (key db t)) as F3.
    { intros t Ht. apply do_cmd_frame. other_key. congruence. }
    split_and!.
    + unfold logged, log_key. rewrite Fd by done. unfold s3.
      assert (logged c l s2) as Hl2 by (unfold logged, log_key; by rewrite F2).
      pose proof (do_zremrangebyscore _ (Z.of_nat n) _ _ Hl2 (log_map_ints _ _ Hs) ltac:(unfold short in Hs; lia)) as Ez.
      unfold log_key in Ez. rewrite Ez.
      rewrite log_after by (done || unfold short in Hs; lia). rewrite Nat2Z.id. do 2 f_equal. lia.
    + unfold cursor_is. rewrite Fd, F3 by done. unfold s2. rewrite do_set. cbn. destruct n; [lia|done].
    + unfold seq_key. rewrite Fd, F3, F2 by done. exact Fs.
  - assert (n = 0%nat) as -> by lia. assert (c = 0%nat) as -> by lia. change (do_cmds [] s1) with s1. split_and!.
    + unfold logged, log_key. by rewrite Fd.
    + eapply cursor_frame; [|exact Hc]. by rewrite Fd.
    + unfold seq_key. by rewrite Fd.
Qed.

Lemma GetPPSCursor_request c s :
  cursor_is c s -> (Z.of_nat c < 2 ^ 53) ->
  request pps_read s = Some (GetSharesSince db (Z.of_nat c), s).
Proof.
  intros Hc Hn. unfold pps_read, GetPPSCursor, call, request. cbn [pbind]. rewrite (reply_get _ _ _ Hc).
  destruct c; [done|]. by rewrite ParseInt_FormatInt by lia.
Qed.
Lemma GetSharesSince_request c l s :
  logged c l s -> short l -> Forall (fun e => readable e = true) l -> (c <= length l)%nat ->
  request (GetSharesSince db (Z.of_nat c)) s = Some (Ret (Ok (sums (drop c l), Z.of_nat (length l))), s).
Proof.
  intros Hl Hs Hr Hle. pose proof (GetSharesSince_reply c l s _ Hl Hs Hr eq_refl Hle) as E.
  unfold GetSharesSince, call, request in *. cbn [pbind served] in *. destruct (reply _ s) as [[zs|e] s'];
    cbn [pbind served] in *; by injection E as -> ->.
Qed.

Lemma writer_frame w l s s' : value_at s' (seq_key db) = value_at s (seq_key db) -> writer_ok w l s -> writer_ok w l s'.
Proof. intros E. destruct w as [[m j]|]; cbn; unfold counted; by rewrite E. Qed.

(** A request of the writer *)
Lemma writer_step m m' j c l s s' :
  request m s = Some (m', s') -> 0 <= db_logCap db -> short (l ++ if is_exec m then added j else []) -> (c <= length l)%nat ->
  logged c l s -> cursor_is c s -> writer_ok (Some (m, j)) l s ->
  let l' := (l ++ if is_exec m then added j else [])%list in
  logged c l' s' /\ cursor_is c s' /\ writer_ok (Some (m', j)) l' s'.
Proof.
  intros Hq Hcap Hs Hle Hl Hc [Hj Hw].
  assert (forall now seq s0 s1 r, reply (Exec false (share_cmds now (fst j) (snd j) seq)) s0 = (r, s1) ->
    short (l ++ added j) -> (is_valid (fst j) = true -> seq = Z.of_nat (length l) + 1) -> logged c l s0 -> cursor_is c s0 ->
    (if is_valid (fst j) then counted (S (length l)) s0 else counted (length l) s0) ->
    logged c (l ++ added j) s1 /\ cursor_is c s1 /\ counted (length (l ++ added j)) s1) as Hexec.
  { intros now seq s0 s1 r E Hs' Hseq Hl0 Hc0 Hn. apply exec_store in E as ->.
    destruct (share_cmds_pps c l now j seq s0 Hl0 Hc0 Hseq Hs' Hle Hcap) as [H1 H2]. split; [done|]. split; [done|].
    apply counted_frame; [apply share_cmds_seq|]. unfold added. destruct (is_valid (fst j)).
    - rewrite length_app, Nat.add_1_r. exact Hn.
    - by rewrite app_nil_r. }
  destruct Hw as [[[now ->] Hn]|[[(now & Hv & ->) Hn]|[-> Hn]]].
  - rewrite putShareNow_prog in *. destruct j as [share accepted]. cbn [fst snd] in *. destruct (is_valid share) eqn:Ev.
    + cbn [is_exec] in *. rewrite app_nil_r. unfold request in Hq.
      unfold short in Hs. rewrite app_nil_r in Hs.
      destruct (incr_counted _ s Hn ltac:(lia)) as (s1 & E & Hn1 & Hf). rewrite E in Hq. injection Hq as <- <-.
      split; [unfold logged; by rewrite Hf by (by apply key_ne)|].
      split; [eapply cursor_frame; [|exact Hc]; apply Hf; by apply key_ne|].
      split; [done|]. right. left. split; [|done]. by exists now.
    + cbn [is_exec] in *. unfold request in Hq. destruct (reply _ s) as [r s1] eqn:E. injection Hq as <- <-.
      destruct (Hexec now 0 s s1 r E Hs) as (A & B & C); [by rewrite ?Ev|done|done|done|].
      split; [done|]. split; [done|]. split; [done|]. right. right. by split.
  - unfold after_incr, call in *. cbn [pbind is_exec] in *. unfold request in Hq. destruct (reply _ s) as [r s1] eqn:E.
    injection Hq as <- <-. destruct (Hexec now _ s s1 r E Hs) as (A & B & C); [done|done|done|by rewrite Hv|].
    split; [done|]. split; [done|]. split; [done|]. right. right. by split.
  - discriminate Hq.
Qed.

Lemma pps_step_valid st st' : pps_step st st' -> exists e, pp_valid st' = (pp_valid st ++ e)%list.
Proof. intros []; cbn; eexists; try reflexivity; by rewrite app_nil_r. Qed.
Definition sound (l : list entry) : Prop := short l /\ Forall (fun e => readable e = true) l.
Lemma sound_app l e : sound (l ++ e) -> sound l.
Proof.
  intros [Hs Hr]. split; [unfold short in *; rewrite length_app in Hs; lia|]. by apply Forall_app in Hr as [? _].
Qed.

Lemma pps_step_inv st st' :
  0 <= db_logCap db -> sound (pp_valid st') -> pps_step st st' -> pps_inv st -> pps_inv st'.
Proof.
  intros Hcap Hs Hst (c & Hle & Hl & Hc & Hw & Hp & Hb).
  destruct Hst as [now share accepted s p l d Hj|m m' j s s' p l d Hq|j s p l d|s w l d|m m' s s' w l d Hq
                  |out mx s w l d|p s w l d|out mx u r s s' w l d Hu Ha]; cbn [pp_valid pp_store pp_writer pp_payer pp_paid] in *.
  - exists c. split_and!; try done. cbn. split; [done|]. left. split; [by eexists|done].
  - pose proof (sound_app _ _ Hs) as Hs0. destruct (writer_step m m' j c l s s' Hq Hcap (proj1 Hs) Hle Hl Hc Hw) as (A & B & C).
    exists c. cbn [pp_valid pp_store pp_writer pp_payer pp_paid]. rewrite length_app. split_and!; [lia|done|done|done|by apply payer_ok_app|].
    destruct Hb as (bs & Hd & Hcat). exists bs. by rewrite take_app_le by done.
  - exists c. split_and!; try done. cbn in *. destruct Hw as [_ [[[now E] _]|[[(now & _ & E) _]|[_ Hn]]]]; [| |done].
    + rewrite putShareNow_prog in E. by destruct (is_valid _).
    + discriminate E.
  - exists c. split_and!; try done. by left.
  - exists c. cbn [pp_valid pp_store pp_writer pp_payer pp_paid]. destruct Hs as [Hs Hr]. cbn [payer_ok] in Hp. destruct Hp as [->|[->|(out & mx & -> & _)]]; [| |discriminate Hq].
    + rewrite (GetPPSCursor_request c s Hc) in Hq by (unfold short in Hs; lia). injection Hq as <- <-.
      split_and!; try done. right. by left.
    + rewrite (GetSharesSince_request c l s Hl Hs Hr Hle) in Hq. injection Hq as <- <-. split_and!; try done.
      right. right. do 2 eexists. split; [done|]. exists (length l). rewrite firstn_all. split; [lia|done].
  - exists c. split_and!; try done. cbn [payer_ok] in Hp. destruct Hp as [E|[E|(out' & mx' & E & Hok)]]; [discriminate E|discriminate E|].
    by injection E as -> ->.
  - exists c. by split_and!.
  - destruct Hp as (n & Hn & -> & ->). destruct Hs as [Hs Hr].
    destruct (apply_pps u s r s' c l n Ha Hu Hn Hs Hl Hc) as (A & B & Es).
    exists n. cbn [pp_valid pp_store pp_writer pp_payer pp_paid]. split_and!; [lia|done|done|by eapply writer_frame|done|].
    destruct Hb as (bs & -> & Hcat). exists (bs ++ [drop c (take n l)])%list. rewrite map_app. split; [done|].
    rewrite concat_app, Hcat. cbn. rewrite app_nil_r.
    rewrite <- (take_drop c (take n l)) at 2. by rewrite take_take, Nat.min_l by lia.
Qed.
Lemma pps_reachable_inv st st' :
  0 <= db_logCap db -> rtc pps_step st st' -> sound (pp_valid st') -> pps_inv st -> pps_inv st'.
Proof.
  intros Hcap R. induction R as [st|st st1 st2 Hst R IH]; intros Hs Hi; [done|]. apply IH; [done|].
  eapply pps_step_inv; [done| |exact Hst|exact Hi].
  clear -R Hs. induction R as [|a b c Hab R IHR]; [done|]. destruct (pps_step_valid _ _ Hab) as [e E].
  specialize (IHR Hs). rewrite E in IHR. by eapply sound_app.
Qed.

(** C7: in PPS mode, while Redis answers every request as its documentation says and
    none fails, each valid share is credited exactly once.  The condition on the
    shares: fewer than 2^53 - 1 valid ones were recorded, with finite difficulties,
    and each is readable, which means that no miner's name holds a colon and that
    the difficulty's text has none and parses back to it (the log's members are
    split at colons; what a miner who puts one in his name gains is
    LedgerSpec.share_weight_forged).  Then, with the share writer and the payer
    interleaved request by request, and runs of the payer given up at any point
    before their update is applied: the applied runs, in their order, credited
    consecutive stretches of the valid shares, which together are the first ones up
    to the cursor, each difficulty summed under its miner; and the log holds exactly
    the shares after them, so the next run reads all of those and no other. *)
Theorem pps_credits_each_share_once s0 st :
  0 <= db_logCap db -> empty_store s0 -> rtc pps_step (mkPps s0 None PIdle [] []) st -> sound (pp_valid st) ->
  exists bs rest,
    pp_paid st = map sums bs /\ pp_valid st = (concat bs ++ rest)%list /\
    served pps_read (pp_store st) = Some (Ok (sums rest, Z.of_nat (length (pp_valid st))), pp_store st).
Proof.
  intros Hcap He R Hs. apply (pps_reachable_inv _ _ Hcap) in R; [|done|].
  - destruct R as (c & Hle & Hl & Hc & _ & _ & bs & Hb & Hcat). exists bs, (drop c (pp_valid st)). split; [done|].
    split; [by rewrite Hcat, take_drop|]. destruct Hs as [Hs Hr].
    unfold pps_read. rewrite served_bind. unfold GetPPSCursor, call. cbn [pbind served]. rewrite (reply_get _ _ _ Hc). cbn [served].
    replace (match _ with None => Ok 0 | Some t => _ end) with (@Ok Z (Z.of_nat c)).
    { by apply GetSharesSince_reply. }
    destruct c; [done|]. unfold short in Hs. by rewrite ParseInt_FormatInt by lia.
  - exists 0%nat. unfold logged, cursor_is. cbn. unfold counted. rewrite !He. split_and!; try done. by exists [].
Qed.

(** Whole runs are runs of the system. *)
Lemma write_steps now share accepted s s' p l d :
  recordable (share, accepted) -> served (putShareNow db now share accepted) s = Some (tt, s') ->
  rtc pps_step (mkPps s None p l d) (mkPps s' None p (l ++ added (share, accepted)) d).
Proof.
  intros Hj E. eapply rtc_l; [by apply (ps_take now)|]. rewrite putShareNow_prog in *. destruct (is_valid share) eqn:Ev.
  - cbn [served] in E. destruct (reply (Incr _) s) as [r1 s1] eqn:E1. unfold after_incr, call in E. cbn [pbind served] in E.
    destruct (reply _ s1) as [r2 s2] eqn:E2. injection E as <-.
    eapply rtc_l; [eapply ps_write; cbn [request]; by rewrite E1|]. cbn [is_exec]. rewrite app_nil_r.
    eapply rtc_l; [eapply ps_write; unfold after_incr, call; cbn [pbind request]; by rewrite E2|]. cbn [is_exec].
    apply rtc_once. apply ps_done.
  - cbn [served] in E. destruct (reply _ s) as [r2 s2] eqn:E2. injection E as <-.
    eapply rtc_l; [eapply ps_write; cbn [request]; by rewrite E2|]. cbn [is_exec]. apply rtc_once. apply ps_done.
Qed.
Lemma read_steps m s out mx s' w l d :
  served m s = Some (Ok (out, mx), s') -> rtc pps_step (mkPps s w (PReading m) l d) (mkPps s' w (PBatch out mx) l d).
Proof.
  revert s; induction m as [a|X e k IH|dm me ps k IH]; intros s E; cbn [served] in E; [| |done].
  - injection E as -> <-. apply rtc_once. apply ps_batch.
  - destruct (reply e s) as [r s1] eqn:Er. eapply rtc_l; [apply ps_read; cbn [request]; by rewrite Er|]. by apply IH.
Qed.

(** ** The rounds and the window, after a queue of shares *)
Lemma marks_record js b pre pb r post :
  (forall pre' pb' r' post', sb_blocks b = pre' ++ (pb', r') :: post' ->
     pb_Mark pb' = Z.of_nat (length (concat (map snd (pre' ++ [(pb', r')])))))%list ->
  sb_blocks (fold_left record js b) = (pre ++ (pb, r) :: post)%list ->
  pb_Mark pb = Z.of_nat (length (concat (map snd (pre ++ [(pb, r)])))).
Proof.
  revert b; induction js as [|[share accepted] js IH]; intros b Hb E; [by eapply Hb|]. eapply IH; [|exact E].
  intros pre' pb' r' post' E'. unfold record in E'. remember (if is_valid share then add_entry (entry_of share) b else b) as b1 eqn:E1.
  assert (sb_blocks b1 = sb_blocks b) as Eb by (rewrite E1; by destruct (is_valid share)).
  destruct (seals share accepted); [|rewrite Eb in E'; by eapply Hb].
  cbn [seal sb_blocks] in E'. rewrite Eb in E'.
  destruct post' as [|x post'] using rev_ind.
  - apply app_inj_tail in E' as [Ep [= <- <-]]. cbn [block_of_share pb_Mark]. do 2 f_equal.
    unfold sb_shares. rewrite Eb, <- Ep, map_app, concat_app. cbn. by rewrite app_nil_r.
  - rewrite app_comm_cons, app_assoc in E'. apply app_inj_tail in E' as [E' _]. by eapply Hb.
Qed.

(** C10: what the storage makes of a queue of shares, on an empty server: the
    valid shares, in their order, are cut into the rounds of the accepted blocks
    and the current one, so each is in exactly one; the round read at a height
    holds the contributions of the last block sealed there, each share's
    difficulty under its miner; the pending blocks are the sealed ones; and the
    mark of a block counts the valid shares up to its own. *)
Theorem rounds_partition_shares clock js s0 :
  empty_store s0 -> Forall recordable js -> 0 <= db_logCap db -> Z.of_nat (length js) < 2 ^ 53 - 1 -> length clock = length js ->
  let b := fold_left record js empty_sharebook in
  exists s, drain clock (with_queue js) s0 = Some (with_queue [], s) /\
    (concat (map snd (sb_blocks b)) ++ sb_round b)%list
      = map (fun j => entry_of (fst j)) (List.filter (fun j => is_valid (fst j)) js) /\
    (forall h, 0 <= h < 2 ^ 63 ->
       served (GetRoundContrib db h) s = Some (floats_of (range (contrib (round_at b h))) ∅, s)) /\
    as_set (value_at s (pending db)) = Some (list_to_set (map (fun p => PendingBlock_String (fst p)) (sb_blocks b))) /\
    (forall pre pb r post, sb_blocks b = (pre ++ (pb, r) :: post)%list ->
       pb_Mark pb = Z.of_nat (length (concat (map snd (pre ++ [(pb, r)]))))).
Proof.
  intros He Hj Hcap Hn Hlen b.
  destruct (drain_represents clock js empty_sharebook s0 (empty_represents s0 He) Hj Hcap) as (s & Hd & (Hl & Hr)); [|done|].
  { unfold bounded. cbn. lia. }
  exists s. split; [exact Hd|]. split; [apply (sb_shares_records js empty_sharebook)|].
  split; [intros h Hh; by apply GetRoundContrib_served|]. split; [apply Hr|].
  intros pre pb r post E. eapply (marks_record js empty_sharebook); [|exact E]. intros [|? ?] ? ? ? E'; discriminate E'.
Qed.

(** C16: the shares PPLNS pays for a block.  Take an empty store on a Redis server
    that answers every request as documented, and a queue of fewer than 2^53 - 1
    recordable shares (a valid one has a finite difficulty, and one that carries an
    accepted block is valid and has a height that is an int64), whose valid ones are
    readable: no colon in the miner's name or in the difficulty's text, which parses
    back to it (without that the window holds what LedgerSpec.share_weight_forged
    shows).  After the queue is drained, the window read for a sealed block is cut
    from the valid shares up to its own, newest first, whatever was recorded since,
    as far as the log still holds them: all but those more than its cap before the
    newest. *)
Theorem pplns_window_of_block clock js s0 pre pb r post window :
  empty_store s0 -> Forall recordable js -> 0 <= db_logCap db -> Z.of_nat (length js) < 2 ^ 53 - 1 -> length clock = length js ->
  let b := fold_left record js empty_sharebook in
  Forall (fun e => readable e = true) (sb_shares b) ->
  sb_blocks b = (pre ++ (pb, r) :: post)%list ->
  exists s, drain clock (with_queue js) s0 = Some (with_queue [], s) /\
    served (GetPPLNSShares db (pb_Mark pb) window) s =
      Some (Ok (window_of (rev (drop (trimmed (length (sb_shares b))) (concat (map snd (pre ++ [(pb, r)]))))) window fzero ∅), s).
Proof.
  intros He Hj Hcap Hn Hlen b Hread Eb.
  assert (bounded empty_sharebook js) as Hb by (unfold bounded; cbn; lia).
  destruct (drain_represents clock js empty_sharebook s0 (empty_represents s0 He) Hj Hcap Hb Hlen) as (s & Hd & ((_ & Hl) & _)).
  assert (length (sb_shares b) <= length js)%nat as Hle.
  { unfold b. rewrite sb_shares_records. cbn. rewrite length_map. apply filter_length_le. }
  assert (short (sb_shares b)) as Hs by (unfold short; lia).
  pose proof (marks_record js empty_sharebook pre pb r post) as Hm. specialize (Hm ltac:(intros [|? ?] ? ? ? E'; discriminate E') Eb).
  assert (sb_shares b = concat (map snd (pre ++ [(pb, r)])) ++ concat (map snd post) ++ sb_round b)%list as Es.
  { unfold sb_shares. rewrite Eb, !map_app, !concat_app. cbn. by rewrite app_nil_r, <- !app_assoc. }
  exists s. split; [exact Hd|].
  assert (Z.of_nat (length (concat (map snd (pre ++ [(pb, r)])))) < 2 ^ 53) as Hlt.
  { apply (f_equal length) in Es. rewrite length_app in Es. unfold short in Hs. lia. }
  rewrite (GetPPLNSShares_served _ _ s (pb_Mark pb) window Hl Hs Hread) by (rewrite Hm; lia).
  do 5 f_equal. rewrite Hm, Nat2Z.id. change (fold_left record js empty_sharebook) with b. rewrite Es at 2.
  by rewrite take_app_length.
Qed.
(** A block whose share got no sequence number has an empty window. *)
Lemma unmarked_window_empty lo l s window :
  logged lo l s -> short l -> Forall (fun e => readable e = true) l ->
  served (GetPPLNSShares db 0 window) s = Some (Ok ∅, s).
Proof.
  intros Hl Hs Hr. rewrite (GetPPLNSShares_served lo l s 0 window) by done.
  change (Z.to_nat 0) with 0%nat. by rewrite take_0, drop_nil.
Qed.
End Store.

(** ** Witnesses *)
Definition log_share (miner : string) (diff : Z) (code height : Z) (blockhex : string) : Share :=
  mkShare "1" "10.0.0.1:5000" miner "rig1" code height 0 (float_of_Z diff) "00ab" blockhex "77cd".
Definition sample_queue : list (Share * bool) :=
  [(log_share "alice" 8 0 0 "", false); (log_share "bob" 16 0 0 "", false); (log_share "bob" 16 22 0 "", false);
   (log_share "alice" 4 0 840000 "beef", true); (log_share "bob" 32 0 0 "", false)].
Definition sample_log_db (pps : bool) : DB := mkDB "coin" pps 3 [].
Definition sample_book : ShareBook := fold_left record sample_queue empty_sharebook.
Lemma sample_queue_recordable : Forall recordable sample_queue.
Proof. repeat (constructor; [split; cbn; intros E; try discriminate E; try (vm_compute; repeat split; discriminate); done|]). constructor. Qed.
Definition no_store : @store sample_redis := (∅ : gmap string rval).
Lemma no_store_empty : empty_store no_store.
Proof. intros k. apply lookup_empty. Qed.

Lemma rounds_partition_shares_witness :
  exists s : @store sample_redis, drain [1; 2; 3; 4; 5] (with_queue (sample_log_db false) sample_queue) no_store
    = Some (with_queue (sample_log_db false) [], s) /\
    (concat (map snd (sb_blocks sample_book)) ++ sb_round sample_book)%list
      = map (fun j => entry_of (fst j)) (List.filter (fun j => is_valid (fst j)) sample_queue) /\
    (forall h, 0 <= h < 2 ^ 63 ->
       served (@GetRoundContrib (sample_log_db false) listed_order h) s
         = Some (floats_of (@range listed_order _ (contrib (round_at sample_book h))) ∅, s)) /\
    as_set (value_at s (pending (sample_log_db false)))
      = Some (list_to_set (map (fun p => PendingBlock_String (fst p)) (sb_blocks sample_book))) /\
    (forall pre pb r post, sb_blocks sample_book = (pre ++ (pb, r) :: post)%list ->
       pb_Mark pb = Z.of_nat (length (concat (map snd (pre ++ [(pb, r)]))))).
Proof.
  apply (@rounds_partition_shares sample_redis sample_redis_laws (sample_log_db false) listed_order).
  - exact no_store_empty.
  - exact sample_queue_recordable.
  - cbn. lia.
  - cbn. lia.
  - reflexivity.
Defined.

Definition sample_sealed : PendingBlock * list entry :=
  (mkPendingBlock "00ab" "77cd" 840000 "alice" 3,
   [("alice", float_of_Z 8); ("bob", float_of_Z 16); ("alice", float_of_Z 4)]).
(** The window of the block, cut at a cumulative difficulty of 10: alice's last
    share and bob's before it. *)
Lemma pplns_window_of_block_witness :
  exists s : @store sample_redis, drain [1; 2; 3; 4; 5] (with_queue (sample_log_db false) sample_queue) no_store
    = Some (with_queue (sample_log_db false) [], s) /\
    served (GetPPLNSShares (sample_log_db false) (pb_Mark (fst sample_sealed)) (float_of_Z 10)) s =
      Some (Ok (window_of (rev (drop (trimmed (sample_log_db false) (length (sb_shares sample_book)))
                  (concat (map snd ([] ++ [(fst sample_sealed, snd sample_sealed)]))))) (float_of_Z 10) fzero ∅), s).
Proof.
  apply (@pplns_window_of_block sample_redis sample_redis_laws (sample_log_db false) [1; 2; 3; 4; 5] sample_queue no_store
           [] (fst sample_sealed) (snd sample_sealed) [] (float_of_Z 10)).
  - exact no_store_empty.
  - exact sample_queue_recordable.
  - cbn. lia.
  - cbn. lia.
  - reflexivity.
  - repeat (constructor; [vm_compute; reflexivity|]). constructor.
  - vm_compute. reflexivity.
Defined.
Example sample_window : map_to_list (window_of (rev (drop 1 (snd sample_sealed))) (float_of_Z 10) fzero ∅)
  = [("bob", float_of_Z 16); ("alice", float_of_Z 4)] \/
  map_to_list (window_of (rev (drop 1 (snd sample_sealed))) (float_of_Z 10) fzero ∅)
  = [("alice", float_of_Z 4); ("bob", float_of_Z 16)].
Proof. first [left; vm_compute; reflexivity|right; vm_compute; reflexivity]. Qed.

(** The writer records two shares, between which the payer reads and applies. *)
Definition store_after {A} (m : prog A) (s : @store sample_redis) : @store sample_redis :=
  match served m s with Some (_, s') => s' | None => s end.
Definition result_of {A} (d : A) (m : prog (err_or A)) (s : @store sample_redis) : A :=
  match served m s with Some (Ok a, _) => a | _ => d end.
Definition succeeds {A} (m : prog (err_or A)) (s : @store sample_redis) : bool :=
  match served m s with Some (Ok _, _) => true | _ => false end.
Lemma served_result {A} (d : A) m s : succeeds m s = true -> served m s = Some (Ok (result_of d m s), store_after m s).
Proof. unfold succeeds, result_of, store_after. by destruct (served m s) as [[[] ?]|]. Qed.

Definition pps_db : DB := sample_log_db true.
Definition alice_share : Share := log_share "alice" 8 0 0 "".
Definition bob_share : Share := log_share "bob" 16 0 0 "".
Definition pps_store1 : @store sample_redis := store_after (putShareNow pps_db 7 alice_share false) no_store.
Definition pps_read1 : gmap string float64 * Z := result_of (∅, 0) (pps_read pps_db) pps_store1.
Definition pps_store2 : @store sample_redis := store_after (pps_read pps_db) pps_store1.
Definition pps_store3 : @store sample_redis := store_after (putShareNow pps_db 7 bob_share false) pps_store2.
Definition pps_update : PaymentUpdate := mkUpdate ∅ ∅ [] [] [] (snd pps_read1).
Definition pps_store4 : @store sample_redis := store_after (@ApplyPayments pps_db listed_order pps_update) pps_store3.
Definition pps_state : pps :=
  mkPps pps_store4 None PIdle [entry_of alice_share; entry_of bob_share] [fst pps_read1].

Lemma pps_state_reached :
  rtc (@pps_step sample_redis pps_db listed_order) (mkPps no_store None PIdle [] []) pps_state.
Proof.
  assert (forall share s, served (putShareNow pps_db 7 share false) s
            = Some (tt, store_after (putShareNow pps_db 7 share false) s)) as W.
  { intros share s. unfold store_after. by rewrite putShareNow_served. }
  etrans; [apply (write_steps pps_db 7 alice_share false); [by split|apply W]|].
  eapply rtc_l; [apply ps_start|].
  etrans; [apply (read_steps pps_db (pps_read pps_db) pps_store1 (fst pps_read1) (snd pps_read1) pps_store2)|].
  { unfold pps_read1, pps_store2. rewrite <- surjective_pairing. apply served_result. vm_compute. reflexivity. }
  etrans; [apply (write_steps pps_db 7 bob_share false); [by split|apply W]|].
  apply rtc_once.
  apply (ps_apply pps_db (fst pps_read1) (snd pps_read1) pps_update (Ok tt) pps_store3 pps_store4 None
           [entry_of alice_share; entry_of bob_share] []); [reflexivity|].
  unfold pps_store4. rewrite (served_result tt); [|vm_compute; reflexivity]. by destruct (result_of _ _ _).
Qed.
Lemma pps_credits_each_share_once_witness :
  exists bs rest,
    pp_paid pps_state = map sums bs /\ pp_valid pps_state = (concat bs ++ rest)%list /\
    served (pps_read pps_db) (pp_store pps_state)
      = Some (Ok (sums rest, Z.of_nat (length (pp_valid pps_state))), pp_store pps_state).
Proof.
  apply (@pps_credits_each_share_once sample_redis sample_redis_laws pps_db listed_order eq_refl no_store pps_state).
  - cbn. lia.
  - exact no_store_empty.
  - exact pps_state_reached.
  - split; [vm_compute; reflexivity|]. repeat (constructor; [vm_compute; reflexivity|]). constructor.
Defined.
