(* ===== verification/VarDiff.v ===== *)
(** * VarDiff: src/vardiff/ringbuffer.go and src/vardiff/vardiff.go

    The window of share intervals and the retargeting of a client's
    difficulty.  Times are int64 seconds, difficulties float64. *)
From Stdlib Require Import ZArith Lia List Floats.SpecFloat Reals Lra.
From stdpp Require Import base list strings.
From S2P Require Import Prelude Float FloatSpec Config.
Import ListNotations.
Local Open Scope Z_scope.
Local Open Scope go_scope.

(** ** RingBuffer *)
Record RingBuffer := mkRing {
  IsFull : bool;
  MaxSize : Z;
  Cursor : Z;
  Data : list Z;
}.
Definition NewRingBuffer (maxSize : Z) : RingBuffer := mkRing false maxSize 0 [].

(** [rb.Data[i]] of an index that may be out of range, and the int64 remainder,
    which panics on zero. *)
Definition index_ok (l : list Z) (i : Z) : bool := (0 <=? i) && (i <? Z.of_nat (length l)).
Definition rem64 (a b : Z) : result Z :=
  if b =? 0 then Panic "integer divide by zero" else Val (i64 (Z.rem a b)).
Definition quot64 (a b : Z) : result Z :=
  if b =? 0 then Panic "integer divide by zero" else Val (i64 (Z.quot a b)).

Definition Append (x : Z) (rb : RingBuffer) : result RingBuffer :=
  if IsFull rb then
    if index_ok (Data rb) (Cursor rb) then
      let! c := rem64 (i64 (Cursor rb + 1)) (MaxSize rb) in
      Val (mkRing true (MaxSize rb) c (<[Z.to_nat (Cursor rb) := x]> (Data rb)))
    else Panic "index out of range"
  else
    let data := Data rb ++ [x] in
    if Z.of_nat (length data) =? MaxSize rb
    then Val (mkRing true (MaxSize rb) 0 data)
    else Val (mkRing false (MaxSize rb) (i64 (Cursor rb + 1)) data).

Definition Size (rb : RingBuffer) : Z := if IsFull rb then MaxSize rb else Cursor rb.
Definition sum64 (l : list Z) : Z := fold_left (fun sum x => i64 (sum + x)) l 0.
Definition Avg (rb : RingBuffer) : float64 :=
  fdiv (float_of_Z (sum64 (Data rb))) (float_of_Z (Size rb)).
Definition Clear (rb : RingBuffer) : RingBuffer := mkRing false (MaxSize rb) 0 [].

(** ** VarDiff *)
Record VarDiff := mkVarDiff {
  vd_Options : VarDiffOptions;
  BufferSize : Z;
  MaxTargetTime : float64;
  MinTargetTime : float64;
  TimeBuffer : RingBuffer;
  LastRtc : Z;
  LastTimestamp : Z;
}.
Definition fone : float64 := float_of_Z 1.
Definition ftwo : float64 := float_of_Z 2.

(** [timestamp] is [time.Now().Unix()]. *)
Definition NewVarDiff (timestamp : Z) (options : VarDiffOptions) : result VarDiff :=
  let! q := quot64 (v_RetargetTime options) (v_TargetTime options) in
  let bufferSize := i64 (q * 4) in
  Val {| vd_Options := options;
         BufferSize := bufferSize;
         MaxTargetTime := fmul (float_of_Z (v_TargetTime options)) (fadd fone (v_VariancePercent options));
         MinTargetTime := fmul (float_of_Z (v_TargetTime options)) (fsub fone (v_VariancePercent options));
         TimeBuffer := NewRingBuffer bufferSize;
         LastRtc := i64 (timestamp - Z.quot (v_RetargetTime options) 2);
         LastTimestamp := timestamp |}.

Definition set_times (rb : RingBuffer) (rtc last : Z) (vd : VarDiff) : VarDiff :=
  mkVarDiff (vd_Options vd) (BufferSize vd) (MaxTargetTime vd) (MinTargetTime vd) rb rtc last.

(** [float64(time.Duration(TargetTime)*time.Second)]: a duration counts
    nanoseconds, while the average it is divided by is in seconds. *)
Definition target_duration (vd : VarDiff) : float64 :=
  float_of_Z (i64 (v_TargetTime (vd_Options vd) * 1000000000)).

(** The factor the difficulty is multiplied by; [None] keeps the difficulty. *)
Definition retarget_factor (vd : VarDiff) (avg currentDiff : float64) : option float64 :=
  let o := vd_Options vd in
  let ddiff := fdiv (target_duration vd) avg in
  if fltb (MaxTargetTime vd) avg && fltb (v_MinDiff o) currentDiff then
    let ddiff := if v_X2Mode o then fhalf else ddiff in
    Some (if fltb (fmul ddiff currentDiff) (v_MinDiff o) then fdiv (v_MinDiff o) currentDiff else ddiff)
  else if fltb avg (MinTargetTime vd) then
    let ddiff := if v_X2Mode o then ftwo else ddiff in
    Some (if fltb (v_MaxDiff o) (fmul ddiff currentDiff) then fdiv (v_MaxDiff o) currentDiff else ddiff)
  else None.

(** The next difficulty (zero while the window is open) and the new state. *)
Definition CalcNextDiff (timestamp : Z) (currentDiff : float64) (vd : VarDiff)
  : result (float64 * VarDiff) :=
  if LastRtc vd =? 0 then
    Val (fzero, set_times (TimeBuffer vd)
                  (i64 (timestamp - Z.quot (v_RetargetTime (vd_Options vd)) 2)) timestamp vd)
  else
    let sinceLast := i64 (timestamp - LastTimestamp vd) in
    let! rb := Append sinceLast (TimeBuffer vd) in
    if (i64 (timestamp - LastRtc vd) <? v_RetargetTime (vd_Options vd)) && (0 <? Size rb)
    then Val (fzero, set_times rb (LastRtc vd) timestamp vd)
    else
      match retarget_factor vd (Avg rb) currentDiff with
      | None => Val (currentDiff, set_times rb timestamp timestamp vd)
      | Some ddiff =>
          let newDiff := fmul currentDiff ddiff in
          let newDiff := if fleb newDiff fzero then currentDiff else newDiff in
          Val (newDiff, set_times (Clear rb) timestamp timestamp vd)
      end.

(** ** The ring buffer is a sliding window *)

(** The last [n] elements of a history. *)
Definition last_n {A} (n : nat) (l : list A) : list A := drop (length l - n) l.

Fixpoint append_all (l : list Z) (rb : RingBuffer) : result RingBuffer :=
  match l with
  | [] => Val rb
  | x :: l' => let! rb := Append x rb in append_all l' rb
  end.

Lemma append_all_snoc l x rb :
  append_all (l ++ [x]) rb = let! rb := append_all l rb in Append x rb.
Proof.
  revert rb; induction l as [|y l IH]; intros rb; cbn [append_all app].
  - cbn. by destruct (Append x rb).
  - destruct (Append y rb) as [rb'|]; [apply IH|done].
Qed.

(** [l] is the history since the buffer was empty. *)
Definition window_of (n : nat) (l : list Z) (rb : RingBuffer) : Prop :=
  MaxSize rb = Z.of_nat n /\
  if decide (length l < n)%nat
  then IsFull rb = false /\ Cursor rb = Z.of_nat (length l) /\ Data rb = l
  else IsFull rb = true /\ length (Data rb) = n /\
       exists c, Cursor rb = Z.of_nat c /\ (c < n)%nat /\ drop c (Data rb) ++ take c (Data rb) = last_n n l.

Lemma wraps_mod w a : 0 < w -> wraps w a mod 2 ^ w = a mod 2 ^ w.
Proof.
  intros Hw. unfold wraps. rewrite Zminus_mod_idemp_l.
  replace (a + 2 ^ (w - 1) - 2 ^ (w - 1)) with a by lia. done.
Qed.
Lemma wraps_eq w a b : 0 < w -> a mod 2 ^ w = b mod 2 ^ w -> wraps w a = wraps w b.
Proof. intros Hw E. unfold wraps. rewrite <- Zplus_mod_idemp_l, E, Zplus_mod_idemp_l. done. Qed.

Lemma sum64_perm l l' : l ≡ₚ l' -> sum64 l = sum64 l'.
Proof.
  unfold sum64. generalize 0. intros a P. revert a.
  induction P as [|x l l' P IH|x y l|l1 l2 l3 P1 IH1 P2 IH2]; intros a; cbn [fold_left]; [done|apply IH| |by rewrite IH1, IH2].
  f_equal. apply wraps_eq; [lia|].
  rewrite (Zplus_mod (i64 _)), (Zplus_mod (i64 (a + x))), !wraps_mod, <- !Zplus_mod by lia. f_equal. lia.
Qed.

Lemma last_n_snoc {A} n (l : list A) x w y :
  last_n n l = y :: w -> length w = (n - 1)%nat -> last_n n (l ++ [x]) = w ++ [x].
Proof.
  unfold last_n. intros E Hw. rewrite length_app. cbn [length].
  assert (length (drop (length l - n) l) = S (length w)) as L by (by rewrite E).
  rewrite length_drop in L.
  replace (length l + 1 - n)%nat with (S (length l - n)) by lia.
  rewrite drop_app_le by lia. f_equal.
  rewrite <- Nat.add_1_r, <- drop_drop, E. done.
Qed.

Lemma Append_window n l x rb :
  (0 < n)%nat -> Z.of_nat n < 2 ^ 63 -> window_of n l rb ->
  exists rb', Append x rb = Val rb' /\ window_of n (l ++ [x]) rb'.
Proof.
  intros Hn Hn63 [Em W]. unfold Append. destruct (decide (length l < n)%nat) as [L|L].
  - destruct W as (-> & Ec & ->). rewrite length_app. cbn [length]. rewrite Em.
    destruct (Z.eqb_spec (Z.of_nat (length l + 1)) (Z.of_nat n)) as [E|E];
      eexists; (split; [reflexivity|]); (split; [done|]); rewrite length_app; cbn [length].
    + rewrite decide_False by lia. split; [done|]. cbn [Data]. rewrite length_app. split; [cbn; lia|].
      exists 0%nat. split; [done|]. split; [lia|]. rewrite drop_0, take_0, app_nil_r. unfold last_n.
      rewrite length_app. cbn [length]. by replace (length l + 1 - n)%nat with 0%nat by lia.
    + rewrite decide_True by lia. split; [done|]. split; [|done]. cbn [Cursor]. rewrite Ec.
      rewrite wraps_small by lia. lia.
  - destruct W as (-> & El & c & Ec & Hc & Ew). unfold index_ok. rewrite Ec, Em, El.
    replace ((0 <=? Z.of_nat c) && (Z.of_nat c <? Z.of_nat n)) with true
      by (symmetry; apply andb_true_intro; rewrite Z.leb_le, Z.ltb_lt; lia).
    unfold rem64. rewrite (wraps_small 64 (Z.of_nat c + 1)) by lia.
    replace (Z.of_nat n =? 0) with false by (symmetry; apply Z.eqb_neq; lia).
    cbn [rbind]. eexists. split; [reflexivity|]. split; [done|].
    rewrite decide_False by (rewrite length_app; cbn; lia). split; [done|]. cbn [Data Cursor].
    rewrite length_insert. split; [done|]. rewrite Nat2Z.id.
    destruct (lookup_lt_is_Some_2 (Data rb) c ltac:(lia)) as [y Ey].
    rewrite (drop_S _ _ _ Ey) in Ew.
    assert (length (drop (S c) (Data rb) ++ take c (Data rb)) = n - 1)%nat as Lw
      by (rewrite length_app, length_drop, length_take; lia).
    pose proof (last_n_snoc n l x _ y (eq_sym Ew) Lw) as ->.
    rewrite Z.rem_mod_nonneg by lia.
    destruct (decide (S c = n)%nat) as [E|E].
    + exists 0%nat. replace ((Z.of_nat c + 1) mod Z.of_nat n) with 0
        by (replace (Z.of_nat c + 1) with (Z.of_nat n) by lia; symmetry; apply Z_mod_same_full).
      split; [done|]. split; [lia|]. rewrite drop_0, take_0, app_nil_r.
      rewrite insert_take_drop, (drop_ge _ (S c)) by lia. done.
    + exists (S c). rewrite Z.mod_small by lia. rewrite wraps_small by lia. split; [lia|]. split; [lia|].
      rewrite drop_insert_lt by lia. rewrite (take_S_r _ _ x) by (apply list_lookup_insert_eq; lia).
      rewrite take_insert_ge by lia. by rewrite app_assoc.
Qed.

Lemma append_all_window n l :
  (0 < n)%nat -> Z.of_nat n < 2 ^ 63 ->
  exists rb, append_all l (NewRingBuffer (Z.of_nat n)) = Val rb /\ window_of n l rb.
Proof.
  intros Hn Hn63. induction l as [|x l IH] using rev_ind.
  - eexists. split; [done|]. split; [done|]. cbn. by rewrite decide_True.
  - destruct IH as (rb & E & W). rewrite append_all_snoc, E. by apply Append_window.
Qed.

(** The ring buffer refines a sliding window: after any sequence of
    appends to a buffer of positive capacity, none of which fails, its size is
    the number of elements kept and its average is the average of the last
    [n] values appended. *)
Theorem RingBuffer_window (n : nat) (l : list Z) :
  (0 < n)%nat -> Z.of_nat n < 2 ^ 63 ->
  exists rb, append_all l (NewRingBuffer (Z.of_nat n)) = Val rb /\
    Data rb ≡ₚ last_n n l /\
    Size rb = Z.of_nat (length (last_n n l)) /\
    Avg rb = fdiv (float_of_Z (sum64 (last_n n l))) (float_of_Z (Z.of_nat (length (last_n n l)))).
Proof.
  intros Hn Hn63. destruct (append_all_window n l Hn Hn63) as (rb & E & Em & W). exists rb. split; [done|].
  assert (Data rb ≡ₚ last_n n l /\ Size rb = Z.of_nat (length (last_n n l))) as [P S].
  { unfold Size, last_n. rewrite length_drop. destruct (decide (length l < n)%nat) as [L|L].
    - destruct W as (-> & -> & ->). replace (length l - n)%nat with 0%nat by lia. split; [done|lia].
    - destruct W as (-> & El & c & Ec & Hc & Ew). fold (last_n n l). rewrite <- Ew, Em. split; [|lia].
      rewrite Permutation_app_comm. by rewrite take_drop. }
  split; [done|]. split; [done|]. unfold Avg. by rewrite S, (sum64_perm _ _ P).
Qed.

Lemma RingBuffer_window_witness :
  exists rb, append_all [5; 7; 11; 13] (NewRingBuffer (Z.of_nat 3)) = Val rb /\
    Data rb ≡ₚ last_n 3 [5; 7; 11; 13] /\
    Size rb = Z.of_nat (length (last_n 3 [5; 7; 11; 13])) /\
    Avg rb = fdiv (float_of_Z (sum64 (last_n 3 [5; 7; 11; 13])))
               (float_of_Z (Z.of_nat (length (last_n 3 [5; 7; 11; 13])))).
Proof. apply (RingBuffer_window 3 [5; 7; 11; 13]); lia. Defined.

(** ** Retargeting stays in the configured range *)

(** A configured difficulty: a positive float in [2^-400, 2^453). *)
Definition diff_ok (x : float64) : bool :=
  match x with
  | S754_finite false m e => SpecFloat.bounded 53 1024 m e && (-400 <=? e) && (e <=? 400)
  | _ => false
  end.

Local Open Scope R_scope.
(** Small powers of two as numerals. *)
Ltac b2_small := unfold b2; simpl; (lra || (apply f_equal; lra)).
Lemma Rabs_def2_le x a : Rabs x <= a -> - a <= x /\ x <= a.
Proof. unfold Rabs. destruct (Rcase_abs x); lra. Qed.

Lemma diff_ok_spec x : diff_ok x = true -> nonneg x /\ b2 (-400) <= F2R x <= b2 453.
Proof.
  destruct x as [|?| |[] m e]; cbn [diff_ok]; try done. intros Hw. zbool.
  match goal with B : SpecFloat.bounded _ _ _ _ = true |- _ => rename B into Hb end.
  split; [by repeat split|]. cbn [F2R].
  pose proof (bounded_canonical m e Hb) as [Cm _]. pose proof (digits2_pos_spec m) as [_ D].
  assert (Zpos m < 2 ^ 53)%Z as Hm.
  { eapply Z.lt_le_trans; [exact D|]. apply Z.pow_le_mono_r; [lia|]. cbn [Zdigits2] in Cm. lia. }
  apply IZR_lt in Hm. rewrite <- b2_IZR in Hm by lia.
  assert (1 <= IZR (Zpos m)) as Hm1 by (apply IZR_le; lia).
  pose proof (b2_pos e). pose proof (b2_le (-400) e ltac:(lia)). pose proof (b2_le e 400 ltac:(lia)).
  split; [nra|]. replace 453%Z with (53 + 400)%Z by lia. rewrite b2_add.
  apply Rmult_le_compat; lra.
Qed.

(** The range up to the rounding of a clamp. *)
Definition slack : R := b2 (-51).
Definition in_range (o : VarDiffOptions) (d : float64) : Prop :=
  nonneg d /\ F2R (v_MinDiff o) * (1 - slack) <= F2R d <= F2R (v_MaxDiff o) * (1 + slack).

Definition x2_options (o : VarDiffOptions) : bool :=
  v_X2Mode o && diff_ok (v_MinDiff o) && diff_ok (v_MaxDiff o) && fleb (v_MinDiff o) (v_MaxDiff o).

Lemma slack_small : 0 < slack <= / 4.
Proof.
  split; [apply b2_pos|]. replace (/ 4) with (b2 (-2)) by b2_small. apply b2_le. lia.
Qed.

Lemma in_range_wide o d :
  x2_options o = true -> in_range o d -> b2 (-401) <= F2R d <= b2 454.
Proof.
  intros Ho [_ [L U]]. unfold x2_options in Ho. zbool. pose proof slack_small.
  repeat match goal with D : diff_ok _ = true |- _ => apply diff_ok_spec in D as (_ & ? & ?) end.
  pose proof (b2_succ' (-400)) as E1. pose proof (b2_succ' 454) as E2.
  change (-400 - 1)%Z with (-401)%Z in E1. change (454 - 1)%Z with 453%Z in E2.
  pose proof (b2_pos 453). pose proof (b2_pos (-401)).
  assert (F2R (v_MinDiff o) * slack <= F2R (v_MinDiff o) * / 4) by (apply Rmult_le_compat_l; lra).
  assert (F2R (v_MaxDiff o) * slack <= F2R (v_MaxDiff o) * / 4) by (apply Rmult_le_compat_l; lra).
  split; lra.
Qed.

(** Doubling and halving are exact. *)
Lemma fmul_pow2 k x y :
  (-2 <= k <= 2)%Z -> nonneg x -> nonneg y -> b2 (-401) <= F2R x -> F2R x <= b2 454 ->
  F2R y = b2 k -> nonneg (fmul x y) /\ F2R (fmul x y) = F2R x * b2 k.
Proof.
  intros Hk Hx Hy L U E. pose proof (b2_pos k) as Hk0. pose proof (b2_pos (-401)).
  destruct (fmul_spec x y Hx Hy) as (Hn & _ & _ & X).
  { rewrite E. apply Rle_lt_trans with (b2 454 * b2 k); [by apply Rmult_le_compat_r; lra|].
    rewrite <- b2_add. eapply Rle_lt_trans; [apply (b2_le _ 1022); lia|].
    pose proof (b2_succ' 1023) as B. change (1023 - 1)%Z with 1022%Z in B. pose proof (b2_pos 1022). lra. }
  split; [done|]. rewrite E in X.
  destruct (nonneg_cases x Hx) as [->|(m & e & -> & B)]; [cbn [F2R] in L; lra|].
  pose proof (bounded_canonical m e B) as [Cm _]. pose proof (digits2_pos_spec m) as [_ D].
  assert (Zpos m < 2 ^ 53)%Z as Hm.
  { eapply Z.lt_le_trans; [exact D|]. apply Z.pow_le_mono_r; [lia|]. cbn [Zdigits2] in Cm. lia. }
  cbn [F2R] in *. rewrite Rmult_assoc, <- b2_add in X |- *. apply (X (Zpos m) (e + k)%Z); [lia| |done].
  assert (-401 < 53 + e)%Z; [|lia]. apply b2_lt_inv. eapply Rle_lt_trans; [exact L|].
  rewrite b2_add. apply Rmult_lt_compat_r; [apply b2_pos|]. rewrite b2_IZR by lia. by apply IZR_lt.
Qed.

(** [cur * (target / cur)] is the target up to two roundings. *)
Lemma rescale target cur :
  nonneg target -> nonneg cur -> b2 (-400) <= F2R target <= b2 453 -> b2 (-401) <= F2R cur <= b2 454 ->
  let d := fmul cur (fdiv target cur) in
  nonneg d /\ F2R target * (1 - slack) <= F2R d <= F2R target * (1 + slack).
Proof.
  intros Ht Hc [Tl Tu] [Cl Cu]. cbv zeta.
  pose proof (b2_pos (-401)). pose proof (b2_pos (-400)).
  set (T := F2R target) in *. set (C := F2R cur) in *.
  assert (0 < C) as HC by lra. assert (0 < T) as HT by lra.
  assert (T / C <= b2 854) as Hq.
  { apply (Rmult_le_reg_r C); [done|]. unfold Rdiv. rewrite Rmult_assoc, Rinv_l, Rmult_1_r by lra.
    apply Rle_trans with (b2 854 * b2 (-401)); [rewrite <- b2_add; exact Tu|].
    apply Rmult_le_compat_l; [pose proof (b2_pos 854); lra|done]. }
  assert (b2 854 < b2 1020) as H854.
  { pose proof (b2_le 854 1019 ltac:(lia)). pose proof (b2_succ' 1020) as B.
    change (1020 - 1)%Z with 1019%Z in B. pose proof (b2_pos 1019). lra. }
  assert (b2 1023 = 8 * b2 1020) as E1023.
  { change 1023%Z with (3 + 1020)%Z. rewrite b2_add. replace (b2 3) with 8 by b2_small. lra. }
  pose proof (b2_pos 1020).
  destruct (fdiv_spec target cur Ht Hc HC) as (Hqn & Hqe & _); [fold T C; lra|]. fold T C in Hqe.
  set (q := F2R (fdiv target cur)) in *. pose proof (nonneg_F2R _ Hqn) as Hq0. fold q in Hq0.
  set (u := ulp_rel) in *. set (eta := ulp_abs) in *.
  assert (0 < u <= / 16) as Hu.
  { split; [apply b2_pos|]. replace (/ 16) with (b2 (-4)) by b2_small. apply b2_le. lia. }
  assert (0 < eta) as He by apply b2_pos.
  assert (slack = 4 * u) as Es.
  { unfold slack, u, ulp_rel. change (-51)%Z with (2 + -53)%Z. rewrite b2_add. replace (b2 2) with 4 by b2_small. lra. }
  (* the absolute errors vanish against T * u *)
  assert (C * eta * 2 <= T * u * / 8) as Hce.
  { apply Rle_trans with (b2 454 * eta * 2); [apply Rmult_le_compat_r; [lra|apply Rmult_le_compat_r; lra]|].
    apply Rle_trans with (b2 (-400) * u * / 8); [|apply Rmult_le_compat_r; [lra|apply Rmult_le_compat_r; lra]].
    unfold eta, u, ulp_abs, ulp_rel. replace (/ 8) with (b2 (-3)) by b2_small.
    rewrite (Rmult_comm _ 2), <- !b2_add, <- b2_succ. apply b2_le. lia. }
  assert (eta <= T * u * / 8) as Hee.
  { apply Rle_trans with (b2 (-400) * u * / 8); [|apply Rmult_le_compat_r; [lra|apply Rmult_le_compat_r; lra]].
    unfold eta, u, ulp_abs, ulp_rel.
    replace (/ 8) with (b2 (-3)) by b2_small.
    rewrite <- !b2_add. apply b2_le. lia. }
  apply Rabs_def2_le in Hqe as [Q1 Q2].
  assert (C * (T / C) = T) as ECT by (field; lra).
  assert (C * q <= T + T * u + C * eta) as P1.
  { apply Rle_trans with (C * (T / C + (T / C * u + eta))); [apply Rmult_le_compat_l; lra|].
    rewrite !Rmult_plus_distr_l, <- Rmult_assoc, ECT. lra. }
  assert (T - T * u - C * eta <= C * q) as P2.
  { apply Rle_trans with (C * (T / C - (T / C * u + eta))); [|apply Rmult_le_compat_l; lra].
    rewrite Rmult_minus_distr_l, !Rmult_plus_distr_l, <- Rmult_assoc, ECT. lra. }
  assert (T * u <= T * / 16) as Tu16 by (apply Rmult_le_compat_l; lra).
  destruct (fmul_spec cur (fdiv target cur) Hc Hqn) as (Hdn & Hde & _).
  { fold C q. assert (T <= b2 1020) by (pose proof (b2_le 453 1020 ltac:(lia)); lra).
    assert (C * eta <= T) by lra. lra. }
  fold C q in Hde. apply Rabs_def2_le in Hde as [D1 D2]. fold u eta in D1, D2.
  split; [done|]. rewrite Es.
  assert (C * q * u <= (T + T * u + C * eta) * u) as Q3 by (apply Rmult_le_compat_r; lra).
  assert (T * u * u <= T * u * / 16) as Q4 by (apply Rmult_le_compat_l; [|lra]; apply Rmult_le_pos; lra).
  assert (C * eta * u <= C * eta * / 16) as Q5 by (apply Rmult_le_compat_l; [|lra]; apply Rmult_le_pos; lra).
  rewrite !Rmult_plus_distr_r in Q3. split; lra.
Qed.

Local Open Scope Z_scope.

Definition ring_ok (rb : RingBuffer) : Prop :=
  MaxSize rb < 2 ^ 63 /\
  (IsFull rb = true -> Z.of_nat (length (Data rb)) = MaxSize rb /\ 0 <= Cursor rb < MaxSize rb).

Lemma Append_ok x rb : ring_ok rb -> exists rb', Append x rb = Val rb' /\ ring_ok rb'.
Proof.
  intros [Hm Hf]. unfold Append. destruct (IsFull rb) eqn:F.
  - destruct (Hf eq_refl) as [El Hc]. unfold index_ok, rem64. rewrite El.
    replace ((0 <=? Cursor rb) && (Cursor rb <? MaxSize rb)) with true
      by (symmetry; apply andb_true_intro; rewrite Z.leb_le, Z.ltb_lt; lia).
    replace (MaxSize rb =? 0) with false by (symmetry; apply Z.eqb_neq; lia).
    eexists. split; [reflexivity|]. split; [done|]. intros _. cbn [Data Cursor MaxSize].
    rewrite length_insert, (wraps_small 64 (Cursor rb + 1)) by lia. split; [done|].
    pose proof (Z.rem_bound_pos (Cursor rb + 1) (MaxSize rb) ltac:(lia) ltac:(lia)).
    rewrite wraps_small; lia.
  - destruct (Z.eqb_spec (Z.of_nat (length (Data rb ++ [x]))) (MaxSize rb)) as [E|E];
      eexists; (split; [reflexivity|]); (split; [done|]); [|done].
    intros _. cbn [Data Cursor MaxSize]. rewrite length_app in *. cbn [length] in *. lia.
Qed.

Inductive vd_reachable (o : VarDiffOptions) : VarDiff -> Prop :=
| vd_new ts vd : NewVarDiff ts o = Val vd -> vd_reachable o vd
| vd_calc ts cur d vd vd' :
    vd_reachable o vd -> CalcNextDiff ts cur vd = Val (d, vd') -> vd_reachable o vd'.

Lemma CalcNextDiff_state ts cur vd d vd' :
  CalcNextDiff ts cur vd = Val (d, vd') ->
  vd_Options vd' = vd_Options vd /\ (ring_ok (TimeBuffer vd) -> ring_ok (TimeBuffer vd')).
Proof.
  unfold CalcNextDiff. destruct (LastRtc vd =? 0); [by intros [= <- <-]|].
  set (since := i64 _). destruct (Append since (TimeBuffer vd)) as [rb|] eqn:EA; cbn [rbind]; [|done].
  assert (ring_ok (TimeBuffer vd) -> ring_ok rb) as Hr.
  { intros Hr. destruct (Append_ok since _ Hr) as (rb' & E & Hr'). congruence. }
  destruct (_ && _); [by intros [= <- <-]|].
  destruct (retarget_factor _ _ _); intros [= <- <-]; (split; [done|]); [|done].
  intros Hok. split; [apply Hr, Hok|done].
Qed.

Lemma vd_reachable_ok o vd : vd_reachable o vd -> vd_Options vd = o /\ ring_ok (TimeBuffer vd).
Proof.
  induction 1 as [ts vd E|ts cur d vd vd' _ [IHo IHr] E].
  - unfold NewVarDiff in E. destruct (quot64 _ _) as [q|]; [|done]. injection E as <-. split; [done|].
    split; [|done]. cbn. unfold wraps. pose proof (Z.mod_pos_bound (q * 4 + 2 ^ (64 - 1)) (2 ^ 64)). lia.
  - apply CalcNextDiff_state in E as [-> Hr]. auto.
Qed.

Lemma fmul_comm x y : fmul x y = fmul y x.
Proof.
  destruct x as [s1|s1| |s1 m1 e1], y as [s2|s2| |s2 m2 e2]; cbn [fmul SFmul]; unfold fmul, SFmul; f_equal;
    try apply xorb_comm; [f_equal; apply Pos.mul_comm|apply Z.add_comm].
Qed.

Lemma retarget_in_range vd avg cur ddiff :
  x2_options (vd_Options vd) = true -> in_range (vd_Options vd) cur ->
  retarget_factor vd avg cur = Some ddiff -> in_range (vd_Options vd) (fmul cur ddiff).
Proof.
  intros Ho Hc. pose proof (in_range_wide _ _ Ho Hc) as [Cl Cu]. destruct Hc as (Hcn & Cmin & Cmax).
  unfold x2_options in Ho. zbool.
  repeat match goal with D : diff_ok _ = true |- _ => apply diff_ok_spec in D as (? & ? & ?) end.
  match goal with F : fleb _ _ = true |- _ => apply fleb_spec in F; [|done|done]; rename F into Hmm end.
  pose proof slack_small as Hs. pose proof (b2_pos (-400)). pose proof (b2_pos (-401)).
  set (Mi := F2R (v_MinDiff (vd_Options vd))) in *. set (Ma := F2R (v_MaxDiff (vd_Options vd))) in *.
  assert (0 <= Mi * slack)%R by (apply Rmult_le_pos; lra).
  assert (0 <= Ma * slack)%R by (apply Rmult_le_pos; lra).
  assert (Mi * slack <= Ma * slack)%R by (apply Rmult_le_compat_r; lra).
  assert ((Ma - Mi) * slack <= (Ma - Mi) * / 4)%R by (apply Rmult_le_compat_l; lra).
  unfold retarget_factor. replace (v_X2Mode (vd_Options vd)) with true. cbv beta iota zeta.
  assert (nonneg fhalf /\ F2R fhalf = b2 (-1)) as [Hh Eh].
  { split; [by vm_compute|]. change fhalf with (S754_finite false 4503599627370496 (-53)). cbn [F2R].
    change (Zpos 4503599627370496) with (2 ^ 52). rewrite <- b2_IZR by lia. by rewrite <- b2_add. }
  assert (nonneg ftwo /\ F2R ftwo = b2 1) as [Ht Et].
  { unfold ftwo. destruct (float_of_Z_exact 2 ltac:(lia)) as [? ->]. split; [done|]. by rewrite b2_IZR. }
  pose proof (fmul_pow2 (-1) cur fhalf ltac:(lia) Hcn Hh Cl Cu Eh) as [Hhn Eh2].
  pose proof (fmul_pow2 1 cur ftwo ltac:(lia) Hcn Ht Cl Cu Et) as [Htn Et2].
  assert (Eb1 : b2 (-1) = (/ 2)%R) by b2_small. assert (Eb2 : b2 1 = 2%R) by b2_small.
  rewrite Eb1 in *. rewrite Eb2 in *.
  destruct (fltb (MaxTargetTime vd) avg && fltb (v_MinDiff (vd_Options vd)) cur) eqn:Eslow.
  - intros E%(inj Some). subst ddiff. zbool.
    match goal with F : fltb (v_MinDiff _) cur = true |- _ => apply fltb_spec in F; [|done|done]; rename F into Hgt end.
    fold Mi in Hgt.
    destruct (fltb (fmul fhalf cur) _) eqn:Ec.
    + destruct (rescale (v_MinDiff (vd_Options vd)) cur) as (Rn & R1 & R2); [done|done|done|done|].
      fold Mi in R1, R2. split; [done|]. fold Mi Ma. lra.
    + apply fltb_false in Ec; [|rewrite fmul_comm; done|done]. rewrite fmul_comm in Ec. fold Mi in Ec.
      split; [done|]. fold Mi Ma. rewrite Eh2 in *. lra.
  - destruct (fltb avg (MinTargetTime vd)); [|done]. intros E%(inj Some). subst ddiff.
    destruct (fltb (v_MaxDiff _) (fmul ftwo cur)) eqn:Ec.
    + destruct (rescale (v_MaxDiff (vd_Options vd)) cur) as (Rn & R1 & R2); [done|done|done|done|].
      fold Ma in R1, R2. split; [done|]. fold Mi Ma. lra.
    + apply fltb_false in Ec; [|done|rewrite fmul_comm; done]. rewrite fmul_comm in Ec. fold Ma in Ec.
      split; [done|]. fold Mi Ma. rewrite Et2 in *. lra.
Qed.

(** In x2 mode retargeting never fails and keeps a client's difficulty
    between the configured minimum and maximum, up to the rounding of the last
    clamp (a relative 2^-51), whatever the timing of its shares. *)
Theorem x2_retarget_in_range (o : VarDiffOptions) (vd : VarDiff) (timestamp : Z) (cur : float64) :
  x2_options o = true -> vd_reachable o vd -> in_range o cur ->
  exists d vd', CalcNextDiff timestamp cur vd = Val (d, vd') /\ (d = fzero \/ in_range o d).
Proof.
  intros Ho Hvd Hc. apply vd_reachable_ok in Hvd as [<- Hr]. unfold CalcNextDiff.
  destruct (LastRtc vd =? 0); [by eauto|].
  set (since := i64 _). destruct (Append_ok since _ Hr) as (rb & -> & _). cbn [rbind].
  destruct (_ && _); [by eauto|].
  destruct (retarget_factor vd (Avg rb) cur) as [ddiff|] eqn:E; [|by eauto 6].
  pose proof (retarget_in_range vd _ cur ddiff Ho Hc E) as Hd.
  do 2 eexists. split; [reflexivity|]. right.
  pose proof (in_range_wide _ _ Ho Hd) as [L _]. pose proof (b2_pos (-401)) as B.
  destruct (fleb (fmul cur ddiff) fzero) eqn:Ez; [|done].
  apply fleb_spec in Ez; [cbn [F2R fzero] in Ez; lra|apply Hd|done].
Qed.

Definition sample_options (x2 : bool) : VarDiffOptions :=
  mkVarDiffOptions (float_of_Z 8) (float_of_Z 512) 15 60 (float_const 3 10) x2.

(** The difficulties along a run of shares submitted at the given times, a
    retarget replacing the difficulty of the next share. *)
Fixpoint run_shares (times : list Z) (cur : float64) (vd : VarDiff) : result (list float64) :=
  match times with
  | [] => Val []
  | t :: times' =>
      let! r := CalcNextDiff t cur vd in
      let cur' := if feqb (fst r) fzero then cur else fst r in
      let! rest := run_shares times' cur' (snd r) in
      Val (cur' :: rest)
  end.

Definition sample_vd : VarDiff := get (mkVarDiff (sample_options true) 0 fzero fzero (NewRingBuffer 0) 0 0)
  (NewVarDiff 1000 (sample_options true)).
Lemma x2_retarget_in_range_witness :
  exists d vd', CalcNextDiff 1060 (float_of_Z 32) sample_vd = Val (d, vd') /\
    (d = fzero \/ in_range (sample_options true) d).
Proof.
  apply (x2_retarget_in_range (sample_options true)); [reflexivity| |].
  - apply (vd_new _ 1000). reflexivity.
  - unfold in_range. cbn [sample_options v_MinDiff v_MaxDiff].
    destruct (float_of_Z_exact 8 ltac:(lia)) as [_ ->].
    destruct (float_of_Z_exact 32 ltac:(lia)) as [H32 ->].
    destruct (float_of_Z_exact 512 ltac:(lia)) as [_ ->].
    pose proof slack_small. split; [exact H32|lra].
Defined.

(** Outside x2 mode the retarget divides a duration in nanoseconds by an
    average in seconds: a miner that sends a share every 30 seconds where one
    every 15 seconds is wanted gets its difficulty multiplied by 5 * 10^8
    instead of halved, past the configured maximum of 512; in x2 mode the same
    miner's difficulty is halved. *)
Theorem slow_miner_difficulty_raised :
  (let! vd := NewVarDiff 1000 (sample_options false) in
   run_shares [1030; 1060] (float_of_Z 32) vd) = Val [float_of_Z 16000000000; float_of_Z 16000000000] /\
  (let! vd := NewVarDiff 1000 (sample_options true) in
   run_shares [1030; 1060] (float_of_Z 32) vd) = Val [float_of_Z 16; float_of_Z 16].
Proof. split; vm_compute; reflexivity. Qed.
