(* ===== verification/Bans.v ===== *)
(** * Bans: src/bans/banning.go and src/stratum/shares.go

    The list of banned addresses and the per-connection share counters that
    feed it.  Instants are nanoseconds of the monotonic clock. *)
From Stdlib Require Import ZArith Lia List Strings.String Floats.SpecFloat.
From stdpp Require Import base list strings gmap.
From S2P Require Import Prelude Float Config.
Local Open Scope Z_scope.

(** ** Shares *)
Record Shares := mkShares { sh_Valid : Z; sh_Invalid : Z }.
Definition TotalShares (s : Shares) : Z := u64 (sh_Valid s + sh_Invalid s).
Definition BadPercent (s : Shares) : float64 :=
  fdiv (float_of_Z (u64 (sh_Invalid s * 100))) (float_of_Z (TotalShares s)).
Definition Reset (s : Shares) : Shares := mkShares 0 0.

(** ** BanningManager *)
Record BanningManager := mkBans {
  bm_Options : BanningOptions;
  BannedIPList : gmap string Z;
}.
Definition NewBanningManager (options : BanningOptions) : BanningManager := mkBans options ∅.

(** [time.Since]: a difference that does not fit a duration saturates. *)
Definition duration_between (now t : Z) : Z := Z.max (- 2 ^ 63) (Z.min (2 ^ 63 - 1) (now - t)).
Definition ban_time (bm : BanningManager) : Z := i64 (b_Time (bm_Options bm) * 1000000000).

(** One tick of the purging loop of [Init]. *)
Definition purge (now : Z) (bm : BanningManager) : BanningManager :=
  mkBans (bm_Options bm)
    (filter (fun p => duration_between now (snd p) <= ban_time bm) (BannedIPList bm)).

Definition CheckBan (now : Z) (strRemoteAddr : string) (bm : BanningManager) : bool * BanningManager :=
  match BannedIPList bm !! strRemoteAddr with
  | Some bannedTime =>
      let timeLeft := i64 (ban_time bm - duration_between now bannedTime) in
      if 0 <? timeLeft then (true, bm)
      else (false, mkBans (bm_Options bm) (delete strRemoteAddr (BannedIPList bm)))
  | None => (false, bm)
  end.

Definition AddBannedIP (now : Z) (strRemoteAddr : string) (bm : BanningManager) : BanningManager :=
  mkBans (bm_Options bm) (<[strRemoteAddr := now]> (BannedIPList bm)).

(** ** Lemmas *)

(** A ban length that does not overflow, of an instant in range. *)
Definition bans_ok (bm : BanningManager) : bool :=
  (0 <=? b_Time (bm_Options bm)) && (b_Time (bm_Options bm) <=? 9000000000).

Lemma ban_time_ok bm : bans_ok bm = true -> ban_time bm = b_Time (bm_Options bm) * 1000000000.
Proof.
  intros H. unfold bans_ok in H. zbool. apply wraps_small; lia.
Qed.

Lemma time_left bm now t :
  bans_ok bm = true -> t <= now ->
  (0 <? i64 (ban_time bm - duration_between now t)) = (now - t <? ban_time bm).
Proof.
  intros H Hle. pose proof (ban_time_ok bm H) as E. unfold bans_ok in H. zbool. unfold duration_between.
  rewrite wraps_small by lia. destruct (Z.ltb_spec (now - t) (ban_time bm)); [apply Z.ltb_lt|apply Z.ltb_ge]; lia.
Qed.

Lemma CheckBan_lookup now a bm :
  bans_ok bm = true -> (forall t, BannedIPList bm !! a = Some t -> t <= now) ->
  fst (CheckBan now a bm) =
    match BannedIPList bm !! a with Some t => now - t <? ban_time bm | None => false end.
Proof.
  intros H Hle. unfold CheckBan. destruct (BannedIPList bm !! a) as [t|] eqn:E; [|done].
  rewrite time_left by eauto. by destruct (_ <? _).
Qed.

(** C40: the purging goroutine is invisible: for every address, the answer of
    [CheckBan] at or after a purge is the one it gives without the purge, and an
    address just banned is reported banned exactly until the ban time has
    passed, whatever purges run in between. *)
Theorem CheckBan_purge (t0 t1 t2 : Z) (a b : string) (bm : BanningManager) :
  bans_ok bm = true -> t0 <= t1 -> t1 <= t2 ->
  map_Forall (fun _ t => t <= t1) (BannedIPList bm) ->
  fst (CheckBan t2 a (purge t1 bm)) = fst (CheckBan t2 a bm) /\
  fst (CheckBan t2 b (purge t1 (AddBannedIP t0 b bm)))
    = (t2 - t0 <? b_Time (bm_Options bm) * 1000000000).
Proof.
  intros H H01 H12 Hall. rewrite <- ban_time_ok by done.
  assert (Hp : forall c bm', bm_Options bm' = bm_Options bm ->
            map_Forall (fun _ t => t <= t1) (BannedIPList bm') ->
            fst (CheckBan t2 c (purge t1 bm')) = fst (CheckBan t2 c bm')).
  { intros c bm' Ho Hb.
    assert (bans_ok bm' = true) as H' by (unfold bans_ok in *; by rewrite Ho).
    rewrite (CheckBan_lookup t2 c bm'); [|done|intros t Ht; specialize (Hb _ _ Ht); cbn in Hb; lia].
    rewrite CheckBan_lookup; [|done|intros t Ht; apply map_lookup_filter_Some in Ht as [Ht _];
      specialize (Hb _ _ Ht); cbn in Hb; lia].
    change (ban_time (purge t1 bm')) with (ban_time bm'). cbn [purge BannedIPList].
    destruct (BannedIPList bm' !! c) as [t|] eqn:E.
    - destruct (decide (duration_between t1 t <= ban_time bm')) as [L|L].
      + rewrite (map_lookup_filter_Some_2 _ _ c t); [done|done|exact L].
      + rewrite map_lookup_filter_None_2; [|right; intros x Hx; rewrite E in Hx; injection Hx as <-; exact L].
        symmetry. apply Z.ltb_ge. unfold duration_between in L. specialize (Hb _ _ E). cbn in Hb. lia.
    - by rewrite map_lookup_filter_None_2; [|left]. }
  split; [by apply Hp|]. rewrite Hp; [|done|].
  - rewrite CheckBan_lookup; [|done|]; cbn [AddBannedIP BannedIPList].
    + by rewrite lookup_insert_eq.
    + intros t. rewrite lookup_insert_eq. intros [= <-]. lia.
  - apply map_Forall_insert_2; [done|done].
Qed.

Definition sample_bans : BanningManager :=
  AddBannedIP 5 "10.0.0.1:99" (NewBanningManager (mkBanningOptions 600 (float_of_Z 50) 500 300)).
Lemma CheckBan_purge_witness :
  fst (CheckBan 20 "10.0.0.1:99" (purge 10 sample_bans)) = fst (CheckBan 20 "10.0.0.1:99" sample_bans) /\
  fst (CheckBan 20 "10.0.0.2:99" (purge 10 (AddBannedIP 7 "10.0.0.2:99" sample_bans)))
    = (20 - 7 <? b_Time (bm_Options sample_bans) * 1000000000).
Proof.
  apply CheckBan_purge; [reflexivity|lia|lia|].
  apply map_Forall_insert_2; [lia|apply map_Forall_empty].
Defined.
