(* ===== verification/Engine.v ===== *)
(** * Engine: src/engine/engine.go

    The seam for coins whose mining model is not getblocktemplate: the session a
    connection shows to an engine, the engine interface, with the optional
    capabilities src/stratum/engine.go asks for by type assertion, and the
    registry of engines.  An engine is an object: operations over a hidden
    state, which they may change. *)
From Stdlib Require Import ZArith Lia List Strings.String.
From stdpp Require Import base list strings gmap.
From S2P Require Import Prelude Bytes Float Types.
Local Open Scope Z_scope.

(** The getters of [Session]; engines only read through it. *)
Record Session := mkSession {
  ExtraNonce1 : option bytes;
  SessionDifficulty : float64;
  SessionWorkerName : string;
  SessionRemoteAddr : string;
}.

(** A parameter of a message: a JSON value or a float64 that [json.Marshal]
    renders. *)
Inductive out := OJson (j : json) | OFloat (f : float64).

(** [None] for the result of a capability is a nil slice; a capability the
    engine does not implement is [None] itself.  The target arithmetic panics
    on a NaN difficulty. *)
Record EngineOps (S : Type) := mkOps {
  Name : string;
  OnSubscribe : Session -> list json -> S -> result ((json * option bytes * Z) * S);
  JobNotification : bool -> S -> result ((string * option (list json)) * S);
  OnSubmit : Session -> list json -> S -> result (Share * S);
  JobParamsForDifficulty : option (float64 -> S -> result (option (list json)));
  NotifyMethod : option string;
  TargetParams : option (float64 -> result (string * list out));
  ObjectParams : option bool;
}.
Arguments Name {S}.
Arguments OnSubscribe {S}.
Arguments JobNotification {S}.
Arguments OnSubmit {S}.
Arguments JobParamsForDifficulty {S}.
Arguments NotifyMethod {S}.
Arguments TargetParams {S}.
Arguments ObjectParams {S}.

Record Engine := mkEngine {
  eng_state : Type;
  eng_self : eng_state;
  eng_ops : EngineOps eng_state;
}.
Definition with_self (e : Engine) (s : eng_state e) : Engine := mkEngine (eng_state e) s (eng_ops e).

(** ** The registry *)
Section Registry.
Context {F : Type}.
Definition Register (name : string) (f : F) (registry : gmap string F) : gmap string F :=
  <[name := f]> registry.
(** The factory, which the source then calls. *)
Definition Get (name : string) (registry : gmap string F) : option F := registry !! name.
Definition Registered (registry : gmap string F) : list string := map fst (map_to_list registry).

Lemma Get_Register n m f r :
  Get m (Register n f r) = if decide (m = n) then Some f else Get m r.
Proof.
  unfold Get, Register. destruct (decide (m = n)) as [->|]; [by rewrite lookup_insert_eq|by rewrite lookup_insert_ne].
Qed.
Lemma Registered_Get n r : n ∈ Registered r <-> is_Some (Get n r).
Proof.
  unfold Registered, Get. rewrite list_elem_of_fmap. split.
  - intros ([k f] & -> & Hin). exists f. by apply elem_of_map_to_list in Hin.
  - intros [f Hf]. exists (n, f). split; [done|]. by apply elem_of_map_to_list.
Qed.
End Registry.
