(* ===== verification/Transactions.v ===== *)
(** * Transactions: src/transactions/transactions.go

    The coinbase transaction in its two halves around the extranonces.  The
    specification is a reader of serialised transaction outputs; the theorems
    say what that reader finds in the outputs the pool builds. *)
From Stdlib Require Import ZArith Lia List Strings.String Strings.Byte Floats.SpecFloat.
From stdpp Require Import base list strings.
From S2P Require Import Prelude Bytes Float Strconv Utils Types Config.
Import ListNotations.
Local Open Scope Z_scope.
Local Open Scope go_scope.

Section Coinbase.
Context `{AddressCodec} `{Platform}.

(** Value, script length and script of one output. *)
Definition output_bytes (value : Z) (script : bytes) : bytes :=
  PackUint64LE value ++ VarIntBytes (u64 (blen script)) ++ script.

(** The variables [reward], [rewardToPool] and [txOutputBuffers]. *)
Record outputs := Outs { reward : Z; rewardToPool : Z; txOutputBuffers : list bytes }.

Definition payee_script (p : PayeeParams) : result bytes :=
  if 0 <? slen (p_Script p) then Val (fst (hex_decode (p_Script p)))
  else P2PKHAddressToScript FastBase58Decoding (p_Payee p).

(** A masternode output is written with a big-endian value and without its
    script, unlike every other output. *)
Definition add_masternode (o : outputs) (p : PayeeParams) : result outputs :=
  let payeeReward := p_Amount p in
  let! payeeScript := payee_script p in
  Val {| reward := u64 (reward o - payeeReward);
         rewardToPool := u64 (rewardToPool o - payeeReward);
         txOutputBuffers := txOutputBuffers o ++
           [PackUint64BE payeeReward ++ VarIntBytes (u64 (blen payeeScript))] |}.

Definition add_superblock (o : outputs) (p : PayeeParams) : result outputs :=
  let payeeReward := p_Amount p in
  let! payeeScript := payee_script p in
  Val {| reward := u64 (reward o - payeeReward);
         rewardToPool := u64 (rewardToPool o - payeeReward);
         txOutputBuffers := txOutputBuffers o ++ [output_bytes payeeReward payeeScript] |}.

Definition add_payee (rpcData : GetBlockTemplate) (o : outputs) : result outputs :=
  if iface_nil (g_Payee rpcData) then Val o
  else
    let! payeeReward :=
      (if iface_nil (g_PayeeAmount rpcData)
       then Val (uint64_of_float (fceil (fdiv (float_of_Z (reward o)) (float_of_Z 5))))
       else as_uint64 (g_PayeeAmount rpcData)) in
    let! payee := as_string (g_Payee rpcData) in
    let! payeeScript := P2PKHAddressToScript FastBase58Decoding payee in
    Val {| reward := u64 (reward o - payeeReward);
           rewardToPool := u64 (rewardToPool o - payeeReward);
           txOutputBuffers := txOutputBuffers o ++ [output_bytes payeeReward payeeScript] |}.

Definition add_recipient (o : outputs) (r : Recipient) : result outputs :=
  let! script := recipient_script r in
  let recipientReward := uint64_of_float (ffloor (fmul (r_Percent r) (float_of_Z (reward o)))) in
  Val {| reward := reward o;
         rewardToPool := u64 (rewardToPool o - recipientReward);
         txOutputBuffers := txOutputBuffers o ++ [output_bytes recipientReward script] |}.

Fixpoint rfold {A B} (f : A -> B -> result A) (l : list B) (a : A) : result A :=
  match l with
  | [] => Val a
  | x :: l' => let! a' := f a x in rfold f l' a'
  end.

Definition GenerateOutputTransactions (poolRecipient : bytes) (recipients : list Recipient)
    (rpcData : GetBlockTemplate) : result bytes :=
  let o := {| reward := g_CoinbaseValue rpcData; rewardToPool := g_CoinbaseValue rpcData;
              txOutputBuffers := [] |} in
  let! o := rfold add_masternode (g_Masternode rpcData) o in
  let! o := rfold add_superblock (g_Superblock rpcData) o in
  let! o := add_payee rpcData o in
  let! o := rfold add_recipient recipients o in
  let bufs := output_bytes (rewardToPool o) poolRecipient :: txOutputBuffers o in
  let bufs :=
    if String.eqb (g_DefaultWitnessCommitment rpcData) EmptyString then bufs
    else output_bytes 0 (fst (hex_decode (g_DefaultWitnessCommitment rpcData))) :: bufs in
  Val (VarIntBytes (u64 (Z.of_nat (length bufs))) ++ concat bufs).

(** [now] is [time.Now().Unix()]. *)
Definition CreateGeneration (now : Z) (rpcData : GetBlockTemplate)
    (publicKey extraNoncePlaceholder : bytes) (reward : string) (txMessages : bool)
    (recipients : list Recipient) : result (bytes * bytes) :=
  let txVersion := if txMessages then 2 else 1 in
  let txComment := if txMessages then SerializeString "by Command" else [] in
  let txLockTime := 0 in
  let payload := negb (String.eqb (g_CoinbasePayload rpcData) EmptyString) in
  let txVersion := if payload then 3 else txVersion in
  let txType := if payload then 5 else 0 in
  let txExtraPayload := if payload then fst (hex_decode (g_CoinbasePayload rpcData)) else [] in
  let txVersion := txVersion + Z.shiftl txType 16 in
  let txInPrevOutIndex := 2 ^ 32 - 1 in
  let txInSequence := 0 in
  let txTimestamp := if String.eqb reward "POS" then PackUint32LE (g_CurTime rpcData) else [] in
  let bCoinbaseAuxFlags := fst (hex_decode (g_CoinbaseAuxFlags rpcData)) in
  let! height := SerializeNumber (u64 (g_Height rpcData)) in
  let! time := SerializeNumber (u64 now) in
  let scriptSigPart1 :=
    height ++ bCoinbaseAuxFlags ++ time ++ [byte_of_Z (blen extraNoncePlaceholder)] in
  let scriptSigPart2 := SerializeString "/by Command/" in
  let p1 :=
    PackUint32LE (u32 txVersion) ++ txTimestamp
    ++ VarIntBytes 1
    ++ Uint256BytesFromHash EmptyString
    ++ PackUint32LE (u32 txInPrevOutIndex)
    ++ VarIntBytes (u64 (blen scriptSigPart1 + blen extraNoncePlaceholder + blen scriptSigPart2))
    ++ scriptSigPart1 in
  let! outputTransactions := GenerateOutputTransactions publicKey recipients rpcData in
  let p2 :=
    scriptSigPart2
    ++ PackUint32LE (u32 txInSequence)
    ++ outputTransactions
    ++ PackUint32LE (u32 txLockTime)
    ++ txComment in
  let p2 :=
    if 0 <? blen txExtraPayload
    then p2 ++ VarIntBytes (u64 (blen txExtraPayload)) ++ txExtraPayload else p2 in
  Val (p1, p2).
End Coinbase.

(** ** Specification: reading a transaction *)
Definition read_exact (n : nat) (b : bytes) : option (bytes * bytes) :=
  if (length b <? n)%nat then None else Some (take n b, drop n b).

(** A byte string with its CompactSize length in front. *)
Definition read_var_bytes (b : bytes) : option (bytes * bytes) :=
  '(n, b) ← read_compact b; read_exact (Z.to_nat n) b.

Definition output : Type := Z * bytes.

Definition read_output (b : bytes) : option (output * bytes) :=
  '(v, b) ← read_exact 8 b;
  '(script, b) ← read_var_bytes b;
  Some ((le_value v, script), b).

Fixpoint read_n_outputs (n : nat) (b : bytes) : option (list output * bytes) :=
  match n with
  | O => Some ([], b)
  | S n' =>
      '(o, b) ← read_output b;
      '(os, b) ← read_n_outputs n' b;
      Some (o :: os, b)
  end.

Definition read_outputs (b : bytes) : option (list output * bytes) :=
  '(n, b) ← read_compact b; read_n_outputs (Z.to_nat n) b.

(** A one-input transaction. *)
Record coinbase_tx := mkCoinbaseTx {
  tx_version : Z; tx_prevhash : bytes; tx_previndex : Z; tx_script : bytes;
  tx_sequence : Z; tx_outputs : list output; tx_locktime : Z; tx_extra : bytes
}.
Definition read_coinbase (b : bytes) : option coinbase_tx :=
  '(version, b) ← read_exact 4 b;
  '(inputs, b) ← read_compact b;
  if negb (inputs =? 1) then None
  else
    '(prevhash, b) ← read_exact 32 b;
    '(previndex, b) ← read_exact 4 b;
    '(script, b) ← read_var_bytes b;
    '(sequence, b) ← read_exact 4 b;
    '(outs, b) ← read_outputs b;
    '(locktime, b) ← read_exact 4 b;
    Some (mkCoinbaseTx (le_value version) prevhash (le_value previndex) script
            (le_value sequence) outs (le_value locktime) b).

Lemma read_exact_app a b : read_exact (length a) (a ++ b) = Some (a, b).
Proof.
  unfold read_exact. destruct (Nat.ltb_spec (length (a ++ b)) (length a)) as [H|H].
  - rewrite length_app in H. lia.
  - by rewrite take_app_length, drop_app_length.
Qed.

Lemma read_exact_le n z b : read_exact n (le_bytes n z ++ b) = Some (le_bytes n z, b).
Proof. rewrite <- (le_bytes_length n z) at 1. apply read_exact_app. Qed.

Lemma read_var_bytes_app s b :
  blen s < 2 ^ 64 -> read_var_bytes (VarIntBytes (u64 (blen s)) ++ s ++ b) = Some (s, b).
Proof.
  intros H. assert (0 <= blen s) by (unfold blen; lia).
  unfold read_var_bytes. rewrite wrapu_small by lia. rewrite read_compact_VarInt_aux by lia.
  cbn [mbind option_bind]. unfold blen. rewrite Nat2Z.id. apply read_exact_app.
Qed.

Definition output_ok (o : output) : Prop := 0 <= fst o < 2 ^ 64 /\ blen (snd o) < 2 ^ 64.
Definition write_output (o : output) : bytes := output_bytes (fst o) (snd o).

Lemma read_output_app o b : output_ok o -> read_output (write_output o ++ b) = Some (o, b).
Proof.
  intros [Hv Hs]. destruct o as [v s]. unfold read_output, write_output, output_bytes, PackUint64LE.
  cbn [fst snd] in *. rewrite <- !app_assoc, read_exact_le. cbn [mbind option_bind].
  rewrite read_var_bytes_app by done. cbn [mbind option_bind].
  by rewrite le_value_bytes, Z.mod_small by (change (256 ^ Z.of_nat 8) with (2 ^ 64); lia).
Qed.

Lemma read_n_outputs_app os b :
  Forall output_ok os ->
  read_n_outputs (length os) (concat (map write_output os) ++ b) = Some (os, b).
Proof.
  induction 1 as [|o os Ho Hos IH]; [done|].
  cbn [length read_n_outputs map concat]. rewrite <- app_assoc, read_output_app by done.
  cbn [mbind option_bind]. by rewrite IH.
Qed.

Lemma read_outputs_app os b :
  Forall output_ok os -> Z.of_nat (length os) < 2 ^ 64 ->
  read_outputs (VarIntBytes (u64 (Z.of_nat (length os))) ++ concat (map write_output os) ++ b)
  = Some (os, b).
Proof.
  intros Ho Hl. unfold read_outputs. rewrite wrapu_small, read_compact_VarInt_aux by lia.
  cbn [mbind option_bind]. rewrite Nat2Z.id. by apply read_n_outputs_app.
Qed.

(** ** What the builder writes *)
Definition total (os : list output) : Z := fold_right (fun o t => fst o + t) 0 os.

Lemma total_app a b : total (a ++ b) = total a + total b.
Proof. induction a as [|o a IH]; simpl; lia. Qed.

Lemma total_cons v s os : total ((v, s) :: os) = v + total os.
Proof. reflexivity. Qed.

Lemma total_nonneg os : Forall (fun x => 0 <= fst x < 2 ^ 64) os -> 0 <= total os.
Proof.
  induction 1 as [|[v s] os Hx Hos IH]; [done|]. rewrite total_cons. cbn [fst] in Hx. lia.
Qed.

(** The accumulator's buffers are outputs whose values the coinbase value has
    been reduced by. *)
Definition outputs_inv (cb : Z) (o : outputs) (os : list output) : Prop :=
  txOutputBuffers o = map write_output os /\
  rewardToPool o = u64 (cb - total os) /\
  Forall (fun x => 0 <= fst x < 2 ^ 64) os.

Lemma outputs_inv_snoc cb o os r' v s :
  outputs_inv cb o os -> 0 <= v < 2 ^ 64 ->
  outputs_inv cb {| reward := r'; rewardToPool := u64 (rewardToPool o - v);
                    txOutputBuffers := txOutputBuffers o ++ [output_bytes v s] |}
              (os ++ [(v, s)]).
Proof.
  intros (Hb & Hr & Hf) Hv. split; [|split].
  - cbn. by rewrite Hb, map_app.
  - cbn. rewrite Hr, total_app. unfold wrapu. rewrite Zminus_mod_idemp_l.
    f_equal. simpl. lia.
  - apply Forall_app. split; [done|]. by constructor.
Qed.

Section Outputs.
Context `{AddressCodec} `{Platform}.

Lemma uint64_of_float_range x : 0 <= uint64_of_float x < 2 ^ 64.
Proof.
  unfold uint64_of_float. destruct (trunc_Z x) as [z|].
  - destruct (_ && _) eqn:E; [zbool; lia|]. apply wrapu_range. lia.
  - apply wrapu_range. lia.
Qed.

Lemma rfold_inv {A B} (f : A -> B -> result A) (P : B -> Prop) (I : A -> Prop) l a a' :
  (forall a x a', I a -> P x -> f a x = Val a' -> I a') ->
  Forall P l -> I a -> rfold f l a = Val a' -> I a'.
Proof.
  intros Hstep Hl. revert a; induction Hl as [|x l Hx Hl IH]; intros a Ha Hf; cbn in Hf.
  - by injection Hf as <-.
  - destruct (f a x) as [b|] eqn:E; [|done]. eapply IH; [|done]. by eapply Hstep.
Qed.

Lemma add_superblock_inv cb o os p o' :
  outputs_inv cb o os -> 0 <= p_Amount p < 2 ^ 64 -> add_superblock o p = Val o' ->
  exists x, outputs_inv cb o' (os ++ [x]).
Proof.
  intros Hi Hp. unfold add_superblock. destruct (payee_script p) as [s|]; cbn; [|done].
  intros [= <-]. exists (p_Amount p, s). by apply outputs_inv_snoc.
Qed.

Lemma add_recipient_inv cb o os r o' :
  outputs_inv cb o os -> add_recipient o r = Val o' -> exists x, outputs_inv cb o' (os ++ [x]).
Proof.
  intros Hi. unfold add_recipient. destruct (recipient_script r) as [s|]; cbn; [|done].
  intros [= <-]. eexists (_, s). apply outputs_inv_snoc; [done|]. apply uint64_of_float_range.
Qed.

Lemma add_payee_inv cb t o os o' :
  (forall n, g_PayeeAmount t = IUint64 n -> 0 <= n < 2 ^ 64) ->
  outputs_inv cb o os -> add_payee t o = Val o' -> exists ys, outputs_inv cb o' (os ++ ys).
Proof.
  intros Hn Hi. unfold add_payee. destruct (iface_nil (g_Payee t)).
  { intros [= <-]. exists []. by rewrite app_nil_r. }
  set (m := if iface_nil _ then _ else _).
  assert (forall n, m = Val n -> 0 <= n < 2 ^ 64) as Hm.
  { subst m. destruct (iface_nil (g_PayeeAmount t)).
    - intros n [= <-]. apply uint64_of_float_range.
    - intros n. destruct (g_PayeeAmount t); cbn; [done|]. intros [= <-]. by apply Hn. }
  destruct m as [v|]; cbn; [|done].
  destruct (as_string (g_Payee t)) as [p|]; cbn; [|done].
  destruct (P2PKHAddressToScript _ _) as [s|]; cbn; [|done].
  intros [= <-]. exists [(v, s)]. apply outputs_inv_snoc; [done|]. by apply Hm.
Qed.

(** The payee amounts of a template fit their Go type. *)
Definition payees_ok (t : GetBlockTemplate) : Prop :=
  template_ok t /\ (forall n, g_PayeeAmount t = IUint64 n -> 0 <= n < 2 ^ 64).

(** The outputs of a template without masternode payments: the witness
    commitment if there is one, the pool's output, then the others, and the
    pool gets what the others leave of the coinbase value. *)
Definition commitment (t : GetBlockTemplate) : list output :=
  if String.eqb (g_DefaultWitnessCommitment t) EmptyString then []
  else [(0, fst (hex_decode (g_DefaultWitnessCommitment t)))].

Lemma GenerateOutputTransactions_shape pool recipients t b :
  payees_ok t -> g_Masternode t = [] ->
  GenerateOutputTransactions pool recipients t = Val b ->
  exists others,
    let os := commitment t ++ (u64 (g_CoinbaseValue t - total others), pool) :: others in
    b = VarIntBytes (u64 (Z.of_nat (length os))) ++ concat (map write_output os) /\
    Forall (fun x => 0 <= fst x < 2 ^ 64) os.
Proof.
  intros [Ht Hpa] Hm. unfold GenerateOutputTransactions. rewrite Hm. cbn [rfold rbind].
  set (o0 := {| reward := _; rewardToPool := _; txOutputBuffers := _ |}).
  set (I o := exists os, outputs_inv (g_CoinbaseValue t) o os).
  destruct Ht as (_ & _ & _ & Hcb & _ & Hsb).
  assert (I o0) as I0.
  { exists []. split; [done|]. split; [|constructor]. cbn. by rewrite Z.sub_0_r, wrapu_small. }
  destruct (rfold add_superblock _ _) as [o1|] eqn:E1; cbn [rbind]; [|done].
  assert (I o1) as I1.
  { eapply rfold_inv; [|exact Hsb|exact I0|exact E1].
    intros a x a' [os Ha] Hx Hf. destruct (add_superblock_inv _ _ _ _ _ Ha Hx Hf) as [y Hy]. by eexists. }
  destruct (add_payee t o1) as [o2|] eqn:E2; cbn [rbind]; [|done].
  assert (I o2) as I2.
  { destruct I1 as [os Ha]. destruct (add_payee_inv _ _ _ _ _ Hpa Ha E2) as [y Hy]. by eexists. }
  destruct (rfold add_recipient _ _) as [o3|] eqn:E3; cbn [rbind]; [|done].
  assert (I o3) as [os (Hb & Hr & Hf)].
  { eapply rfold_inv; [|apply Forall_true; exact (fun _ => Logic.I)|exact I2|exact E3].
    intros a x a' [os Ha] _ Hf. destruct (add_recipient_inv _ _ _ _ _ Ha Hf) as [y Hy]. by eexists. }
  intros [= <-]. exists os. unfold commitment. rewrite Hb, Hr.
  pose proof (wrapu_range 64 (g_CoinbaseValue t - total os) ltac:(lia)).
  destruct (String.eqb _ _); cbn [app]; (split; [cbn [map concat length]; by rewrite ?length_map|]);
    repeat (constructor; [cbn; lia|]); done.
Qed.

Lemma script_le_concat o os : o ∈ os -> blen (snd o) <= blen (concat (map write_output os)).
Proof.
  unfold blen. induction os as [|x os IH]; [by intros ?%elem_of_nil|].
  cbn [map concat]. rewrite length_app. intros [<-|Ho]%elem_of_cons; [|specialize (IH Ho); lia].
  unfold write_output, output_bytes. rewrite !length_app. lia.
Qed.

Lemma shape_ok os b :
  b = VarIntBytes (u64 (Z.of_nat (length os))) ++ concat (map write_output os) ->
  Forall (fun x => 0 <= fst x < 2 ^ 64) os -> blen b < 2 ^ 64 -> Forall output_ok os /\
  Z.of_nat (length os) < 2 ^ 64.
Proof.
  intros -> Hf Hb.
  assert (blen (concat (map write_output os)) < 2 ^ 64) as Hc.
  { unfold blen in *. rewrite length_app in Hb. lia. }
  split.
  - apply Forall_forall. intros o Ho. rewrite Forall_forall in Hf. split; [by apply Hf|].
    pose proof (script_le_concat o os Ho). lia.
  - enough (Z.of_nat (length os) <= blen (concat (map write_output os))) by lia.
    unfold blen. clear. induction os as [|x os IH]; [done|]. cbn [map concat length].
    rewrite length_app. unfold write_output at 1, output_bytes, PackUint64LE.
    rewrite length_app, le_bytes_length. lia.
Qed.
End Outputs.

Section Coinbase_theorems.
Context `{AddressCodec} `{Platform}.

Lemma outputs_conserve_reward_aux pool recipients t b :
  payees_ok t -> g_Masternode t = [] ->
  GenerateOutputTransactions pool recipients t = Val b -> blen b < 2 ^ 64 ->
  exists others,
    let os := commitment t ++ (u64 (g_CoinbaseValue t - total others), pool) :: others in
    (forall rest, read_outputs (b ++ rest) = Some (os, rest)) /\
    total os mod 2 ^ 64 = g_CoinbaseValue t /\
    (total others <= g_CoinbaseValue t -> total os = g_CoinbaseValue t).
Proof.
  intros Ht Hm Hg Hb.
  destruct (GenerateOutputTransactions_shape pool recipients t b Ht Hm Hg) as (others & Hs & Hf).
  exists others. cbv zeta in *.
  set (os := commitment t ++ _) in *. split; [|split].
  - intros rest. destruct (shape_ok os b Hs Hf Hb) as [Ho Hl]. rewrite Hs, <- app_assoc.
    by apply read_outputs_app.
  - subst os. rewrite total_app, total_cons.
    assert (total (commitment t) = 0) as -> by (unfold commitment; by destruct (String.eqb _ _)).
    unfold wrapu.
    rewrite Z.add_0_l, Zplus_mod_idemp_l, Z.sub_add. apply Z.mod_small.
    destruct Ht as [(? & ? & ? & ? & ?) ?]. done.
  - intros Hle. subst os. rewrite total_app, total_cons.
    assert (total (commitment t) = 0) as -> by (unfold commitment; by destruct (String.eqb _ _)).
    assert (0 <= total others) as Hnn.
    { apply Forall_app in Hf as [_ Hf]. apply Forall_cons in Hf as [_ Hf]. by apply total_nonneg. }
    rewrite wrapu_small; [lia|]. destruct Ht as [(? & ? & ? & ? & ?) ?]. lia.
Qed.

Lemma read_compact_one b : read_compact (VarIntBytes 1 ++ b) = Some (1, b).
Proof. by apply read_compact_VarInt_aux. Qed.

Lemma read_var_bytes_app3 n x y z b :
  n = blen (x ++ y ++ z) -> n < 2 ^ 64 ->
  read_var_bytes (VarIntBytes (u64 n) ++ x ++ y ++ z ++ b) = Some (x ++ y ++ z, b).
Proof.
  intros -> H64. pose proof (read_var_bytes_app (x ++ y ++ z) b H64) as E.
  by rewrite <- !app_assoc in E.
Qed.

(** The halves around the extranonce form one well-formed transaction. *)
Lemma CreateGeneration_wf_aux now t pool placeholder reward msgs recipients p1 p2 extranonces :
  payees_ok t -> g_Masternode t = [] -> reward <> "POS"%string -> 0 < g_Height t ->
  CreateGeneration now t pool placeholder reward msgs recipients = Val (p1, p2) ->
  length extranonces = length placeholder ->
  blen p1 + blen extranonces + blen p2 < 2 ^ 64 ->
  exists tx script others,
    read_coinbase (p1 ++ extranonces ++ p2) = Some tx /\
    tx_prevhash tx = zeros 32 /\ tx_previndex tx = 2 ^ 32 - 1 /\ tx_sequence tx = 0 /\
    tx_locktime tx = 0 /\
    read_script_number (tx_script tx) = Some (g_Height t, script) /\
    (exists pre, tx_script tx = pre ++ extranonces ++ SerializeString "/by Command/") /\
    tx_outputs tx = commitment t ++ (u64 (g_CoinbaseValue t - total others), pool) :: others /\
    total (tx_outputs tx) mod 2 ^ 64 = g_CoinbaseValue t.
Proof.
  intros Ht Hm Hpos Hh Hc He Hlen. unfold CreateGeneration in Hc.
  apply String.eqb_neq in Hpos. rewrite Hpos in Hc.
  assert (g_Height t < 2 ^ 63) as Hh2 by (destruct Ht as [(? & ? & ? & ?) ?]; lia).
  rewrite (wrapu_small 64 (g_Height t)) in Hc by lia.
  pose proof (SerializeNumber_roundtrip_aux (g_Height t)) as RT.
  destruct (SerializeNumber (g_Height t)) as [h|] eqn:Eh; cbn [rbind] in Hc; [|done].
  destruct (SerializeNumber (u64 now)) as [tm|] eqn:Et; cbn [rbind] in Hc; [|done].
  destruct (GenerateOutputTransactions pool recipients t) as [ob|] eqn:Eo; cbn [rbind] in Hc; [|done].
  set (flags := fst (hex_decode (g_CoinbaseAuxFlags t))) in *.
  set (part1 := h ++ flags ++ tm ++ _) in *.
  set (part2 := SerializeString "/by Command/") in *.
  set (ver := u32 _) in Hc. set (cmt := if msgs then SerializeString _ else _) in Hc.
  set (extra := if negb (String.eqb (g_CoinbasePayload t) _) then _ else _) in Hc.
  apply Val_pair_inj in Hc as [<- <-].
  set (tail := cmt ++ (if 0 <? blen extra then VarIntBytes (u64 (blen extra)) ++ extra else [])).
  match goal with |- context [extranonces ++ ?x] =>
    assert (x = part2 ++ PackUint32LE (u32 0) ++ ob ++ PackUint32LE (u32 0) ++ tail) as E2 end.
  { subst tail. destruct (0 <? blen extra); [by rewrite <- !app_assoc|by rewrite app_nil_r]. }
  rewrite E2 in *. clear E2.
  assert (blen ob < 2 ^ 64) as Hob by (unfold blen in *; rewrite !length_app in Hlen; lia).
  destruct (outputs_conserve_reward_aux pool recipients t ob Ht Hm Eo Hob) as (others & Hr & Htot & _).
  cbv zeta in *. set (os := commitment t ++ _) in *.
  exists {| tx_version := le_value (PackUint32LE ver); tx_prevhash := zeros 32;
       tx_previndex := 2 ^ 32 - 1; tx_script := part1 ++ extranonces ++ part2; tx_sequence := 0;
       tx_outputs := os; tx_locktime := 0; tx_extra := tail |}.
  assert (blen part1 + blen placeholder + blen part2 = blen (part1 ++ extranonces ++ part2)) as El.
  { unfold blen. rewrite !length_app. lia. }
  assert (blen (part1 ++ extranonces ++ part2) < 2 ^ 64) as Hs64.
  { unfold blen in *. rewrite !length_app in *. lia. }
  specialize (RT (flags ++ (tm ++ [byte_of_Z (blen placeholder)]) ++ extranonces ++ part2) ltac:(lia)).
  destruct (Z.ltb_spec (g_Height t) (2 ^ 63)) as [_|]; [|lia].
  destruct RT as (h' & Eh' & Hread). apply Val_inj in Eh' as <-.
  eexists _, others. split; [|repeat split; try done].
  - unfold read_coinbase, PackUint32LE. rewrite app_nil_l, <- !app_assoc, read_exact_le.
    cbn [mbind option_bind]. rewrite read_compact_one. cbn [mbind option_bind].
    change (negb (1 =? 1)) with false. cbv iota.
    change (Uint256BytesFromHash EmptyString) with (zeros 32).
    change 32%nat with (length (zeros 32)) at 1. rewrite read_exact_app. cbn [mbind option_bind].
    rewrite read_exact_le. cbn [mbind option_bind]. rewrite El.
    rewrite read_var_bytes_app3 by done. cbn [mbind option_bind].
    rewrite read_exact_le. cbn [mbind option_bind]. rewrite Hr. cbn [mbind option_bind].
    rewrite read_exact_le. cbn [mbind option_bind]. by rewrite !le_value_bytes.
  - cbn [tx_script]. subst part1. rewrite <- !app_assoc in *. exact Hread.
  - exists part1. done.
Qed.
End Coinbase_theorems.

(** ** Properties *)

(** A template with a superblock payment, and a one-percent fee recipient. *)
Definition sample_script : string := "76a914000102030405060708090a0b0c0d0e0f1011121388ac".
Definition sample_template : GetBlockTemplate :=
  {| g_Version := 0x20000000; g_Bits := "1d00ffff"; g_CurTime := 1700000000; g_Height := 840000;
     g_PreviousBlockHash := "000000000000000000000000000000000000000000000000000000000000abcd";
     g_Transactions := []; g_CoinbaseAuxFlags := ""; g_CoinbaseValue := 625000000;
     g_DefaultWitnessCommitment := "6a24aa21a9ed"; g_Target := "ffff";
     g_Masternode := []; g_Superblock := [mkPayee "" sample_script 1000];
     g_CoinbasePayload := ""; g_Votes := []; g_MasternodePayments := IJson JNull;
     g_Payee := IJson JNull; g_PayeeAmount := IJson JNull |}.
Definition sample_recipients : list Recipient :=
  [mkRecipient sample_script "script" (float_const 1 100) None].
Definition sample_pool : bytes := fst (hex_decode sample_script).

Lemma sample_payees_ok : payees_ok sample_template.
Proof.
  split; [|by intros n]. repeat split; try (cbn; lia); [constructor|].
  constructor; [cbn; lia|constructor].
Qed.

(** C31: the outputs of a coinbase.  For a template without masternode payments (those
    are written wrongly, see [masternode_output_malformed]) whose value and payee
    amounts are 64-bit numbers, and outputs of less than 2^64 bytes: what the pool
    writes reads back, whatever follows, as exactly the witness commitment (if any),
    the pool's output and the others; their values add up to the template's coinbase
    value modulo 2^64, and exactly when the other outputs do not exceed it, so no
    satoshi of the reward is lost or created. *)
Theorem outputs_conserve_reward `{AddressCodec} `{Platform} pool recipients t b :
  payees_ok t -> g_Masternode t = [] ->
  GenerateOutputTransactions pool recipients t = Val b -> blen b < 2 ^ 64 ->
  exists others,
    let os := commitment t ++ (u64 (g_CoinbaseValue t - total others), pool) :: others in
    (forall rest, read_outputs (b ++ rest) = Some (os, rest)) /\
    total os mod 2 ^ 64 = g_CoinbaseValue t /\
    (total others <= g_CoinbaseValue t -> total os = g_CoinbaseValue t).
Proof. apply outputs_conserve_reward_aux. Qed.

Definition sample_outputs : bytes :=
  match @GenerateOutputTransactions hex_codec amd64 sample_pool sample_recipients sample_template with
  | Val b => b | Panic _ => [] end.
Lemma outputs_conserve_reward_witness :
  exists others,
    let os := commitment sample_template
              ++ (u64 (g_CoinbaseValue sample_template - total others), sample_pool) :: others in
    (forall rest, read_outputs (sample_outputs ++ rest) = Some (os, rest)) /\
    total os mod 2 ^ 64 = g_CoinbaseValue sample_template /\
    (total others <= g_CoinbaseValue sample_template -> total os = g_CoinbaseValue sample_template).
Proof.
  apply (@outputs_conserve_reward hex_codec amd64 sample_pool sample_recipients).
  - exact sample_payees_ok.
  - reflexivity.
  - vm_compute. reflexivity.
  - vm_compute. reflexivity.
Defined.

(** C30: the coinbase transaction.  Take a template of positive height without
    masternode payments (see [masternode_output_malformed]), whose value and payee
    amounts are 64-bit numbers, of a coin that is not rewarded by stake, and a
    coinbase of less than 2^64 bytes.  Around any extranonces of the placeholder's
    size the two halves form one well-formed transaction: null previous output; a
    script whose declared length is its actual length, which starts with the block
    height written the one way BIP 34 takes (an opcode up to 16, then a push of the
    fewest bytes with a clear sign bit), contains the extranonces and ends with the
    pool's tag; sequence and lock time 0; and outputs that add up to the coinbase
    value modulo 2^64. *)
Theorem CreateGeneration_wf `{AddressCodec} `{Platform}
    now t pool placeholder reward msgs recipients p1 p2 extranonces :
  payees_ok t -> g_Masternode t = [] -> reward <> "POS"%string -> 0 < g_Height t ->
  CreateGeneration now t pool placeholder reward msgs recipients = Val (p1, p2) ->
  length extranonces = length placeholder ->
  blen p1 + blen extranonces + blen p2 < 2 ^ 64 ->
  exists tx script others,
    read_coinbase (p1 ++ extranonces ++ p2) = Some tx /\
    tx_prevhash tx = zeros 32 /\ tx_previndex tx = 2 ^ 32 - 1 /\ tx_sequence tx = 0 /\
    tx_locktime tx = 0 /\
    read_script_number (tx_script tx) = Some (g_Height t, script) /\
    (exists pre, tx_script tx = pre ++ extranonces ++ SerializeString "/by Command/") /\
    tx_outputs tx = commitment t ++ (u64 (g_CoinbaseValue t - total others), pool) :: others /\
    total (tx_outputs tx) mod 2 ^ 64 = g_CoinbaseValue t.
Proof. apply CreateGeneration_wf_aux. Qed.

Definition sample_placeholder : bytes := fst (hex_decode "f000000ff111111f").
Definition sample_generation : bytes * bytes :=
  match @CreateGeneration hex_codec amd64 1700000000 sample_template sample_pool sample_placeholder
          "POW" true sample_recipients with
  | Val p => p | Panic _ => ([], []) end.
Lemma CreateGeneration_wf_witness :
  exists tx script others,
    read_coinbase (fst sample_generation ++ zeros 8 ++ snd sample_generation) = Some tx /\
    tx_prevhash tx = zeros 32 /\ tx_previndex tx = 2 ^ 32 - 1 /\ tx_sequence tx = 0 /\
    tx_locktime tx = 0 /\
    read_script_number (tx_script tx) = Some (g_Height sample_template, script) /\
    (exists pre, tx_script tx = pre ++ zeros 8 ++ SerializeString "/by Command/") /\
    tx_outputs tx = commitment sample_template
      ++ (u64 (g_CoinbaseValue sample_template - total others), sample_pool) :: others /\
    total (tx_outputs tx) mod 2 ^ 64 = g_CoinbaseValue sample_template.
Proof.
  apply (@CreateGeneration_wf hex_codec amd64 1700000000 sample_template sample_pool
           sample_placeholder "POW" true sample_recipients).
  - exact sample_payees_ok.
  - reflexivity.
  - discriminate.
  - vm_compute. reflexivity.
  - vm_compute. reflexivity.
  - reflexivity.
  - vm_compute. reflexivity.
Defined.

(** A Dash template with a masternode payment is serialised wrongly: the
    masternode's output has its value in big-endian order and no script, so the
    outputs the pool writes do not parse (the same payment written as a
    superblock payment does). *)
Theorem masternode_output_malformed :
  let t script := 
    {| g_Version := 1; g_Bits := ""; g_CurTime := 0; g_Height := 1; g_PreviousBlockHash := "";
       g_Transactions := []; g_CoinbaseAuxFlags := ""; g_CoinbaseValue := 1000;
       g_DefaultWitnessCommitment := ""; g_Target := "";
       g_Masternode := fst script; g_Superblock := snd script;
       g_CoinbasePayload := ""; g_Votes := []; g_MasternodePayments := IJson JNull;
       g_Payee := IJson JNull; g_PayeeAmount := IJson JNull |} in
  let payment := [mkPayee "" sample_script 400] in
  let parse t :=
    match @GenerateOutputTransactions hex_codec amd64 sample_pool [] t with
    | Val b => read_outputs b | Panic _ => None end in
  parse (t (payment, [])) = None /\
  parse (t ([], payment)) = Some ([(600, sample_pool); (400, sample_pool)], []).
Proof. vm_compute. split; reflexivity. Qed.
