(* ===== verification/Jobs.v ===== *)
(** * Jobs: src/jobs/job.go

    One job built from a block template: its target and difficulty, its merkle
    branch and coinbase halves, the serialisation of coinbase, header and block,
    the submission register and the parameters of [mining.notify]. *)
From Stdlib Require Import ZArith Lia List Strings.Ascii Strings.String Strings.Byte Floats.SpecFloat.
From stdpp Require Import base list strings.
From S2P Require Import Prelude Bytes Float Strconv Utils Merkle Types Config Algorithm Transactions.
Import ListNotations.
Local Open Scope Z_scope.
Local Open Scope go_scope.

(** [new(big.Int).SetString(s, 16)]: an optional sign and at least one digit. *)
Fixpoint parse_hex_digits (s : string) (n : Z) : option Z :=
  match s with
  | EmptyString => Some n
  | String c s' =>
      match digit_value c with
      | Some d => if 16 <=? d then None else parse_hex_digits s' (n * 16 + d)
      | None => None
      end
  end.
Definition SetString16 (s : string) : option Z :=
  let '(neg, t) := strip_sign s in
  match t with
  | EmptyString => None
  | _ => n ← parse_hex_digits t 0; Some (if neg then - n else n)
  end.

Record Job := mkJob {
  GetBlockTemplate_of : GetBlockTemplate;
  Submits : list string;
  GenerationTransaction : bytes * bytes;
  JobId : string;
  PrevHashReversed : string;
  MerkleBranch : list string;
  Target : Z;
  Difficulty : bigfloat;
  TransactionData : bytes;
  Reward : string;
  MerkleTree_of : MerkleTree;
}.

(** [copy(dst[pos:], ...)] is [copy_at]; [binary.BigEndian.PutUint32] needs four
    bytes of room. *)
Definition put_uint32_be (dst : bytes) (pos : nat) (v : Z) : result bytes :=
  if (length dst <? pos + 4)%nat then Panic "index out of range"
  else Val (take pos dst ++ be_bytes 4 v ++ drop (pos + 4) dst).

Section Job_operations.
Context `{AddressCodec} `{Platform}.

Definition tx_hash_bytes (tx : TxParams) : result bytes :=
  if negb (String.eqb (t_TxId tx) EmptyString) then Val (Uint256BytesFromHash (t_TxId tx))
  else if negb (String.eqb (t_Hash tx) EmptyString) then Val (Uint256BytesFromHash (t_Hash tx))
  else Panic "no hash or txid in transactions params".

Definition GetTransactionBytes (txs : list TxParams) : result (list bytes) :=
  let! txHashes := rmap tx_hash_bytes txs in Val ([] :: txHashes).

(** The template's target, or the one its compact bits encode; [SetInt] of a
    nil big.Int dereferences it. *)
Definition job_target (rpcData : GetBlockTemplate) : result Z :=
  if negb (String.eqb (g_Target rpcData) EmptyString) then
    match SetString16 (g_Target rpcData) with
    | Some t => Val t
    | None => Panic "nil pointer dereference"
    end
  else BigIntFromBitsHex (g_Bits rpcData).

Definition tx_data (tx : TxParams) : result bytes :=
  let '(data, ok) := hex_decode (t_Data tx) in
  if ok then Val data else Panic "failed to decode tx".

Definition NewJob (now : Z) (jobId : string) (rpcData : GetBlockTemplate)
    (poolAddressScript extraNoncePlaceholder : bytes) (reward : string) (txMessages : bool)
    (recipients : list Recipient) (coinbaseHasher : Hasher) : result Job :=
  let! bigTarget := job_target rpcData in
  let! bigDiff := Quo (SetInt MaxTargetTruncated) (SetInt bigTarget) in
  let! prevHash := ReverseByteOrder (fst (hex_decode (g_PreviousBlockHash rpcData))) in
  let! txsBytes := GetTransactionBytes (g_Transactions rpcData) in
  let! merkleTree := NewMerkleTree txsBytes (Some coinbaseHasher) in
  let merkleBranch := GetMerkleHashes (Steps merkleTree) in
  let! generationTransaction :=
    CreateGeneration now rpcData poolAddressScript extraNoncePlaceholder reward txMessages recipients in
  let! txData := rmap tx_data (g_Transactions rpcData) in
  Val {| GetBlockTemplate_of := rpcData;
         Submits := [];
         GenerationTransaction := generationTransaction;
         JobId := jobId;
         PrevHashReversed := hex_encode prevHash;
         MerkleBranch := merkleBranch;
         Target := bigTarget;
         Difficulty := bigDiff;
         TransactionData := concat txData;
         Reward := EmptyString;
         MerkleTree_of := merkleTree |}.

Definition SerializeCoinbase (j : Job) (extraNonce1 extraNonce2 : bytes) : bytes :=
  fst (GenerationTransaction j) ++ extraNonce1 ++ extraNonce2 ++ snd (GenerationTransaction j).

(** Only the number of votes is returned; the decoded votes are dropped. *)
Definition GetVoteData (j : Job) : bytes :=
  if iface_nil (g_MasternodePayments (GetBlockTemplate_of j)) then []
  else VarIntBytes (u64 (Z.of_nat (length (g_Votes (GetBlockTemplate_of j))))).

Definition SerializeBlock (j : Job) (header coinbase : bytes) : bytes :=
  let suffix := if String.eqb (Reward j) "POS" then [x00] else [] in
  header
  ++ VarIntBytes (u64 (Z.of_nat (length (g_Transactions (GetBlockTemplate_of j))) + 1))
  ++ coinbase
  ++ TransactionData j
  ++ GetVoteData j
  ++ suffix.

Definition SerializeHeader (j : Job) (merkleRoot nTime nonce : bytes) : result bytes :=
  let header := zeros 80 in
  let bits := fst (hex_decode (g_Bits (GetBlockTemplate_of j))) in
  let prevHash := fst (hex_decode (g_PreviousBlockHash (GetBlockTemplate_of j))) in
  let pos := 0%nat in
  let! header := copy_at header pos nonce in
  let pos := (pos + length nonce)%nat in
  let! header := copy_at header pos bits in
  let pos := (pos + length bits)%nat in
  let! header := copy_at header pos nTime in
  let pos := (pos + length nTime)%nat in
  let! header := copy_at header pos merkleRoot in
  let pos := (pos + length merkleRoot)%nat in
  let! header := copy_at header pos prevHash in
  let pos := (pos + length prevHash)%nat in
  let! header := put_uint32_be header pos (u32 (g_Version (GetBlockTemplate_of j))) in
  Val (ReverseBytes header).

Definition set_submits (l : list string) (j : Job) : Job :=
  {| GetBlockTemplate_of := GetBlockTemplate_of j; Submits := l;
     GenerationTransaction := GenerationTransaction j; JobId := JobId j;
     PrevHashReversed := PrevHashReversed j; MerkleBranch := MerkleBranch j; Target := Target j;
     Difficulty := Difficulty j; TransactionData := TransactionData j; Reward := Reward j;
     MerkleTree_of := MerkleTree_of j |}.

(** The answer and the job with its register updated. *)
Definition RegisterSubmit (j : Job) (extraNonce1 extraNonce2 nTime nonce : string) : bool * Job :=
  let submission := (extraNonce1 ++ extraNonce2 ++ nTime ++ nonce)%string in
  if StringsIndexOf (Submits j) submission =? -1
  then (true, set_submits (Submits j ++ [submission]) j)
  else (false, j).

Definition GetJobParams (now : Z) (j : Job) (forceUpdate : bool) : list json :=
  [ JStr (JobId j);
    JStr (PrevHashReversed j);
    JStr (hex_encode (fst (GenerationTransaction j)));
    JStr (hex_encode (snd (GenerationTransaction j)));
    JArr (map JStr (MerkleBranch j));
    JStr (hex_encode (PackInt32BE (g_Version (GetBlockTemplate_of j))));
    JStr (g_Bits (GetBlockTemplate_of j));
    JStr (hex_encode (PackUint32BE (u32 now)));
    JBool forceUpdate ].
End Job_operations.

(** ** Specification: the 80-byte header of the Bitcoin protocol *)
Record header := mkHeader {
  h_version : Z; h_prev : bytes; h_merkle : bytes; h_time : Z; h_bits : Z; h_nonce : Z }.
Definition read_header (b : bytes) : option header :=
  '(version, b) ← read_exact 4 b;
  '(prev, b) ← read_exact 32 b;
  '(merkle, b) ← read_exact 32 b;
  '(time, b) ← read_exact 4 b;
  '(bits, b) ← read_exact 4 b;
  '(nonce, b) ← read_exact 4 b;
  match b with
  | [] => Some (mkHeader (le_value version) prev merkle (le_value time) (le_value bits) (le_value nonce))
  | _ => None
  end.

(** Writing a field after those already written. *)
Lemma copy_at_fill pre n src :
  (length src <= n)%nat ->
  copy_at (pre ++ zeros n) (length pre) src = Val ((pre ++ src) ++ zeros (n - length src)).
Proof.
  intros Hn. unfold copy_at, zeros. rewrite length_app, repeat_length.
  replace (_ <? _)%nat with false by (symmetry; apply Nat.ltb_ge; lia).
  rewrite Nat.min_l, take_app_length, (take_ge src), <- app_assoc by lia. do 3 f_equal.
  rewrite drop_app_ge by lia. replace (length pre + length src - length pre)%nat with (length src) by lia.
  clear. revert src; induction n as [|n IH]; intros [|x src]; try done. simpl. apply IH.
Qed.

Lemma put_uint32_fill pre v :
  put_uint32_be (pre ++ zeros 4) (length pre) v = Val (pre ++ be_bytes 4 v).
Proof.
  unfold put_uint32_be, zeros. rewrite length_app, repeat_length, Nat.ltb_irrefl, take_app_length.
  rewrite drop_ge by (rewrite length_app, repeat_length; lia). by rewrite app_nil_r.
Qed.

Lemma SerializeHeader_layout j root nTime nonce :
  let t := GetBlockTemplate_of j in
  let bits := fst (hex_decode (g_Bits t)) in
  let prev := fst (hex_decode (g_PreviousBlockHash t)) in
  length root = 32%nat -> length nTime = 4%nat -> length nonce = 4%nat ->
  length bits = 4%nat -> length prev = 32%nat ->
  SerializeHeader j root nTime nonce
  = Val (le_bytes 4 (u32 (g_Version t)) ++ rev prev ++ rev root ++ rev nTime ++ rev bits ++ rev nonce).
Proof.
  cbv zeta. intros Hr Ht Hn Hb Hp. unfold SerializeHeader. cbv zeta.
  set (bits := fst (hex_decode _)) in *. set (prev := fst (hex_decode (g_PreviousBlockHash _))) in *.
  change (zeros 80) with ([] ++ zeros 80).
  change 0%nat with (length (@nil byte)).
  rewrite copy_at_fill by lia. cbn [rbind]. rewrite <- length_app.
  rewrite copy_at_fill by lia. cbn [rbind]. rewrite <- length_app.
  rewrite copy_at_fill by lia. cbn [rbind]. rewrite <- length_app.
  rewrite copy_at_fill by lia. cbn [rbind]. rewrite <- length_app.
  rewrite copy_at_fill by lia. cbn [rbind]. rewrite <- length_app.
  replace (80 - _ - _ - _ - _ - _)%nat with 4%nat by lia.
  rewrite put_uint32_fill. cbn [rbind]. f_equal. rewrite ReverseBytes_rev.
  unfold be_bytes. rewrite !rev_app_distr, rev_involutive. cbn [rev]. by rewrite app_nil_r, <- ?app_assoc.
Qed.

Lemma read_exact_n n a b : length a = n -> read_exact n (a ++ b) = Some (a, b).
Proof. intros <-. apply read_exact_app. Qed.

Lemma read_header_layout v prev root nTime bits nonce :
  length root = 32%nat -> length nTime = 4%nat -> length nonce = 4%nat ->
  length bits = 4%nat -> length prev = 32%nat ->
  read_header (le_bytes 4 v ++ rev prev ++ rev root ++ rev nTime ++ rev bits ++ rev nonce)
  = Some (mkHeader (v mod 2 ^ 32) (rev prev) (rev root) (be_value nTime) (be_value bits) (be_value nonce)).
Proof.
  intros. unfold read_header. rewrite read_exact_le. cbn [mbind option_bind].
  do 4 (rewrite read_exact_n by (by rewrite length_rev); cbn [mbind option_bind]).
  rewrite <- (app_nil_r (rev nonce)) at 1. rewrite read_exact_n by (by rewrite length_rev).
  cbn [mbind option_bind]. unfold be_value. by rewrite le_value_bytes.
Qed.

Lemma tx_hashes_width l txs : rmap tx_hash_bytes l = Val txs -> Forall (fun b => length b = 32%nat) txs.
Proof.
  revert txs; induction l as [|t l IH]; intros txs; cbn [rmap]; [by intros [= <-]|].
  destruct (tx_hash_bytes t) as [h|] eqn:Eh; cbn [rbind]; [|discriminate].
  destruct (rmap tx_hash_bytes l) as [hs|]; cbn [rbind]; [|discriminate]. intros [= <-].
  constructor; [|by apply IH]. revert Eh. unfold tx_hash_bytes.
  destruct (negb _); [intros [= <-]; apply Uint256BytesFromHash_length|].
  destruct (negb _); [intros [= <-]; apply Uint256BytesFromHash_length|discriminate].
Qed.

(** ** The submission register *)
Lemma RegisterSubmit_spec j e1 e2 t n :
  let submission := (e1 ++ e2 ++ t ++ n)%string in
  RegisterSubmit j e1 e2 t n
  = if decide (submission ∈ Submits j) then (false, j)
    else (true, set_submits (Submits j ++ [submission]) j).
Proof.
  cbv zeta. unfold RegisterSubmit.
  pose proof (StringsIndexOf_absent (Submits j) (e1 ++ e2 ++ t ++ n)%string) as S.
  destruct (decide _) as [D|D]; destruct (Z.eqb_spec (StringsIndexOf (Submits j) (e1 ++ e2 ++ t ++ n)%string) (-1)); tauto.
Qed.

(** Appends are injective on a first part of fixed length. *)
Lemma string_app_inj_length a b c d :
  String.length a = String.length c -> (a ++ b = c ++ d)%string -> a = c /\ b = d.
Proof.
  revert c; induction a as [|x a IH]; intros [|y c] Hl H; try done.
  rewrite !append_cons in H. injection H as -> H. injection Hl as Hl.
  by destruct (IH c Hl H) as [-> ->].
Qed.

(** The header a miner's submission is checked against is the Bitcoin header
    of the job: 80 bytes that read back as the template's version, the previous
    hash and merkle root in internal byte order, and the submitted time, the
    template's bits and the submitted nonce as the little-endian integers their
    big-endian hex spells. *)
Theorem SerializeHeader_fields (j : Job) (root nTime nonce : bytes) :
  let t := GetBlockTemplate_of j in
  let bits := fst (hex_decode (g_Bits t)) in
  let prev := fst (hex_decode (g_PreviousBlockHash t)) in
  length root = 32%nat -> length nTime = 4%nat -> length nonce = 4%nat ->
  length bits = 4%nat -> length prev = 32%nat ->
  exists h, SerializeHeader j root nTime nonce = Val h /\ length h = 80%nat /\
    read_header h = Some (mkHeader (u32 (g_Version t)) (rev prev) (rev root)
                            (be_value nTime) (be_value bits) (be_value nonce)).
Proof.
  cbv zeta. intros Hr Ht Hn Hb Hp. eexists. split; [by apply SerializeHeader_layout|]. split.
  - rewrite !length_app, !length_rev, le_bytes_length. lia.
  - rewrite read_header_layout by done. unfold wrapu. by rewrite Z.mod_mod by lia.
Qed.

Definition sample_job : Job :=
  match @NewJob hex_codec amd64 1700000000 "f00d" sample_template sample_pool sample_placeholder
          "POW" false [] (fun b => Val (Sha256d b)) with
  | Val j => j
  | Panic _ => mkJob sample_template [] ([], []) "" "" [] 0 (BigF 53 fzero) [] "" (Build_MerkleTree [] [] (fun b => Val b))
  end.

Lemma SerializeHeader_fields_witness :
  exists h, SerializeHeader sample_job (Sha256d [x00]) (be_bytes 4 1700000001) (be_bytes 4 77) = Val h /\
    length h = 80%nat /\
    read_header h = Some (mkHeader (u32 0x20000000)
      (rev (fst (hex_decode (g_PreviousBlockHash (GetBlockTemplate_of sample_job)))))
      (rev (Sha256d [x00])) (be_value (be_bytes 4 1700000001))
      (be_value (fst (hex_decode (g_Bits (GetBlockTemplate_of sample_job))))) (be_value (be_bytes 4 77))).
Proof.
  apply (SerializeHeader_fields sample_job (Sha256d [x00]) (be_bytes 4 1700000001) (be_bytes 4 77));
    vm_compute; reflexivity.
Defined.
