(* ===== verification/JobManager.v ===== *)
(** * JobManager: src/jobs/jobManager.go

    The jobs of the pool and the verification of a submitted share.  The job
    objects live in a heap ([jobs], a pointer being an index): [CurrentJob] and
    the entries of [ValidJobs] point into it, so a submission registered through
    one is seen through the other. *)
From Stdlib Require Import ZArith Lia List Strings.Ascii Strings.String Strings.Byte Floats.SpecFloat.
From stdpp Require Import base list strings gmap.
From S2P Require Import Prelude Bytes Float Strconv Utils Merkle Types Config Algorithm Transactions Jobs.
Import ListNotations.
Local Open Scope Z_scope.
Local Open Scope go_scope.

Record JobManager := mkJobManager {
  jm_PoolAddress : Recipient;
  jm_Options : Options;
  jm_ExtraNoncePlaceholder : bytes;
  jm_ExtraNonce2Size : Z;
  jm_jobs : list Job;
  jm_CurrentJob : option nat;
  jm_ValidJobs : gmap string nat;
  jm_CoinbaseHasher : HashFunc;
}.

Definition set_jobs (jobs : list Job) (current : option nat) (valid : gmap string nat)
    (jm : JobManager) : JobManager :=
  {| jm_PoolAddress := jm_PoolAddress jm; jm_Options := jm_Options jm;
     jm_ExtraNoncePlaceholder := jm_ExtraNoncePlaceholder jm;
     jm_ExtraNonce2Size := jm_ExtraNonce2Size jm; jm_jobs := jobs; jm_CurrentJob := current;
     jm_ValidJobs := valid; jm_CoinbaseHasher := jm_CoinbaseHasher jm |}.

(** jobs/extraNonce1Generator.go; the random bytes are an argument. *)
Definition ExtraNonce1Generator_Size : Z := 4.
Definition GetExtraNonce1 (random : bytes) : bytes :=
  take (Z.to_nat ExtraNonce1Generator_Size) (random ++ zeros (Z.to_nat ExtraNonce1Generator_Size)).

Section Manager.
Context `{AddressCodec} `{Platform} `{PowHashes}.
(** The algorithm registry, fixed once every package is initialised. *)
Variable algs : Algorithms.

Definition NewJobManager (options : Options) : result JobManager :=
  let placeholder := fst (hex_decode "f000000ff111111f") in
  let name := a_CoinbaseHasher (Algorithm options) in
  let! coinbaseHasher :=
    (if negb (String.eqb name EmptyString) then GetHashFunc algs name
     else Val (fun b => Val (Sha256d b))) in
  Val {| jm_PoolAddress := PoolAddress options;
         jm_Options := options;
         jm_ExtraNoncePlaceholder := placeholder;
         jm_ExtraNonce2Size := blen placeholder - ExtraNonce1Generator_Size;
         jm_jobs := [];
         jm_CurrentJob := None;
         jm_ValidJobs := ∅;
         jm_CoinbaseHasher := coinbaseHasher |}.

Definition current_job (jm : JobManager) : option Job :=
  p ← jm_CurrentJob jm; jm_jobs jm !! p.

(** Both constructors of a job end by making it current and registering it. *)
Definition install (j : Job) (jm : JobManager) : JobManager :=
  let p := length (jm_jobs jm) in
  set_jobs (jm_jobs jm ++ [j]) (Some p) (<[JobId j := p]> (jm_ValidJobs jm)) jm.

Definition build (now : Z) (jobId : string) (rpcData : GetBlockTemplate) (jm : JobManager)
  : result JobManager :=
  let! script := recipient_script (jm_PoolAddress jm) in
  let! j := NewJob now jobId rpcData script (jm_ExtraNoncePlaceholder jm)
              (c_Reward (Coin (jm_Options jm))) (c_TxMessages (Coin (jm_Options jm)))
              (RewardRecipients (jm_Options jm)) (jm_CoinbaseHasher jm) in
  Val (install j jm).

Definition UpdateCurrentJob (now : Z) (rpcData : GetBlockTemplate) (jm : JobManager)
  : result JobManager :=
  match current_job jm with
  | Some j => build now (JobId j) rpcData jm
  | None => Panic "nil pointer dereference"
  end.

(** [random] is what [RandHexUint64] reads. *)
Definition CreateNewJob (now : Z) (random : bytes) (rpcData : GetBlockTemplate) (jm : JobManager)
  : result JobManager :=
  build now (RandHexUint64 random) rpcData jm.

Definition ProcessTemplate (now : Z) (random : bytes) (rpcData : GetBlockTemplate)
    (jm : JobManager) : result JobManager :=
  match current_job jm with
  | Some j =>
      if g_Height rpcData <? g_Height (GetBlockTemplate_of j) then Val jm
      else if g_Height rpcData =? g_Height (GetBlockTemplate_of j)
           then UpdateCurrentJob now rpcData jm
           else CreateNewJob now random rpcData jm
  | None => CreateNewJob now random rpcData jm
  end.

Definition Init := ProcessTemplate.

(** "miner.rig"; further dots are ignored. *)
Definition worker_names (workerName : string) : string * string :=
  match Split workerName "." with
  | miner :: rig :: _ => (miner, rig)
  | miner :: _ => (miner, "unknown"%string)
  | [] => (EmptyString, "unknown"%string)
  end.

(** [1 << m] in an int64 context. *)
Definition shift_one (m : Z) : result Z :=
  if m <? 0 then Panic "negative shift amount"
  else Val (if 64 <=? m then 0 else i64 (2 ^ m)).

Definition share_difficulty (multiplier headerHash : Z) : result bigfloat :=
  let! m := shift_one multiplier in
  Quo (SetInt (MaxTargetTruncated * m)) (SetInt headerHash).

Definition block_hash (o : AlgorithmOptions) (headerBytes : bytes) : result string :=
  let! h :=
    (if negb (String.eqb (a_BlockHasher o) EmptyString)
     then let! f := GetHashFunc algs (a_BlockHasher o) in f headerBytes
     else if a_SHA256dBlockHasher o then Val (Sha256d headerBytes)
     else let! f := GetHashFunc algs (a_Name o) in f headerBytes) in
  Val (hex_encode (ReverseBytes h)).

(** What follows the registration of the submission: hash the header and
    classify the share.  [base] carries the job id, address and names. *)
Definition check_work (jm : JobManager) (job : Job) (prevDiff : option bigfloat) (diff : bigfloat)
    (extraNonce1 extraNonce2 : bytes) (hexNTime hexNonce : string)
    (base : Share) (workerName : string) : result Share :=
  let coinbaseBytes := SerializeCoinbase job extraNonce1 extraNonce2 in
  let! coinbaseHash := jm_CoinbaseHasher jm coinbaseBytes in
  let! root := MerkleTree_WithFirst (MerkleTree_of job) coinbaseHash in
  let merkleRoot := ReverseBytes root in
  let nonce := fst (hex_decode hexNonce) in
  let nTimeBytes := fst (hex_decode hexNTime) in
  let! headerBytes := SerializeHeader job merkleRoot nTimeBytes nonce in
  let! hash := GetHashFunc algs (a_Name (Algorithm (jm_Options jm))) in
  let! headerHash := hash headerBytes in
  let headerHashBigInt := be_value (ReverseBytes headerHash) in
  let! bigShareDiff := share_difficulty (a_Multiplier (Algorithm (jm_Options jm))) headerHashBigInt in
  let assignedDiff := Float64 diff in
  let template := GetBlockTemplate_of job in
  if headerHashBigInt <? Target job then
    let blockHex := hex_encode (SerializeBlock job headerBytes coinbaseBytes) in
    let! blockHash := block_hash (Algorithm (jm_Options jm)) headerBytes in
    Val (set_diff assignedDiff
           (set_block (g_Height template) (g_CoinbaseValue template) blockHash blockHex base))
  else
    let! ratio := Quo bigShareDiff diff in
    let! threshold := NewBigFloat (float_const 99 100) in
    match Cmp ratio threshold with
    | Lt =>
        match prevDiff with
        | Some prev =>
            match Cmp bigShareDiff prev with
            | Lt => Val (set_error ErrLowDiffShare
                           (base_share (s_JobId base) (s_RemoteAddr base) workerName EmptyString))
            | _ => Val (set_diff (Float64 prev)
                          (set_block (g_Height template) (g_CoinbaseValue template)
                             EmptyString EmptyString base))
            end
        | None => Val (set_error ErrLowDiffShare
                         (base_share (s_JobId base) (s_RemoteAddr base) workerName EmptyString))
        end
    | _ => Val (set_diff assignedDiff base)
    end.

Definition ntime_ok (now : Z) (job : Job) (hexNTime : string) : bool :=
  let nTimeInt := fst (ParseInt hexNTime 16) in
  negb ((u32 nTimeInt <? g_CurTime (GetBlockTemplate_of job)) || (now + 7 <? nTimeInt)).

(** [now] is the submission time; the share and the manager with the
    submission registered in its job. *)
Definition ProcessSubmit (now : Z) (jm : JobManager) (jobId : string)
    (prevDiff : option bigfloat) (diff : bigfloat) (extraNonce1 : bytes)
    (hexExtraNonce2 hexNTime hexNonce ipAddr workerName : string) : result (Share * JobManager) :=
  let '(miner, rig) := worker_names workerName in
  let base := base_share jobId ipAddr miner rig in
  let fail code := Val (set_error code base, jm) in
  match jm_ValidJobs jm !! jobId with
  | None => fail ErrJobNotFound
  | Some p =>
      match jm_jobs jm !! p with
      | None => fail ErrJobNotFound
      | Some job =>
          if negb (String.eqb (JobId job) jobId) then fail ErrJobNotFound
          else
            let extraNonce2 := fst (hex_decode hexExtraNonce2) in
            if negb (blen extraNonce2 =? jm_ExtraNonce2Size jm) then fail ErrIncorrectExtraNonce2Size
            else if negb (slen hexNTime =? 8) then fail ErrIncorrectNTimeSize
            else if negb (ntime_ok now job hexNTime) then fail ErrNTimeOutOfRange
            else if negb (slen hexNonce =? 8) then fail ErrIncorrectNonceSize
            else
              let '(fresh, job') :=
                RegisterSubmit job (hex_encode extraNonce1) hexExtraNonce2 hexNTime hexNonce in
              if negb fresh then fail ErrDuplicateShare
              else
                let jm' := set_jobs (<[p := job']> (jm_jobs jm)) (jm_CurrentJob jm) (jm_ValidJobs jm) jm in
                let! share := check_work jm' job' prevDiff diff extraNonce1 extraNonce2
                                hexNTime hexNonce base workerName in
                Val (share, jm')
      end
  end.

(** The daemon calls [ProcessShare] makes: the verdict of
    [CheckBlockAccepted] and the next template. *)
Record block_daemon := {
  bd_accepted : string -> bool * string;
  bd_template : result GetBlockTemplate;
}.

(** The calls with effects outside the manager, in order. *)
Inductive share_event :=
| EvSubmitBlock (blockHex : string)
| EvCheckBlock (blockHash : string)
| EvGetTemplate
| EvPutShare (share : Share) (accepted : bool).

Definition ProcessShare (dm : block_daemon) (now : Z) (random : bytes) (share : Share)
    (jm : JobManager) : result (JobManager * list share_event) :=
  if negb (String.eqb (s_BlockHex share) EmptyString) then
    let '(isAccepted, tx) := bd_accepted dm (s_BlockHash share) in
    let share := set_txhash tx share in
    let! gbt := bd_template dm in
    let! jm := ProcessTemplate now random gbt jm in
    Val (jm, [EvSubmitBlock (s_BlockHex share); EvCheckBlock (s_BlockHash share); EvGetTemplate;
              EvPutShare share isAccepted])
  else Val (jm, [EvPutShare share false]).
End Manager.
