(* ===== verification/JobManagerSpec.v ===== *)
(** * JobManagerSpec: theorems about src/jobs/jobManager.go

    The state invariant of the job manager and its preservation, what a template
    does to the current job, the soundness of every accepted share, and the
    detection of duplicates over arbitrary sequences of submissions. *)
From Stdlib Require Import ZArith Lia List Strings.Ascii Strings.String Strings.Byte Floats.SpecFloat.
From stdpp Require Import base list strings gmap.
From S2P Require Import Prelude Bytes Sha256 Float Strconv Utils Merkle Types Config Algorithm Transactions Jobs JobManager.
Import ListNotations.
Local Open Scope Z_scope.
Local Open Scope go_scope.

(** ** The invariant *)

(** Every registered id points to a live job of that id, and the current job is
    the one registered under its own id. *)
Record jm_wf (jm : JobManager) : Prop := {
  wf_valid : forall id p, jm_ValidJobs jm !! id = Some p ->
    exists j, jm_jobs jm !! p = Some j /\ JobId j = id;
  wf_current : forall p, jm_CurrentJob jm = Some p ->
    exists j, jm_jobs jm !! p = Some j /\ jm_ValidJobs jm !! JobId j = Some p;
}.

Lemma NewJob_fields `{AddressCodec} `{Platform} now id t s ph rw msgs rs h j :
  NewJob now id t s ph rw msgs rs h = Val j ->
  JobId j = id /\ GetBlockTemplate_of j = t /\ Submits j = [].
Proof.
  unfold NewJob.
  repeat match goal with
  | |- (let! _ := ?m in _) = _ -> _ => destruct m; cbn [rbind]; [|done]
  end.
  intros E. apply Val_inj in E as <-. done.
Qed.

Section Spec.
Context `{AddressCodec} `{Platform} `{PowHashes}.
Variable algs : Algorithms.

Lemma current_job_Some jm j :
  current_job jm = Some j ->
  exists p, jm_CurrentJob jm = Some p /\ jm_jobs jm !! p = Some j.
Proof.
  unfold current_job. destruct (jm_CurrentJob jm) as [p|]; cbn; [|done]. intros E. by exists p.
Qed.

Lemma install_wf j jm : jm_wf jm -> jm_wf (install j jm).
Proof.
  intros [Hv Hc]. unfold install. split; cbn.
  - intros id p. rewrite lookup_insert_Some. intros [[<- <-]|[Hne Hp]].
    + exists j. split; [|done]. by rewrite lookup_app_r, Nat.sub_diag by done.
    + destruct (Hv id p Hp) as (j' & Hj & Hid). exists j'. split; [|done]. by apply lookup_app_l_Some.
  - intros p [= <-]. exists j. rewrite lookup_app_r, Nat.sub_diag by done.
    split; [done|]. by rewrite lookup_insert, decide_True.
Qed.

Lemma build_spec now id t jm jm' :
  build now id t jm = Val jm' ->
  exists j, jm' = install j jm /\ JobId j = id /\ GetBlockTemplate_of j = t /\ Submits j = [].
Proof.
  unfold build. destruct (recipient_script _); cbn [rbind]; [|done].
  destruct (NewJob _ _ _ _ _ _ _ _ _) as [j|] eqn:E; cbn [rbind]; [|done].
  intros E2. apply Val_inj in E2 as <-. exists j. split; [done|]. by eapply NewJob_fields.
Qed.

(** The three cases of a template. *)
Lemma ProcessTemplate_cases now random t jm jm' :
  ProcessTemplate now random t jm = Val jm' ->
  (jm' = jm /\ exists j, current_job jm = Some j /\ g_Height t < g_Height (GetBlockTemplate_of j)) \/
  (exists j, jm' = install j jm /\ GetBlockTemplate_of j = t /\ Submits j = [] /\
     match current_job jm with
     | Some c => g_Height (GetBlockTemplate_of c) <= g_Height t /\
         JobId j = (if g_Height t =? g_Height (GetBlockTemplate_of c) then JobId c
                    else RandHexUint64 random)
     | None => JobId j = RandHexUint64 random
     end).
Proof.
  unfold ProcessTemplate, UpdateCurrentJob, CreateNewJob.
  destruct (current_job jm) as [c|] eqn:Ec.
  - destruct (Z.ltb_spec (g_Height t) (g_Height (GetBlockTemplate_of c))) as [Hlt|Hge].
    { intros E. apply Val_inj in E as <-. left. split; [done|]. by exists c. }
    intros E. right. destruct (Z.eqb_spec (g_Height t) (g_Height (GetBlockTemplate_of c)));
      destruct (build_spec _ _ _ _ _ E) as (j & -> & Hid & Ht & Hs); exists j;
      repeat split; done || lia.
  - intros E. right. destruct (build_spec _ _ _ _ _ E) as (j & -> & Hid & Ht & Hs).
    exists j. done.
Qed.

Lemma current_job_install j jm : current_job (install j jm) = Some j.
Proof. unfold current_job, install. cbn. by rewrite lookup_app_r, Nat.sub_diag by done. Qed.

(** ** Submissions *)

(** The checks before the header is hashed: an error code, or the job with the
    submission registered. *)
Definition precheck (now : Z) (jm : JobManager) (jobId : string) (extraNonce1 : bytes)
    (hexExtraNonce2 hexNTime hexNonce : string) : Z + nat * Job :=
  match (p ← jm_ValidJobs jm !! jobId; job ← jm_jobs jm !! p; Some (p, job)) with
  | None => inl ErrJobNotFound
  | Some (p, job) =>
      if negb (String.eqb (JobId job) jobId) then inl ErrJobNotFound
      else if negb (blen (fst (hex_decode hexExtraNonce2)) =? jm_ExtraNonce2Size jm)
           then inl ErrIncorrectExtraNonce2Size
      else if negb (slen hexNTime =? 8) then inl ErrIncorrectNTimeSize
      else if negb (ntime_ok now job hexNTime) then inl ErrNTimeOutOfRange
      else if negb (slen hexNonce =? 8) then inl ErrIncorrectNonceSize
      else
        let submission := (hex_encode extraNonce1 ++ hexExtraNonce2 ++ hexNTime ++ hexNonce)%string in
        if decide (submission ∈ Submits job) then inl ErrDuplicateShare
        else inr (p, set_submits (Submits job ++ [submission]) job)
  end.

Definition update_job (p : nat) (job : Job) (jm : JobManager) : JobManager :=
  set_jobs (<[p := job]> (jm_jobs jm)) (jm_CurrentJob jm) (jm_ValidJobs jm) jm.

Lemma ProcessSubmit_precheck now jm jobId prevDiff diff en1 en2 nt nn ip w :
  let base := base_share jobId ip (fst (worker_names w)) (snd (worker_names w)) in
  ProcessSubmit algs now jm jobId prevDiff diff en1 en2 nt nn ip w
  = match precheck now jm jobId en1 en2 nt nn with
    | inl code => Val (set_error code base, jm)
    | inr (p, job) =>
        let! share := check_work algs (update_job p job jm) job prevDiff diff en1
                        (fst (hex_decode en2)) nt nn base w in
        Val (share, update_job p job jm)
    end.
Proof.
  cbv zeta. unfold ProcessSubmit, precheck. destruct (worker_names w) as [miner rig]. cbn [fst snd].
  destruct (jm_ValidJobs jm !! jobId) as [p|]; cbn [mbind option_bind]; [|done].
  destruct (jm_jobs jm !! p) as [job|]; cbn [mbind option_bind]; [|done].
  rewrite RegisterSubmit_spec.
  repeat (case_match_eqn; [done|]).
  destruct (decide _); cbn [negb]; done.
Qed.

(** The errors of the checks leave no trace; they are the codes 20 to 25. *)
Lemma precheck_code now jm jobId en1 en2 nt nn code :
  precheck now jm jobId en1 en2 nt nn = inl code -> 20 <= code <= 25.
Proof.
  unfold precheck. intros E. repeat case_match; simplify_eq;
    unfold ErrJobNotFound, ErrIncorrectExtraNonce2Size, ErrIncorrectNTimeSize,
      ErrNTimeOutOfRange, ErrIncorrectNonceSize, ErrDuplicateShare; lia.
Qed.

Lemma precheck_registered now jm jobId en1 en2 nt nn p job' :
  precheck now jm jobId en1 en2 nt nn = inr (p, job') ->
  let submission := (hex_encode en1 ++ en2 ++ nt ++ nn)%string in
  exists job, jm_ValidJobs jm !! jobId = Some p /\ jm_jobs jm !! p = Some job /\
    JobId job = jobId /\ blen (fst (hex_decode en2)) = jm_ExtraNonce2Size jm /\
    slen nt = 8 /\ ntime_ok now job nt = true /\ slen nn = 8 /\
    ~ (submission ∈ Submits job) /\ job' = set_submits (Submits job ++ [submission]) job.
Proof.
  cbv zeta. unfold precheck.
  destruct (jm_ValidJobs jm !! jobId) as [q|]; cbn [mbind option_bind]; [|done].
  destruct (jm_jobs jm !! q) as [job|] eqn:Ej; cbn [mbind option_bind]; [|done].
  destruct (String.eqb_spec (JobId job) jobId); cbn [negb]; [|done].
  destruct (Z.eqb_spec (blen (fst (hex_decode en2))) (jm_ExtraNonce2Size jm)); cbn [negb]; [|done].
  destruct (Z.eqb_spec (slen nt) 8); cbn [negb]; [|done].
  destruct (ntime_ok now job nt) eqn:Et; cbn [negb]; [|done].
  destruct (Z.eqb_spec (slen nn) 8); cbn [negb]; [|done].
  destruct (decide _) as [D|D]; [done|]. intros [= <- <-]. by exists job.
Qed.

Lemma update_job_wf p job job' jm :
  jm_wf jm -> jm_jobs jm !! p = Some job -> JobId job' = JobId job -> jm_wf (update_job p job' jm).
Proof.
  intros [Hv Hc] Hp Hid.
  assert (forall q j, jm_jobs jm !! q = Some j ->
            exists j', <[p := job']> (jm_jobs jm) !! q = Some j' /\ JobId j' = JobId j) as L.
  { intros q j Hq. destruct (decide (p = q)) as [<-|Hne].
    - exists job'. split; [|congruence]. apply list_lookup_insert_eq. by eapply lookup_lt_Some.
    - exists j. split; [|done]. by rewrite list_lookup_insert_ne. }
  split; cbn.
  - intros id q Hq. destruct (Hv id q Hq) as (j & Hj & <-). destruct (L q j Hj) as (j' & ? & ?). by exists j'.
  - intros q Hq. destruct (Hc q Hq) as (j & Hj & Hjv). destruct (L q j Hj) as (j' & ? & E).
    exists j'. split; [done|]. by rewrite E.
Qed.

(** What a submission changes: nothing, or one more entry in the register of
    one registered job. *)
Lemma ProcessSubmit_state now jm jobId prevDiff diff en1 en2 nt nn ip w share jm' :
  ProcessSubmit algs now jm jobId prevDiff diff en1 en2 nt nn ip w = Val (share, jm') ->
  jm' = jm \/
  exists p job, jm_ValidJobs jm !! jobId = Some p /\ jm_jobs jm !! p = Some job /\ JobId job = jobId /\
    jm' = update_job p (set_submits (Submits job ++ [(hex_encode en1 ++ en2 ++ nt ++ nn)%string]) job) jm.
Proof.
  rewrite ProcessSubmit_precheck. destruct (precheck _ _ _ _ _ _ _) as [code|[p job']] eqn:E.
  - intros [= _ <-]. by left.
  - destruct (precheck_registered _ _ _ _ _ _ _ _ _ E) as (job & Hv & Hj & Hid & _ & _ & _ & _ & _ & ->).
    destruct (check_work _ _ _ _ _ _ _ _ _ _ _) as [s|]; cbn [rbind]; [|done].
    intros Es. apply Val_pair_inj in Es as [_ <-]. right. by exists p, job.
Qed.

Lemma ProcessSubmit_wf now jm jobId prevDiff diff en1 en2 nt nn ip w share jm' :
  jm_wf jm ->
  ProcessSubmit algs now jm jobId prevDiff diff en1 en2 nt nn ip w = Val (share, jm') -> jm_wf jm'.
Proof.
  intros Hwf Hp. destruct (ProcessSubmit_state _ _ _ _ _ _ _ _ _ _ _ _ _ Hp)
    as [->|(p & job & _ & Hj & _ & ->)]; [done|]. by eapply update_job_wf.
Qed.

Lemma ProcessTemplate_wf now random t jm jm' :
  jm_wf jm -> ProcessTemplate now random t jm = Val jm' -> jm_wf jm'.
Proof.
  intros Hwf Hp. destruct (ProcessTemplate_cases _ _ _ _ _ Hp) as [[-> _]|(j & -> & _)]; [done|].
  by apply install_wf.
Qed.

(** ** The manager as a transition system *)
Inductive jm_step : JobManager -> JobManager -> Prop :=
| step_template now random t jm jm' :
    ProcessTemplate now random t jm = Val jm' -> jm_step jm jm'
| step_submit now jm jobId prevDiff diff en1 en2 nt nn ip w share jm' :
    ProcessSubmit algs now jm jobId prevDiff diff en1 en2 nt nn ip w = Val (share, jm') ->
    jm_step jm jm'.

Definition current_height (jm : JobManager) : option Z :=
  (fun j => g_Height (GetBlockTemplate_of j)) <$> current_job jm.

Lemma current_job_update p job job' jm :
  jm_jobs jm !! p = Some job -> GetBlockTemplate_of job' = GetBlockTemplate_of job ->
  current_height (update_job p job' jm) = current_height jm.
Proof.
  intros Hp Ht. unfold current_height, current_job. cbn.
  destruct (jm_CurrentJob jm) as [q|]; cbn; [|done].
  destruct (decide (p = q)) as [<-|Hne].
  - rewrite list_lookup_insert_eq by (by eapply lookup_lt_Some). rewrite Hp. cbn. by rewrite Ht.
  - by rewrite list_lookup_insert_ne.
Qed.

Lemma jm_step_height jm jm' h :
  jm_step jm jm' -> current_height jm = Some h ->
  exists h', current_height jm' = Some h' /\ h <= h'.
Proof.
  intros S Hh. destruct S as [now random t jm jm' E|now jm jobId pd d en1 en2 nt nn ip w share jm' E].
  - destruct (ProcessTemplate_cases _ _ _ _ _ E) as [[-> _]|(j & -> & Ht & _ & Hc)].
    { exists h. split; [done|lia]. }
    exists (g_Height t). unfold current_height in *. rewrite current_job_install. cbn. rewrite Ht.
    split; [done|]. destruct (current_job jm) as [c|]; cbn in Hh; [|done].
    injection Hh as <-. by destruct Hc.
  - exists h. split; [|lia].
    destruct (ProcessSubmit_state _ _ _ _ _ _ _ _ _ _ _ _ _ E) as [->|(p & job & _ & Hj & _ & ->)]; [done|].
    by rewrite (current_job_update p job).
Qed.

Lemma jm_step_wf jm jm' : jm_wf jm -> jm_step jm jm' -> jm_wf jm'.
Proof.
  intros Hwf S. destruct S; [by eapply ProcessTemplate_wf|by eapply ProcessSubmit_wf].
Qed.

Lemma NewJobManager_wf o jm : NewJobManager algs o = Val jm -> jm_wf jm.
Proof.
  unfold NewJobManager. destruct (if negb _ then _ else _); cbn [rbind]; [|done].
  intros E. apply Val_inj in E as <-. by split; cbn.
Qed.

Lemma jm_reachable_aux o jm0 jm jm' :
  NewJobManager algs o = Val jm0 -> rtc jm_step jm0 jm -> rtc jm_step jm jm' ->
  jm_wf jm' /\
  (forall h, current_height jm = Some h -> exists h', current_height jm' = Some h' /\ h <= h').
Proof.
  intros HN R1 R2. assert (jm_wf jm) as W.
  { apply NewJobManager_wf in HN. clear R2. induction R1 as [|x y z S R IH]; [done|].
    apply IH. by eapply jm_step_wf. }
  clear R1 HN. induction R2 as [x|x y z S R IH].
  - split; [done|]. intros h Hh. exists h. split; [done|lia].
  - destruct (IH (jm_step_wf _ _ W S)) as [W' Hm]. split; [done|]. intros h Hh.
    destruct (jm_step_height _ _ _ S Hh) as (h1 & Hh1 & Hle).
    destruct (Hm h1 Hh1) as (h2 & Hh2 & Hle2). exists h2. split; [done|lia].
Qed.

(** ** What an accepted share proves *)

(** The header of a submission and its hash as an integer. *)
Definition work_of (jm : JobManager) (job : Job) (en1 en2 : bytes) (nt nn : string)
  : result (bytes * Z) :=
  let! coinbaseHash := jm_CoinbaseHasher jm (SerializeCoinbase job en1 en2) in
  let! root := MerkleTree_WithFirst (MerkleTree_of job) coinbaseHash in
  let! header := SerializeHeader job (ReverseBytes root) (fst (hex_decode nt)) (fst (hex_decode nn)) in
  let! hash := GetHashFunc algs (a_Name (Algorithm (jm_Options jm))) in
  let! h := hash header in
  Val (header, be_value (ReverseBytes h)).

(** The three ways to a credited share: a block, enough work for the assigned
    difficulty (within one percent), enough for the previous difficulty. *)
Inductive credited (jm : JobManager) (job : Job) (prevDiff : option bigfloat) (diff : bigfloat)
    (coinbase header : bytes) (v : Z) (d : bigfloat) (s : Share) : Prop :=
| credited_block blockHash :
    v < Target job -> block_hash algs (Algorithm (jm_Options jm)) header = Val blockHash ->
    s_Diff s = Float64 diff -> s_BlockHash s = blockHash ->
    s_BlockHex s = hex_encode (SerializeBlock job header coinbase) ->
    s_BlockHeight s = g_Height (GetBlockTemplate_of job) ->
    credited jm job prevDiff diff coinbase header v d s
| credited_assigned ratio :
    Target job <= v -> Quo d diff = Val ratio ->
    Cmp ratio (BigF 53 (float_const 99 100)) <> Lt ->
    s_Diff s = Float64 diff -> s_BlockHex s = EmptyString ->
    credited jm job prevDiff diff coinbase header v d s
| credited_previous prev ratio :
    Target job <= v -> Quo d diff = Val ratio ->
    Cmp ratio (BigF 53 (float_const 99 100)) = Lt ->
    prevDiff = Some prev -> Cmp d prev <> Lt ->
    s_Diff s = Float64 prev -> s_BlockHex s = EmptyString ->
    credited jm job prevDiff diff coinbase header v d s.

Lemma check_work_cases jm job pd diff en1 en2 nt nn base w s :
  check_work algs jm job pd diff en1 en2 nt nn base w = Val s ->
  s_ErrorCode base = 0 -> s_BlockHex base = EmptyString ->
  exists header v d,
    work_of jm job en1 en2 nt nn = Val (header, v) /\
    share_difficulty (a_Multiplier (Algorithm (jm_Options jm))) v = Val d /\
    ((s_ErrorCode s = 0 /\ s_Miner s = s_Miner base /\ s_Rig s = s_Rig base /\
      credited jm job pd diff (SerializeCoinbase job en1 en2) header v d s) \/
     (s_ErrorCode s = ErrLowDiffShare /\ s_BlockHex s = EmptyString /\ s_Diff s = fzero /\ Target job <= v)).
Proof.
  unfold check_work, work_of. cbv zeta. intros Hc He Hb.
  destruct (jm_CoinbaseHasher jm _) as [ch|]; cbn [rbind] in *; [|done].
  destruct (MerkleTree_WithFirst _ _) as [root|]; cbn [rbind] in *; [|done].
  destruct (SerializeHeader _ _ _ _) as [header|]; cbn [rbind] in *; [|done].
  destruct (GetHashFunc _ _) as [hash|]; cbn [rbind] in *; [|done].
  destruct (hash header) as [h|]; cbn [rbind] in *; [|done].
  set (v := be_value (ReverseBytes h)) in *.
  destruct (share_difficulty _ v) as [d|] eqn:Ed; cbn [rbind] in *; [|done].
  exists header, v, d. split; [done|]. split; [done|].
  destruct (Z.ltb_spec v (Target job)) as [Hv|Hv].
  - destruct (block_hash _ _ header) as [bh|] eqn:Ebh; cbn [rbind] in Hc; [|done].
    apply Val_inj in Hc as <-. left. repeat split; try done. by eapply credited_block.
  - destruct (Quo d diff) as [ratio|] eqn:Eq; cbn [rbind] in Hc; [|done].
    assert (NewBigFloat (float_const 99 100) = Val (BigF 53 (float_const 99 100))) as En
      by (vm_compute; reflexivity).
    rewrite En in Hc. cbn [rbind] in Hc.
    destruct (Cmp ratio _) eqn:Ec; [|destruct pd as [prev|]; [destruct (Cmp d prev) eqn:Ep|]|];
      apply Val_inj in Hc as <-.
    1,6: left; repeat split; try done; eapply credited_assigned; [done|done|by rewrite Ec|done|done].
    2,4: right; repeat split; done.
    1,2: left; repeat split; try done; eapply credited_previous; [done|done|done|done|by rewrite Ep|done|done].
Qed.

(** ** Duplicates over a run *)

(** The four values the miner chose, and the string they make in the register. *)
Definition submission : Type := bytes * string * string * string.
Definition submission_string (k : submission) : string :=
  let '(en1, en2, nt, nn) := k in (hex_encode en1 ++ en2 ++ nt ++ nn)%string.

(** A run of the manager as the list of what it did: a job was issued under an id
    (a new one, or under the old id when a template of the same height refreshed
    it), and a submission against an id was answered with a share.  A template that
    is behind the current job does nothing. *)
Inductive jm_event :=
| Issued (jobId : string)
| Processed (jobId : string) (k : submission) (share : Share).
Inductive run : JobManager -> list jm_event -> JobManager -> Prop :=
| run_nil jm : run jm [] jm
| run_dropped now random t jm l jm' :
    ProcessTemplate now random t jm = Val jm -> run jm l jm' -> run jm l jm'
| run_issued now random t j jm l jm' :
    ProcessTemplate now random t jm = Val (install j jm) -> run (install j jm) l jm' ->
    run jm (Issued (JobId j) :: l) jm'
| run_processed now jobId pd d en1 en2 nt nn ip w share jm jm1 l jm' :
    ProcessSubmit algs now jm jobId pd d en1 en2 nt nn ip w = Val (share, jm1) -> run jm1 l jm' ->
    run jm (Processed jobId (en1, en2, nt, nn) share :: l) jm'.

Lemma run_app jm l jm1 l' jm' : run jm l jm1 -> run jm1 l' jm' -> run jm (l ++ l') jm'.
Proof.
  intros R1 R2. induction R1; [done|by eapply run_dropped; eauto|by eapply run_issued; eauto|by eapply run_processed; eauto].
Qed.
Lemma run_app_inv jm l l' jm' : run jm (l ++ l') jm' -> exists jm1, run jm l jm1 /\ run jm1 l' jm'.
Proof.
  intros R. remember (l ++ l')%list as ll eqn:E. revert l E.
  induction R as [jm|now random t jm l0 jm' T R IH|now random t j jm l0 jm' T R IH|now id pd d en1 en2 nt nn ip w sh jm jm1 l0 jm' T R IH];
    intros l E.
  - symmetry in E. apply app_eq_nil in E as [-> ->]. exists jm. split; constructor.
  - destruct (IH l E) as (jm1 & A & B). exists jm1. split; [by eapply run_dropped|done].
  - destruct l as [|x l]; cbn in E; [subst l'; exists jm; split; [constructor|by eapply run_issued]|].
    injection E as <- E. destruct (IH l E) as (jm1 & A & B). exists jm1. split; [by eapply run_issued|done].
  - destruct l as [|x l]; cbn in E; [subst l'; exists jm; split; [constructor|by eapply run_processed]|].
    injection E as <- E. destruct (IH l E) as (jm2 & A & B). exists jm2. split; [by eapply run_processed|done].
Qed.

(** Every behaviour of the manager is such a run. *)
Lemma step_run jm jm' : jm_step jm jm' -> exists l, run jm l jm'.
Proof.
  intros [now random t jm0 jm1 E|now jm0 jobId pd d en1 en2 nt nn ip w share jm1 E].
  - destruct (ProcessTemplate_cases _ _ _ _ _ E) as [[-> _]|(j & -> & _)].
    + exists []. eapply run_dropped; [done|constructor].
    + eexists. eapply run_issued; [done|constructor].
  - eexists. eapply run_processed; [done|constructor].
Qed.
Lemma steps_run jm jm' : rtc jm_step jm jm' -> exists l, run jm l jm'.
Proof.
  induction 1 as [jm|jm jm1 jm' S _ [l R]]; [exists []; constructor|].
  destruct (step_run _ _ S) as [l0 R0]. exists (l0 ++ l)%list. by eapply run_app.
Qed.

(** The submission is in the register of the job that has the id. *)
Definition registered (jm : JobManager) (id : string) (k : submission) : Prop :=
  exists p j, jm_ValidJobs jm !! id = Some p /\ jm_jobs jm !! p = Some j /\ submission_string k ∈ Submits j.

Lemma registered_install j jm id k : JobId j <> id -> registered jm id k -> registered (install j jm) id k.
Proof.
  intros Hne (p & job & Hp & Hj & Hs). exists p, job. cbn. rewrite lookup_insert_ne by done. split; [done|]. split; [|done].
  by apply lookup_app_l_Some.
Qed.
Lemma registered_submit now jm jobId pd d en1 en2 nt nn ip w share jm' id k :
  ProcessSubmit algs now jm jobId pd d en1 en2 nt nn ip w = Val (share, jm') ->
  registered jm id k -> registered jm' id k.
Proof.
  intros E (p & j & Hp & Hj & Hs). destruct (ProcessSubmit_state _ _ _ _ _ _ _ _ _ _ _ _ _ E)
    as [->|(q & job & _ & Hq & _ & ->)]; [by exists p, j|].
  destruct (decide (q = p)) as [->|Hne].
  - eexists p, _. cbn. rewrite list_lookup_insert_eq by (by eapply lookup_lt_Some). split_and!; [done|done|].
    cbn. rewrite Hj in Hq. injection Hq as <-. set_solver.
  - exists p, j. cbn. by rewrite list_lookup_insert_ne.
Qed.
Lemma registered_run jm l jm' id k : run jm l jm' -> Issued id ∉ l -> registered jm id k -> registered jm' id k.
Proof.
  induction 1 as [jm|now random t jm l jm' _ _ IH|now random t j jm l jm' _ _ IH|now jobId pd d en1 en2 nt nn ip w sh jm jm1 l jm' E _ IH];
    intros Hl Hr; [done|by apply IH|apply IH; [set_solver|]|apply IH; [set_solver|by eapply registered_submit]].
  apply registered_install; [|done]. intros <-. set_solver.
Qed.

(** A credited submission was not registered before, and is afterwards. *)
Lemma credited_registers now jm jobId pd d en1 en2 nt nn ip w share jm' :
  ProcessSubmit algs now jm jobId pd d en1 en2 nt nn ip w = Val (share, jm') ->
  s_ErrorCode share = 0 ->
  ~ registered jm jobId (en1, en2, nt, nn) /\ registered jm' jobId (en1, en2, nt, nn).
Proof.
  rewrite ProcessSubmit_precheck. intros E He.
  destruct (precheck _ _ _ _ _ _ _) as [code|[q job']] eqn:Epre.
  { apply Val_pair_inj in E as [<- _]. cbn in He. apply precheck_code in Epre. lia. }
  destruct (precheck_registered _ _ _ _ _ _ _ _ _ Epre) as (job & Hv & Hj & _ & _ & _ & _ & _ & Hn & ->).
  destruct (check_work _ _ _ _ _ _ _ _ _ _ _) as [s|]; cbn [rbind] in E; [|done].
  apply Val_pair_inj in E as [_ <-]. split.
  - intros (p & j & Hp & Hj' & Hs). rewrite Hv in Hp. injection Hp as <-. rewrite Hj in Hj'. injection Hj' as <-. by apply Hn.
  - eexists q, _. cbn. rewrite list_lookup_insert_eq by (by eapply lookup_lt_Some).
    split; [done|]. split; [done|]. cbn. set_solver.
Qed.

Lemma processed_inv jm jobId en1 en2 nt nn share l jm' :
  run jm (Processed jobId (en1, en2, nt, nn) share :: l) jm' ->
  exists now pd d ip w jm0 jm1, ProcessSubmit algs now jm0 jobId pd d en1 en2 nt nn ip w = Val (share, jm1) /\
    jm0 = jm /\ run jm1 l jm'.
Proof.
  intros R. remember (Processed jobId (en1, en2, nt, nn) share :: l) as ll eqn:E.
  induction R as [jm|now random t jm l0 jm' T R IH|now random t j jm l0 jm' T R IH|now id pd d e1 e2 t n ip w sh jm jm1 l0 jm' T R IH];
    try discriminate E; [by apply IH|].
  injection E as -> -> -> -> -> -> ->. by exists now, pd, d, ip, w, jm, jm1.
Qed.
#[local] Instance issued_dec id (l : list jm_event) : Decision (Issued id ∈ l).
Proof.
  induction l as [|[i|i k sh] l IH]; [right; apply not_elem_of_nil| |].
  - destruct (decide (id = i)) as [->|Hne]; [left; constructor|].
    destruct IH as [Hi|Hi]; [left; by constructor|right]. by intros [[= E]|E]%elem_of_cons.
  - destruct IH as [Hi|Hi]; [left; by constructor|right]. by intros [E|E]%elem_of_cons.
Defined.
Lemma no_double_credit_aux jm l1 id k s1 l2 s2 l3 jm' :
  run jm (l1 ++ Processed id k s1 :: l2 ++ Processed id k s2 :: l3) jm' ->
  s_ErrorCode s1 = 0 -> s_ErrorCode s2 = 0 -> Issued id ∈ l2.
Proof.
  intros R E1 E2. destruct (decide (Issued id ∈ l2)) as [|Hn]; [done|exfalso].
  destruct k as [[[en1 en2] nt] nn].
  apply run_app_inv in R as (jm1 & _ & R). apply processed_inv in R as (n1 & pd1 & d1 & ip1 & w1 & ? & jm2 & P1 & -> & R).
  apply run_app_inv in R as (jm3 & R2 & R). apply processed_inv in R as (n2 & pd2 & d2 & ip2 & w2 & ? & jm4 & P2 & -> & _).
  apply credited_registers in P1 as [_ P1]; [|done]. apply credited_registers in P2 as [P2 _]; [|done].
  by apply P2, (registered_run _ _ _ _ _ R2).
Qed.

(** ** The block a winning share submits *)
Lemma NewJob_parts now id t s ph rw msgs rs h j :
  NewJob now id t s ph rw msgs rs h = Val j ->
  job_target t = Val (Target j) /\
  rmap tx_data (g_Transactions t) = Val (match rmap tx_data (g_Transactions t) with Val l => l | _ => [] end) /\
  TransactionData j = concat (match rmap tx_data (g_Transactions t) with Val l => l | _ => [] end) /\
  Reward j = EmptyString /\
  exists ids, rmap tx_hash_bytes (g_Transactions t) = Val ids /\
    NewMerkleTree ([] :: ids) (Some h) = Val (MerkleTree_of j).
Proof.
  unfold NewJob, GetTransactionBytes.
  destruct (job_target t) as [tgt|]; cbn [rbind]; [|done].
  destruct (Quo _ _) as [df|]; cbn [rbind]; [|done].
  destruct (ReverseByteOrder _) as [pr|]; cbn [rbind]; [|done].
  destruct (rmap tx_hash_bytes _) as [ids|]; cbn [rbind]; [|done].
  destruct (NewMerkleTree _ _) as [mt|] eqn:Em; cbn [rbind]; [|done].
  destruct (CreateGeneration _ _ _ _ _ _ _) as [g|]; cbn [rbind]; [|done].
  destruct (rmap tx_data _) as [td|]; cbn [rbind]; [|done].
  intros E. apply Val_inj in E as <-. repeat split. by exists ids.
Qed.

Lemma MerkleTree_root_aux hasher hf ids mt coinbase :
  total_hasher hasher hf -> NewMerkleTree ([] :: ids) (Some hasher) = Val mt ->
  MerkleTree_WithFirst mt coinbase = Val (merkle_root hf (coinbase :: ids)).
Proof. intros T. by apply WithFirst_merkle_root_aux. Qed.

(** Every job in the heap was made by [NewJob] with the manager's hasher. *)
Definition built (h : Hasher) (j : Job) : Prop :=
  exists now id t s ph rw msgs rs l j0,
    NewJob now id t s ph rw msgs rs h = Val j0 /\ j = set_submits l j0.

Lemma built_submits h j l : built h j -> built h (set_submits l j).
Proof.
  intros (now & id & t & s & ph & rw & msgs & rs & l0 & j0 & E & ->).
  by exists now, id, t, s, ph, rw, msgs, rs, l, j0.
Qed.

Lemma built_step jm jm' :
  Forall (built (jm_CoinbaseHasher jm)) (jm_jobs jm) -> jm_step jm jm' ->
  jm_CoinbaseHasher jm' = jm_CoinbaseHasher jm /\
  Forall (built (jm_CoinbaseHasher jm')) (jm_jobs jm').
Proof.
  intros Hb S. destruct S as [now random t jm jm' E|now jm jobId pd d en1 en2 nt nn ip w share jm' E].
  - assert (forall id, build now id t jm = Val jm' ->
      jm_CoinbaseHasher jm' = jm_CoinbaseHasher jm /\
      Forall (built (jm_CoinbaseHasher jm')) (jm_jobs jm')) as B.
    { intros id Eb. unfold build in Eb. destruct (recipient_script _) as [sc|]; cbn [rbind] in Eb; [|done].
      destruct (NewJob _ _ _ _ _ _ _ _ _) as [j|] eqn:Ej; cbn [rbind] in Eb; [|done].
      apply Val_inj in Eb as <-. split; [done|]. cbn. apply Forall_app. split; [done|].
      constructor; [|constructor].
      exists now, id, t, sc, (jm_ExtraNoncePlaceholder jm), (c_Reward (Coin (jm_Options jm))),
        (c_TxMessages (Coin (jm_Options jm))), (RewardRecipients (jm_Options jm)), (Submits j), j.
      split; [done|]. by destruct j. }
    unfold ProcessTemplate, UpdateCurrentJob, CreateNewJob in E.
    destruct (current_job jm) as [c|]; [|by eapply B].
    destruct (_ <? _); [by apply Val_inj in E as <-|]. destruct (_ =? _); by eapply B.
  - destruct (ProcessSubmit_state _ _ _ _ _ _ _ _ _ _ _ _ _ E) as [->|(p & job & _ & Hj & _ & ->)]; [done|].
    split; [done|]. cbn. apply Forall_insert; [done|]. apply built_submits.
    by eapply Forall_lookup_1 in Hb.
Qed.

Lemma built_reachable o jm0 jm :
  NewJobManager algs o = Val jm0 -> rtc jm_step jm0 jm -> Forall (built (jm_CoinbaseHasher jm)) (jm_jobs jm).
Proof.
  intros HN R. assert (Forall (built (jm_CoinbaseHasher jm0)) (jm_jobs jm0)) as B.
  { unfold NewJobManager in HN. destruct (if negb _ then _ else _); cbn [rbind] in HN; [|done].
    apply Val_inj in HN as <-. constructor. }
  clear HN. induction R as [|x y z S R IH]; [done|]. apply IH. by apply built_step with x.
Qed.

(** ** Reading a submitted block *)
Definition read_block (b : bytes) : option (bytes * Z * bytes) :=
  '(h, b) ← read_exact 80 b; '(n, b) ← read_compact b; Some (h, n, b).

Lemma work_of_built jm job hf en1 en2 ntb nnb header v :
  let t := GetBlockTemplate_of job in
  built (jm_CoinbaseHasher jm) job ->
  total_hasher (jm_CoinbaseHasher jm) hf -> (forall b, length (hf b) = 32%nat) ->
  length (fst (hex_decode (g_Bits t))) = 4%nat ->
  length (fst (hex_decode (g_PreviousBlockHash t))) = 32%nat ->
  length ntb = 4%nat -> length nnb = 4%nat ->
  work_of jm job en1 en2 (hex_encode ntb) (hex_encode nnb) = Val (header, v) ->
  exists ids fh hash,
    rmap tx_hash_bytes (g_Transactions t) = Val ids /\
    length header = 80%nat /\
    read_header header = Some (mkHeader (u32 (g_Version t))
      (rev (fst (hex_decode (g_PreviousBlockHash t))))
      (merkle_root hf (hf (SerializeCoinbase job en1 en2) :: ids))
      (be_value ntb) (be_value (fst (hex_decode (g_Bits t)))) (be_value nnb)) /\
    GetHashFunc algs (a_Name (Algorithm (jm_Options jm))) = Val fh /\
    fh header = Val hash /\ v = le_value hash.
Proof.
  cbv zeta. intros (now & id & t & s & ph & rw & msgs & rs & l & j0 & EN & ->) T W Hb Hp Hnt Hnn.
  destruct (NewJob_parts _ _ _ _ _ _ _ _ _ _ EN) as (_ & _ & _ & _ & ids & Hids & Hmt).
  destruct (NewJob_fields _ _ _ _ _ _ _ _ _ _ EN) as (_ & Ht & _).
  unfold work_of. cbn [MerkleTree_of set_submits GetBlockTemplate_of] in *. rewrite Ht in *.
  rewrite T. cbn [rbind].
  change (SerializeCoinbase (set_submits l j0) en1 en2) with (SerializeCoinbase j0 en1 en2).
  set (cb := SerializeCoinbase j0 en1 en2).
  rewrite (MerkleTree_root_aux _ hf ids _ (hf cb) T Hmt). cbn [rbind].
  assert (length (merkle_root hf (hf cb :: ids)) = 32%nat) as Hroot.
  { apply merkle_root_width; [done|done|]. constructor; [apply W|by eapply tx_hashes_width]. }
  rewrite !hex_decode_encode. cbn [fst].
  pose proof (SerializeHeader_layout (set_submits l j0) (ReverseBytes (merkle_root hf (hf cb :: ids))) ntb nnb) as L.
  cbn [GetBlockTemplate_of set_submits] in L. rewrite Ht, ReverseBytes_length in L.
  rewrite (L Hroot Hnt Hnn Hb Hp). cbn [rbind].
  destruct (GetHashFunc _ _) as [fh|]; cbn [rbind]; [|done].
  match goal with |- context [fh ?x] => set (hd := x) end.
  destruct (fh hd) as [hash|] eqn:Eh; cbn [rbind]; [|done].
  intros E. apply Val_pair_inj in E as [<- <-]. exists ids, fh, hash.
  split; [done|]. split.
  { subst hd. rewrite !length_app, !length_rev, le_bytes_length, ReverseBytes_length. lia. }
  split.
  { subst hd. rewrite read_header_layout by (rewrite ?ReverseBytes_length; done).
    rewrite ReverseBytes_rev, rev_involutive. unfold wrapu. by rewrite Z.mod_mod by lia. }
  split; [done|]. split; [done|]. unfold be_value. by rewrite ReverseBytes_rev, rev_involutive.
Qed.
End Spec.

(** ** Properties *)

(** A sha256d pool without fee recipients, and its first job; every hash meets
    the target of [easy_template]. *)
Definition sample_options : Options :=
  {| DisablePayment := true;
     Coin := mkCoinOptions "coin" "CN" false None "POW" false false;
     Engine := "gbt"; PoolAddress := mkRecipient sample_script "script" fzero None;
     RewardRecipients := []; BlockRefreshInterval := 0; JobRebroadcastTimeout := 0;
     ConnectionTimeout := 0; TCPProxyProtocol := false; Banning := None; Ports := []; Daemons := [];
     P2P := None; Algorithm := mkAlgorithmOptions "sha256d" 0 true "" ""; Payment := None |}.
Definition template_with (target : string) : GetBlockTemplate :=
  {| g_Version := 0x20000000; g_Bits := "207fffff"; g_CurTime := 1700000000; g_Height := 840000;
     g_PreviousBlockHash := "000000000000000000000000000000000000000000000000000000000000abcd";
     g_Transactions := [mkTx "0100" "" "11223344556677889900aabbccddeeff11223344556677889900aabbccddeeff"];
     g_CoinbaseAuxFlags := ""; g_CoinbaseValue := 625000000;
     g_DefaultWitnessCommitment := ""; g_Target := target;
     g_Masternode := []; g_Superblock := [];
     g_CoinbasePayload := ""; g_Votes := []; g_MasternodePayments := IJson JNull;
     g_Payee := IJson JNull; g_PayeeAmount := IJson JNull |}.
Definition easy_target : string := "ffffffffffffffffffffffffffffffffffffffffffffffffffffffffffffffff".
Definition hard_target : string := "01".

Definition sample_algs : Algorithms := @initial_algorithms sha_primitives.
Definition no_manager : JobManager :=
  mkJobManager (mkRecipient "" "" fzero None) sample_options [] 0 [] None ∅ (fun b => Val b).
Definition manager0 : JobManager := get no_manager (NewJobManager sample_algs sample_options).
Definition job_random : bytes := be_bytes 8 1.
Definition manager1 (target : string) : JobManager :=
  get no_manager (@ProcessTemplate hex_codec amd64 1700000000 job_random (template_with target) manager0).
(** A submission against that job at a difficulty of 2^-60. *)
Definition tiny : bigfloat := BigF 53 (float_dyadic 1 (-60)).
Definition submit (jm : JobManager) (en2 nt nn : string) : result (Share * JobManager) :=
  ProcessSubmit sample_algs 1700000005 jm (RandHexUint64 job_random) None tiny (be_bytes 4 7)
    en2 nt nn "1.2.3.4:5" "alice.rig1".
Definition submitted (jm : JobManager) (en2 nt nn : string) : JobManager :=
  get no_manager (let! r := submit jm en2 nt nn in Val (snd r)).
Definition share_of (jm : JobManager) (en2 nt nn : string) : Share :=
  get (base_share "" "" "" "") (let! r := submit jm en2 nt nn in Val (fst r)).

(** In every state the job manager reaches, each registered job id points to
    a live job of that id and the current job is registered under its own id;
    and along any continuation the current job's height never decreases, so
    stale templates are dropped. *)
Theorem jm_reachable_invariant `{AddressCodec} `{Platform} `{PowHashes} algs o jm0 jm jm' :
  NewJobManager algs o = Val jm0 -> rtc (jm_step algs) jm0 jm -> rtc (jm_step algs) jm jm' ->
  jm_wf jm' /\
  (forall h, current_height jm = Some h -> exists h', current_height jm' = Some h' /\ h <= h').
Proof. apply jm_reachable_aux. Qed.
Lemma jm_reachable_invariant_witness :
  jm_wf (submitted (manager1 easy_target) "00000001" "6553f100" "0000000a") /\
  (forall h, current_height (manager1 easy_target) = Some h ->
     exists h', current_height (submitted (manager1 easy_target) "00000001" "6553f100" "0000000a") = Some h' /\ h <= h').
Proof.
  apply (@jm_reachable_invariant hex_codec amd64 sha_primitives sample_algs sample_options manager0
           (manager1 easy_target)).
  - apply get_val. vm_compute. reflexivity.
  - apply rtc_once, (step_template _ 1700000000 job_random (template_with easy_target)).
    apply get_val. vm_compute. reflexivity.
  - apply rtc_once, (step_submit _ 1700000005 _ (RandHexUint64 job_random) None tiny (be_bytes 4 7)
      "00000001" "6553f100" "0000000a" "1.2.3.4:5" "alice.rig1"
      (share_of (manager1 easy_target) "00000001" "6553f100" "0000000a")).
    apply get_pair. vm_compute. reflexivity.
Defined.

(** C1: a share that is credited was earned: its job is live, the extranonce,
    time and nonce pass their size and range checks, the submission was not in
    the job's register and is now, and the hash of the header built from it is
    below the network target (the share then carries the block), or reaches the
    assigned difficulty within one percent, or the difficulty before the last
    retarget; it is credited with exactly the difficulty it satisfied, never with
    the one it happened to reach. *)
Theorem accepted_share_sound `{AddressCodec} `{Platform} `{PowHashes} algs
    now jm jobId prevDiff diff en1 en2 nt nn ip w share jm' :
  ProcessSubmit algs now jm jobId prevDiff diff en1 en2 nt nn ip w = Val (share, jm') ->
  s_ErrorCode share = 0 ->
  let submission := (hex_encode en1 ++ en2 ++ nt ++ nn)%string in
  exists p job header v d,
    jm_ValidJobs jm !! jobId = Some p /\ jm_jobs jm !! p = Some job /\ JobId job = jobId /\
    blen (fst (hex_decode en2)) = jm_ExtraNonce2Size jm /\
    slen nt = 8 /\ ntime_ok now job nt = true /\ slen nn = 8 /\
    ~ (submission ∈ Submits job) /\
    jm' = update_job p (set_submits (Submits job ++ [submission]) job) jm /\
    s_Miner share = fst (worker_names w) /\ s_Rig share = snd (worker_names w) /\
    work_of algs jm job en1 (fst (hex_decode en2)) nt nn = Val (header, v) /\
    share_difficulty (a_Multiplier (Algorithm (jm_Options jm))) v = Val d /\
    credited algs jm job prevDiff diff (SerializeCoinbase job en1 (fst (hex_decode en2))) header v d share.
Proof.
  cbv zeta. rewrite ProcessSubmit_precheck. intros E He.
  destruct (precheck _ _ _ _ _ _ _) as [code|[p job']] eqn:Epre.
  { apply Val_pair_inj in E as [<- _]. cbn in He. apply precheck_code in Epre. lia. }
  destruct (precheck_registered _ _ _ _ _ _ _ _ _ Epre) as (job & Hv & Hj & Hid & Hen & Hnt & Hok & Hnn & Hn & ->).
  destruct (check_work _ _ _ _ _ _ _ _ _ _ _) as [s|] eqn:Ec; cbn [rbind] in E; [|done].
  apply Val_pair_inj in E as [<- <-].
  destruct (check_work_cases _ _ _ _ _ _ _ _ _ _ _ _ Ec eq_refl eq_refl)
    as (header & v & d & Hw & Hd & [(_ & Hm & Hr & Hc)|(Hlow & _)]).
  - exists p, job, header, v, d. repeat (split; [done|]).
    destruct Hc; [eapply credited_block|eapply credited_assigned|eapply credited_previous]; done.
  - rewrite Hlow in He. done.
Qed.
Lemma accepted_share_sound_witness :
  let jm := manager1 hard_target in
  let share := share_of jm "00000001" "6553f100" "0000000a" in
  let submission := (hex_encode (be_bytes 4 7) ++ "00000001" ++ "6553f100" ++ "0000000a")%string in
  exists p job header v d,
    jm_ValidJobs jm !! RandHexUint64 job_random = Some p /\ jm_jobs jm !! p = Some job /\
    JobId job = RandHexUint64 job_random /\
    blen (fst (hex_decode "00000001")) = jm_ExtraNonce2Size jm /\
    slen "6553f100" = 8 /\ ntime_ok 1700000005 job "6553f100" = true /\ slen "0000000a" = 8 /\
    ~ (submission ∈ Submits job) /\
    submitted jm "00000001" "6553f100" "0000000a"
      = update_job p (set_submits (Submits job ++ [submission]) job) jm /\
    s_Miner share = fst (worker_names "alice.rig1") /\ s_Rig share = snd (worker_names "alice.rig1") /\
    work_of sample_algs jm job (be_bytes 4 7) (fst (hex_decode "00000001")) "6553f100" "0000000a" = Val (header, v) /\
    share_difficulty (a_Multiplier (Algorithm (jm_Options jm))) v = Val d /\
    credited sample_algs jm job None tiny
      (SerializeCoinbase job (be_bytes 4 7) (fst (hex_decode "00000001"))) header v d share.
Proof.
  apply (@accepted_share_sound hex_codec amd64 sha_primitives sample_algs 1700000005 (manager1 hard_target)
           (RandHexUint64 job_random) None tiny (be_bytes 4 7)
           "00000001" "6553f100" "0000000a" "1.2.3.4:5" "alice.rig1").
  - apply get_pair. vm_compute. reflexivity.
  - vm_compute. reflexivity.
Defined.

(** C9: double credit.  Over any run of the manager, with templates and submissions
    in any order: when the same submission (the same extranonces, time and nonce, as
    they are spelled) is credited twice under one job id, the manager issued the job
    of that id anew in between.  While a job stands, its submissions are credited at
    most once.  Issuing under an id again is what a template of the same height does
    (jobManager.go:119): it replaces the job by one whose register is empty, and
    [refresh_forgets_submissions] shows the same header credited twice that way. *)
Theorem no_double_credit `{AddressCodec} `{Platform} `{PowHashes} algs jm l1 id k s1 l2 s2 l3 jm' :
  run algs jm (l1 ++ Processed id k s1 :: l2 ++ Processed id k s2 :: l3) jm' ->
  s_ErrorCode s1 = 0 -> s_ErrorCode s2 = 0 ->
  Issued id ∈ l2.
Proof. apply no_double_credit_aux. Qed.

(** A run with a refresh: a submission is credited, refused as a duplicate, and
    credited again after a template of the same height. *)
Definition refreshed (jm : JobManager) : JobManager :=
  get no_manager (@ProcessTemplate hex_codec amd64 1700000000 job_random (template_with hard_target) jm).
Definition refresh_1 : JobManager := submitted (manager1 hard_target) "00000001" "6553f100" "0000000a".
Definition refresh_2 : JobManager := submitted refresh_1 "00000001" "6553f100" "0000000a".
Definition refresh_3 : JobManager := refreshed refresh_2.
Definition refresh_4 : JobManager := submitted refresh_3 "00000001" "6553f100" "0000000a".
Definition refresh_key : submission := (be_bytes 4 7, "00000001", "6553f100", "0000000a")%string.
Definition refresh_share (jm : JobManager) : jm_event :=
  Processed (RandHexUint64 job_random) refresh_key (share_of jm "00000001" "6553f100" "0000000a").

Lemma sample_processed jm l jm' :
  is_val (submit jm "00000001" "6553f100" "0000000a") = true ->
  @run hex_codec amd64 sample_algs (submitted jm "00000001" "6553f100" "0000000a") l jm' ->
  @run hex_codec amd64 sample_algs jm (refresh_share jm :: l) jm'.
Proof. intros E R. eapply run_processed; [|exact R]. apply get_pair. exact E. Qed.
Lemma refresh_issues : exists j, JobId j = RandHexUint64 job_random /\ refresh_3 = install j refresh_2 /\
  @ProcessTemplate hex_codec amd64 1700000000 job_random (template_with hard_target) refresh_2 = Val (install j refresh_2).
Proof.
  assert (@ProcessTemplate hex_codec amd64 1700000000 job_random (template_with hard_target) refresh_2 = Val refresh_3) as E
    by (apply get_val; vm_compute; reflexivity).
  assert (option_map (fun c => (g_Height (GetBlockTemplate_of c), JobId c)) (current_job refresh_2)
          = Some (840000, RandHexUint64 job_random)) as Ec by (vm_compute; reflexivity).
  rewrite E. destruct (ProcessTemplate_cases _ _ _ _ _ E) as [(_ & c & Hc & Hlt)|(j & -> & Ht & _ & Hj)].
  - rewrite Hc in Ec. injection Ec as Eh _. cbn in Hlt. lia.
  - exists j. split; [|split; reflexivity]. destruct (current_job refresh_2) as [c|]; [|discriminate Ec].
    injection Ec as Eh Ei. destruct Hj as [_ ->]. by rewrite Ei, Eh.
Qed.
Lemma refresh_run :
  @run hex_codec amd64 sample_algs (manager1 hard_target)
    ([] ++ refresh_share (manager1 hard_target) ::
     [refresh_share refresh_1; Issued (RandHexUint64 job_random)] ++ refresh_share refresh_3 :: []) refresh_4.
Proof.
  apply sample_processed; [vm_compute; reflexivity|]. fold refresh_1.
  apply sample_processed; [vm_compute; reflexivity|]. fold refresh_2.
  assert (@run hex_codec amd64 sample_algs refresh_3 [refresh_share refresh_3] refresh_4) as R
    by (apply sample_processed; [vm_compute; reflexivity|constructor]).
  destruct refresh_issues as (j & Hj & E3 & E). rewrite E3 in R at 1. rewrite <- Hj. exact (run_issued _ _ _ _ _ _ _ _ E R).
Qed.
Lemma no_double_credit_witness :
  Issued (RandHexUint64 job_random) ∈ [refresh_share refresh_1; Issued (RandHexUint64 job_random)].
Proof.
  eapply (@no_double_credit hex_codec amd64 sha_primitives sample_algs (manager1 hard_target)).
  - exact refresh_run.
  - vm_compute. reflexivity.
  - vm_compute. reflexivity.
Defined.

(** The pool credits one and the same header again after a template of the same
    height that changes nothing, when it arrives within the second: the new job has
    the id, the coinbase and the merkle branches of the old one, and no submission. *)
Theorem refresh_forgets_submissions :
  let work jm p := work_of sample_algs jm (default sample_job (jm_jobs jm !! p)) (be_bytes 4 7)
                     (fst (hex_decode "00000001")) "6553f100" "0000000a" in
  work refresh_1 0%nat = work refresh_3 1%nat /\
  map (fun jm => s_ErrorCode (share_of jm "00000001" "6553f100" "0000000a")) [manager1 hard_target; refresh_1; refresh_3]
    = [0; ErrDuplicateShare; 0].
Proof. vm_compute. split; reflexivity. Qed.

(** C33: a share that is not credited has no difficulty and carries no block, and
    unless its hash was computed and found too easy (code 26) it leaves the
    manager as it was. *)
Theorem rejected_share_no_effect `{AddressCodec} `{Platform} `{PowHashes} algs
    now jm jobId prevDiff diff en1 en2 nt nn ip w share jm' :
  ProcessSubmit algs now jm jobId prevDiff diff en1 en2 nt nn ip w = Val (share, jm') ->
  s_ErrorCode share <> 0 ->
  20 <= s_ErrorCode share <= 26 /\ s_BlockHex share = EmptyString /\ s_Diff share = fzero /\
  (s_ErrorCode share <> ErrLowDiffShare -> jm' = jm).
Proof.
  rewrite ProcessSubmit_precheck. intros E He.
  destruct (precheck _ _ _ _ _ _ _) as [code|[p job']] eqn:Epre.
  { apply Val_pair_inj in E as [<- <-]. apply precheck_code in Epre. cbn in *.
    split; [lia|]. done. }
  destruct (check_work _ _ _ _ _ _ _ _ _ _ _) as [s|] eqn:Ec; cbn [rbind] in E; [|done].
  apply Val_pair_inj in E as [<- <-].
  destruct (check_work_cases _ _ _ _ _ _ _ _ _ _ _ _ Ec eq_refl eq_refl)
    as (header & v & d & _ & _ & [(Hz & _)|(Hlow & Hb & Hdz & _)]); [done|].
  rewrite Hlow. unfold ErrLowDiffShare. split; [lia|]. repeat (split; [done|]). lia.
Qed.
Lemma rejected_share_no_effect_witness :
  let jm := manager1 hard_target in
  let share := share_of jm "0001" "6553f100" "0000000a" in
  20 <= s_ErrorCode share <= 26 /\ s_BlockHex share = EmptyString /\ s_Diff share = fzero /\
  (s_ErrorCode share <> ErrLowDiffShare -> submitted jm "0001" "6553f100" "0000000a" = jm).
Proof.
  apply (@rejected_share_no_effect hex_codec amd64 sha_primitives sample_algs 1700000005 (manager1 hard_target)
           (RandHexUint64 job_random) None tiny (be_bytes 4 7)
           "0001" "6553f100" "0000000a" "1.2.3.4:5" "alice.rig1").
  - apply get_pair. vm_compute. reflexivity.
  - vm_compute. discriminate.
Defined.

(** C2: a block found through the pool is a valid proof of work over the pool's
    own template: in any reachable state, when a submission of a well-formed time
    and nonce yields a share carrying a block, the block reads back as an 80-byte
    header, the transaction count and the coinbase followed by the template's
    transactions; the header commits to the template's version, previous hash
    and bits and to the merkle root of exactly those transactions; and its hash
    under the coin's algorithm is below the template's target. *)
Theorem found_block_valid `{AddressCodec} `{Platform} `{PowHashes} algs o jm0 jm hf
    now jobId p job prevDiff diff en1 en2 ntb nnb ip w share jm' :
  NewJobManager algs o = Val jm0 -> rtc (jm_step algs) jm0 jm ->
  total_hasher (jm_CoinbaseHasher jm) hf -> (forall b, length (hf b) = 32%nat) ->
  jm_ValidJobs jm !! jobId = Some p -> jm_jobs jm !! p = Some job ->
  length (fst (hex_decode (g_Bits (GetBlockTemplate_of job)))) = 4%nat ->
  length (fst (hex_decode (g_PreviousBlockHash (GetBlockTemplate_of job)))) = 32%nat ->
  Z.of_nat (length (g_Transactions (GetBlockTemplate_of job))) < 2 ^ 63 ->
  length ntb = 4%nat -> length nnb = 4%nat ->
  ProcessSubmit algs now jm jobId prevDiff diff en1 en2 (hex_encode ntb) (hex_encode nnb) ip w
    = Val (share, jm') ->
  s_BlockHex share <> EmptyString ->
  let t := GetBlockTemplate_of job in
  let coinbase := SerializeCoinbase job en1 (fst (hex_decode en2)) in
  exists block header ids txs fh hash target,
    s_BlockHex share = hex_encode block /\
    read_block block = Some (header, 1 + Z.of_nat (length (g_Transactions t)),
                             coinbase ++ concat txs ++ GetVoteData job) /\
    rmap tx_hash_bytes (g_Transactions t) = Val ids /\ rmap tx_data (g_Transactions t) = Val txs /\
    read_header header = Some (mkHeader (u32 (g_Version t))
      (rev (fst (hex_decode (g_PreviousBlockHash t)))) (merkle_root hf (hf coinbase :: ids))
      (be_value ntb) (be_value (fst (hex_decode (g_Bits t)))) (be_value nnb)) /\
    GetHashFunc algs (a_Name (Algorithm (jm_Options jm))) = Val fh /\ fh header = Val hash /\
    job_target t = Val target /\ le_value hash < target.
Proof.
  cbv zeta. intros HN R T W Hv Hj Hb Hp Hlen Hnt Hnn E Hblk.
  assert (built (jm_CoinbaseHasher jm) job) as B.
  { pose proof (built_reachable _ _ _ _ HN R) as F. by eapply Forall_lookup_1 in F. }
  rewrite ProcessSubmit_precheck in E.
  destruct (precheck _ _ _ _ _ _ _) as [code|[q job']] eqn:Epre.
  { apply Val_pair_inj in E as [<- _]. done. }
  destruct (precheck_registered _ _ _ _ _ _ _ _ _ Epre) as (job1 & Hv1 & Hj1 & _ & _ & _ & _ & _ & _ & ->).
  rewrite Hv in Hv1. injection Hv1 as <-. rewrite Hj in Hj1. injection Hj1 as <-.
  destruct (check_work _ _ _ _ _ _ _ _ _ _ _) as [s|] eqn:Ec; cbn [rbind] in E; [|done].
  apply Val_pair_inj in E as [<- <-].
  destruct (check_work_cases _ _ _ _ _ _ _ _ _ _ _ _ Ec eq_refl eq_refl)
    as (header & v & d & Hw & Hd & [(_ & _ & _ & Hc)|(_ & Hbh & _)]); [|done].
  destruct (work_of_built algs _ _ hf _ _ _ _ _ _ (built_submits _ _ _ B) T W Hb Hp Hnt Hnn Hw)
    as (ids & fh & hash & Hids & Hl & Hread & Hfh & Hhash & ->).
  destruct Hc as [bh Hlt Hbhh _ _ Hhex _|? ? ? ? ? Hhex|? ? ? ? ? ? ? ? Hhex];
    [|by rewrite Hhex in Hblk|by rewrite Hhex in Hblk].
  destruct B as (n0 & id0 & t0 & s0 & ph & rw & msgs & rs & l & j0 & EN & ->).
  destruct (NewJob_parts _ _ _ _ _ _ _ _ _ _ EN) as (Htgt & Htx & Htd & Hrw & _).
  destruct (NewJob_fields _ _ _ _ _ _ _ _ _ _ EN) as (_ & Ht & _).
  cbn [GetBlockTemplate_of set_submits Target] in *. rewrite Ht in *.
  set (txs := match rmap tx_data _ with Val l => l | Panic _ => [] end) in *.
  eexists _, header, ids, txs, fh, hash, (Target j0).
  split; [exact Hhex|]. repeat split; try done.
  unfold SerializeBlock. cbn [Reward set_submits GetBlockTemplate_of TransactionData].
  rewrite Hrw, Ht, Htd. unfold read_block. rewrite (read_exact_n 80) by done. cbn [mbind option_bind].
  rewrite wrapu_small, read_compact_VarInt_aux by lia. cbn [mbind option_bind].
  change (String.eqb EmptyString "POS") with false. cbv iota. rewrite app_nil_r.
  by rewrite Z.add_comm.
Qed.

Definition job1 : Job := default sample_job (jm_jobs (manager1 easy_target) !! 0%nat).
Lemma found_block_valid_witness :
  let jm := manager1 easy_target in
  let t := GetBlockTemplate_of job1 in
  let coinbase := SerializeCoinbase job1 (be_bytes 4 7) (fst (hex_decode "00000001")) in
  exists block header ids txs fh hash target,
    s_BlockHex (share_of jm "00000001" (hex_encode (be_bytes 4 1700000000)) (hex_encode (be_bytes 4 10)))
      = hex_encode block /\
    read_block block = Some (header, 1 + Z.of_nat (length (g_Transactions t)),
                             coinbase ++ concat txs ++ GetVoteData job1) /\
    rmap tx_hash_bytes (g_Transactions t) = Val ids /\ rmap tx_data (g_Transactions t) = Val txs /\
    read_header header = Some (mkHeader (u32 (g_Version t))
      (rev (fst (hex_decode (g_PreviousBlockHash t)))) (merkle_root Sha256d (Sha256d coinbase :: ids))
      (be_value (be_bytes 4 1700000000)) (be_value (fst (hex_decode (g_Bits t)))) (be_value (be_bytes 4 10))) /\
    GetHashFunc sample_algs (a_Name (Algorithm (jm_Options jm))) = Val fh /\ fh header = Val hash /\
    job_target t = Val target /\ le_value hash < target.
Proof.
  apply (@found_block_valid hex_codec amd64 sha_primitives sample_algs sample_options manager0
           (manager1 easy_target) Sha256d 1700000005 (RandHexUint64 job_random) 0%nat job1
           None tiny (be_bytes 4 7) "00000001" (be_bytes 4 1700000000) (be_bytes 4 10)
           "1.2.3.4:5" "alice.rig1" _
           (submitted (manager1 easy_target) "00000001" (hex_encode (be_bytes 4 1700000000)) (hex_encode (be_bytes 4 10)))).
  - apply get_val. vm_compute. reflexivity.
  - apply rtc_once, (step_template _ 1700000000 job_random (template_with easy_target)).
    apply get_val. vm_compute. reflexivity.
  - intros b. reflexivity.
  - intros b. apply Sha256d_length.
  - vm_compute. reflexivity.
  - reflexivity.
  - vm_compute. reflexivity.
  - vm_compute. reflexivity.
  - vm_compute. reflexivity.
  - reflexivity.
  - reflexivity.
  - apply get_pair. vm_compute. reflexivity.
  - vm_compute. discriminate.
Defined.

(** The register compares the hexadecimal text, not the values it encodes:
    the same work is credited again when a nonce digit changes case, and any
    number of times more when characters that are not hexadecimal follow a valid
    extranonce2 (the decoding error is only logged). *)
Theorem duplicate_share_by_spelling :
  let jm := manager1 hard_target in
  let jm1 := submitted jm "00000001" "6553f100" "0000000a" in
  let jm2 := submitted jm1 "00000001" "6553f100" "0000000A" in
  let work nn en2 := 
    work_of sample_algs jm (default sample_job (jm_jobs jm !! 0%nat)) (be_bytes 4 7)
      (fst (hex_decode en2)) "6553f100" nn in
  work "0000000a" "00000001" = work "0000000A" "00000001" /\
  work "0000000a" "00000001" = work "0000000a" "00000001zz" /\
  map s_ErrorCode
    [share_of jm "00000001" "6553f100" "0000000a";
     share_of jm1 "00000001" "6553f100" "0000000a";
     share_of jm1 "00000001" "6553f100" "0000000A";
     share_of jm2 "00000001zz" "6553f100" "0000000a"]
  = [0; ErrDuplicateShare; 0; 0].
Proof. vm_compute. repeat split; reflexivity. Qed.

(** The range check on the time passes a negative number: [ParseInt] accepts
    a sign, and the lower bound is tested on the value wrapped to 32 bits.  The
    share is then credited on a header whose time field is missing. *)
Theorem negative_ntime_accepted :
  let jm := manager1 hard_target in
  let job := default sample_job (jm_jobs jm !! 0%nat) in
  fst (ParseInt "-0000001" 16) = -1 /\
  ntime_ok 1700000005 job "-0000001" = true /\
  fst (hex_decode "-0000001") = [] /\
  s_ErrorCode (share_of jm "00000001" "-0000001" "0000000a") = 0.
Proof. vm_compute. repeat split; reflexivity. Qed.
