(* ===== verification/EngineWork.v ===== *)
(** * EngineWork: what the engines under src/engine share

    Every engine keeps the jobs it handed out in a history of bounded length,
    each job with the register of the submissions it has seen, and answers a
    submission by the same steps: decode the parameters, find the job, refuse a
    repetition, recompute the proof of work, compare it with the difficulty and
    hand a block to the node.  This file has those pieces: the job book, the node
    as a log with answers, errors beside panics, hexadecimal spellings, and the
    interface [ShareChecker] through which the engines' theorems are proved. *)
From Stdlib Require Import ZArith Lia List Strings.Ascii Strings.String Strings.Byte.
From stdpp Require Import base list strings gmap sets.
From S2P Require Import Prelude Bytes Float Strconv Utils Types Effects Algorithm Engine.
Import ListNotations.
Local Open Scope Z_scope.
Local Open Scope go_scope.

(** ** Errors beside panics: [if err != nil { return nil, err }] *)
Notation "'chk!' x ':=' m 'in' k" :=
  (rbind m (fun r => match r with Ok x => k | Err e => Val (Err e) end))
  (at level 10, x pattern, m at level 100, k at level 200,
   format "'chk!'  x  ':='  m  'in' '//' k") : go_scope.
Definition fail {A} (msg : string) : result (err_or A) := Val (Err msg).
Definition ok {A} (a : A) : result (err_or A) := Val (Ok a).

(** ** Indexing and slicing panic out of range *)
Definition index {A} (l : list A) (i : Z) : result A :=
  if i <? 0 then Panic "index out of range"
  else match l !! Z.to_nat i with Some a => Val a | None => Panic "index out of range" end.
Definition slice {A} (l : list A) (lo hi : Z) : result (list A) :=
  if (lo <? 0) || (hi <? lo) || (Z.of_nat (length l) <? hi) then Panic "slice bounds out of range"
  else Val (take (Z.to_nat (hi - lo)) (drop (Z.to_nat lo) l)).

Lemma index_lookup {A} (l : list A) (i : nat) a : l !! i = Some a -> index l (Z.of_nat i) = Val a.
Proof.
  intros E. unfold index. replace (Z.of_nat i <? 0) with false by (symmetry; apply Z.ltb_ge; lia).
  by rewrite Nat2Z.id, E.
Qed.
Lemma slice_app {A} (a b c : list A) :
  slice (a ++ b ++ c) (Z.of_nat (length a)) (Z.of_nat (length a + length b)) = Val b.
Proof.
  unfold slice. rewrite !length_app.
  replace (_ || _) with false by (symmetry; rewrite !orb_false_iff; repeat split; apply Z.ltb_ge; lia).
  rewrite Nat2Z.id, drop_app_length. replace (Z.to_nat _) with (length b) by lia. by rewrite take_app_length.
Qed.

(** ** Parameters *)
Definition str_param (params : list json) (i : nat) : option string :=
  match params !! i with Some (JStr s) => Some s | _ => None end.
(** [s, _ := obj[key].(string)]: the last of equal keys counts. *)
Definition obj_string (obj : list (string * json)) (key : string) : string :=
  match find (fun p => String.eqb (fst p) key) (rev obj) with Some (_, JStr s) => s | _ => EmptyString end.
(** [strings.ToLower(strings.TrimPrefix(s, "0x"))] *)
Definition plain_hex (s : string) : string := to_lower (trim_prefix "0x" s).
Definition EqualFold (a b : string) : bool := String.eqb (to_lower a) (to_lower b).
(** [strconv.FormatUint(n, 16)] *)
Definition FormatHex (n : Z) : string := Text16 n.

(** [new(big.Int).SetString(s, base)]: an optional sign and at least one digit. *)
Fixpoint parse_int_digits (base : Z) (s : string) (n : Z) : option Z :=
  match s with
  | EmptyString => Some n
  | String c s' =>
      match digit_value c with
      | Some d => if base <=? d then None else parse_int_digits base s' (n * base + d)
      | None => None
      end
  end.
Definition BigSetString (base : Z) (s : string) : option Z :=
  let '(neg, t) := strip_sign s in
  match t with
  | EmptyString => None
  | _ => n ← parse_int_digits base t 0; Some (if (neg : bool) then - n else n)
  end.

(** ** Shares *)
Definition new_share (s : Session) : Share := base_share "" (SessionRemoteAddr s) (SessionWorkerName s) "".
Definition refused (code : Z) (s : Session) : Share := set_error code (new_share s).
Definition set_job (id : string) (height : Z) (sh : Share) : Share :=
  mkShare id (s_RemoteAddr sh) (s_Miner sh) (s_Rig sh) (s_ErrorCode sh) height (s_BlockReward sh)
    (s_Diff sh) (s_BlockHash sh) (s_BlockHex sh) (s_TxHash sh).
Definition set_reward (reward : Z) (sh : Share) : Share :=
  set_block (s_BlockHeight sh) reward (s_BlockHash sh) (s_BlockHex sh) sh.
Definition set_hash (hash hex : string) (sh : Share) : Share :=
  set_block (s_BlockHeight sh) (s_BlockReward sh) hash hex sh.

(** [TargetFromDiff] as a number: [Cmp] with a nil big.Int dereferences it. *)
Definition share_target (base : Z) (diff : float64) : result Z :=
  let! t := TargetFromDiff base diff in
  match t with Some t => Val t | None => Panic "nil pointer dereference" end.

(** ** The job book

    A job object is shared by [cur] and [history], so it lives in a heap; the
    register [seen] is its only mutable part. *)
Record Entry (J : Type) := mkEntry { en_job : J; en_seen : gset string }.
Arguments mkEntry {J}.
Arguments en_job {J}.
Arguments en_seen {J}.
Record Book (J : Type) := mkBook {
  bk_heap : list (Entry J);
  bk_cur : option nat;
  bk_history : gmap string nat;
}.
Arguments mkBook {J}.
Arguments bk_heap {J}.
Arguments bk_cur {J}.
Arguments bk_history {J}.
Definition empty_book {J} : Book J := mkBook [] None ∅.

Section Book_operations.
Context {J : Type} `{MapOrder}.

(** [for k := range history { if k != id && len(history) > limit { delete } }] *)
Definition evict (limit : nat) (id : string) (h : gmap string nat) : gmap string nat :=
  fold_left (fun h k => if negb (String.eqb k id) && (limit <? size h)%nat then delete k h else h)
    (map fst (range h)) h.

(** A new job becomes current and enters the history. *)
Definition publish (limit : nat) (id : string) (j : J) (b : Book J) : Book J :=
  let p := length (bk_heap b) in
  let h := <[id := p]> (bk_history b) in
  mkBook (bk_heap b ++ [mkEntry j ∅]) (Some p) (if (limit <? size h)%nat then evict limit id h else h).

Definition current (b : Book J) : option J := p ← bk_cur b; en_job <$> bk_heap b !! p.
(** [e.history[id]] *)
Definition find_job (id : string) (b : Book J) : option (nat * Entry J) :=
  p ← bk_history b !! id; (fun e => (p, e)) <$> bk_heap b !! p.
(** [j.seen[key] = struct{}{}] *)
Definition mark (p : nat) (key : string) (b : Book J) : Book J :=
  mkBook (alter (fun e => mkEntry (en_job e) ({[key]} ∪ en_seen e)) p (bk_heap b)) (bk_cur b) (bk_history b).

Definition seen (b : Book J) (p : nat) (key : string) : Prop :=
  exists e, bk_heap b !! p = Some e /\ key ∈ en_seen e.

(** *** The register only grows, whatever is evicted *)
Lemma seen_publish limit id j b p key : seen (publish limit id j b) p key <-> seen b p key.
Proof.
  unfold seen, publish. cbn. split; intros (e & He & Hk); exists e; (split; [|done]).
  - apply lookup_app_Some in He as [?|[Hlen He]]; [done|].
    destruct (p - length (bk_heap b))%nat; [|done]. cbn in He. apply (inj Some) in He as <-.
    cbn in Hk. by apply not_elem_of_empty in Hk.
  - by apply lookup_app_l_Some.
Qed.

Lemma seen_mark p key b q k :
  seen (mark p key b) q k <-> seen b q k \/ (q = p /\ k = key /\ (p < length (bk_heap b))%nat).
Proof.
  unfold seen, mark. cbn. destruct (decide (q = p)) as [->|Hne].
  - rewrite list_lookup_alter_eq. destruct (bk_heap b !! p) as [e|] eqn:E; cbn.
    + pose proof (lookup_lt_Some _ _ _ E). split.
      * intros (e' & [= <-] & Hk). cbn in Hk. apply elem_of_union in Hk as [Hk|Hk]; [right|left; by exists e].
        by apply elem_of_singleton in Hk as ->.
      * intros [(e' & [= <-] & Hk)|(_ & -> & _)]; eexists; (split; [done|]); cbn; set_solver.
    + apply lookup_ge_None in E. split; [by intros (? & ? & _)|]. intros [(? & ? & _)|(_ & _ & ?)]; [done|lia].
  - rewrite list_lookup_alter_ne by done. split; [by left|]. by intros [?|(? & _)].
Qed.

(** Where a job is found, for concrete runs. *)
Lemma find_job_default d id b p :
  bk_history b !! id = Some p -> (p <? length (bk_heap b))%nat = true ->
  find_job id b = Some (p, default d (bk_heap b !! p)).
Proof.
  intros Hh Hl. zbool. unfold find_job. rewrite Hh. cbn. by destruct (lookup_lt_is_Some_2 _ _ Hl) as [e ->].
Qed.
Lemma current_default d b p :
  bk_cur b = Some p -> (p <? length (bk_heap b))%nat = true -> current b = Some (en_job (default d (bk_heap b !! p))).
Proof.
  intros Hc Hl. zbool. unfold current. rewrite Hc. cbn. by destruct (lookup_lt_is_Some_2 _ _ Hl) as [e ->].
Qed.

Lemma find_job_seen id b p e : find_job id b = Some (p, e) ->
  bk_heap b !! p = Some e /\ (p < length (bk_heap b))%nat /\ forall k, seen b p k <-> k ∈ en_seen e.
Proof.
  unfold find_job. destruct (bk_history b !! id) as [q|]; [|done]. cbn.
  destruct (bk_heap b !! q) as [e'|] eqn:E; [|done]. cbn. intros [= -> ->].
  split; [done|]. split; [by eapply lookup_lt_Some|]. unfold seen. rewrite E.
  intros k. split; [by intros (? & [= <-] & ?)|by exists e].
Qed.

Lemma find_job_mark id b p key q en en0 :
  find_job id (mark p key b) = Some (q, en) -> find_job id b = Some (p, en0) ->
  q = p /\ en = mkEntry (en_job en0) ({[key]} ∪ en_seen en0).
Proof.
  unfold find_job, mark. cbn. destruct (bk_history b !! id) as [r|]; [|done]. cbn.
  destruct (bk_heap b !! r) as [en'|] eqn:Er; [|done]. cbn. intros F [= -> ->].
  rewrite list_lookup_alter_eq, Er in F. cbn in F. by injection F as <- <-.
Qed.

(** *** The history stays short and keeps the new job *)
Definition evict_step (limit : nat) (id : string) (h : gmap string nat) (k : string) : gmap string nat :=
  if negb (String.eqb k id) && (limit <? size h)%nat then delete k h else h.

Lemma evict_step_spec limit id h k :
  evict_step limit id h k ⊆ h /\ evict_step limit id h k !! id = h !! id.
Proof.
  unfold evict_step. destruct (String.eqb_spec k id) as [->|Hne]; [done|]. cbn [negb andb].
  destruct (limit <? size h)%nat; [|done]. split; [apply delete_subseteq|by apply lookup_delete_ne].
Qed.

Lemma evict_fold limit id l h :
  (forall k, is_Some (h !! k) -> k <> id -> k ∈ l \/ (size h <= limit)%nat) -> (1 <= limit)%nat ->
  let h' := fold_left (evict_step limit id) l h in
  h' ⊆ h /\ h' !! id = h !! id /\ (size h' <= limit)%nat.
Proof.
  revert h; induction l as [|k l IH]; intros h Hl H1; cbn [fold_left].
  - split; [done|]. split; [done|]. destruct (decide (size h <= limit)%nat) as [|Hgt]; [done|]. exfalso.
    apply Hgt. transitivity (size (dom h)); [by rewrite size_dom|].
    transitivity (size ({[id]} : gset string)); [|by rewrite size_singleton].
    apply subseteq_size. intros k Hk. apply elem_of_dom in Hk. apply elem_of_singleton.
    destruct (decide (k = id)) as [|Hne]; [done|]. by destruct (Hl k Hk Hne) as [?%elem_of_nil|?].
  - destruct (evict_step_spec limit id h k) as [Hsub Hid].
    destruct (IH (evict_step limit id h k)) as (A & B & C); [|done|].
    + intros k' Hk' Hne'. destruct (decide (size (evict_step limit id h k) <= limit)%nat) as [|Hgt]; [by right|].
      left. assert (k' ∈ k :: l) as Hin.
      { destruct (Hl k') as [?|Hs]; [|done|done|].
        - destruct Hk' as [x Hx]. exists x. by eapply lookup_weaken.
        - exfalso. apply Hgt. etransitivity; [|exact Hs]. by apply map_subseteq_size. }
      apply elem_of_cons in Hin as [->|?]; [|done]. exfalso. revert Hk' Hgt. unfold evict_step.
      rewrite (proj2 (String.eqb_neq _ id) Hne'). cbn [negb andb]. destruct (limit <? size h)%nat eqn:E; zbool; [|lia].
      rewrite lookup_delete_eq. by intros [].
    + split; [by etransitivity|]. split; [by rewrite B|done].
Qed.

Lemma publish_history limit id j b :
  (1 <= limit)%nat ->
  let b' := publish limit id j b in
  (size (bk_history b') <= limit)%nat /\ bk_history b' !! id = Some (length (bk_heap b)) /\
  (forall k p, bk_history b' !! k = Some p -> k <> id -> bk_history b !! k = Some p).
Proof.
  intros H1. unfold publish. cbv zeta. cbn [bk_history bk_heap]. set (h := <[id := _]> _).
  assert (Hid : h !! id = Some (length (bk_heap b))) by (subst h; by rewrite lookup_insert_eq).
  assert (Hother : forall k p, h !! k = Some p -> k <> id -> bk_history b !! k = Some p).
  { intros k p Hk Hne. subst h. by rewrite lookup_insert_ne in Hk. }
  destruct (limit <? size h)%nat eqn:E; zbool.
  2:{ split; [lia|]. split; [exact Hid|exact Hother]. }
  destruct (evict_fold limit id (map fst (range h)) h) as (A & B & C); [|done|].
  - intros k [x Hk] _. left. apply list_elem_of_fmap. exists (k, x). split; [done|]. by apply elem_of_range.
  - change (fold_left _ _ h) with (evict limit id h) in A, B, C. split; [done|]. split; [by rewrite <- Hid|]. intros k p Hk Hne. apply Hother; [|done].
    by eapply lookup_weaken.
Qed.

Lemma current_publish limit id j b : current (publish limit id j b) = Some j.
Proof. unfold current, publish. cbn. by rewrite (list_lookup_middle _ []). Qed.
End Book_operations.
#[export] Hint Rewrite @seen_publish @seen_mark : go.

(** ** Spellings

    A lower-case hexadecimal string is determined by what it decodes to: by its
    bytes, or by its value and its length. *)
Definition is_lower (s : string) : Prop := to_lower s = s.
Lemma plain_hex_lower s : is_lower (plain_hex s).
Proof. unfold is_lower, plain_hex. apply to_lower_idemp. Qed.
Lemma is_lower_cons c s : is_lower (String c s) -> lower_ascii c = c /\ is_lower s.
Proof. unfold is_lower. cbn [to_lower]. intros E. split; congruence. Qed.

Lemma hex_value_canonical c v :
  lower_ascii c = c -> hex_value (byte_of_ascii c) = Some v -> 0 <= v < 16 /\ hex_digit v = byte_of_ascii c.
Proof.
  destruct c as [[] [] [] [] [] [] [] []]; vm_compute; intros ?; try discriminate;
    intros [= <-]; repeat split; discriminate.
Qed.
Lemma hex_decode_bytes_canonical s b :
  is_lower s -> hex_decode_bytes (bytes_of_string s) = (b, true) -> hex_encode_bytes b = bytes_of_string s.
Proof.
  assert (forall n s b, (String.length s <= n)%nat -> is_lower s ->
            hex_decode_bytes (bytes_of_string s) = (b, true) -> hex_encode_bytes b = bytes_of_string s) as W.
  2:{ apply (W (String.length s)). lia. }
  clear. induction n as [|n IH]; intros s b Hn Hl.
  { destruct s; [|cbn in Hn; lia]. cbn. by intros [= <-]. }
  destruct s as [|c [|d s]].
  - cbn. by intros [= <-].
  - cbn. discriminate.
  - apply is_lower_cons in Hl as [Hc Hl]. apply is_lower_cons in Hl as [Hd Hl].
    change (bytes_of_string (String c (String d s)))
      with (byte_of_ascii c :: byte_of_ascii d :: bytes_of_string s). cbn [hex_decode_bytes].
    destruct (hex_value (byte_of_ascii c)) as [x|] eqn:Ex; [|intros [=]].
    destruct (hex_value (byte_of_ascii d)) as [y|] eqn:Ey; [|intros [=]].
    destruct (hex_decode_bytes (bytes_of_string s)) as [r k] eqn:E. intros Er.
    assert (b = byte_of_Z (16 * x + y) :: r) as -> by congruence. assert (k = true) as -> by congruence.
    apply hex_value_canonical in Ex as [Rx Dx]; [|done]. apply hex_value_canonical in Ey as [Ry Dy]; [|done].
    cbn [hex_encode_bytes]. rewrite Z_of_byte_of_Z, Z.mod_small by lia.
    replace ((16 * x + y) / 16) with x by (apply Z.div_unique with y; lia).
    replace ((16 * x + y) mod 16) with y by (apply Z.mod_unique with x; lia).
    rewrite Dx, Dy. do 2 f_equal. apply IH; [cbn in Hn; lia|done|done].
Qed.
Lemma hex_decode_canonical s b : is_lower s -> hex_decode s = (b, true) -> hex_encode b = s.
Proof.
  intros Hl E. unfold hex_encode. rewrite (hex_decode_bytes_canonical s b Hl E).
  apply string_of_bytes_of_string.
Qed.

Lemma digit_value_char c v :
  lower_ascii c = c -> digit_value c = Some v -> chr (if v <? 10 then 48 + v else 87 + v) = c.
Proof.
  destruct c as [[] [] [] [] [] [] [] []]; vm_compute; intros ?; try discriminate; by intros [= <-].
Qed.
Lemma digit_value_canonical c d v :
  lower_ascii c = c -> lower_ascii d = d -> digit_value c = Some v -> digit_value d = Some v -> c = d.
Proof. intros Hc Hd E1 E2. by rewrite <- (digit_value_char c v), <- (digit_value_char d v). Qed.

Lemma digit_value_nonneg c v : digit_value c = Some v -> 0 <= v.
Proof.
  unfold digit_value. repeat match goal with |- context [(?a <=? ?b)%Z] => destruct (Z.leb_spec a b) end;
    cbn; intros E; try discriminate; apply (inj Some) in E; lia.
Qed.

Lemma parse_digits_canonical s t n m v :
  String.length s = String.length t -> is_lower s -> is_lower t ->
  parse_digits 16 s n = (v, None) -> parse_digits 16 t m = (v, None) -> n = m /\ s = t.
Proof.
  revert t n m; induction s as [|c s IH]; intros [|d t] n m Hlen Hs Ht; cbn [parse_digits]; try discriminate.
  - by intros [= ->] [= ->].
  - apply is_lower_cons in Hs as [Hc Hs]. apply is_lower_cons in Ht as [Hd Ht]. injection Hlen as Hlen.
    destruct (digit_value c) as [x|] eqn:Ex; [|discriminate]. destruct (16 <=? x) eqn:Bx; [discriminate|].
    destruct (_ <=? n * 16 + x); [discriminate|].
    destruct (digit_value d) as [y|] eqn:Ey; [|discriminate]. destruct (16 <=? y) eqn:By; [discriminate|].
    destruct (_ <=? m * 16 + y); [discriminate|]. intros E1 E2. zbool.
    destruct (IH t _ _ Hlen Hs Ht E1 E2) as [E ->].
    pose proof (digit_value_nonneg _ _ Ex). pose proof (digit_value_nonneg _ _ Ey).
    assert (n = m /\ x = y) as [-> ->] by lia. split; [done|]. f_equal. by apply (digit_value_canonical c d y).
Qed.
Lemma ParseUint_canonical s t v :
  String.length s = String.length t -> is_lower s -> is_lower t ->
  ParseUint s 16 = (v, None) -> ParseUint t 16 = (v, None) -> s = t.
Proof.
  intros Hlen Hs Ht. unfold ParseUint. destruct s, t; try discriminate. intros E1 E2.
  by destruct (parse_digits_canonical _ _ _ _ v Hlen Hs Ht E1 E2).
Qed.

Lemma parse_digits_range base s n v :
  0 <= base -> 0 <= n < 2 ^ 64 -> parse_digits base s n = (v, None) -> 0 <= v < 2 ^ 64.
Proof.
  intros Hb. revert n; induction s as [|c s IH]; intros n Hn; cbn [parse_digits]; [by intros [= <-]|].
  destruct (digit_value c) as [d|] eqn:E; [|discriminate]. destruct (base <=? d); [discriminate|].
  destruct (2 ^ 64 <=? n * base + d) eqn:B; [discriminate|]. zbool. apply IH.
  pose proof (digit_value_nonneg _ _ E). nia.
Qed.
Lemma ParseUint_range base s v : 0 <= base -> ParseUint s base = (v, None) -> 0 <= v < 2 ^ 64.
Proof. intros Hb. unfold ParseUint. destruct s; [discriminate|]. apply parse_digits_range; lia. Qed.

(** What [hex.EncodeToString] writes reads back as the big-endian number. *)
Lemma hex_digit_ascii v : 0 <= v < 16 ->
  digit_value (ascii_of_byte (hex_digit v)) = Some v /\ lower_ascii (ascii_of_byte (hex_digit v)) = ascii_of_byte (hex_digit v).
Proof.
  intros Hv. assert (forallb (fun v => match digit_value (ascii_of_byte (hex_digit v)) with Some x => x =? v | None => false end
      && Ascii.eqb (lower_ascii (ascii_of_byte (hex_digit v))) (ascii_of_byte (hex_digit v)))
    (map Z.of_nat (seq 0 16)) = true) as F by (vm_compute; reflexivity).
  rewrite forallb_forall in F. assert (In v (map Z.of_nat (seq 0 16))) as I.
  { apply in_map_iff. exists (Z.to_nat v). split; [lia|]. apply in_seq. lia. }
  apply F in I. apply andb_prop in I as [I1 I2]. apply Ascii.eqb_eq in I2. split; [|done].
  destruct (digit_value _); [|done]. zbool. congruence.
Qed.
Lemma hex_encode_cons x b :
  hex_encode (x :: b) = String (ascii_of_byte (hex_digit (Z_of_byte x / 16)))
                          (String (ascii_of_byte (hex_digit (Z_of_byte x mod 16))) (hex_encode b)).
Proof. reflexivity. Qed.
Lemma nibbles x : 0 <= Z_of_byte x / 16 < 16 /\ 0 <= Z_of_byte x mod 16 < 16.
Proof.
  pose proof (Z_of_byte_range x). split; [split; [apply Z.div_pos; lia|apply Z.div_lt_upper_bound; lia]|].
  apply Z.mod_pos_bound. lia.
Qed.
Lemma hex_encode_lower b : is_lower (hex_encode b).
Proof.
  induction b as [|x b IH]; [done|]. rewrite hex_encode_cons. unfold is_lower in *. cbn [to_lower].
  destruct (nibbles x) as [R1 R2]. by rewrite (proj2 (hex_digit_ascii _ R1)), (proj2 (hex_digit_ascii _ R2)), IH.
Qed.
Lemma be_value_cons x b : be_value (x :: b) = Z_of_byte x * 256 ^ Z.of_nat (length b) + be_value b.
Proof. unfold be_value. cbn [rev]. rewrite le_value_app, length_rev. cbn [le_value]. lia. Qed.
Lemma parse_digits_hex b n :
  0 <= n -> n * 256 ^ Z.of_nat (length b) + be_value b < 2 ^ 64 ->
  parse_digits 16 (hex_encode b) n = (n * 256 ^ Z.of_nat (length b) + be_value b, None).
Proof.
  revert n; induction b as [|x b IH]; intros n Hn Hr.
  { cbn. f_equal. lia. }
  rewrite hex_encode_cons. destruct (nibbles x) as [R1 R2]. cbn [parse_digits].
  rewrite (proj1 (hex_digit_ascii _ R1)), (proj1 (hex_digit_ascii _ R2)).
  rewrite be_value_cons in Hr |- *. cbn [length] in *. rewrite pow256_succ in Hr |- *.
  pose proof (be_value_range b). assert (1 <= 256 ^ Z.of_nat (length b)) by lia.
  pose proof (Z_of_byte_range x). pose proof (Z.div_mod (Z_of_byte x) 16 ltac:(lia)) as D.
  replace (16 <=? Z_of_byte x / 16) with false by (symmetry; apply Z.leb_gt; lia).
  replace (16 <=? Z_of_byte x mod 16) with false by (symmetry; apply Z.leb_gt; lia).
  assert ((n * 16 + Z_of_byte x / 16) * 16 + Z_of_byte x mod 16 = n * 256 + Z_of_byte x) as E by lia.
  assert (n * 256 + Z_of_byte x < 2 ^ 64) by nia.
  replace (_ <=? n * 16 + _) with false by (symmetry; apply Z.leb_gt; lia).
  replace (_ <=? _) with false by (symmetry; apply Z.leb_gt; lia).
  rewrite E, IH; [f_equal; lia|lia|lia].
Qed.
(** The padded hexadecimal of a number parses back. *)
Lemma ParseUint_hex (w : nat) n :
  (0 < w <= 8)%nat -> 0 <= n < 256 ^ Z.of_nat w -> ParseUint (hex_encode (be_bytes w n)) 16 = (n, None).
Proof.
  intros Hw Hn. assert (256 ^ Z.of_nat w <= 2 ^ 64) as Hp.
  { change (2 ^ 64) with (256 ^ 8). apply Z.pow_le_mono_r; lia. }
  unfold ParseUint. destruct (hex_encode (be_bytes w n)) eqn:E.
  { apply (f_equal slen) in E. rewrite hex_encode_length, be_bytes_length in E. change (slen EmptyString) with 0 in E. lia. }
  assert (be_value (be_bytes w n) = n) as Ev by (by rewrite be_value_bytes, Z.mod_small).
  rewrite <- E, parse_digits_hex; rewrite ?Ev; [f_equal; lia|lia|lia].
Qed.
(** Sixteen lower-case digits are the bytes of their value. *)
Lemma hex64_bytes s n : is_lower s -> slen s = 16 -> ParseUint s 16 = (n, None) -> s = hex_encode (be_bytes 8 n).
Proof.
  intros Hl Hs Hp. pose proof (ParseUint_range 16 s n ltac:(lia) Hp) as R.
  apply (ParseUint_canonical s _ n); [|done|apply hex_encode_lower|done|].
  - pose proof (hex_encode_length (be_bytes 8 n)) as L. rewrite be_bytes_length in L. unfold slen in *. lia.
  - apply ParseUint_hex; [lia|done].
Qed.
Lemma ParseInt_hex (w : nat) n :
  (0 < w < 8)%nat -> 0 <= n < 256 ^ Z.of_nat w -> ParseInt (hex_encode (be_bytes w n)) 16 = (n, None).
Proof.
  intros Hw Hn. assert (256 ^ Z.of_nat w <= 2 ^ 63) as Hp.
  { apply Z.le_trans with (256 ^ 7); [apply Z.pow_le_mono_r; lia|done]. }
  pose proof (ParseUint_hex w n ltac:(lia) Hn) as E. unfold ParseInt.
  destruct (hex_encode (be_bytes w n)) as [|c s] eqn:Eh; [discriminate E|].
  assert (digit_value c <> None) as Hd by (unfold ParseUint in E; cbn in E; by destruct (digit_value c)).
  assert ((code c =? 43) = false /\ (code c =? 45) = false) as [-> ->].
  { unfold digit_value in Hd. split; apply Z.eqb_neq; intros Ec; rewrite Ec in Hd; done. }
  rewrite E. cbn [negb andb]. by replace (2 ^ 63 <=? n) with false by (symmetry; apply Z.leb_gt; lia).
Qed.
Lemma hex_digit_inj v w : 0 <= v < 16 -> 0 <= w < 16 -> ascii_of_byte (hex_digit v) = ascii_of_byte (hex_digit w) -> v = w.
Proof.
  intros Hv Hw E. apply (inj Some). rewrite <- (proj1 (hex_digit_ascii v Hv)), <- (proj1 (hex_digit_ascii w Hw)). by rewrite E.
Qed.
Lemma hex_prefix_bytes a b : HasPrefix (hex_encode b) (hex_encode a) = true -> take (length a) b = a.
Proof.
  unfold HasPrefix. revert b; induction a as [|x a IH]; intros [|y b]; try done.
  rewrite !hex_encode_cons. cbn [String.prefix length]. destruct (ascii_dec _ _) as [E1|]; [|done].
  destruct (ascii_dec _ _) as [E2|]; [|done]. intros Hp. cbn [firstn]. f_equal; [|by apply IH].
  destruct (nibbles x) as [X1 X2]. destruct (nibbles y) as [Y1 Y2].
  apply hex_digit_inj in E1; [|done|done]. apply hex_digit_inj in E2; [|done|done]. apply Z_of_byte_inj.
  rewrite (Z.div_mod (Z_of_byte x) 16), (Z.div_mod (Z_of_byte y) 16) by lia. congruence.
Qed.

(** [len(en1) > 0 && !strings.HasPrefix(nonceHex, hex(en1))] *)
Definition outside_prefix (s : Session) (nonceHex : string) : bool :=
  match ExtraNonce1 s with
  | Some (b :: en1) => negb (HasPrefix nonceHex (hex_encode (b :: en1)))
  | _ => false
  end.

(** *** Numbers padded with zeros *)
Fixpoint hex_digits (w : nat) (t : Z) (acc : string) : string :=
  match w with
  | O => acc
  | S w => hex_digits w (t / 16) (String (ascii_of_byte (hex_digit (t mod 16))) acc)
  end.
Lemma repeat_char_snoc n c s : String.append (repeat_char n c) (String c s) = String c (String.append (repeat_char n c) s).
Proof. induction n as [|n IH]; [done|]. cbn [repeat_char]. rewrite !append_cons. by rewrite IH. Qed.
Lemma hex_digits_zero w acc : hex_digits w 0 acc = String.append (repeat_char w "0") acc.
Proof.
  revert acc; induction w as [|w IH]; intros acc; [done|]. cbn [hex_digits repeat_char].
  change (0 / 16) with 0. change (ascii_of_byte (hex_digit (0 mod 16))) with "0"%char.
  by rewrite IH, append_cons, repeat_char_snoc.
Qed.
Lemma hex_text_digits_pad w fuel t acc :
  0 <= t < 16 ^ Z.of_nat w -> (Z.log2 t < Z.of_nat fuel) -> (1 <= w)%nat ->
  let s := hex_text_digits fuel t acc in
  (String.length acc <= String.length s <= String.length acc + w)%nat /\
  String.append (repeat_char (w + String.length acc - String.length s) "0") s = hex_digits w t acc.
Proof.
  revert fuel t acc; induction w as [|w IH]; intros fuel t acc Ht Hf Hw; [lia|].
  pose proof (Z.log2_nonneg t). destruct fuel as [|fuel]; [lia|]. cbn [hex_text_digits hex_digits].
  destruct (Z.ltb_spec t 16) as [L|L].
  - cbn [String.length]. split; [lia|]. rewrite Z.div_small by lia. rewrite hex_digits_zero. do 2 f_equal. lia.
  - assert (16 ^ Z.of_nat (S w) = 16 * 16 ^ Z.of_nat w) as Ep by (rewrite Nat2Z.inj_succ, Z.pow_succ_r by lia; done).
    assert (1 <= w)%nat as Hw1 by (destruct w; [cbn in Ht; lia|lia]).
    assert (Z.log2 (t / 16) = Z.log2 t - 4) as El.
    { change 16 with (2 ^ 4). rewrite <- Z.shiftr_div_pow2, Z.log2_shiftr by lia.
      apply Z.max_r. apply Z.log2_le_mono in L. change (Z.log2 16) with 4 in L. lia. }
    destruct (IH fuel (t / 16) (String (ascii_of_byte (hex_digit (t mod 16))) acc)) as [I1 I2]; [| lia | done |].
    { split; [apply Z.div_pos; lia|apply Z.div_lt_upper_bound; lia]. }
    cbn [String.length] in *. split; [lia|]. rewrite <- I2. do 2 f_equal. lia.
Qed.
Lemma hex_encode_app a b : hex_encode (a ++ b) = String.append (hex_encode a) (hex_encode b).
Proof.
  induction a as [|x a IHa]; [done|]. rewrite <- app_comm_cons, !hex_encode_cons, !append_cons. by rewrite IHa.
Qed.
Lemma hex_digits_bytes k v acc : hex_digits (2 * k) v acc = String.append (hex_encode (be_bytes k v)) acc.
Proof.
  revert v acc; induction k as [|k IH]; intros v acc; [done|].
  replace (2 * S k)%nat with (S (S (2 * k))) by lia. cbn [hex_digits]. rewrite Z.div_div by lia.
  change (16 * 16) with 256. rewrite IH. unfold be_bytes at 2. cbn [le_bytes rev].
  change (rev (le_bytes k (v / 256))) with (be_bytes k (v / 256)).
  rewrite hex_encode_app, <- string_app_assoc. f_equal. rewrite hex_encode_cons, Z_of_byte_of_Z.
  rewrite <- (Z.mod_mod_divide v 256 16) by (by exists 16).
  assert ((v / 16) mod 16 = v mod 256 / 16) as ->; [|done].
  change 256 with (16 * 16). rewrite Z.rem_mul_r by lia. rewrite (Z.mul_comm 16), Z.div_add by lia.
  rewrite (Z.div_small (v mod 16)) by (apply Z.mod_pos_bound; lia). done.
Qed.
(** [k] bytes, padded to [2 * k] digits *)
Lemma padded_hex k v :
  (1 <= k)%nat -> 0 <= v < 256 ^ Z.of_nat k ->
  (String.length (Text16 v) <= 2 * k)%nat /\
  String.append (repeat_char (2 * k - String.length (Text16 v)) "0") (Text16 v) = hex_encode (be_bytes k v).
Proof.
  intros Hk Hv. unfold Text16. replace (v <? 0) with false by (symmetry; apply Z.ltb_ge; lia).
  pose proof (Z.log2_nonneg v).
  destruct (hex_text_digits_pad (2 * k) (S (Z.to_nat (Z.log2 v))) v EmptyString) as [L E]; [|lia|lia|].
  { split; [lia|]. rewrite Nat2Z.inj_mul, Z.pow_mul_r by lia. apply Hv. }
  cbn [String.length] in *. rewrite Nat.add_0_r in E. split; [lia|].
  rewrite E, hex_digits_bytes. apply string_app_nil_r.
Qed.
(** The targets sent to miners are the 32 bytes of the number. *)
Lemma TargetHex_bytes t : 0 <= t < 2 ^ 256 -> TargetHex t = hex_encode (be_bytes 32 t).
Proof.
  intros Ht. destruct (padded_hex 32 t) as [L E]; [lia|exact Ht|]. unfold TargetHex, slen.
  replace (64 <? _) with false by (symmetry; apply Z.ltb_ge; lia). exact E.
Qed.

(** A nonce of sixteen digits inside the prefix assigned to a session. *)
Definition in_session (s : Session) (nonce : Z) : Prop :=
  0 <= nonce < 2 ^ 64 /\
  forall en1, ExtraNonce1 s = Some en1 -> take (length en1) (be_bytes 8 nonce) = en1.
Lemma outside_prefix_spec s key nonce :
  is_lower key -> slen key = 16 -> ParseUint key 16 = (nonce, None) -> outside_prefix s key = false ->
  in_session s nonce.
Proof.
  intros Hl Hn Hd Ho. split; [by apply (ParseUint_range 16 key)|].
  intros en1 He. unfold outside_prefix in Ho. rewrite He in Ho. destruct en1 as [|b en1]; [done|].
  apply negb_false_iff in Ho. rewrite (hex64_bytes key nonce Hl Hn Hd) in Ho. by apply hex_prefix_bytes.
Qed.

(** A submission whose lower-case key is not registered claims its bytes. *)
Lemma fresh_claim {J} id (b : Book J) p en key nonce :
  find_job id b = Some (p, en) -> bool_decide (key ∈ en_seen en) = false ->
  is_lower key -> hex_decode key = (nonce, true) ->
  bk_heap b !! p = Some en /\ ~ seen b p (hex_encode nonce) /\ seen (mark p key b) p (hex_encode nonce).
Proof.
  intros Hf Hk Hl Hd. apply find_job_seen in Hf as (Hp & Hlt & Hs).
  rewrite (hex_decode_canonical key nonce Hl Hd). apply bool_decide_eq_false in Hk.
  split; [done|]. split; [by rewrite Hs|]. apply seen_mark. by right.
Qed.

(** The same for keys of sixteen digits that are read as a number. *)
Definition nonce64_used {J} (b : Book J) (w : nat * Z) : Prop :=
  exists key, seen b (fst w) key /\ is_lower key /\ slen key = 16 /\ ParseUint key 16 = (snd w, None).
Lemma fresh_claim64 {J} id (b : Book J) p en key nonce :
  find_job id b = Some (p, en) -> bool_decide (key ∈ en_seen en) = false ->
  is_lower key -> slen key = 16 -> ParseUint key 16 = (nonce, None) ->
  bk_heap b !! p = Some en /\ ~ nonce64_used b (p, nonce) /\ nonce64_used (mark p key b) (p, nonce).
Proof.
  intros Hf Hk Hl Hn Hd. apply find_job_seen in Hf as (Hp & Hlt & Hs). apply bool_decide_eq_false in Hk.
  split; [done|]. split.
  - intros (key' & Hu & Hl' & Hn' & Hd'). cbn [fst snd] in *. apply Hk, Hs.
    by rewrite (ParseUint_canonical key key' nonce) by (done || (unfold slen in *; lia)).
  - exists key. split; [|done]. apply seen_mark. by right.
Qed.
Lemma nonce64_used_mono {J} (b b' : Book J) w :
  (forall p k, seen b p k -> seen b' p k) -> nonce64_used b w -> nonce64_used b' w.
Proof. intros Hs (k & Hk & ?). exists k. auto. Qed.

(** ** The interface of a share check

    [work_of] is the work a submission claims, whatever its spelling; [used] is
    the work claimed so far.  A share claims its work when it is accepted and
    when its difficulty is all that is wrong with it.  The laws: claims only
    accumulate, a claim is of work not claimed before, at the difficulty of that
    work ([proved]), and an accepted share was [earned]. *)
Definition claims (sh : Share) : bool := (s_ErrorCode sh =? 0) || (s_ErrorCode sh =? ErrLowDiffShare).
Class ShareChecker {S K : Type} (submit : Session -> list json -> S -> result (Share * S)) := {
  work_of : list json -> S -> option K;
  used : S -> K -> Prop;
  proved : Session -> K -> Share -> S -> Prop;
  earned : Session -> K -> Share -> S -> Prop;
  submit_used : forall s ps st sh st', submit s ps st = Val (sh, st') ->
    forall k, used st k -> used st' k;
  submit_claims : forall s ps st sh st', submit s ps st = Val (sh, st') -> claims sh = true ->
    exists k, work_of ps st = Some k /\ proved s k sh st /\ (s_ErrorCode sh = 0 -> earned s k sh st) /\
      ~ used st k /\ used st' k;
}.

(** Case analysis along the body of a handler, the equation [E] of its result. *)
Ltac handler_step E :=
  match type of E with
  | Panic _ = _ => discriminate E
  | rbind ?x _ = _ =>
      let R := fresh "R" in destruct x eqn:R; cbn [rbind] in E; [|discriminate E]
  | match ?x with _ => _ end = _ => let R := fresh "R" in destruct x eqn:R
  end.
Ltac handler_cases E := cbv zeta in E; repeat (handler_step E; cbv zeta in E).

(** An accepted share: its submission and the state of the engine it met. *)
Record Accepted (S : Type) := mkAccepted {
  ac_session : Session; ac_params : list json; ac_share : Share; ac_state : S }.
Arguments mkAccepted {S}.
Arguments ac_session {S}.
Arguments ac_params {S}.
Arguments ac_share {S}.
Arguments ac_state {S}.

Section Runs.
Context {S K : Type} (submit : Session -> list json -> S -> result (Share * S)) (other : S -> S -> Prop).

(** A run of submissions, by any number of sessions, between which the engine
    takes other steps (new work, new sessions), with those of its submissions
    whose share [counts]. *)
Inductive run_of (counts : Share -> bool) : S -> list (Accepted S) -> S -> Prop :=
| run_done st : run_of counts st [] st
| run_other st st1 l st' : other st st1 -> run_of counts st1 l st' -> run_of counts st l st'
| run_refused st s ps sh st1 l st' :
    submit s ps st = Val (sh, st1) -> counts sh = false ->
    run_of counts st1 l st' -> run_of counts st l st'
| run_accepted st s ps sh st1 l st' :
    submit s ps st = Val (sh, st1) -> counts sh = true ->
    run_of counts st1 l st' -> run_of counts st (mkAccepted s ps sh st :: l) st'.
(** The accepted shares of a run, and its claims. *)
Definition accepted (sh : Share) : bool := s_ErrorCode sh =? 0.
Definition engine_run : S -> list (Accepted S) -> S -> Prop := run_of accepted.
Definition claims_run : S -> list (Accepted S) -> S -> Prop := run_of claims.

Lemma run_of_app c st l st1 l' st' : run_of c st l st1 -> run_of c st1 l' st' -> run_of c st (l ++ l') st'.
Proof. induction 1; intros R; cbn [app]; [done|eapply run_other|eapply run_refused|eapply run_accepted]; eauto. Qed.
Lemma run_of_others c st st' : rtc other st st' -> run_of c st [] st'.
Proof. induction 1; [apply run_done|by eapply run_other]. Qed.
(** The accepted shares are among the claims. *)
Lemma accepted_of_claims st l st' : engine_run st l st' ->
  exists cl, claims_run st cl st' /\ l = List.filter (fun a => accepted (ac_share a)) cl.
Proof.
  induction 1 as [st|st st1 l st' E R (cl & I & ->)|st s ps sh st1 l st' E Ec R (cl & I & ->)
                 |st s ps sh st1 l st' E Ec R (cl & I & ->)].
  - exists []. split; [apply run_done|done].
  - exists cl. split; [by eapply run_other|done].
  - destruct (claims sh) eqn:Ecl.
    + exists (mkAccepted s ps sh st :: cl). split; [by eapply run_accepted|]. cbn. by rewrite Ec.
    + exists cl. split; [by eapply run_refused|done].
  - exists (mkAccepted s ps sh st :: cl). split; [|cbn; by rewrite Ec].
    eapply run_accepted; [done| |done]. unfold accepted in Ec. unfold claims. by rewrite Ec.
Qed.

Context `{C : !ShareChecker (K := K) submit}.
Definition ac_work (a : Accepted S) : option K := work_of (ac_params a) (ac_state a).
Definition well_claimed (a : Accepted S) : Prop :=
  exists k, ac_work a = Some k /\ proved (ac_session a) k (ac_share a) (ac_state a) /\
    (s_ErrorCode (ac_share a) = 0 -> earned (ac_session a) k (ac_share a) (ac_state a)).
Definition well_earned (a : Accepted S) : Prop :=
  exists k, ac_work a = Some k /\ earned (ac_session a) k (ac_share a) (ac_state a).

Hypothesis other_used : forall a b, other a b -> forall k, used a k -> used b k.

(** No work is claimed twice, and every claim was proved. *)
Lemma run_claims_once st l st' :
  claims_run st l st' -> Forall well_claimed l /\ NoDup (map ac_work l).
Proof.
  intros R.
  enough (Forall well_claimed l /\ NoDup (map ac_work l) /\
    forall k, used st k -> Some k ∉ map ac_work l) as (? & ? & _) by done.
  induction R as [st|st st1 l st' E R (I1 & I2 & I3)|st s ps sh st1 l st' E _ R (I1 & I2 & I3)
                 |st s ps sh st1 l st' E Ec R (I1 & I2 & I3)].
  - split_and!; [constructor|constructor|]. intros k _. apply not_elem_of_nil.
  - split_and!; [done|done|]. intros k Hk. apply I3. by apply (other_used st).
  - split_and!; [done|done|]. intros k Hk. apply I3. by apply (submit_used _ _ _ _ _ E).
  - destruct (submit_claims _ _ _ _ _ E Ec) as (k & Ew & Hp & He & Hn & Hu). cbn [map].
    assert (ac_work (mkAccepted s ps sh st) = Some k) as -> by done. split_and!.
    + constructor; [|done]. by exists k.
    + constructor; [|done]. by apply I3.
    + intros k' Hk'. apply not_elem_of_cons. split; [by intros [= ->]|]. apply I3.
      by apply (submit_used _ _ _ _ _ E).
Qed.

(** No work is accepted twice, and all of it was earned. *)
Lemma run_credits_once st l st' :
  engine_run st l st' -> Forall well_earned l /\ NoDup (map ac_work l).
Proof.
  intros (cl & R & ->)%accepted_of_claims. apply run_claims_once in R as [Hw Hd]. split.
  - apply Forall_forall. intros a Ha. rewrite Forall_forall in Hw.
    apply list_elem_of_In, filter_In in Ha as [Hin Ea]. apply list_elem_of_In, Hw in Hin as (k & Ek & _ & He).
    exists k. split; [done|]. by apply He, Z.eqb_eq.
  - clear Hw. induction cl as [|a cl IH]; [done|]. cbn [map List.filter] in *.
    apply NoDup_cons in Hd as [Hn Hd]. specialize (IH Hd). destruct (accepted (ac_share a)); [|done].
    cbn [map]. constructor; [|done]. intros Hin. apply Hn.
    apply list_elem_of_fmap in Hin as (b & -> & Hb). apply list_elem_of_fmap. exists b. split; [done|].
    apply list_elem_of_In, filter_In in Hb as [Hb _]. by apply list_elem_of_In.
Qed.
End Runs.
