(* ===== verification/WorkSource.v ===== *)
(** * WorkSource: src/engine/worksource, and the watchers built on it

    How an engine learns about new work.  A watcher runs for ever and talks to
    its environment, so it is an interaction tree over the events [ioE]; a
    [Source] gives the error it ends with, if it ends.  [Run] races its sources:
    an interleaving of their trees. *)
From Stdlib Require Import ZArith Lia List Strings.String Strings.Byte Relations.Relation_Operators Logic.Eqdep.
From S2P Require Import Prelude Bytes Effects.
From ITree Require Import ITree ITreeFacts Eq.Shallow Props.Leaf.
From Paco Require Import paco.
Import ListNotations.
Import ITreeNotations.
Local Open Scope string_scope.
Local Open Scope Z_scope.
Local Open Scope itree_scope.

(** What a watcher does to the world.  [Tick] is false when the channel of the
    ticker is closed; [Recv] is the next message of the stream, [None] when it
    ended; [Deliver] hands a message to the engine, which says whether it brought
    work. *)
Variant ioE : Type -> Type :=
| Tick : ioE bool
| Sleep (seconds : Z) : ioE unit
| Refresh : ioE (err_or bool)
| EmitWork : ioE unit
| DialTopic (endpoint topic : string) : ioE bool
| IsConnected : ioE bool
| Redial : ioE bool
| Disconnect : ioE unit
| Recv : ioE (option (list bytes))
| Deliver (message : list bytes) : ioE bool.

Definition act {X} (e : ioE X) : itree ioE X := ITree.trigger e.
Definition Source : Type := itree ioE unit -> itree ioE (option string).

(** Refresh, and emit on a change; errors are logged. *)
Definition on_event (refresh : itree ioE (err_or bool)) (emit : itree ioE unit) : itree ioE unit :=
  r <- refresh ;;
  match r with Ok true => emit | _ => Ret tt end.

Definition Poll (refresh : itree ioE (err_or bool)) : Source := fun emit =>
  ITree.iter (fun _ : unit =>
    open <- act Tick ;;
    if (open : bool) then on_event refresh emit ;; Ret (inl tt) else Ret (inr None)) tt.

Definition Subscribe (open : itree ioE unit -> itree ioE (option string)) (refresh : itree ioE (err_or bool)) : Source :=
  fun emit => ITree.forever (open (on_event refresh emit) ;; act (Sleep 3)).

(** Every message with frames goes to the callback, until the socket fails. *)
Definition ZMQSubscribe (endpoint topic : string) (onMessage : list bytes -> itree ioE unit) : itree ioE (option string) :=
  ok <- act (DialTopic endpoint topic) ;;
  if negb ok then Ret (Some "dial failed")
  else
    ITree.iter (fun _ : unit =>
      m <- act Recv ;;
      match m with
      | None => Ret (inr (Some "socket failed"))
      | Some frames => (if (0 <? Z.of_nat (List.length frames)) then onMessage frames else Ret tt) ;; Ret (inl tt)
      end) tt.
Definition HasBytesPrefix (b prefix : bytes) : bool := bytes_eqb (firstn (List.length prefix) b) prefix.
Definition ZMQSource (endpoint topic : string) (refresh : itree ioE (err_or bool)) : Source :=
  Subscribe (fun onEvent => ZMQSubscribe endpoint topic (fun frames =>
      match frames with
      | f :: _ => if HasBytesPrefix f (bytes_of_string topic) then onEvent else Ret tt
      | [] => Ret tt
      end)) refresh.

(** [Run]: a step of one of the goroutines; the first that returns decides.
    With no sources it blocks. *)
Inductive tree_step {R} : itree ioE R -> itree ioE R -> Prop :=
| tree_tau t u : observe t = TauF u -> tree_step t u
| tree_vis t X (e : ioE X) k x : observe t = VisF e k -> tree_step t (k x).
Inductive race_step {R} : list (itree ioE R) -> list (itree ioE R) -> Prop :=
| race i ts t t' : nth_error ts i = Some t -> tree_step t t' -> race_step ts (firstn i ts ++ t' :: skipn (S i) ts)%list.
Definition run_returns (emit : itree ioE unit) (sources : list Source) (err : option string) : Prop :=
  exists ts i t, clos_refl_trans_1n _ race_step (List.map (fun s => s emit) sources) ts /\ nth_error ts i = Some t /\ observe t = RetF err.

(** ** The watchers of the engines *)

(** equihash and kawpow: the ZMQ publisher when one is configured, and a poll. *)
Definition watch_template_sources (zmq topic : string) : list Source :=
  ((if String.eqb zmq "" then [] else [ZMQSource zmq topic (act Refresh)]) ++ [Poll (act Refresh)])%list.

(** ergo and ethash have no push interface. *)
Definition Watch_poll : list Source := [Poll (act Refresh)].
Definition Watch_kawpow (zmq : string) : list Source := watch_template_sources zmq "hashblock".
Definition Watch_cryptonote (zmq : string) : list Source := watch_template_sources zmq "json-minimal-chain_main".
(** kaspa: the kicks of the notification callback, raced with a poll. *)
Definition read_kicks (onEvent : itree ioE unit) : itree ioE (option string) :=
  ITree.iter (fun _ : unit =>
    m <- act Recv ;;
    match m with None => Ret (inr (Some "kaspa template stream closed")) | Some _ => onEvent ;; Ret (inl tt) end) tt.
Definition Watch_kaspa : list Source := [Subscribe read_kicks (act Refresh); Poll (act Refresh)].

(** beam and alephium: the stream of the node, with a loop meant to dial again
    when it ends.  The messages refresh the engine themselves. *)
Definition read_stream (onEvent : itree ioE unit) : itree ioE (option string) :=
  ITree.iter (fun _ : unit =>
    m <- act Recv ;;
    match m with
    | None => Ret (inr (Some "stream closed"))
    | Some line => new <- act (Deliver line) ;; (if (new : bool) then onEvent else Ret tt) ;; Ret (inl tt)
    end) tt.
Definition stream_source : Source := Subscribe read_stream (Ret (Ok true)).
Definition connect : itree ioE bool :=
  c <- act IsConnected ;; if (c : bool) then Ret true else act Redial.
Definition watch_stream : Source := fun emit =>
  ITree.iter (fun _ : unit =>
    up <- connect ;;
    if (up : bool) then (stream_source emit ;; act Disconnect ;; act (Sleep 1) ;; Ret (inl tt))
    else (act (Sleep 3) ;; Ret (inl tt))) tt.

(** ** Loops that do not end *)
Lemma bind_forever {E R S T} (t : itree E R) (k : S -> itree E T) :
  ITree.bind (ITree.forever t) k ≅ ITree.forever t.
Proof.
  ginit. gcofix CIH. rewrite unfold_forever. rewrite (unfold_forever (S := T)). rewrite bind_bind.
  guclo eqit_clo_bind. econstructor; [reflexivity|]. intros u1 u2 _. rewrite bind_tau. gstep. constructor. gbase. apply CIH.
Qed.

(** What is left of [watch_stream]: connect once, then subscribe for ever. *)
Definition connect_once : itree ioE unit :=
  ITree.iter (fun _ : unit => up <- connect ;; if (up : bool) then Ret (inr tt) else (act (Sleep 3) ;; Ret (inl tt))) tt.

(** An event that satisfies [p] on some path of a tree. *)
Inductive may_do {R} (p : forall X, ioE X -> bool) : itree ioE R -> Prop :=
| do_now t X (e : ioE X) k : observe t = VisF e k -> p X e = true -> may_do p t
| do_tau t u : observe t = TauF u -> may_do p u -> may_do p t
| do_vis t X (e : ioE X) k x : observe t = VisF e k -> may_do p (k x) -> may_do p t.
Definition reconnects : forall X, ioE X -> bool :=
  fun X e => match e with Redial => true | Disconnect => true | _ => false end.

(** *** What a composed tree may do *)
Ltac tree_inv H := inversion H; subst; clear H;
  repeat match goal with E : @existT _ _ _ _ = @existT _ _ _ _ |- _ => apply inj_pair2 in E; subst end.

Lemma may_do_bind {R S} p (s : itree ioE R) (k : R -> itree ioE S) u :
  may_do p u -> observe u = observe (ITree.bind s k) -> may_do p s \/ exists r, may_do p (k r).
Proof.
  intros D. revert s. induction D as [u X e k' E P|u u' E D IH|u X e k' x E D IH]; intros s O; rewrite E in O;
    rewrite (observe_bind s k) in O; destruct (observe s) as [r|s'|Y f h] eqn:Os; cbn in O.
  - right. exists r. eapply do_now; [symmetry; exact O|exact P].
  - discriminate O.
  - tree_inv O. left. eapply do_now; [exact Os|exact P].
  - right. exists r. eapply do_tau; [symmetry; exact O|exact D].
  - tree_inv O. destruct (IH s' eq_refl); [left|right; assumption]. eapply do_tau; eauto.
  - discriminate O.
  - right. exists r. eapply do_vis; [symmetry; exact O|exact D].
  - discriminate O.
  - tree_inv O. destruct (IH (h x) eq_refl); [left|right; assumption]. eapply do_vis; eauto.
Qed.
Lemma may_do_iter {A R} p (body : A -> itree ioE (A + R)) u :
  may_do p u -> forall s : itree ioE (A + R),
  observe u = observe (ITree.bind s (fun lr => match lr with inl l => Tau (ITree.iter body l) | inr r => Ret r end)) ->
  may_do p s \/ exists a, may_do p (body a).
Proof.
  intros D. induction D as [u X e k' E P|u u' E D IH|u X e k' x E D IH]; intros s O; rewrite E in O;
    rewrite observe_bind in O; destruct (observe s) as [[a|r]|s'|Y f h] eqn:Os; cbn in O; try discriminate O.
  - tree_inv O. left. eapply do_now; [exact Os|exact P].
  - tree_inv O. right. destruct (IH (body a)) as [H|H]; [reflexivity|exists a; exact H|exact H].
  - tree_inv O. destruct (IH s' eq_refl); [left|right; assumption]. eapply do_tau; eauto.
  - tree_inv O. destruct (IH (h x) eq_refl); [left|right; assumption]. eapply do_vis; eauto.
Qed.
Lemma may_do_forever {R S} p (t : itree ioE R) u :
  may_do p u -> forall s : itree ioE R,
  observe u = observe (ITree.bind s (fun _ => Tau (ITree.forever (S := S) t))) -> may_do p s \/ may_do p t.
Proof.
  intros D. induction D as [u X e k' E P|u u' E D IH|u X e k' x E D IH]; intros s O; rewrite E in O;
    rewrite observe_bind in O; destruct (observe s) as [r|s'|Y f h] eqn:Os; cbn in O; try discriminate O.
  - tree_inv O. left. eapply do_now; [exact Os|exact P].
  - tree_inv O. right. destruct (IH t); [reflexivity|assumption|assumption].
  - tree_inv O. destruct (IH s' eq_refl); [left|right; assumption]. eapply do_tau; eauto.
  - tree_inv O. destruct (IH (h x) eq_refl); [left|right; assumption]. eapply do_vis; eauto.
Qed.
Lemma may_do_act {X} p (e : ioE X) : may_do p (act e) -> p X e = true.
Proof.
  intros D. inversion D as [? ? ? ? E P|? ? E|? ? ? ? ? E D']; cbn in E; subst.
  - tree_inv E. exact P.
  - discriminate E.
  - tree_inv E. inversion D' as [? ? ? ? E' ?|? ? E' ?|? ? ? ? ? E' ?]; discriminate E'.
Qed.
Lemma may_do_ret {R} p (r : R) : ~ may_do p (Ret r : itree ioE R).
Proof. intros D. inversion D as [? ? ? ? E ?|? ? E ?|? ? ? ? ? E ?]; discriminate E. Qed.

Lemma bind_parts {R S} p (s : itree ioE R) (k : R -> itree ioE S) :
  may_do p (ITree.bind s k) -> may_do p s \/ exists r, may_do p (k r).
Proof. intros D. exact (may_do_bind p s k _ D eq_refl). Qed.
Lemma iter_parts {A R} p (body : A -> itree ioE (A + R)) i :
  may_do p (ITree.iter body i) -> exists a, may_do p (body a).
Proof. intros D. destruct (may_do_iter p body _ D (body i) eq_refl) as [H|H]; [exists i; exact H|exact H]. Qed.
Lemma forever_parts {R S} p (t : itree ioE R) : may_do p (ITree.forever (S := S) t) -> may_do p t.
Proof. intros D. destruct (may_do_forever p t _ D t eq_refl); assumption. Qed.

(** Take a composed tree apart. *)
Ltac may_do_parts D :=
  match type of D with
  | may_do _ (Ret _) => destruct (may_do_ret _ _ D)
  | may_do _ (act _) => apply may_do_act in D
  | may_do _ (ITree.forever _) => apply forever_parts in D; may_do_parts D
  | may_do _ (ITree.iter _ _) => apply iter_parts in D; destruct D as [? D]; may_do_parts D
  | may_do _ (ITree.bind _ _) => apply bind_parts in D; destruct D as [D|[? D]]; may_do_parts D
  | may_do _ (match ?x with _ => _ end) => destruct x; may_do_parts D
  | _ => idtac
  end.
Lemma stream_source_reconnects emit : may_do reconnects (stream_source emit) -> may_do reconnects emit.
Proof.
  intros D. unfold stream_source, Subscribe, read_stream, on_event in D. may_do_parts D; (discriminate D || exact D).
Qed.

(** *** Which results a composed tree has *)
Lemma forever_no_result {E R S} (t : itree E R) (r : S) : ~ Leaf r (ITree.forever t).
Proof.
  intros L. assert (ITree.bind (ITree.forever (S := Empty_set) t) (fun x : Empty_set => match x with end) ≈ ITree.forever (S := S) t) as E1.
  { rewrite bind_forever. reflexivity. }
  rewrite <- E1 in L. apply Leaf_bind_inv in L as ([] & _).
Qed.
Lemma Subscribe_never_returns open refresh emit err : ~ Leaf err (Subscribe open refresh emit).
Proof. apply forever_no_result. Qed.

Lemma tree_step_leaf {R} (t t' : itree ioE R) r : tree_step t t' -> Leaf r t' -> Leaf r t.
Proof. intros S L. destruct S; [eapply LeafTau|eapply LeafVis]; eauto. Qed.
Lemma race_leaf {R} (ts ts' : list (itree ioE R)) i t' r :
  clos_refl_trans_1n _ race_step ts ts' -> nth_error ts' i = Some t' -> Leaf r t' ->
  exists t, nth_error ts i = Some t /\ Leaf r t.
Proof.
  intros C. revert t'. induction C as [ts|ts ts1 ts2 S C IH]; intros t' Hi L; [eauto|].
  destruct (IH t' Hi L) as (u & Hu & Lu). destruct S as [j ts t u' Hj S].
  assert (j < List.length ts)%nat as Hl by (apply nth_error_Some; congruence).
  assert (List.length (firstn j ts) = j) as Hf by (apply firstn_length_le; lia).
  destruct (PeanoNat.Nat.lt_trichotomy i j) as [Hlt|[->|Hgt]].
  - rewrite nth_error_app1 in Hu by lia. rewrite nth_error_firstn in Hu.
    destruct (PeanoNat.Nat.ltb_spec i j); [|lia]. eauto.
  - rewrite nth_error_app2, Hf, PeanoNat.Nat.sub_diag in Hu by lia. injection Hu as ->.
    exists t. split; [exact Hj|]. eapply tree_step_leaf; eauto.
  - rewrite nth_error_app2, Hf in Hu by lia. destruct (i - j)%nat as [|d] eqn:Ed; [lia|]. cbn [nth_error] in Hu.
    rewrite nth_error_skipn in Hu. exists u. split; [|exact Lu]. rewrite <- Hu. f_equal. lia.
Qed.
(** [Run] returns only what one of its sources returns. *)
Lemma run_returns_source emit sources err :
  run_returns emit sources err -> exists s, In s sources /\ Leaf err (s emit).
Proof.
  intros (ts & i & t & C & Hi & O). destruct (race_leaf _ _ i t err C Hi) as (u & Hu & L).
  { apply LeafRet. exact O. }
  apply nth_error_In, in_map_iff in Hu as (s & <- & Hs). eauto.
Qed.

(** *** The watchers *)
Lemma watch_stream_connect_once emit :
  watch_stream emit ≅ ITree.bind connect_once (fun _ => stream_source emit).
Proof.
  unfold watch_stream, connect_once. generalize tt. ginit. gcofix CIH. intros u.
  rewrite !unfold_iter. rewrite !bind_bind. guclo eqit_clo_bind. econstructor; [reflexivity|].
  intros up ? <-. destruct up.
  - unfold stream_source at 1, Subscribe at 1. rewrite bind_bind. rewrite bind_forever.
    rewrite !bind_ret_l. apply Reflexive_eqit_gen_eq.
  - rewrite !bind_bind. guclo eqit_clo_bind. econstructor; [reflexivity|]. intros v ? <-.
    rewrite !bind_ret_l. rewrite bind_tau. gstep. constructor. gbase. apply CIH.
Qed.

Lemma watch_stream_never_returns emit err : ~ Leaf err (watch_stream emit).
Proof.
  intros L. assert (watch_stream emit ≈ ITree.bind connect_once (fun _ => stream_source emit)) as E.
  { rewrite watch_stream_connect_once. reflexivity. }
  rewrite E in L. apply Leaf_bind_inv in L as (x & _ & L). exact (Subscribe_never_returns _ _ _ _ L).
Qed.
(** A watcher that polls beside its subscriptions returns only when the poll
    does. *)
Definition subscription (s : Source) : Prop := exists open refresh, s = Subscribe open refresh.
Lemma polled_watch_returns emit sources err :
  Forall (fun s => subscription s \/ s = Poll (act Refresh)) sources ->
  run_returns emit sources err -> Leaf err (Poll (act Refresh) emit).
Proof.
  intros F R. apply run_returns_source in R as (s & Hs & L). rewrite Forall_forall in F.
  destruct (F s Hs) as [(open & refresh & ->)| ->]; [destruct (Subscribe_never_returns _ _ _ _ L)|exact L].
Qed.
Ltac each_source :=
  repeat (apply Forall_cons; [first [right; reflexivity|left; eexists _, _; reflexivity]|]); apply Forall_nil.
Lemma template_watch_returns emit zmq topic err :
  run_returns emit (watch_template_sources zmq topic) err -> Leaf err (Poll (act Refresh) emit).
Proof.
  apply polled_watch_returns. unfold watch_template_sources, ZMQSource. destruct (String.eqb zmq "");
    cbn [app]; each_source.
Qed.
Lemma kaspa_watch_returns emit err : run_returns emit Watch_kaspa err -> Leaf err (Poll (act Refresh) emit).
Proof. apply polled_watch_returns. unfold Watch_kaspa. each_source. Qed.

(** The watcher of a streaming node connects once and never again.  Around
    the subscription the engines of beam and alephium wrote a loop that closes a
    broken stream and dials the node again; the subscription itself loops on the
    stream for ever, so the watcher is exactly: connect, then read the stream and
    sleep, for ever.  Nothing in that tail dials or disconnects, and [Run] on the
    watcher never returns. *)
Theorem stream_watcher_never_redials :
  (forall emit, watch_stream emit ≅ ITree.bind connect_once (fun _ => stream_source emit)) /\
  ~ may_do reconnects (stream_source (act EmitWork)) /\
  (forall emit err, ~ run_returns emit [watch_stream] err).
Proof.
  split; [exact watch_stream_connect_once|]. split.
  - intros D. apply stream_source_reconnects, may_do_act in D. discriminate D.
  - intros emit err R. apply run_returns_source in R as (s & [<-|[]] & L). exact (watch_stream_never_returns _ _ L).
Qed.
