(* ===== verification/CryptonoteBlob.v ===== *)
(** * CryptonoteBlob: src/engine/cryptonote/blob.go

    The CryptoNote serialization a pool needs: the varint, the parser that finds
    the nonce and the miner transaction in a block blob, the tree hash and the
    hashing blob.  The main theorems: the parser finds the parts of every block
    serialized as the protocol says, and the in-place tree hash is the root of
    the balanced tree over the leaves whose tail was compressed pairwise. *)
From Stdlib Require Import ZArith Lia List Strings.Byte.
From stdpp Require Import base list strings.
From S2P Require Import Prelude Bytes Utils Effects Algorithm EngineWork.
Import ListNotations.
Local Open Scope Z_scope.
Local Open Scope go_scope.

(** [keccak256]: the legacy Keccak-256 of the concatenation. *)
Definition keccak256 `{PowHashes} (data : list bytes) : bytes := LegacyKeccak256 (concat data).

(** ** treeHash *)
Section TreeHash.
Context `{PowHashes}.

(** [for pow < count { pow <<= 1 }] *)
Fixpoint grow_pow (fuel pow count : nat) : nat :=
  match fuel with
  | O => pow
  | S f => if (pow <? count)%nat then grow_pow f (2 * pow) count else pow
  end.

(** [for ; j < cnt; i, j = i+2, j+1 { ints[j] = keccak256(from[i], from[i+1]) }];
    the reduction reads from [ints] itself. *)
Fixpoint compress_tail (fuel : nat) (hashes ints : list bytes) (i j cnt : nat) : list bytes :=
  match fuel with
  | O => ints
  | S f =>
      if (j <? cnt)%nat
      then compress_tail f hashes (<[j := keccak256 [nth i hashes []; nth (i + 1) hashes []]]> ints) (i + 2) (j + 1) cnt
      else ints
  end.
Fixpoint reduce_level (fuel : nat) (ints : list bytes) (i j cnt : nat) : list bytes :=
  match fuel with
  | O => ints
  | S f =>
      if (j <? cnt)%nat
      then reduce_level f (<[j := keccak256 [nth i ints []; nth (i + 1) ints []]]> ints) (i + 2) (j + 1) cnt
      else ints
  end.
Fixpoint reduce_tree (fuel : nat) (ints : list bytes) (cnt : nat) : bytes :=
  match fuel with
  | O => []
  | S f =>
      if (2 <? cnt)%nat then
        let cnt := (cnt / 2)%nat in reduce_tree f (reduce_level cnt ints 0 0 cnt) cnt
      else keccak256 [nth 0 ints []; nth 1 ints []]
  end.

(** [count] leaves are fuel enough for each loop; no leaves give nil. *)
Definition treeHash (hashes : list bytes) : bytes :=
  match hashes with
  | [] => []
  | [h] => take 32 h ++ zeros (32 - length h)
  | [a; b] => keccak256 [a; b]
  | _ =>
      let count := length hashes in
      let pow := grow_pow count 2 count in
      let cnt := (pow / 2)%nat in
      let m := (2 * cnt - count)%nat in
      let ints := take m hashes ++ repeat [] (cnt - m) in
      let ints := compress_tail count hashes ints m m cnt in
      reduce_tree count ints cnt
  end.
End TreeHash.

(** ** Varints *)

(** [val |= uint64(c&0x7f) << shift] drops the bits beyond 64; the shift passes
    63 after ten bytes, so eleven units of fuel are never used up. *)
Fixpoint readVarint_loop (fuel : nat) (b : bytes) (pos val shift : Z) : result (err_or (Z * Z)) :=
  match fuel with
  | O => Panic "out of fuel"
  | S f =>
      if Z.of_nat (length b) <=? pos then fail "varint: unexpected end of blob"
      else
        let! c := index b pos in
        let c := Z_of_byte c in
        let val := Z.lor val (u64 (Z.shiftl (Z.land c 0x7f) shift)) in
        let pos := pos + 1 in
        if Z.land c 0x80 =? 0 then ok (val, pos)
        else
          let shift := shift + 7 in
          if 63 <? shift then fail "varint: overflow" else readVarint_loop f b pos val shift
  end.
Definition readVarint (b : bytes) (pos : Z) : result (err_or (Z * Z)) := readVarint_loop 11 b pos 0 0.

Fixpoint appendVarint_loop (fuel : nat) (dst : bytes) (v : Z) : bytes :=
  match fuel with
  | O => dst
  | S f =>
      if 0x80 <=? v then appendVarint_loop f (dst ++ [byte_of_Z (Z.lor (v mod 256) 0x80)]) (Z.shiftr v 7)
      else dst ++ [byte_of_Z v]
  end.
(** Ten bytes hold a uint64. *)
Definition appendVarint (dst : bytes) (v : Z) : bytes := appendVarint_loop 10 dst v.

(** ** Blocks *)
Record parsedBlock := mkParsed {
  blob : bytes;
  nonceOffset : Z;
  headerEnd : Z;
  minerTxEnd : Z;
  minerTxVer : Z;
  txCount : Z;
  txHashes : list bytes;
}.

Section Parse.
(** The most elements [make] can reserve: a larger capacity panics. *)
Variable max_slice : Z.

(** The outputs of the miner transaction.  Each takes at least 34 bytes, so one
    unit of fuel per byte of the blob is enough. *)
Fixpoint parse_vouts (fuel : nat) (b : bytes) (voutCount pos : Z) : result (err_or Z) :=
  match fuel with
  | O => Panic "out of fuel"
  | S f =>
      if voutCount <=? 0 then ok pos
      else
        chk! (_, pos) := readVarint b pos in
        if Z.of_nat (length b) <=? pos then fail "blob too short for vout tag"
        else
          let! tag := index b pos in
          let pos := pos + 1 in
          let tag := Z_of_byte tag in
          chk! pos := (if tag =? 0x02 then ok (pos + 32)
                       else if tag =? 0x03 then ok (pos + 33)
                       else fail "unknown vout target tag in miner tx") in
          if Z.of_nat (length b) <? pos then fail "blob too short for vout key"
          else parse_vouts f b (voutCount - 1) pos
  end.

(** The hashes of the other transactions, 32 bytes each. *)
Fixpoint parse_tx_hashes (fuel : nat) (b : bytes) (n pos : Z) (acc : list bytes)
  : result (err_or (list bytes * Z)) :=
  match fuel with
  | O => Panic "out of fuel"
  | S f =>
      if n <=? 0 then ok (acc, pos)
      else if Z.of_nat (length b) <? pos + 32 then fail "blob too short for tx hashes"
      else
        let! h := slice b pos (pos + 32) in
        parse_tx_hashes f b (n - 1) (pos + 32) (acc ++ [h])
  end.

Definition parse_header (b : bytes) : result (err_or Z) :=
  chk! (_, pos) := readVarint b 0 in
  chk! (_, pos) := readVarint b pos in
  chk! (_, pos) := readVarint b pos in
  if Z.of_nat (length b) <? pos + 36 then fail "blob too short for prev+nonce" else ok pos.

(** The version of the miner transaction and the position after its prefix. *)
Definition parse_miner_prefix (b : bytes) (pos : Z) : result (err_or (Z * Z)) :=
  chk! (ver, pos) := readVarint b pos in
  chk! (_, pos) := readVarint b pos in
  chk! (vinCount, pos) := readVarint b pos in
  let len := Z.of_nat (length b) in
  chk! _ := (if negb (vinCount =? 1) || (len <=? pos) then fail "miner tx must have exactly one gen input"
             else let! c := index b pos in
                  if negb (Z_of_byte c =? 0xff) then fail "miner tx must have exactly one gen input" else ok tt) in
  let pos := pos + 1 in
  chk! (_, pos) := readVarint b pos in
  chk! (voutCount, pos) := readVarint b pos in
  chk! pos := parse_vouts (S (length b)) b voutCount pos in
  chk! (extraLen, pos) := readVarint b pos in
  (* [int(extraLen)] is signed and the sum wraps *)
  let pos := i64 (pos + i64 extraLen) in
  if len <? pos then fail "blob too short for tx extra" else ok (ver, pos).

Definition parseBlockBlob (b : bytes) : result (err_or parsedBlock) :=
  let len := Z.of_nat (length b) in
  chk! pos := parse_header b in
  let nonceOffset := pos + 32 in
  let headerEnd := pos + 36 in
  chk! (ver, pos) := parse_miner_prefix b headerEnd in
  chk! minerTxEnd :=
    (if 2 <=? ver then
       if len <=? pos then fail "miner tx v2 must end with RCTTypeNull byte"
       else let! c := index b pos in
            if negb (Z_of_byte c =? 0) then fail "miner tx v2 must end with RCTTypeNull byte" else ok (pos + 1)
     else ok pos) in
  chk! (txCount, pos) := readVarint b minerTxEnd in
  if max_slice <? txCount then Panic "makeslice: cap out of range"
  else
    chk! (hashes, pos) := parse_tx_hashes (S (length b)) b txCount pos [] in
    if negb (pos =? len) then fail "trailing bytes after block blob"
    else ok (mkParsed b nonceOffset headerEnd minerTxEnd ver (i64 txCount) hashes).
End Parse.

Section Hashing.
Context `{PowHashes}.

Definition minerTxHash (p : parsedBlock) : result bytes :=
  let! tx := slice (blob p) (headerEnd p) (minerTxEnd p) in
  if minerTxVer p <? 2 then Val (keccak256 [tx])
  else
    let n := Z.of_nat (length tx) in
    let! prefix := slice tx 0 (n - 1) in
    let! rctBase := slice tx (n - 1) n in
    Val (keccak256 [keccak256 [prefix]; keccak256 [rctBase]; zeros 32]).

Definition hashingBlob (p : parsedBlock) : result bytes :=
  let! h := minerTxHash p in
  let leaves := h :: txHashes p in
  let! header := slice (blob p) 0 (headerEnd p) in
  Val (appendVarint (header ++ treeHash leaves) (u64 (txCount p + 1))).
End Hashing.

(** [copy(out[nonceOffset:nonceOffset+4], nonce)] on a copy of the blob *)
Definition withNonce (b : bytes) (nonceOffset : Z) (nonce : bytes) : result bytes :=
  let! old := slice b nonceOffset (nonceOffset + 4) in
  let o := Z.to_nat nonceOffset in
  Val (take o b ++ take 4 nonce ++ drop (length (take 4 nonce)) old ++ drop (o + 4) b).

(** ** The varint round trip *)
Lemma appendVarint_loop_app f dst v : appendVarint_loop f dst v = dst ++ appendVarint_loop f [] v.
Proof.
  revert dst v; induction f as [|f IH]; intros dst v; cbn [appendVarint_loop]; [by rewrite app_nil_r|].
  destruct (_ <=? v); [|done]. rewrite IH, (IH ([] ++ [_])). by rewrite <- app_assoc.
Qed.

(** The encoding of a number *)
Definition varint (v : Z) : bytes := appendVarint [] v.
Lemma appendVarint_varint dst v : appendVarint dst v = dst ++ varint v.
Proof. apply appendVarint_loop_app. Qed.

Lemma continuation_byte x : 0 <= x < 256 ->
  Z.lor x 0x80 mod 256 = Z.lor x 0x80 /\ Z.land (Z.lor x 0x80) 0x7f = x mod 128 /\ Z.land (Z.lor x 0x80) 0x80 = 0x80.
Proof.
  intros Hx.
  assert (forallb (fun x => (Z.lor x 0x80 mod 256 =? Z.lor x 0x80) && (Z.land (Z.lor x 0x80) 0x7f =? x mod 128)
            && (Z.land (Z.lor x 0x80) 0x80 =? 0x80)) (map Z.of_nat (seq 0 256)) = true) as F by (vm_compute; reflexivity).
  rewrite forallb_forall in F. assert (In x (map Z.of_nat (seq 0 256))) as I.
  { apply in_map_iff. exists (Z.to_nat x). split; [lia|]. apply in_seq. lia. }
  apply F in I. by zbool.
Qed.
Lemma final_byte x : 0 <= x < 128 -> Z.land x 0x7f = x /\ Z.land x 0x80 = 0.
Proof.
  intros Hx.
  assert (forallb (fun x => (Z.land x 0x7f =? x) && (Z.land x 0x80 =? 0)) (map Z.of_nat (seq 0 128)) = true) as F
    by (vm_compute; reflexivity).
  rewrite forallb_forall in F. assert (In x (map Z.of_nat (seq 0 128))) as I.
  { apply in_map_iff. exists (Z.to_nat x). split; [lia|]. apply in_seq. lia. }
  apply F in I. by zbool.
Qed.

Lemma lor_disjoint a b k : 0 <= k -> 0 <= a < 2 ^ k -> 0 <= b -> Z.lor a (b * 2 ^ k) = a + b * 2 ^ k.
Proof.
  intros Hk Ha Hb. rewrite <- Z.shiftl_mul_pow2 by lia. symmetry. rewrite <- Z.lxor_lor; [apply Z.add_nocarry_lxor|].
  all: apply Z.bits_inj'; intros n Hn; rewrite Z.land_spec, Z.bits_0, Z.shiftl_spec by lia;
    destruct (Z.lt_ge_cases n k); [rewrite (Z.testbit_neg_r b) by lia; by rewrite andb_false_r|];
    replace (Z.testbit a n) with false; [done|symmetry];
    (destruct (decide (a = 0)) as [->|]; [by rewrite Z.bits_0|]); apply Z.bits_above_log2; [lia|];
    apply Z.lt_le_trans with k; [apply Z.log2_lt_pow2; lia|done].
Qed.

(** Where the unread part of the blob starts. *)
Definition at_ (b : bytes) (pos : Z) (rest : bytes) : Prop :=
  0 <= pos /\ exists pre, b = pre ++ rest /\ Z.of_nat (length pre) = pos.
Lemma at_step b pos x rest : at_ b pos (x ++ rest) -> at_ b (pos + Z.of_nat (length x)) rest.
Proof.
  intros (Hp & pre & -> & Hl). split; [lia|]. exists (pre ++ x). rewrite <- app_assoc, length_app. split; [done|lia].
Qed.
Lemma at_index b pos x rest : at_ b pos (x :: rest) -> index b pos = Val x.
Proof.
  intros (Hp & pre & -> & <-). apply index_lookup. by apply list_lookup_middle.
Qed.
Lemma at_slice b pos x rest : at_ b pos (x ++ rest) -> slice b pos (pos + Z.of_nat (length x)) = Val x.
Proof.
  intros (Hp & pre & -> & <-). rewrite <- Nat2Z.inj_add. apply slice_app.
Qed.
Lemma at_length b pos rest : at_ b pos rest -> Z.of_nat (length b) = pos + Z.of_nat (length rest).
Proof. intros (Hp & pre & -> & <-). rewrite length_app. lia. Qed.

Lemma readVarint_loop_roundtrip f k v val b pos rest :
  (f + k = 10)%nat -> (1 <= f)%nat -> 0 <= v < 2 ^ (64 - 7 * Z.of_nat k) ->
  0 <= val < 2 ^ (7 * Z.of_nat k) -> at_ b pos (appendVarint_loop f [] v ++ rest) ->
  readVarint_loop (S f) b pos val (7 * Z.of_nat k)
  = ok (val + v * 2 ^ (7 * Z.of_nat k), pos + Z.of_nat (length (appendVarint_loop f [] v))).
Proof.
  revert k v val pos; induction f as [|f IH]; intros k v val pos Hk Hf Hv Hval Hat; [lia|].
  remember (S f) as f1 eqn:Ef1. cbn [readVarint_loop]. subst f1. cbn [appendVarint_loop] in *.
  assert (0 < 2 ^ (7 * Z.of_nat k)) by (apply Z.pow_pos_nonneg; lia).
  pose proof (at_length _ _ _ Hat) as Hlen. rewrite length_app in Hlen.
  destruct (0x80 <=? v) eqn:Ev; zbool.
  - assert (1 <= f)%nat as Hf1.
    { destruct f; [|lia]. replace k with 9%nat in Hv by lia. cbn in Hv. lia. }
    rewrite appendVarint_loop_app in Hat, Hlen |- *. cbn [app length] in *.
    replace (_ <=? pos) with false by (symmetry; apply Z.leb_gt; lia).
    rewrite (at_index _ _ _ _ Hat). cbn [rbind].
    pose proof (Z.mod_pos_bound v 256 ltac:(lia)) as B.
    rewrite Z_of_byte_of_Z. destruct (continuation_byte (v mod 256) B) as (-> & -> & ->). cbn [Z.eqb].
    replace (v mod 256 mod 128) with (v mod 128)
      by (symmetry; apply Z.mod_mod_divide; by exists 2).
    assert (v < 2 ^ 64) by (eapply Z.lt_le_trans; [apply Hv|apply Z.pow_le_mono_r; lia]).
    pose proof (Z.mod_pos_bound v 128 ltac:(lia)) as B'.
    assert (2 ^ (7 * Z.of_nat k + 7) = 2 ^ (7 * Z.of_nat k) * 128) as Ep by (rewrite Z.pow_add_r by lia; done).
    rewrite Z.shiftl_mul_pow2, wrapu_small by first [lia|split; [nia|];
      apply Z.lt_le_trans with (2 ^ (7 * Z.of_nat k + 7)); [nia|apply Z.pow_le_mono_r; lia]].
    rewrite lor_disjoint by lia.
    replace (63 <? _) with false by (symmetry; apply Z.ltb_ge; lia).
    replace (7 * Z.of_nat k + 7) with (7 * Z.of_nat (S k)) by lia.
    rewrite Z.shiftr_div_pow2 in * by lia. change (2 ^ 7) with 128 in *.
    rewrite (IH (S k) (v / 128)); [| lia | lia | | | ].
    + unfold ok. do 2 f_equal. f_equal; [|lia].
      replace (7 * Z.of_nat (S k)) with (7 * Z.of_nat k + 7) by lia. rewrite Ep.
      pose proof (Z.div_mod v 128 ltac:(lia)). nia.
    + split; [apply Z.div_pos; lia|]. apply Z.div_lt_upper_bound; [lia|]. change 128 with (2 ^ 7).
      rewrite <- Z.pow_add_r by lia.
      replace (7 + (64 - 7 * Z.of_nat (S k))) with (64 - 7 * Z.of_nat k) by lia. apply Hv.
    + replace (7 * Z.of_nat (S k)) with (7 * Z.of_nat k + 7) by lia. rewrite Ep. nia.
    + apply (at_step b pos [_]) in Hat. done.
  - cbn [app length] in *. replace (_ <=? pos) with false by (symmetry; apply Z.leb_gt; lia).
    rewrite (at_index _ _ _ _ Hat). cbn [rbind]. rewrite Z_of_byte_of_Z, Z.mod_small by lia.
    destruct (final_byte v ltac:(lia)) as [-> ->]. cbn [Z.eqb].
    assert (v * 2 ^ (7 * Z.of_nat k) < 2 ^ 64).
    { apply Z.lt_le_trans with (2 ^ (64 - 7 * Z.of_nat k) * 2 ^ (7 * Z.of_nat k)); [nia|].
      rewrite <- Z.pow_add_r by lia. apply Z.pow_le_mono_r; lia. }
    rewrite Z.shiftl_mul_pow2, wrapu_small by (lia || nia). by rewrite lor_disjoint by lia.
Qed.

Lemma readVarint_at b pos v rest :
  0 <= v < 2 ^ 64 -> at_ b pos (varint v ++ rest) ->
  readVarint b pos = ok (v, pos + Z.of_nat (length (varint v))) /\ at_ b (pos + Z.of_nat (length (varint v))) rest.
Proof.
  intros Hv Hat. split; [|by apply at_step].
  unfold readVarint. change (readVarint_loop 11 b pos 0 0) with (readVarint_loop 11 b pos 0 (7 * Z.of_nat 0)).
  rewrite (readVarint_loop_roundtrip 10 0 v 0 b pos rest) by (done || lia).
  unfold ok. do 2 f_equal. f_equal. lia.
Qed.

(** ** Specification: a block as the protocol serializes it *)
Record vout := mkVout { vo_amount : Z; vo_tagged : bool; vo_key : bytes }.
Record cblock := mkCBlock {
  cb_major : Z; cb_minor : Z; cb_time : Z; cb_prev : bytes; cb_nonce : bytes;
  cb_version : Z; cb_unlock : Z; cb_height : Z; cb_vouts : list vout; cb_extra : bytes;
  cb_txs : list bytes;
}.
Definition header_bytes (b : cblock) : bytes :=
  varint (cb_major b) ++ varint (cb_minor b) ++ varint (cb_time b) ++ cb_prev b ++ cb_nonce b.
Definition vout_bytes (o : vout) : bytes :=
  varint (vo_amount o) ++ byte_of_Z (if vo_tagged o then 3 else 2) :: vo_key o.
(** A version 2 transaction ends with its (null) ring signature type. *)
Definition rct_bytes (b : cblock) : bytes := if 2 <=? cb_version b then [x00] else [].
Definition miner_prefix_bytes (b : cblock) : bytes :=
  varint (cb_version b) ++ varint (cb_unlock b) ++ varint 1 ++ [xff] ++ varint (cb_height b)
  ++ varint (Z.of_nat (length (cb_vouts b))) ++ concat (map vout_bytes (cb_vouts b))
  ++ varint (Z.of_nat (length (cb_extra b))) ++ cb_extra b.
Definition tail_bytes (b : cblock) : bytes :=
  varint (Z.of_nat (length (cb_txs b))) ++ concat (cb_txs b).
Definition block_bytes (b : cblock) : bytes :=
  header_bytes b ++ miner_prefix_bytes b ++ rct_bytes b ++ tail_bytes b.

Definition u64_ok (z : Z) : Prop := 0 <= z < 2 ^ 64.
Record cblock_ok (b : cblock) : Prop := {
  ok_major : u64_ok (cb_major b); ok_minor : u64_ok (cb_minor b); ok_time : u64_ok (cb_time b);
  ok_prev : length (cb_prev b) = 32%nat; ok_nonce : length (cb_nonce b) = 4%nat;
  ok_version : u64_ok (cb_version b); ok_unlock : u64_ok (cb_unlock b); ok_height : u64_ok (cb_height b);
  ok_vouts : Forall (fun o => u64_ok (vo_amount o) /\
               length (vo_key o) = if vo_tagged o then 33%nat else 32%nat) (cb_vouts b);
  ok_txs : Forall (fun h => length h = 32%nat) (cb_txs b);
  ok_size : Z.of_nat (length (block_bytes b)) < 2 ^ 62;
}.

(** ** The parser on a serialized block *)
Ltac read_varint Hat :=
  match type of Hat with
  | at_ ?b ?pos (varint ?v ++ ?rest) =>
      let R := fresh "R" in
      destruct (readVarint_at b pos v rest) as [R Hat']; [assumption || (unfold u64_ok in *; lia)|exact Hat|];
      rewrite R; clear R Hat; rename Hat' into Hat; cbn [rbind ok]
  end.

Lemma varint_nonempty v : (1 <= length (varint v))%nat.
Proof.
  unfold varint, appendVarint. generalize 9%nat. intros f. cbn [appendVarint_loop]. destruct (_ <=? v); [|cbn; lia].
  rewrite appendVarint_loop_app, length_app. cbn. lia.
Qed.

Lemma parse_vouts_at fuel b pos vs rest :
  Forall (fun o => u64_ok (vo_amount o) /\ length (vo_key o) = if vo_tagged o then 33%nat else 32%nat) vs ->
  (length vs < fuel)%nat -> at_ b pos (concat (map vout_bytes vs) ++ rest) ->
  parse_vouts fuel b (Z.of_nat (length vs)) pos = ok (pos + Z.of_nat (length (concat (map vout_bytes vs)))).
Proof.
  revert fuel pos; induction vs as [|o vs IH]; intros [|fuel] pos Hvs Hf Hat; cbn [length] in Hf; try lia.
  - cbn. by rewrite Z.add_0_r.
  - apply Forall_cons in Hvs as [(Ha & Hk) Hvs]. cbn [parse_vouts length map concat] in *.
    replace (Z.of_nat (S (length vs)) <=? 0) with false by (symmetry; apply Z.leb_gt; lia).
    unfold vout_bytes at 1 in Hat. rewrite <- !app_assoc in Hat. read_varint Hat.
    set (p := pos + _) in *. rewrite <- app_comm_cons in Hat. pose proof (at_length _ _ _ Hat) as L.
    cbn [length] in L. replace (_ <=? p) with false by (symmetry; apply Z.leb_gt; lia).
    rewrite (at_index _ _ _ _ Hat). cbn [rbind ok]. rewrite Z_of_byte_of_Z.
    apply (at_step b p [_]) in Hat. cbn [length] in Hat. change (Z.of_nat 1) with 1 in Hat.
    rewrite length_app in L.
    assert (exists n, Z.of_nat (length (vo_key o)) = n /\
      (if (if vo_tagged o then 3 else 2) mod 256 =? 2 then ok (p + 1 + 32)
       else if (if vo_tagged o then 3 else 2) mod 256 =? 3 then ok (p + 1 + 33)
       else fail "unknown vout target tag in miner tx") = ok (p + 1 + n)) as (n & Hn & ->).
    { rewrite Hk. destruct (vo_tagged o); eexists; (split; reflexivity). }
    cbn [rbind ok].
    replace (_ <? p + 1 + n) with false by (symmetry; apply Z.ltb_ge; lia).
    replace (Z.of_nat (S (length vs)) - 1) with (Z.of_nat (length vs)) by lia.
    apply at_step in Hat. rewrite Hn in Hat. rewrite (IH fuel) by (done || lia).
    unfold ok. do 2 f_equal. subst p. unfold vout_bytes at 2. rewrite !length_app. cbn [length]. lia.
Qed.

Lemma parse_tx_hashes_at fuel b pos txs acc rest :
  Forall (fun h => length h = 32%nat) txs -> (length txs < fuel)%nat -> at_ b pos (concat txs ++ rest) ->
  parse_tx_hashes fuel b (Z.of_nat (length txs)) pos acc
  = ok (acc ++ txs, pos + 32 * Z.of_nat (length txs)).
Proof.
  revert fuel pos acc; induction txs as [|h txs IH]; intros [|fuel] pos acc Htx Hf Hat; cbn [length] in Hf; try lia.
  - cbn. by rewrite app_nil_r, Z.add_0_r.
  - apply Forall_cons in Htx as [Hh Htx]. cbn [parse_tx_hashes length concat] in *. rewrite <- app_assoc in Hat.
    replace (Z.of_nat (S (length txs)) <=? 0) with false by (symmetry; apply Z.leb_gt; lia).
    pose proof (at_length _ _ _ Hat) as L. rewrite length_app, Hh in L.
    replace (_ <? pos + 32) with false by (symmetry; apply Z.ltb_ge; lia).
    pose proof (at_slice _ _ _ _ Hat) as S1. rewrite Hh in S1. change (Z.of_nat 32) with 32 in S1.
    rewrite S1. cbn [rbind ok]. apply at_step in Hat. rewrite Hh in Hat.
    replace (Z.of_nat (S (length txs)) - 1) with (Z.of_nat (length txs)) by lia.
    rewrite (IH fuel) by (done || lia). unfold ok. do 2 f_equal. f_equal; [by rewrite <- app_assoc|lia].
Qed.

Lemma concat_vouts_length vs : (length vs <= length (concat (map vout_bytes vs)))%nat.
Proof.
  induction vs as [|o vs IH]; [done|]. cbn [map concat]. rewrite length_app. unfold vout_bytes at 1.
  rewrite length_app. cbn [length]. lia.
Qed.
Lemma concat_txs_length txs :
  Forall (fun h : bytes => length h = 32%nat) txs -> length (concat txs) = (32 * length txs)%nat.
Proof. induction 1 as [|h txs Hh _ IH]; [done|]. cbn [concat length]. rewrite length_app. lia. Qed.

Section Parse_block.
Variable max_slice : Z.
Variable b : cblock.
Hypothesis W : cblock_ok b.
Let pblob := block_bytes b.

Lemma parse_header_at :
  parse_header pblob = ok (Z.of_nat (length (header_bytes b)) - 36) /\
  at_ pblob (Z.of_nat (length (header_bytes b))) (miner_prefix_bytes b ++ rct_bytes b ++ tail_bytes b).
Proof.
  destruct W. assert (at_ pblob 0 (header_bytes b ++ miner_prefix_bytes b ++ rct_bytes b ++ tail_bytes b)) as Hat
    by (split; [lia|]; by exists []).
  unfold parse_header. unfold header_bytes at 1 in Hat.
  rewrite <- !app_assoc in Hat. read_varint Hat. read_varint Hat. read_varint Hat.
  pose proof (at_length _ _ _ Hat) as L. rewrite !length_app, ok_prev0, ok_nonce0 in L.
  set (p := 0 + _ + _ + _) in *. replace (_ <? p + 36) with false by (symmetry; apply Z.ltb_ge; lia).
  apply at_step, at_step in Hat. rewrite ok_prev0, ok_nonce0 in Hat.
  assert (Z.of_nat (length (header_bytes b)) = p + 36) as ->.
  { unfold header_bytes. rewrite !length_app, ok_prev0, ok_nonce0. subst p. lia. }
  split; [unfold ok; do 2 f_equal; lia|]. by replace (p + 36) with (p + Z.of_nat 32 + Z.of_nat 4) by lia.
Qed.

Lemma parse_miner_prefix_at pos rest :
  at_ pblob pos (miner_prefix_bytes b ++ rest) -> (length (cb_extra b) <= length pblob)%nat ->
  parse_miner_prefix pblob pos = ok (cb_version b, pos + Z.of_nat (length (miner_prefix_bytes b))).
Proof.
  intros Hat Hx. destruct W. pose proof (at_length _ _ _ Hat) as L0. pose proof (proj1 Hat) as Hpos.
  fold pblob in ok_size0.
  assert (at_ pblob (pos + Z.of_nat (length (miner_prefix_bytes b))) rest) as Hend by (by apply at_step).
  pose proof (at_length _ _ _ Hend) as Lend.
  unfold parse_miner_prefix. revert Hend Lend. unfold miner_prefix_bytes in Hat |- *. rewrite !length_app.
  rewrite <- !app_assoc in Hat. intros Hend Lend. pose proof (concat_vouts_length (cb_vouts b)) as Lv.
  read_varint Hat. read_varint Hat. read_varint Hat.
  change (negb (1 =? 1)) with false. cbn [orb]. cbn [app] in Hat. pose proof (at_length _ _ _ Hat) as L. cbn [length] in L.
  set (p3 := pos + _ + _ + _) in *. replace (_ <=? p3) with false by (symmetry; apply Z.leb_gt; lia).
  rewrite (at_index _ _ _ _ Hat). cbn [rbind ok]. change (Z_of_byte xff =? 255) with true. cbn [negb]. cbn [rbind ok].
  apply (at_step _ _ [xff]) in Hat. change (Z.of_nat (length [xff])) with 1 in *.
  assert (Z.of_nat (length (cb_vouts b)) < 2 ^ 64) by lia. assert (Z.of_nat (length (cb_extra b)) < 2 ^ 63) by lia.
  read_varint Hat. read_varint Hat.
  rewrite (parse_vouts_at (S (length pblob)) pblob _ _ _ ok_vouts0 ltac:(lia) Hat). cbn [rbind ok].
  apply at_step in Hat. read_varint Hat. apply at_step, at_length in Hat.
  rewrite (wraps_small 64 (Z.of_nat (length (cb_extra b)))) by lia. cbn [length] in *.
  rewrite wraps_small by (subst p3; lia).
  replace (_ <? _) with false by (symmetry; apply Z.ltb_ge; lia).
  unfold ok. do 2 f_equal. subst p3. f_equal. lia.
Qed.

Definition parsed_block : parsedBlock :=
  let h := Z.of_nat (length (header_bytes b)) in
  mkParsed pblob (h - 4) h (h + Z.of_nat (length (miner_prefix_bytes b ++ rct_bytes b)))
    (cb_version b) (Z.of_nat (length (cb_txs b))) (cb_txs b).

Lemma parseBlockBlob_aux :
  Z.of_nat (length (cb_txs b)) <= max_slice -> parseBlockBlob max_slice pblob = ok parsed_block.
Proof.
  intros Hm. destruct parse_header_at as [E Hat]. pose proof (ok_size b W) as Hsz. fold pblob in Hsz.
  pose proof (at_length _ _ _ Hat) as L. rewrite !length_app in L.
  unfold parseBlockBlob. rewrite E. cbn [rbind ok].
  replace (Z.of_nat (length (header_bytes b)) - 36 + 36) with (Z.of_nat (length (header_bytes b))) by lia.
  set (h := Z.of_nat (length (header_bytes b))) in *.
  rewrite (parse_miner_prefix_at _ _ Hat) by (unfold miner_prefix_bytes in L; rewrite !length_app in L; lia).
  cbn [rbind ok]. apply at_step in Hat.
  assert (Z.of_nat (length (cb_txs b)) < 2 ^ 62 /\ length (concat (cb_txs b)) = (32 * length (cb_txs b))%nat) as [Ht Hc].
  { pose proof (concat_txs_length _ (ok_txs b W)) as Hc. split; [|done]. unfold tail_bytes in L. rewrite length_app in L.
    lia. }
  match goal with |- context [rbind ?x _] => assert (x = ok (h + Z.of_nat (length (miner_prefix_bytes b ++ rct_bytes b)))) as ->
  end.
  { rewrite length_app. unfold rct_bytes in *. destruct (2 <=? cb_version b) eqn:Ev; cbn [length app] in *.
    - pose proof (at_length _ _ _ Hat) as L2. cbn [length] in L2.
      replace (_ <=? _) with false by (symmetry; apply Z.leb_gt; lia).
      rewrite (at_index _ _ _ _ Hat). cbn [rbind ok]. change (Z_of_byte x00 =? 0) with true. cbn [negb].
      unfold ok. do 2 f_equal. lia.
    - unfold ok. do 2 f_equal. lia. }
  cbn [rbind ok]. apply at_step in Hat. unfold tail_bytes in Hat.
  replace (h + Z.of_nat (length (miner_prefix_bytes b)) + Z.of_nat (length (rct_bytes b)))
    with (h + Z.of_nat (length (miner_prefix_bytes b ++ rct_bytes b))) in Hat by (rewrite length_app; lia).
  set (e := h + Z.of_nat (length (miner_prefix_bytes b ++ rct_bytes b))) in *. assert (u64_ok (Z.of_nat (length (cb_txs b)))) by (unfold u64_ok; lia).
  read_varint Hat. replace (max_slice <? _) with false by (symmetry; apply Z.ltb_ge; lia).
  rewrite <- (app_nil_r (concat _)) in Hat.
  assert (length (cb_txs b) < S (length pblob))%nat as Hf.
  { pose proof (at_length _ _ _ Hat) as L3. rewrite length_app in L3. lia. }
  rewrite (parse_tx_hashes_at (S (length pblob)) pblob _ _ _ _ (ok_txs b W) Hf Hat). cbn [rbind ok app].
  apply at_step, at_length in Hat. cbn [length] in Hat.
  replace (_ =? _) with true by (symmetry; apply Z.eqb_eq; lia). cbn [negb].
  rewrite wraps_small by lia. unfold ok, parsed_block. subst h e. do 3 f_equal. lia.
Qed.
End Parse_block.

(** ** Specification: the tree hash

    The tail of the leaves is hashed pairwise so that a power of two remains;
    the root is that of the balanced tree over them. *)
Section Tree_spec.
Context `{PowHashes}.

Fixpoint pairwise (l : list bytes) : list bytes :=
  match l with
  | a :: b :: l' => keccak256 [a; b] :: pairwise l'
  | _ => []
  end.
Fixpoint balanced (d : nat) (l : list bytes) : bytes :=
  match d with
  | O => nth 0 l []
  | S d => keccak256 [balanced d (take (2 ^ d) l); balanced d (drop (2 ^ d) l)]
  end.
(** [2^d] is the largest power of two below the number of leaves. *)
Definition tree_root (d : nat) (leaves : list bytes) : bytes :=
  let m := (2 * 2 ^ d - length leaves)%nat in
  balanced d (take m leaves ++ pairwise (drop m leaves)).

Lemma pairwise_app a b : Nat.Even (length a) -> pairwise (a ++ b) = pairwise a ++ pairwise b.
Proof.
  induction a as [|x|x y a IH] using byte_ind2; intros [k Hk]; cbn [length] in Hk; [done|lia|].
  cbn [app pairwise]. f_equal. apply IH. exists (k - 1)%nat. lia.
Qed.
Lemma pairwise_length a : (length (pairwise a) = length a / 2)%nat.
Proof.
  induction a as [|x|x y a IH] using byte_ind2; [done|done|]. cbn [pairwise length]. rewrite IH.
  by rewrite <- !Nat.div2_div.
Qed.
Lemma pairwise_snoc l (j : nat) a b :
  l !! (2 * j)%nat = Some a -> l !! (2 * j + 1)%nat = Some b ->
  pairwise (take (2 * (j + 1)) l) = pairwise (take (2 * j) l) ++ [keccak256 [a; b]].
Proof.
  intros Ha Hb. replace (2 * (j + 1))%nat with (S (S (2 * j))) by lia.
  rewrite (take_S_r _ _ b) by (rewrite <- Hb; f_equal; lia). rewrite (take_S_r _ _ a) by done.
  rewrite <- app_assoc, pairwise_app; [done|]. rewrite length_take. exists j.
  apply lookup_lt_Some in Ha. lia.
Qed.

Lemma balanced_pairwise d l : length l = (2 ^ S d)%nat -> balanced d (pairwise l) = balanced (S d) l.
Proof.
  revert l; induction d as [|d IH]; intros l Hl.
  { destruct l as [|a [|b [|]]]; try discriminate. done. }
  remember (S d) as d1 eqn:E. cbn [balanced]. rewrite E at 1. cbn [balanced]. subst d1.
  set (n := (2 ^ S d)%nat) in *. assert (length l = 2 * n)%nat as Hl2 by (rewrite Hl; subst n; cbn; lia).
  rewrite <- (take_drop n l) at 1 2. assert (length (take n l) = n) by (rewrite length_take; lia).
  assert (Nat.Even (length (take n l))) by (exists (2 ^ d)%nat; subst n; cbn in *; lia).
  assert (length (pairwise (take n l)) = 2 ^ d)%nat as Hp.
  { rewrite pairwise_length. replace (length (take n l)) with (2 ^ d * 2)%nat by (subst n; cbn in *; lia).
    by apply Nat.div_mul. }
  rewrite pairwise_app by done. rewrite take_app_length', drop_app_length' by done.
  rewrite !IH by (rewrite ?length_drop; lia). done.
Qed.

Lemma insert_middle {A} (a : list A) x y b j : j = length a -> <[j := y]> (a ++ x :: b) = a ++ y :: b.
Proof. intros ->. induction a as [|z a IH]; [done|]. cbn. f_equal. exact IH. Qed.

Lemma nth_lookup_app {A} (p l : list A) (i j : nat) d : length p = j -> (j <= i)%nat -> nth i (p ++ drop j l) d = nth i l d.
Proof.
  intros <- Hi. rewrite app_nth2 by lia. rewrite nth_skipn. f_equal. lia.
Qed.

(** One level of the reduction works in place. *)
Lemma reduce_level_spec fuel ints j cnt :
  (2 * cnt <= length ints)%nat -> (j <= cnt)%nat -> (cnt - j <= fuel)%nat ->
  reduce_level fuel (pairwise (take (2 * j) ints) ++ drop j ints) (2 * j) j cnt
  = pairwise (take (2 * cnt) ints) ++ drop cnt ints.
Proof.
  revert j; induction fuel as [|fuel IH]; intros j Hl Hj Hf; cbn [reduce_level].
  { by replace j with cnt by lia. }
  destruct (j <? cnt)%nat eqn:E; zbool; [|by replace j with cnt by lia].
  assert (length (pairwise (take (2 * j) ints)) = j) as Hp.
  { rewrite pairwise_length, length_take, Nat.min_l by lia. rewrite Nat.mul_comm. by apply Nat.div_mul. }
  rewrite !nth_lookup_app by (done || lia).
  destruct (lookup_lt_is_Some_2 ints j ltac:(lia)) as [x Hx].
  rewrite (drop_S ints x j Hx), insert_middle by done.
  replace (2 * j + 2)%nat with (2 * (j + 1))%nat by lia.
  rewrite <- (IH (j + 1)%nat) by lia. f_equal.
  destruct (lookup_lt_is_Some_2 ints (2 * j)%nat ltac:(lia)) as [a Ha].
  destruct (lookup_lt_is_Some_2 ints (2 * j + 1)%nat ltac:(lia)) as [b Hb].
  rewrite (pairwise_snoc ints j a b Ha Hb). rewrite (nth_lookup_Some _ _ _ _ Ha), (nth_lookup_Some _ _ _ _ Hb).
  rewrite <- app_assoc. cbn [app]. by replace (j + 1)%nat with (S j) by lia.
Qed.

Lemma reduce_tree_spec fuel d ints :
  (1 <= d <= fuel)%nat -> (2 ^ d <= length ints)%nat ->
  reduce_tree fuel ints (2 ^ d) = balanced d (take (2 ^ d) ints).
Proof.
  revert d ints; induction fuel as [|fuel IH]; intros d ints Hd Hl; [lia|]. cbn [reduce_tree].
  destruct d as [|[|d]]; [lia| |].
  - cbn [Nat.pow Nat.mul Nat.add] in *. destruct ints as [|a [|b ints]]; cbn [length] in Hl; [lia|lia|]. done.
  - assert (2 < 2 ^ S (S d))%nat as H2 by (pose proof (Nat.pow_nonzero 2 d); cbn; lia).
    apply Nat.ltb_lt in H2. rewrite H2.
    replace (2 ^ S (S d) / 2)%nat with (2 ^ S d)%nat
      by (symmetry; rewrite (Nat.pow_succ_r' 2 (S d)), Nat.mul_comm; by apply Nat.div_mul).
    pose proof (reduce_level_spec (2 ^ S d) ints 0 (2 ^ S d)) as R. change (2 * 0)%nat with 0%nat in R.
    change (pairwise (take 0 ints) ++ drop 0 ints) with ints in R. rewrite <- Nat.pow_succ_r' in R.
    rewrite R by (rewrite <- ?Nat.pow_succ_r'; lia). clear R.
    assert (length (take (2 ^ S (S d)) ints) = 2 ^ S (S d))%nat as Ht by (rewrite length_take; lia).
    assert (length (pairwise (take (2 ^ S (S d)) ints)) = 2 ^ S d)%nat as Hp.
    { rewrite pairwise_length, Ht, (Nat.pow_succ_r' 2 (S d)), Nat.mul_comm. by apply Nat.div_mul. }
    rewrite IH by (rewrite ?length_app; lia). rewrite take_app_length' by done. by apply balanced_pairwise.
Qed.

Lemma compress_tail_spec fuel hashes m t cnt :
  (length hashes = 2 * cnt - m)%nat -> (m <= cnt)%nat -> (t <= cnt - m)%nat -> (cnt - m - t <= fuel)%nat ->
  compress_tail fuel hashes
    (take m hashes ++ pairwise (take (2 * t) (drop m hashes)) ++ repeat [] (cnt - m - t)) (m + 2 * t) (m + t) cnt
  = take m hashes ++ pairwise (drop m hashes).
Proof.
  intros Hlen Hm. revert t; induction fuel as [|fuel IH]; intros t Ht Hf; cbn [compress_tail].
  { replace t with (cnt - m)%nat by lia. rewrite Nat.sub_diag, app_nil_r, (take_ge (drop _ _)); [done|].
    rewrite length_drop. lia. }
  destruct (m + t <? cnt)%nat eqn:E; zbool.
  2:{ replace t with (cnt - m)%nat by lia. rewrite Nat.sub_diag, app_nil_r, (take_ge (drop _ _)); [done|].
      rewrite length_drop. lia. }
  destruct (lookup_lt_is_Some_2 hashes (m + 2 * t)%nat ltac:(lia)) as [a Ha].
  destruct (lookup_lt_is_Some_2 hashes (m + 2 * t + 1)%nat ltac:(lia)) as [b Hb].
  rewrite (nth_lookup_Some _ _ _ _ Ha), (nth_lookup_Some _ _ _ _ Hb).
  replace (cnt - m - t)%nat with (S (cnt - m - (t + 1)))%nat by lia. cbn [repeat].
  rewrite app_assoc, insert_middle.
  2:{ rewrite length_app, pairwise_length, !length_take, length_drop. rewrite !Nat.min_l by lia.
      rewrite (Nat.mul_comm 2 t), Nat.div_mul by lia. lia. }
  replace (m + 2 * t + 2)%nat with (m + 2 * (t + 1))%nat by lia.
  replace (m + t + 1)%nat with (m + (t + 1))%nat by lia. rewrite <- (IH (t + 1)%nat) by lia. f_equal.
  rewrite (pairwise_snoc (drop m hashes) t a b).
  - by rewrite <- !app_assoc.
  - by rewrite lookup_drop.
  - rewrite lookup_drop, <- Hb. f_equal. lia.
Qed.

Lemma grow_pow_spec fuel e count :
  (2 ^ e < count)%nat -> (count <= 2 ^ S e + fuel)%nat ->
  exists d, (e <= d)%nat /\ grow_pow fuel (2 ^ S e) count = (2 ^ S d)%nat /\ (2 ^ d < count <= 2 ^ S d)%nat.
Proof.
  revert e; induction fuel as [|fuel IH]; intros e He Hf; cbn [grow_pow].
  { exists e. split; [done|]. split; [done|]. lia. }
  destruct (2 ^ S e <? count)%nat eqn:E; zbool.
  - destruct (IH (S e)) as (d & Hd & Eg & Hc); [done| |].
    + rewrite (Nat.pow_succ_r' 2 (S e)). pose proof (Nat.pow_nonzero 2 (S e)). lia.
    + exists d. split; [lia|]. split; [|done]. rewrite <- Eg. by rewrite (Nat.pow_succ_r' 2 (S e)).
  - exists e. split; [done|]. split; [done|lia].
Qed.

Lemma treeHash_root_aux leaves d :
  (2 ^ d < length leaves <= 2 ^ S d)%nat -> (1 <= d)%nat -> treeHash leaves = tree_root d leaves.
Proof.
  intros Hd H1. assert (2 <= 2 ^ d)%nat.
  { destruct d; [lia|]. pose proof (Nat.pow_nonzero 2 d). cbn. lia. }
  unfold treeHash. destruct leaves as [|a [|b [|c l]]]; cbn [length] in *; try lia.
  set (leaves := a :: b :: c :: l) in *. change (S (S (S (length l)))) with (length leaves) in *.
  destruct (grow_pow_spec (length leaves) 0 (length leaves)) as (d' & _ & E & Hd'); [cbn in *; lia|cbn in *; lia|].
  change (2 ^ 1)%nat with 2%nat in E. rewrite E.
  assert (d' = d) as ->.
  { destruct (Nat.lt_trichotomy d d') as [L|[?|L]]; [|done|].
    - apply (Nat.pow_le_mono_r 2) in L; lia.
    - apply (Nat.pow_le_mono_r 2) in L; lia. }
  assert (2 ^ S d / 2 = 2 ^ d)%nat as ->.
  { rewrite Nat.pow_succ_r', Nat.mul_comm. by apply Nat.div_mul. }
  rewrite Nat.pow_succ_r' in Hd. set (m := (2 * 2 ^ d - length leaves)%nat).
  pose proof (compress_tail_spec (length leaves) leaves m 0 (2 ^ d)) as C.
  change (2 * 0)%nat with 0%nat in C. change (pairwise (take 0 (drop m leaves))) with (@nil bytes) in C. cbn [app] in C. rewrite !Nat.add_0_r, Nat.sub_0_r in C.
  rewrite C by lia. unfold tree_root. change (2 * 2 ^ d - length leaves)%nat with m.
  assert (length (take m leaves ++ pairwise (drop m leaves)) = 2 ^ d)%nat as L.
  { rewrite length_app, pairwise_length, length_take, length_drop.
    replace (length leaves - m)%nat with ((2 ^ d - m) * 2)%nat by lia. rewrite Nat.div_mul by lia. lia. }
  rewrite reduce_tree_spec; [by rewrite take_ge by lia| |lia].
  split; [done|]. pose proof (Nat.pow_gt_lin_r 2 d). lia.
Qed.
End Tree_spec.

(** ** What the parsed block gives the pool *)
Section Parsed.
Context `{PowHashes}.

(** The three-part hash of the miner transaction of a block. *)
Definition miner_tx_hash (b : cblock) : bytes :=
  if cb_version b <? 2 then keccak256 [miner_prefix_bytes b]
  else keccak256 [keccak256 [miner_prefix_bytes b]; keccak256 [[x00]]; zeros 32].
Definition hashing_bytes (b : cblock) : bytes :=
  header_bytes b ++ treeHash (miner_tx_hash b :: cb_txs b) ++ varint (Z.of_nat (length (cb_txs b)) + 1).

Lemma slice_prefix (a b : bytes) : slice (a ++ b) 0 (Z.of_nat (length a)) = Val a.
Proof. apply (slice_app [] a b). Qed.

Lemma minerTxHash_aux b : minerTxHash (parsed_block b) = Val (miner_tx_hash b).
Proof.
  unfold minerTxHash, parsed_block. cbn [blob headerEnd minerTxEnd minerTxVer].
  unfold block_bytes. rewrite !(app_assoc (miner_prefix_bytes b)), <- Nat2Z.inj_add, slice_app. cbn [rbind].
  unfold miner_tx_hash, rct_bytes. destruct (Z.ltb_spec (cb_version b) 2) as [L|L].
  - replace (2 <=? cb_version b) with false by (symmetry; apply Z.leb_gt; lia). by rewrite app_nil_r.
  - replace (2 <=? cb_version b) with true by (symmetry; apply Z.leb_le; lia).
    rewrite length_app. cbn [length].
    replace (Z.of_nat (length (miner_prefix_bytes b) + 1) - 1) with (Z.of_nat (length (miner_prefix_bytes b))) by lia.
    rewrite slice_prefix. cbn [rbind].
    pose proof (slice_app (miner_prefix_bytes b) [x00] []) as S. rewrite app_nil_r in S. cbn [length] in S.
    rewrite S. done.
Qed.

Lemma hashingBlob_aux b :
  Z.of_nat (length (cb_txs b)) < 2 ^ 62 -> hashingBlob (parsed_block b) = Val (hashing_bytes b).
Proof.
  intros Hn. unfold hashingBlob. rewrite minerTxHash_aux. cbn [rbind].
  unfold parsed_block. cbn [blob headerEnd txHashes txCount]. unfold block_bytes.
  rewrite slice_prefix. cbn [rbind]. rewrite appendVarint_varint, wrapu_small by lia.
  unfold hashing_bytes. by rewrite <- app_assoc.
Qed.

Definition with_nonce (n : bytes) (b : cblock) : cblock :=
  mkCBlock (cb_major b) (cb_minor b) (cb_time b) (cb_prev b) n (cb_version b) (cb_unlock b) (cb_height b)
    (cb_vouts b) (cb_extra b) (cb_txs b).

(** The header without its nonce *)
Definition header_prefix (b : cblock) : bytes :=
  varint (cb_major b) ++ varint (cb_minor b) ++ varint (cb_time b) ++ cb_prev b.
Lemma header_split b : header_bytes b = header_prefix b ++ cb_nonce b.
Proof. unfold header_bytes, header_prefix. by rewrite <- !app_assoc. Qed.

(** Replacing the nonce in the header that starts a blob. *)
Lemma withNonce_header b rest n :
  length (cb_nonce b) = 4%nat -> length n = 4%nat ->
  withNonce (header_bytes b ++ rest) (Z.of_nat (length (header_bytes b)) - 4) n
  = Val (header_bytes (with_nonce n b) ++ rest).
Proof.
  intros Hb Hn. unfold withNonce. rewrite !header_split. change (header_prefix (with_nonce n b)) with (header_prefix b).
  cbn [with_nonce cb_nonce]. set (pre := header_prefix b). rewrite length_app, Hb, <- !app_assoc.
  replace (Z.of_nat (length pre + 4) - 4) with (Z.of_nat (length pre)) by lia.
  pose proof (slice_app pre (cb_nonce b) rest) as S. rewrite Hb, Nat2Z.inj_add in S.
  change (Z.of_nat 4) with 4 in S. rewrite S. cbn [rbind].
  rewrite Nat2Z.id, take_app_length, (take_ge n), Hn, (drop_ge (cb_nonce b)) by lia.
  rewrite drop_app_ge by lia. replace (length pre + 4 - length pre)%nat with 4%nat by lia.
  rewrite <- Hb, drop_app_length. done.
Qed.
End Parsed.

(** ** A block for the witnesses *)
Definition sample_cblock : cblock :=
  mkCBlock 16 16 1700000000 (repeat xaa 32) (zeros 4) 2 3000060 3000000
    [mkVout 600000000000 true (repeat xbb 33); mkVout 5 false (repeat xcc 32)]
    (repeat x01 33 ++ [x02; x08] ++ zeros 8) [repeat xdd 32; repeat xee 32; repeat xff 32].
Lemma sample_cblock_ok : cblock_ok sample_cblock.
Proof.
  constructor; try (unfold u64_ok; cbn; lia); try reflexivity.
  - repeat constructor; unfold u64_ok; cbn; lia.
  - repeat constructor.
Qed.

(** C34: a block blob parses back: for every block serialized as the CryptoNote
    protocol says (any number of outputs of either kind, any extra field,
    version 1 or 2, any number of transactions) the parser succeeds and finds
    exactly the nonce, the header, the miner transaction and the other
    transaction hashes; and the hashing blob it is used for is the header, the
    tree hash of the three-part hash of the miner transaction with the other
    hashes, and their number. *)
Theorem parseBlockBlob_serialized `{PowHashes} (max_slice : Z) (b : cblock) :
  cblock_ok b -> Z.of_nat (length (cb_txs b)) <= max_slice ->
  exists p, parseBlockBlob max_slice (block_bytes b) = ok p /\
    slice (block_bytes b) (nonceOffset p) (nonceOffset p + 4) = Val (cb_nonce b) /\
    slice (block_bytes b) 0 (headerEnd p) = Val (header_bytes b) /\
    slice (block_bytes b) (headerEnd p) (minerTxEnd p) = Val (miner_prefix_bytes b ++ rct_bytes b) /\
    (minerTxVer p, txHashes p) = (cb_version b, cb_txs b) /\
    hashingBlob p = Val (hashing_bytes b).
Proof.
  intros W Hm. exists (parsed_block b). split; [by apply parseBlockBlob_aux|].
  pose proof (ok_nonce b W) as Hn. pose proof (ok_size b W) as Hs.
  unfold parsed_block at 1 2 3 4 5 6. cbn [nonceOffset headerEnd minerTxEnd minerTxVer txHashes].
  unfold block_bytes at 1 2 3. split_and!.
  - rewrite header_split, length_app, Hn, <- app_assoc.
    pose proof (slice_app (header_prefix b) (cb_nonce b) (miner_prefix_bytes b ++ rct_bytes b ++ tail_bytes b)) as S.
    rewrite <- S, Hn. f_equal; lia.
  - apply slice_prefix.
  - rewrite !(app_assoc (miner_prefix_bytes b)), <- Nat2Z.inj_add. apply slice_app.
  - done.
  - apply hashingBlob_aux. pose proof (concat_txs_length _ (ok_txs b W)) as Hc.
    unfold block_bytes, tail_bytes in Hs. rewrite !length_app in Hs. lia.
Qed.
Lemma parseBlockBlob_serialized_witness :
  exists p, parseBlockBlob 1000 (block_bytes sample_cblock) = ok p /\
    slice (block_bytes sample_cblock) (nonceOffset p) (nonceOffset p + 4) = Val (zeros 4) /\
    slice (block_bytes sample_cblock) 0 (headerEnd p) = Val (header_bytes sample_cblock) /\
    slice (block_bytes sample_cblock) (headerEnd p) (minerTxEnd p)
      = Val (miner_prefix_bytes sample_cblock ++ [x00]) /\
    (minerTxVer p, txHashes p) = (2, [repeat xdd 32; repeat xee 32; repeat xff 32]) /\
    @hashingBlob sha_primitives p = Val (@hashing_bytes sha_primitives sample_cblock).
Proof.
  apply (@parseBlockBlob_serialized sha_primitives 1000 sample_cblock).
  - exact sample_cblock_ok.
  - vm_compute. discriminate.
Defined.

(** The in-place tree hash is the protocol's: for two leaves or more it is the
    root of the balanced binary tree over the largest power of two below their
    number, the leaves beyond it hashed pairwise from the tail. *)
Theorem treeHash_balanced `{PowHashes} (leaves : list bytes) :
  (2 <= length leaves)%nat -> treeHash leaves = tree_root (Nat.log2_up (length leaves) - 1) leaves.
Proof.
  intros Hn. destruct (decide (length leaves = 2)%nat) as [E|E].
  { destruct leaves as [|a [|b [|]]]; try discriminate. done. }
  pose proof (Nat.log2_up_spec (length leaves) ltac:(lia)) as [L U].
  assert (2 <= Nat.log2_up (length leaves))%nat as H2.
  { change 2%nat with (Nat.log2_up 3). apply Nat.log2_up_le_mono. lia. }
  apply treeHash_root_aux; [|lia]. rewrite <- Nat.sub_1_r in L.
  by replace (S (Nat.log2_up (length leaves) - 1)) with (Nat.log2_up (length leaves)) by lia.
Qed.
Lemma treeHash_balanced_witness :
  @treeHash sha_primitives [repeat xaa 32; repeat xbb 32; repeat xcc 32; repeat xdd 32; repeat xee 32]
  = @tree_root sha_primitives 2 [repeat xaa 32; repeat xbb 32; repeat xcc 32; repeat xdd 32; repeat xee 32].
Proof.
  apply (@treeHash_balanced sha_primitives
           [repeat xaa 32; repeat xbb 32; repeat xcc 32; repeat xdd 32; repeat xee 32]). cbn. lia.
Defined.

(** A template whose extra length is near 2^64 moves the position before the
    start of the blob; indexing there panics instead of returning an error. *)
Definition overflowing_blob : bytes :=
  [x00; x00; x00] ++ zeros 36 ++ [x01; x00; x01; xff; x00; x00] ++ varint (2 ^ 64 - 1000).
Example extra_length_overflow_panics :
  is_val (parseBlockBlob 1000 overflowing_blob) = false.
Proof. vm_compute. reflexivity. Qed.
