(* ===== verification/Cryptonote.v ===== *)
(** * Cryptonote: src/engine/cryptonote/engine.go and rpc.go

    The engine for CryptoNote coins.  The node builds the block; the pool writes
    its counter into the reserved bytes of the miner transaction, rebuilds the
    hashing blob, and checks the nonces miners send back against RandomX, which
    is third-party code and an argument of the model.  The node is a log of
    requests with arbitrary answers. *)
From Stdlib Require Import ZArith Lia List Strings.String Strings.Byte Floats.SpecFloat.
From stdpp Require Import base list strings gmap.
From S2P Require Import Prelude Bytes Float Strconv Utils Types Json Effects Algorithm Engine EngineWork CryptonoteBlob.
Import ListNotations.
Local Open Scope string_scope.
Local Open Scope Z_scope.
Local Open Scope go_scope.

(** ** rpc.go *)
Record blockTemplate := mkTemplate {
  BlocktemplateBlob : string;
  TemplateDifficulty : Z;
  TemplateHeight : Z;
  TemplatePrevHash : string;
  ReservedOffset : Z;
  SeedHash : string;
  TemplateStatus : string;
}.
Definition blockTemplate_schema : schema := SStruct
  [("blocktemplate_blob", SString); ("blockhashing_blob", SString); ("difficulty", SUint); ("height", SInt);
   ("prev_hash", SString); ("reserved_offset", SInt); ("seed_hash", SString); ("next_seed_hash", SString);
   ("status", SString)].
Definition envelope_schema : schema := SStruct
  [("result", SAny); ("error", SStruct [("code", SInt); ("message", SString)])].

(** A request with its parameters; the body of the answer, [None] when the
    transport failed or the body is not JSON. *)
Definition xmr_node : Type := Node (string * json) (option json).

(** The last value of a field, null included: it makes a pointer nil and is kept
    by a RawMessage. *)
Definition last_value (j : json) (name : string) : option json :=
  match j with
  | JObj m => snd <$> find (fun p => same_key name (fst p)) (rev m)
  | _ => None
  end.

(** [call]: the result of the envelope, for its caller to decode. *)
Definition xmr_call (method : string) (params : json) (n : xmr_node) : err_or json * xmr_node :=
  let '(reply, n) := ask (method, params) n in
  let r :=
    match reply with
    | None => Err "transport or decode error"
    | Some j =>
        if negb (fits envelope_schema j) then Err "decode"
        else
          match last_value j "error" with
          | Some (JObj _) => Err "rpc error"
          | _ => match last_value j "result" with
                 | Some r => Ok r
                 | None => Err "unexpected end of JSON input"
                 end
          end
    end in
  (r, n).

Definition rpc_GetBlockTemplate (walletAddress : string) (reserveSize : Z) (n : xmr_node)
  : err_or blockTemplate * xmr_node :=
  let '(r, n) := xmr_call "get_block_template"
    (JObj [("reserve_size", JNum (FormatInt reserveSize)); ("wallet_address", JStr walletAddress)]) n in
  let t := err_bind r (fun j =>
    if negb (fits blockTemplate_schema j) then Err "json: cannot unmarshal"
    else
      let t := mkTemplate (field_string j "blocktemplate_blob") (field_uint j "difficulty")
                 (field_int j "height") (field_string j "prev_hash") (field_int j "reserved_offset")
                 (field_string j "seed_hash") (field_string j "status") in
      if String.eqb (TemplateStatus t) "OK" then Ok t else Err "get_block_template status") in
  (t, n).

Definition rpc_SubmitBlock (blockHex : string) (n : xmr_node) : err_or unit * xmr_node :=
  let '(r, n) := xmr_call "submit_block" (JArr [JStr blockHex]) n in
  let e := err_bind r (fun j =>
    if negb (fits (SStruct [("status", SString)]) j) then Err "json: cannot unmarshal"
    else if String.eqb (field_string j "status") "OK" then Ok tt else Err "submit_block status") in
  (e, n).

(** ** engine.go *)
Record job := mkJob {
  j_id : string;
  j_blob : bytes;
  j_hashing : bytes;
  j_nonceOff : Z;
  j_seed : bytes;
  j_height : Z;
  j_diff : Z;
  j_prevHash : string;
}.
Record engine := mkEngine {
  jobCounter : Z;
  book : Book job;
  rpc : xmr_node;
}.
Definition with_book (b : Book job) (e : engine) : engine := mkEngine (jobCounter e) b (rpc e).
Definition with_rpc (n : xmr_node) (e : engine) : engine := mkEngine (jobCounter e) (book e) n.
Definition New (n : xmr_node) : engine := mkEngine 0 empty_book n.

(** [binary.LittleEndian.PutUint64(blob[off:], v)] *)
Definition put_uint64_le (b : bytes) (off v : Z) : result bytes :=
  if (off <? 0) || (Z.of_nat (length b) <? off + 8) then Panic "slice bounds out of range"
  else let o := Z.to_nat off in Val (take o b ++ le_bytes 8 v ++ drop (o + 8) b)%list.

(** targetHex: the quotient is at most 2^64, whose bit length is 65. *)
Definition targetHex (diff : float64) : result string :=
  let diff := if fltb diff (float_of_Z 1) then float_of_Z 1 else diff in
  let! d := NewBigFloat diff in
  let! q := Quo (SetInt (2 ^ 64)) d in
  match BigInt_of q with
  | None => Panic "nil pointer dereference"
  | Some t => let t := if 2 ^ 64 <=? t then 2 ^ 64 - 1 else t in Val (hex_encode (le_bytes 8 t))
  end.

Section Cryptonote.
Context `{PowHashes} `{MapOrder}.
Variable max_slice : Z.
(** [powHasher.Hash(seed, input)]; [None] is an error. *)
Variable Hash : bytes -> bytes -> option bytes.
(** opts.PoolAddress.Address *)
Variable poolAddress : string.

Definition acceptTemplate (t : blockTemplate) (e : engine) : result (err_or unit * engine) :=
  let n := u64 (jobCounter e + 1) in
  let e := mkEngine n (book e) (rpc e) in
  let id := FormatHex n in
  let '(b, okb) := hex_decode (BlocktemplateBlob t) in
  if negb okb then Val (Err "hex", e)
  else
    let '(seed, oks) := hex_decode (SeedHash t) in
    if negb oks || negb (length seed =? 32)%nat then Val (Err "cryptonote: bad seed_hash in template", e)
    else if (ReservedOffset t <=? 0) || (Z.of_nat (length b) <? i64 (ReservedOffset t + 8))
    then Val (Err "cryptonote: reserved_offset out of range", e)
    else
      let! b := put_uint64_le b (ReservedOffset t) n in
      let! r := parseBlockBlob max_slice b in
      match r with
      | Err m => Val (Err m, e)
      | Ok p =>
          let! hashing := hashingBlob p in
          let j := mkJob id b hashing (nonceOffset p) seed (TemplateHeight t) (TemplateDifficulty t)
                     (TemplatePrevHash t) in
          Val (Ok tt, with_book (publish 8 id j (book e)) e)
      end.

Definition currentJob (e : engine) : option job := current (book e).

Definition refresh (e : engine) : result (err_or bool * engine) :=
  let '(r, n) := rpc_GetBlockTemplate poolAddress 8 (rpc e) in
  let e := with_rpc n e in
  match r with
  | Err m => Val (Err m, e)
  | Ok tmpl =>
      let same := match currentJob e with
                  | Some cur => String.eqb (j_prevHash cur) (TemplatePrevHash tmpl)
                  | None => false
                  end in
      if same then Val (Ok false, e)
      else
        let! (r, e) := acceptTemplate tmpl e in
        match r with Err m => Val (Err m, e) | Ok _ => Val (Ok true, e) end
  end.

(** The part of [Init] after the proof-of-work library was opened. *)
Definition Init (e : engine) : result (err_or unit * engine) :=
  let '(r, n) := rpc_GetBlockTemplate poolAddress 8 (rpc e) in
  let e := with_rpc n e in
  match r with Err m => Val (Err m, e) | Ok t => acceptTemplate t e end.

(** The keys of a Go map are marshalled in order. *)
Definition jobObject (diff : float64) (e : engine) : result (option json) :=
  match currentJob e with
  | None => Val None
  | Some j =>
      let! target := targetHex diff in
      Val (Some (JObj [("algo", JStr "rx/0"); ("blob", JStr (hex_encode (j_hashing j)));
                       ("height", JNum (FormatInt (j_height j))); ("job_id", JStr (j_id j));
                       ("seed_hash", JStr (hex_encode (j_seed j))); ("target", JStr target)]))
  end.

Definition OnSubscribe (s : Session) (_ : list json) (e : engine) : result ((json * option bytes * Z) * engine) :=
  let! job := jobObject (SessionDifficulty s) e in
  Val ((JObj [("id", JStr "1"); ("job", default JNull job); ("status", JStr "OK")], None, 0), e).

Definition JobParamsForDifficulty (diff : float64) (e : engine) : result (option (list json)) :=
  let! obj := jobObject diff e in
  Val (match obj with None => None | Some o => Some [o] end).

Definition JobNotification (_ : bool) (e : engine) : result ((string * option (list json)) * engine) :=
  let! params := JobParamsForDifficulty (float_of_Z 1) e in Val (("job", params), e).

(** The parameters of a submission: the job id, and the nonce and the claimed
    result in lower case. *)
Definition submission (params : list json) : option (string * string * string) :=
  match params with
  | [JObj obj] =>
      Some (obj_string obj "job_id", plain_hex (obj_string obj "nonce"), to_lower (obj_string obj "result"))
  | _ => None
  end.

Definition OnSubmit (s : Session) (params : list json) (e : engine) : result (Share * engine) :=
  let share := new_share s in
  match submission params with
  | None => Val (set_error ErrIncorrectNonceSize share, e)
  | Some (jobID, nonceHex, resultHex) =>
      match find_job jobID (book e) with
      | None => Val (set_error ErrJobNotFound share, e)
      | Some (p, en) =>
          let j := en_job en in
          let share := set_job (j_id j) (j_height j) share in
          let '(nonce, okn) := hex_decode nonceHex in
          if negb okn || negb (length nonce =? 4)%nat || negb (slen resultHex =? 64)
          then Val (set_error ErrIncorrectNonceSize share, e)
          else if bool_decide (nonceHex ∈ en_seen en) then Val (set_error ErrDuplicateShare share, e)
          else
            let e := with_book (mark p nonceHex (book e)) e in
            let! input := withNonce (j_hashing j) (j_nonceOff j) nonce in
            match Hash (j_seed j) input with
            | None => Val (set_error ErrJobNotFound share, e)
            | Some hash =>
                if negb (String.eqb (hex_encode hash) resultHex)
                then Val (set_error ErrIncorrectNonceSize share, e)
                else
                  let hashNum := be_value (ReverseBytes hash) in
                  let! d := DiffFromValue Pow256 hashNum in
                  let share := set_diff d share in
                  if fltb d (SessionDifficulty s) then Val (set_error ErrLowDiffShare share, e)
                  else if (0 <? j_diff j) && fleb (float_of_Z (j_diff j)) d then
                    let! blockBlob := withNonce (j_blob j) (j_nonceOff j) nonce in
                    let blockHex := hex_encode blockBlob in
                    let '(r, n) := rpc_SubmitBlock blockHex (rpc e) in
                    let e := with_rpc n e in
                    match r with
                    | Err _ => Val (share, e)
                    | Ok _ => Val (set_hash resultHex blockHex share, e)
                    end
                  else Val (share, e)
            end
      end
  end.

Definition cryptonote_ops : EngineOps engine := {|
  Engine.Name := "cryptonote";
  Engine.OnSubscribe := OnSubscribe;
  Engine.JobNotification := JobNotification;
  Engine.OnSubmit := OnSubmit;
  Engine.JobParamsForDifficulty := Some JobParamsForDifficulty;
  Engine.NotifyMethod := Some "job";
  Engine.TargetParams := None;
  Engine.ObjectParams := Some true |}.
End Cryptonote.

(** ** The shares *)
Section Shares.
Context `{PowHashes} `{MapOrder}.
Variable max_slice : Z.
Variable Hash : bytes -> bytes -> option bytes.
Variable poolAddress : string.

(** The work of a submission: the job it names and the nonce it decodes to. *)
Definition submitted_work (params : list json) (e : engine) : option (nat * bytes) :=
  '(jobID, nonceHex, _) ← submission params;
  '(p, _) ← find_job jobID (book e);
  Some (p, fst (hex_decode nonceHex)).
Definition nonce_used (e : engine) (w : nat * bytes) : Prop := seen (book e) (fst w) (hex_encode (snd w)).

(** The proof of work of a claim: the RandomX hash of the job's hashing blob with
    the nonce is of the share's difficulty. *)
Definition randomx_work (s : Session) (w : nat * bytes) (sh : Share) (e : engine) : Prop :=
  exists en input hash,
    bk_heap (book e) !! fst w = Some en /\ length (snd w) = 4%nat /\
    withNonce (j_hashing (en_job en)) (j_nonceOff (en_job en)) (snd w) = Val input /\
    Hash (j_seed (en_job en)) input = Some hash /\
    DiffFromValue Pow256 (le_value hash) = Val (s_Diff sh) /\ s_JobId sh = j_id (en_job en).
(** What an accepted share stands for: the RandomX hash of the job's hashing blob
    with the nonce, at the share's difficulty; and a block it carries is the
    job's blob with that nonce, of network difficulty. *)
Definition randomx_share (s : Session) (w : nat * bytes) (sh : Share) (e : engine) : Prop :=
  exists en input hash,
    bk_heap (book e) !! fst w = Some en /\ length (snd w) = 4%nat /\
    withNonce (j_hashing (en_job en)) (j_nonceOff (en_job en)) (snd w) = Val input /\
    Hash (j_seed (en_job en)) input = Some hash /\
    DiffFromValue Pow256 (le_value hash) = Val (s_Diff sh) /\
    fltb (s_Diff sh) (SessionDifficulty s) = false /\
    s_JobId sh = j_id (en_job en) /\
    (s_BlockHex sh <> "" -> exists blob,
       withNonce (j_blob (en_job en)) (j_nonceOff (en_job en)) (snd w) = Val blob /\
       s_BlockHex sh = hex_encode blob /\ s_BlockHash sh = hex_encode hash /\
       fleb (float_of_Z (j_diff (en_job en))) (s_Diff sh) = true).

Lemma submission_lower ps id nonce r : submission ps = Some (id, nonce, r) -> is_lower nonce /\ is_lower r.
Proof.
  unfold submission. destruct ps as [|[| | | | |obj] [|]]; try discriminate. intros [= _ <- <-].
  split; [apply plain_hex_lower|apply to_lower_idemp].
Qed.

Lemma OnSubmit_spec s ps e sh e' :
  OnSubmit Hash s ps e = Val (sh, e') ->
  (forall w, nonce_used e w -> nonce_used e' w) /\
  (claims sh = true -> exists w, submitted_work ps e = Some w /\ randomx_work s w sh e /\
     (s_ErrorCode sh = 0 -> randomx_share s w sh e) /\ ~ nonce_used e w /\ nonce_used e' w).
Proof.
  intros E. unfold OnSubmit in E. handler_cases E.
  all: apply Val_pair_inj in E as [<- <-]; split; [|try discriminate]; cbn [with_rpc with_book book].
  all: try (by intros w Hw).
  all: try (intros w Hw; unfold nonce_used; cbn [with_rpc with_book book]; apply seen_mark; by left).
  all: intros _; zbool; subst.
  all: match goal with
       | R : submission _ = Some (_, ?key, _), F : find_job _ _ = Some (?p, ?en), D : hex_decode ?key = (?nonce, _),
         K : bool_decide (?key ∈ _) = false |- _ =>
           destruct (fresh_claim _ _ _ _ _ _ F K (proj1 (submission_lower _ _ _ _ R)) D) as (Hp & Hn & Hu);
           exists (p, nonce); split; [unfold submitted_work; rewrite R; cbn; rewrite F; cbn; by rewrite D|]
       end.
  all: rewrite ReverseBytes_rev in *; unfold be_value in *; rewrite rev_involutive in *.
  all: split; [by do 3 eexists|]; split; [|by split].
  all: intros Hz; try discriminate Hz; do 3 eexists; split_and!; try done.
  all: intros _; eexists; split_and!; try done.
  all: by match goal with R : String.eqb _ _ = true |- _ => apply String.eqb_eq in R end.
Qed.

#[export] Instance cryptonote_checker : ShareChecker (K := nat * bytes) (OnSubmit Hash) := {
  work_of := submitted_work;
  used := nonce_used;
  proved := randomx_work;
  earned := randomx_share;
  submit_used s ps e sh e' E := proj1 (OnSubmit_spec s ps e sh e' E);
  submit_claims s ps e sh e' E := proj2 (OnSubmit_spec s ps e sh e' E);
}.

(** What the engine does beside checking shares *)
Definition new_work (e e' : engine) : Prop := exists r, refresh max_slice poolAddress e = Val (r, e').

Lemma acceptTemplate_used t e r e' w :
  acceptTemplate max_slice t e = Val (r, e') -> nonce_used e w -> nonce_used e' w.
Proof.
  intros E. unfold acceptTemplate in E. handler_cases E; apply Val_pair_inj in E as [_ <-]; try done.
  unfold nonce_used. cbn [with_book book]. by rewrite seen_publish.
Qed.
Lemma new_work_used e e' : new_work e e' -> forall w, nonce_used e w -> nonce_used e' w.
Proof.
  intros [r E] w. unfold refresh in E. handler_cases E; apply Val_pair_inj in E as [_ <-]; try done.
  all: intros Hw; eapply acceptTemplate_used; [eassumption|exact Hw].
Qed.

(** C24: the shares a CryptoNote engine accepts, over any run of submissions by any
    miners interleaved with new templates: each one is a RandomX hash of the
    hashing blob of its job with the nonce it submitted, at the difficulty it is
    credited, no lower than its session's; a block it carries is the job's block
    with that nonce and meets the network difficulty; and no nonce of a job is
    accepted twice, however it is spelled. *)
Theorem cryptonote_shares_earned (e e' : engine) (l : list (Accepted engine)) :
  engine_run (OnSubmit Hash) new_work e l e' ->
  Forall (fun a => exists w, submitted_work (ac_params a) (ac_state a) = Some w /\
            randomx_share (ac_session a) w (ac_share a) (ac_state a)) l /\
  NoDup (map (fun a => submitted_work (ac_params a) (ac_state a)) l).
Proof. exact (run_credits_once (OnSubmit Hash) new_work new_work_used e l e'). Qed.

(** ** A template of the node becomes a job *)
Definition with_extra (x : bytes) (b : cblock) : cblock :=
  mkCBlock (cb_major b) (cb_minor b) (cb_time b) (cb_prev b) (cb_nonce b) (cb_version b) (cb_unlock b) (cb_height b)
    (cb_vouts b) x (cb_txs b).
Lemma with_extra_self b : with_extra (cb_extra b) b = b.
Proof. by destruct b. Qed.
(** Where the extra field of a serialized block starts. *)
Definition extra_offset (b : cblock) : Z :=
  Z.of_nat (length (header_bytes b) + (length (miner_prefix_bytes b) - length (cb_extra b))).

Lemma block_around_extra b : exists pre,
  Z.of_nat (length pre) = extra_offset b /\
  forall x, length x = length (cb_extra b) ->
    block_bytes (with_extra x b) = (pre ++ x ++ rct_bytes b ++ tail_bytes b)%list.
Proof.
  set (pm := (varint (cb_version b) ++ varint (cb_unlock b) ++ varint 1 ++ [xff] ++ varint (cb_height b)
    ++ varint (Z.of_nat (length (cb_vouts b))) ++ concat (map vout_bytes (cb_vouts b))
    ++ varint (Z.of_nat (length (cb_extra b))))%list).
  assert (forall x, length x = length (cb_extra b) -> miner_prefix_bytes (with_extra x b) = (pm ++ x)%list) as P.
  { intros x Hx. unfold miner_prefix_bytes. cbn [with_extra cb_version cb_unlock cb_height cb_vouts cb_extra]. rewrite Hx. subst pm. by rewrite <- !app_assoc. }
  exists (header_bytes b ++ pm)%list. split.
  - unfold extra_offset. assert (miner_prefix_bytes b = (pm ++ cb_extra b)%list) as ->.
    { transitivity (miner_prefix_bytes (with_extra (cb_extra b) b)); [by rewrite with_extra_self|by apply P]. }
    rewrite !length_app. lia.
  - intros x Hx. unfold block_bytes. rewrite P by done. by rewrite <- !app_assoc.
Qed.

(** The template with the pool's counter in the reserved slot. *)
Definition poked (n : Z) (pre post : bytes) (b : cblock) : cblock := with_extra (pre ++ le_bytes 8 n ++ post) b.

Lemma put_uint64_middle (pre slot post : bytes) n :
  length slot = 8%nat ->
  put_uint64_le (pre ++ slot ++ post) (Z.of_nat (length pre)) n = Val (pre ++ le_bytes 8 n ++ post)%list.
Proof.
  intros Hs. unfold put_uint64_le. rewrite !length_app, Hs.
  replace (_ || _) with false by (symmetry; rewrite orb_false_iff, !Z.ltb_ge; lia).
  rewrite Nat2Z.id, take_app_length, drop_app_ge by lia.
  replace (length pre + 8 - length pre)%nat with 8%nat by lia. by rewrite <- Hs, drop_app_length.
Qed.

Lemma with_extra_ok x b : cblock_ok b -> length x = length (cb_extra b) -> cblock_ok (with_extra x b).
Proof.
  intros W Hx. destruct (block_around_extra b) as (pre & _ & B). constructor; try apply W.
  rewrite B by done. assert (block_bytes b = (pre ++ cb_extra b ++ rct_bytes b ++ tail_bytes b)%list) as E.
  { rewrite <- B by done. by rewrite with_extra_self. }
  pose proof (ok_size b W) as S. rewrite E in S. rewrite !length_app in *. lia.
Qed.

Lemma with_nonce_block n b :
  length (cb_nonce b) = 4%nat -> length n = 4%nat ->
  let off := Z.of_nat (length (header_bytes b)) - 4 in
  withNonce (block_bytes b) off n = Val (block_bytes (with_nonce n b)) /\
  withNonce (hashing_bytes b) off n = Val (hashing_bytes (with_nonce n b)).
Proof. intros Hb Hn. split; by apply withNonce_header. Qed.

(** A template becomes the right job.  When the node sends a well-formed block
    with eight reserved bytes in its extra field at the offset it names, the
    engine accepts it; the current job holds that block with the pool's counter
    in the slot, its hashing blob, and the seed; at most eight jobs are kept; and
    whatever nonce a miner finds, the blob that is hashed and the blob that is
    submitted are those of one and the same block. *)
Theorem acceptTemplate_job (t : blockTemplate) (b : cblock) (pre slot post seed : bytes) (e : engine) :
  cblock_ok b -> Z.of_nat (length (cb_txs b)) <= max_slice ->
  cb_extra b = (pre ++ slot ++ post)%list -> length slot = 8%nat ->
  BlocktemplateBlob t = hex_encode (block_bytes b) ->
  ReservedOffset t = extra_offset b + Z.of_nat (length pre) ->
  SeedHash t = hex_encode seed -> length seed = 32%nat ->
  let n := u64 (jobCounter e + 1) in
  let b' := poked n pre post b in
  exists j e', acceptTemplate max_slice t e = Val (Ok tt, e') /\
    currentJob e' = Some j /\ j_blob j = block_bytes b' /\ j_seed j = seed /\
    (size (bk_history (book e')) <= 8)%nat /\
    (exists p en, find_job (j_id j) (book e') = Some (p, en) /\ en_job en = j /\ en_seen en = ∅) /\
    forall nonce, length nonce = 4%nat ->
      withNonce (j_hashing j) (j_nonceOff j) nonce = Val (hashing_bytes (with_nonce nonce b')) /\
      withNonce (j_blob j) (j_nonceOff j) nonce = Val (block_bytes (with_nonce nonce b')).
Proof.
  intros W Hm Hx Hslot Hb Hoff Hseed Hsl n b'.
  destruct (block_around_extra b) as (pre0 & Hpre & B).
  assert (length (pre ++ le_bytes 8 n ++ post) = length (cb_extra b)) as Hlx.
  { rewrite Hx, !length_app, le_bytes_length. lia. }
  assert (cblock_ok b') as W' by (by apply with_extra_ok).
  assert (block_bytes b = ((pre0 ++ pre) ++ slot ++ (post ++ rct_bytes b ++ tail_bytes b))%list) as Eb.
  { transitivity (block_bytes (with_extra (cb_extra b) b)); [by rewrite with_extra_self|]. rewrite B by done.
    rewrite Hx. by rewrite <- !app_assoc. }
  assert (block_bytes b' = ((pre0 ++ pre) ++ le_bytes 8 n ++ (post ++ rct_bytes b ++ tail_bytes b))%list) as Eb'.
  { unfold b', poked. rewrite B by done. by rewrite <- !app_assoc. }
  assert (ReservedOffset t = Z.of_nat (length (pre0 ++ pre))) as Ho by (rewrite length_app; lia).
  assert (0 < ReservedOffset t) as Hpos.
  { pose proof (ok_prev b W). unfold extra_offset, header_bytes in Hoff. rewrite !length_app in Hoff. lia. }
  pose proof (ok_size b W) as Hsz. pose proof Hsz as Hsz0. rewrite Eb, !length_app in Hsz0.
  unfold acceptTemplate. rewrite Hb, hex_decode_encode, Hseed, hex_decode_encode, Hsl. cbn [negb orb Nat.eqb].
  replace (_ || _) with false.
  2:{ symmetry. rewrite orb_false_iff, Z.leb_gt, Z.ltb_ge. split; [done|].
      rewrite Ho, wraps_small by (rewrite ?length_app; lia). rewrite Eb, !length_app. lia. }
  rewrite Ho, Eb, put_uint64_middle by done. cbn [rbind]. fold n. rewrite <- Eb'.
  rewrite parseBlockBlob_aux by done. unfold ok. cbn [rbind].
  rewrite hashingBlob_aux by (pose proof (ok_size b' W'); pose proof (concat_txs_length _ (ok_txs b' W')) as Hc;
    unfold block_bytes, tail_bytes in *; rewrite !length_app in *; lia). cbn [rbind].
  do 2 eexists. split; [reflexivity|]. unfold currentJob. cbn [with_book book]. split; [apply current_publish|].
  cbn [j_blob j_seed j_id j_hashing j_nonceOff].
  pose proof (publish_history 8 (FormatHex n)
    (mkJob (FormatHex n) (block_bytes b') (hashing_bytes b') (nonceOffset (parsed_block b')) seed (TemplateHeight t)
       (TemplateDifficulty t) (TemplatePrevHash t)) (book e) ltac:(lia)) as (Hsize & Hid & _).
  split; [done|]. split; [done|]. split; [exact Hsize|]. split.
  - do 2 eexists. split; [|split; [|]].
    + unfold find_job. cbn [jobCounter book]. rewrite Hid. cbn. rewrite (list_lookup_middle _ []) by done. reflexivity.
    + done.
    + done.
  - intros nonce Hn. destruct (with_nonce_block nonce b' (ok_nonce b' W') Hn). by split.
Qed.
End Shares.

(** ** Witnesses *)
Definition sample_hash (seed input : bytes) : option bytes := Some (Sha256 input).
Definition sample_template : blockTemplate :=
  mkTemplate (hex_encode (block_bytes sample_cblock)) 2 3000000 "aa" (extra_offset sample_cblock + 35)
    (hex_encode (repeat x5a 32)) "OK".
Definition template_reply : json :=
  JObj [("id", JNum "1"); ("jsonrpc", JStr "2.0");
        ("result", JObj [("blocktemplate_blob", JStr (BlocktemplateBlob sample_template));
           ("difficulty", JNum "2"); ("height", JNum "3000000"); ("prev_hash", JStr "aa");
           ("reserved_offset", JNum (FormatInt (ReservedOffset sample_template)));
           ("seed_hash", JStr (SeedHash sample_template)); ("status", JStr "OK")])].
Definition sample_node : xmr_node :=
  mkNode [] (fun _ q => if String.eqb (fst q) "get_block_template" then Some template_reply
                        else Some (JObj [("result", JObj [("status", JStr "OK")])])).

Lemma acceptTemplate_job_witness :
  let b' := poked 1 (repeat x01 33 ++ [x02; x08]) [] sample_cblock in
  exists j e', @acceptTemplate sha_primitives listed_order 1000 sample_template (New sample_node) = Val (Ok tt, e') /\
    currentJob e' = Some j /\ j_blob j = block_bytes b' /\ j_seed j = repeat x5a 32 /\
    (size (bk_history (book e')) <= 8)%nat /\
    (exists p en, find_job (j_id j) (book e') = Some (p, en) /\ en_job en = j /\ en_seen en = ∅) /\
    forall nonce, length nonce = 4%nat ->
      withNonce (j_hashing j) (j_nonceOff j) nonce = Val (@hashing_bytes sha_primitives (with_nonce nonce b')) /\
      withNonce (j_blob j) (j_nonceOff j) nonce = Val (block_bytes (with_nonce nonce b')).
Proof.
  cbv zeta.
  apply (@acceptTemplate_job sha_primitives listed_order 1000 sample_template sample_cblock
           (repeat x01 33 ++ [x02; x08]) (zeros 8) [] (repeat x5a 32) (New sample_node)).
  - exact sample_cblock_ok.
  - vm_compute. discriminate.
  - reflexivity.
  - reflexivity.
  - reflexivity.
  - vm_compute. reflexivity.
  - reflexivity.
  - reflexivity.
Defined.

Definition engine0 : engine := New sample_node.
Definition engine1 : engine :=
  get engine0 (rbind (@refresh sha_primitives listed_order 1000 "4pool" engine0) (fun r => Val (snd r))).
Definition miner : Session := mkSession None (float_of_Z 1) "alice.rig1" "10.0.0.1:5000".
Definition nonce_hash (nonce : bytes) : bytes :=
  match currentJob engine1 with
  | Some j => Sha256 (get [] (withNonce (j_hashing j) (j_nonceOff j) nonce))
  | None => []
  end.
Definition submit_params (nonce : string) : list json :=
  [JObj [("id", JStr "1"); ("job_id", JStr "1"); ("nonce", JStr nonce);
         ("result", JStr (hex_encode (nonce_hash (fst (hex_decode nonce)))))]].
Definition submit1 := @OnSubmit sample_hash miner (submit_params "0a0b0c0d") engine1.
Definition share1 : Share := get (new_share miner) (rbind submit1 (fun r => Val (fst r))).
Definition engine2 : engine := get engine0 (rbind submit1 (fun r => Val (snd r))).
Definition submit2 := @OnSubmit sample_hash miner (submit_params "0A0B0C0D") engine2.
Definition engine3 : engine := get engine0 (rbind submit2 (fun r => Val (snd r))).

(** A share is accepted, then refused under another spelling. *)
Lemma cryptonote_shares_earned_witness :
  Forall (fun a => exists w, submitted_work (ac_params a) (ac_state a) = Some w /\
            randomx_share sample_hash (ac_session a) w (ac_share a) (ac_state a))
    [mkAccepted miner (submit_params "0a0b0c0d") share1 engine1] /\
  NoDup (map (fun a => submitted_work (ac_params a) (ac_state a))
    [mkAccepted miner (submit_params "0a0b0c0d") share1 engine1]).
Proof.
  apply (@cryptonote_shares_earned sha_primitives listed_order 1000 sample_hash "4pool" engine0 engine3).
  eapply run_other; [eexists; apply (get_pair (Ok false) engine0); vm_compute; reflexivity|].
  eapply run_accepted; [apply (get_pair (new_share miner) engine0); vm_compute; reflexivity|vm_compute; reflexivity|].
  eapply (run_refused _ _ _ _ miner (submit_params "0A0B0C0D")); [apply (get_pair (new_share miner) engine0); vm_compute; reflexivity|vm_compute; reflexivity|].
  apply run_done.
Defined.
