(* ===== verification/Ergo.v ===== *)
(** * Ergo: src/engine/ergo/ergo.go

    The engine for Autolykos2 coins: the node serves a candidate over REST, the
    pool checks the eight-byte nonces of its miners and posts the solutions.  The
    proof of work (powkit) is an argument; the node is a log of requests. *)
From Stdlib Require Import ZArith Lia List Strings.Ascii Strings.String Strings.Byte Floats.SpecFloat.
From stdpp Require Import base list strings gmap.
From S2P Require Import Prelude Bytes Float Strconv Utils Types Json Effects Algorithm Engine EngineWork.
Import ListNotations.
Local Open Scope string_scope.
Local Open Scope Z_scope.
Local Open Scope go_scope.

(** ** The REST client *)

(** A request: method, path, body.  The answer is the status with the body when
    it is JSON; [None] when the transport failed. *)
Definition rest_request : Type := string * string * json.
Definition ergo_node : Type := Node rest_request (option (Z * option json)).

Definition rest_do (q : rest_request) (n : ergo_node) : err_or (option json) * ergo_node :=
  let '(r, n) := ask q n in
  (match r with
   | None => Err "transport"
   | Some (status, body) => if negb (status / 100 =? 2) then Err "HTTP" else Ok body
   end, n).

Record candidate := mkCandidate { c_Msg : string; c_B : string; c_H : Z; c_PK : string }.

(** isValidNumber of encoding/json: what a json.Number takes from a string. *)
Fixpoint skip_digits (s : string) : nat * string :=
  match s with
  | String c s' => if (48 <=? code c) && (code c <=? 57) then let '(n, r) := skip_digits s' in (S n, r) else (O, s)
  | EmptyString => (O, s)
  end.
Definition valid_number (s : string) : bool :=
  let s := match s with String "-" s' => s' | _ => s end in
  let '(n, r) := skip_digits s in
  let int_ok := match s with String "0" _ => (n =? 1)%nat | _ => (1 <=? n)%nat end in
  let '(frac_ok, r) := match r with
                       | String "." r' => let '(k, r'') := skip_digits r' in ((1 <=? k)%nat, r'')
                       | _ => (true, r)
                       end in
  let '(exp_ok, r) := match r with
                      | String c r' =>
                          if (code c =? 101) || (code c =? 69) then
                            let '(_, r') := strip_sign r' in
                            let '(k, r'') := skip_digits r' in ((1 <=? k)%nat, r'')
                          else (true, r)
                      | EmptyString => (true, r)
                      end in
  int_ok && frac_ok && exp_ok && String.eqb r EmptyString.
Definition number_field (j : json) (name : string) : option string :=
  match assigned j name with
  | Some (JNum l) => Some l
  | Some (JStr s) => if valid_number s then Some s else None
  | Some _ => None
  | None => Some ""
  end.

Definition Candidate (n : ergo_node) : err_or candidate * ergo_node :=
  let '(r, n) := rest_do ("GET", "/mining/candidate", JNull) n in
  (err_bind r (fun body =>
     match body with
     | None => Err "unexpected end of JSON input"
     | Some j =>
         if negb (fits (SStruct [("msg", SString); ("b", SAny); ("h", SUint); ("pk", SString)]) j)
         then Err "json: cannot unmarshal"
         else match number_field j "b" with
              | None => Err "json: invalid number"
              | Some b => Ok (mkCandidate (field_string j "msg") b (field_uint j "h") (field_string j "pk"))
              end
     end), n).

(** The reply to a solution is not decoded. *)
Definition SubmitNonce (nonceHex : string) (n : ergo_node) : err_or unit * ergo_node :=
  let '(r, n) := rest_do ("POST", "/mining/solution", JObj [("n", JStr nonceHex)]) n in
  (err_bind r (fun _ => Ok tt), n).

Definition mustHex (s : string) : bytes := fst (hex_decode s).

(** ** The engine *)
Definition nonce1Size : nat := 2.
Record job := mkJob { j_id : string; j_msg : bytes; j_height : Z; j_target : Z }.
Record engine := mkEngine {
  rest : ergo_node;
  enCounter : Z;
  jobCounter : Z;
  book : Book job;
}.
Definition with_book (b : Book job) (e : engine) : engine := mkEngine (rest e) (enCounter e) (jobCounter e) b.
Definition with_rest (n : ergo_node) (e : engine) : engine := mkEngine n (enCounter e) (jobCounter e) (book e).
Definition New (n : ergo_node) : engine := mkEngine n 0 0 empty_book.

(** [mining.set_target] carries the share target as 64 hex digits. *)
Definition TargetParams (diff : float64) : result (string * list out) :=
  let! t := share_target Pow256 diff in
  Val ("mining.set_target", [OJson (JStr (TargetHex t))]).

Section Ergo.
Context `{MapOrder}.
(** [pow.Compute(msg, height, nonce)]; [None] is an error. *)
Variable Compute : bytes -> Z -> Z -> option bytes.

Definition acceptCandidate (c : candidate) (e : engine) : err_or unit * engine :=
  let '(msg, okm) := hex_decode (c_Msg c) in
  if negb okm || negb (length msg =? 32)%nat then (Err "ergo: bad candidate msg", e)
  else
    match BigSetString 10 (c_B c) with
    | None => (Err "ergo: bad candidate target b", e)
    | Some target =>
        let n := u64 (jobCounter e + 1) in
        let id := FormatHex n in
        (Ok tt, mkEngine (rest e) (enCounter e) n (publish 8 id (mkJob id msg (c_H c) target) (book e)))
    end.

Definition currentJob (e : engine) : option job := current (book e).

Definition refresh (e : engine) : err_or bool * engine :=
  let '(r, n) := Candidate (rest e) in
  let e := with_rest n e in
  match r with
  | Err m => (Err m, e)
  | Ok cand =>
      let same := match currentJob e with
                  | Some cur => bytes_eqb (j_msg cur) (mustHex (c_Msg cand))
                  | None => false
                  end in
      if same then (Ok false, e)
      else
        let '(r, e) := acceptCandidate cand e in
        match r with Err m => (Err m, e) | Ok _ => (Ok true, e) end
  end.

Definition Init (e : engine) : err_or unit * engine :=
  let '(r, n) := Candidate (rest e) in
  let e := with_rest n e in
  match r with Err m => (Err m, e) | Ok cand => acceptCandidate cand e end.

(** The two low bytes of the subscription counter prefix the miner's nonces. *)
Definition OnSubscribe (_ : Session) (_ : list json) (e : engine) : result ((json * option bytes * Z) * engine) :=
  let n := u32 (enCounter e + 1) in
  let en := [byte_of_Z (Z.shiftr n 8); byte_of_Z n] in
  Val ((JArr [JNull; JStr (hex_encode en)], Some en, 8 - Z.of_nat nonce1Size),
       mkEngine (rest e) n (jobCounter e) (book e)).

Definition JobParamsForDifficulty (_ : float64) (e : engine) : result (option (list json)) :=
  Val (match currentJob e with
       | None => None
       | Some j => Some [JStr (j_id j); JNum (FormatUint (j_height j)); JStr (hex_encode (j_msg j)); JStr ""; JBool true]
       end).
Definition JobNotification (_ : bool) (e : engine) : result ((string * option (list json)) * engine) :=
  let! params := JobParamsForDifficulty (float_of_Z 1) e in Val (("mining.notify", params), e).

(** The job id and the nonce in lower case; the worker name is not looked at. *)
Definition submission (params : list json) : option (string * string) :=
  if (length params <? 3)%nat then None
  else
    jobID ← str_param params 1;
    nonceHex ← str_param params 2;
    Some (jobID, plain_hex nonceHex).

Definition OnSubmit (s : Session) (params : list json) (e : engine) : result (Share * engine) :=
  let share := new_share s in
  match submission params with
  | None => Val (set_error ErrIncorrectNonceSize share, e)
  | Some (jobID, nonceHex) =>
      match find_job jobID (book e) with
      | None => Val (set_error ErrJobNotFound share, e)
      | Some (p, en) =>
          let j := en_job en in
          let share := set_job (j_id j) (i64 (j_height j)) share in
          if negb (slen nonceHex =? 16) then Val (set_error ErrIncorrectNonceSize share, e)
          else if outside_prefix s nonceHex then Val (set_error ErrIncorrectNonceSize share, e)
          else
            match ParseUint nonceHex 16 with
            | (_, Some _) => Val (set_error ErrIncorrectNonceSize share, e)
            | (nonce, None) =>
                if bool_decide (nonceHex ∈ en_seen en) then Val (set_error ErrDuplicateShare share, e)
                else
                  let e := with_book (mark p nonceHex (book e)) e in
                  match Compute (j_msg j) (j_height j) nonce with
                  | None => Val (set_error ErrIncorrectNonceSize share, e)
                  | Some r =>
                      let resultNum := be_value r in
                      let! d := DiffFromValue Pow256 resultNum in
                      let share := set_diff d share in
                      let! target := share_target Pow256 (SessionDifficulty s) in
                      if target <? resultNum then Val (set_error ErrLowDiffShare share, e)
                      else if resultNum <=? j_target j then
                        let '(r', n) := SubmitNonce nonceHex (rest e) in
                        let e := with_rest n e in
                        match r' with
                        | Err _ => Val (share, e)
                        | Ok _ => Val (set_hash (hex_encode r) "" share, e)
                        end
                      else Val (share, e)
                  end
            end
      end
  end.

Definition ergo_ops : EngineOps engine := {|
  Engine.Name := "ergo";
  Engine.OnSubscribe := OnSubscribe;
  Engine.JobNotification := JobNotification;
  Engine.OnSubmit := OnSubmit;
  Engine.JobParamsForDifficulty := Some JobParamsForDifficulty;
  Engine.NotifyMethod := Some "mining.notify";
  Engine.TargetParams := Some TargetParams;
  Engine.ObjectParams := None |}.

(** ** The shares *)
Definition submitted_work (params : list json) (e : engine) : option (nat * Z) :=
  '(jobID, nonceHex) ← submission params;
  '(p, _) ← find_job jobID (book e);
  Some (p, fst (ParseUint nonceHex 16)).

Definition autolykos_work (s : Session) (w : nat * Z) (sh : Share) (e : engine) : Prop :=
  exists en r,
    bk_heap (book e) !! fst w = Some en /\ in_session s (snd w) /\
    Compute (j_msg (en_job en)) (j_height (en_job en)) (snd w) = Some r /\
    DiffFromValue Pow256 (be_value r) = Val (s_Diff sh) /\ s_JobId sh = j_id (en_job en).
(** The Autolykos hash of the job's message at the share target of the session;
    only a hash at the network target is reported as a block. *)
Definition autolykos_share (s : Session) (w : nat * Z) (sh : Share) (e : engine) : Prop :=
  exists en r target,
    bk_heap (book e) !! fst w = Some en /\ in_session s (snd w) /\
    Compute (j_msg (en_job en)) (j_height (en_job en)) (snd w) = Some r /\
    DiffFromValue Pow256 (be_value r) = Val (s_Diff sh) /\
    share_target Pow256 (SessionDifficulty s) = Val target /\ be_value r <= target /\
    s_JobId sh = j_id (en_job en) /\
    (s_BlockHash sh <> "" -> s_BlockHash sh = hex_encode r /\ be_value r <= j_target (en_job en)).

Lemma ergo_submission_lower ps id nonce : submission ps = Some (id, nonce) -> is_lower nonce.
Proof.
  unfold submission. destruct (_ <? 3)%nat; [done|]. destruct (str_param ps 1); [|done]. cbn.
  destruct (str_param ps 2); [|done]. cbn. intros [= _ <-]. apply plain_hex_lower.
Qed.

Lemma ergo_OnSubmit_spec s ps e sh e' :
  OnSubmit s ps e = Val (sh, e') ->
  (forall w, nonce64_used (book e) w -> nonce64_used (book e') w) /\
  (claims sh = true -> exists w, submitted_work ps e = Some w /\ autolykos_work s w sh e /\
     (s_ErrorCode sh = 0 -> autolykos_share s w sh e) /\ ~ nonce64_used (book e) w /\ nonce64_used (book e') w).
Proof.
  intros E. unfold OnSubmit in E. handler_cases E.
  all: apply Val_pair_inj in E as [<- <-]; split; [|try discriminate]; cbn [with_rest with_book book].
  all: try (by intros w Hw).
  all: try (intros w; apply nonce64_used_mono; intros q k Hq; apply seen_mark; by left).
  all: intros _; zbool; subst.
  all: match goal with
       | R : submission _ = Some (_, ?key), F : find_job _ _ = Some (?p, ?en), D : ParseUint ?key 16 = (?nonce, _),
         L : slen ?key = 16, K : bool_decide (?key ∈ _) = false, O : outside_prefix _ ?key = false |- _ =>
           pose proof (ergo_submission_lower _ _ _ R) as Hl;
           destruct (fresh_claim64 _ _ _ _ _ _ F K Hl L D) as (Hp & Hn & Hu);
           pose proof (outside_prefix_spec _ _ _ Hl L D O) as Hs;
           exists (p, nonce); split; [unfold submitted_work; rewrite R; cbn; rewrite F; cbn; by rewrite D|]
       end.
  all: split; [by do 2 eexists|]; split; [|by split].
  all: intros Hz; try discriminate Hz; do 3 eexists; split_and!; done.
Qed.

#[export] Instance ergo_checker : ShareChecker (K := nat * Z) OnSubmit := {
  work_of := submitted_work;
  used e := nonce64_used (book e);
  proved := autolykos_work;
  earned := autolykos_share;
  submit_used s ps e sh e' E := proj1 (ergo_OnSubmit_spec s ps e sh e' E);
  submit_claims s ps e sh e' E := proj2 (ergo_OnSubmit_spec s ps e sh e' E);
}.

(** What the engine does beside checking shares: new work, new sessions. *)
Definition other_step (e e' : engine) : Prop :=
  (exists r, refresh e = (r, e')) \/ (exists s ps r, OnSubscribe s ps e = Val (r, e')).

Lemma acceptCandidate_used c e r e' w :
  acceptCandidate c e = (r, e') -> nonce64_used (book e) w -> nonce64_used (book e') w.
Proof.
  intros E. unfold acceptCandidate in E. handler_cases E; apply pair_equal_spec in E as [_ <-]; try done.
  apply nonce64_used_mono. intros p k. cbn [book]. by rewrite seen_publish.
Qed.
Lemma ergo_other_step_used e e' : other_step e e' -> forall w, nonce64_used (book e) w -> nonce64_used (book e') w.
Proof.
  intros [[r E]|(s & ps & r & E)] w.
  - unfold refresh in E. handler_cases E; apply pair_equal_spec in E as [_ <-]; try done.
    all: intros Hw; eapply acceptCandidate_used; [eassumption|exact Hw].
  - unfold OnSubscribe in E. apply Val_pair_inj in E as [_ <-]. done.
Qed.

(** The shares an Ergo engine accepts, over any run of submissions by any
    miners interleaved with new work and new sessions: each one is an Autolykos
    solution of its job's message for the nonce it submitted, which starts with
    the bytes its session was given; it meets the session's share target, and a
    block is reported only at the network target; and no nonce of a job is
    accepted twice, however it is spelled. *)
Theorem ergo_shares_earned (e e' : engine) (l : list (Accepted engine)) :
  engine_run OnSubmit other_step e l e' ->
  Forall (fun a => exists w, submitted_work (ac_params a) (ac_state a) = Some w /\
            autolykos_share (ac_session a) w (ac_share a) (ac_state a)) l /\
  NoDup (map (fun a => submitted_work (ac_params a) (ac_state a)) l).
Proof. exact (run_credits_once OnSubmit other_step ergo_other_step_used e l e'). Qed.
End Ergo.

(** ** Witness *)
Definition sample_compute (msg : bytes) (height nonce : Z) : option bytes :=
  Some (Sha256 (msg ++ be_bytes 8 nonce)%list).
Definition sample_node : ergo_node :=
  mkNode [] (fun _ _ => Some (200, Some (JObj [("msg", JStr (hex_encode (repeat x5a 32))); ("b", JNum "12345678901234567890123");
                                               ("h", JNum "700000"); ("pk", JStr "02aa")]))).
Definition engine0 : engine := New sample_node.
Definition engine1 : engine := snd (@refresh listed_order engine0).
Definition subscribed := OnSubscribe (mkSession None fzero "" "") [] engine1.
Definition engine2 : engine := get engine0 (rbind subscribed (fun r => Val (snd r))).
Definition miner : Session := mkSession (Some [x00; x01]) (float_of_Z 1) "alice.rig1" "10.0.0.1:5000".
Definition submit_params (nonce : string) : list json := [JStr "alice.rig1"; JStr "1"; JStr nonce].
Definition submit1 := OnSubmit sample_compute miner (submit_params "0x0001000000abcdef") engine2.
Definition share1 : Share := get (new_share miner) (rbind submit1 (fun r => Val (fst r))).
Definition engine3 : engine := get engine0 (rbind submit1 (fun r => Val (snd r))).
Definition submit2 := OnSubmit sample_compute miner (submit_params "0001000000ABCDEF") engine3.
Definition engine4 : engine := get engine0 (rbind submit2 (fun r => Val (snd r))).
Lemma ergo_shares_earned_witness :
  Forall (fun a => exists w, submitted_work (ac_params a) (ac_state a) = Some w /\
            autolykos_share sample_compute (ac_session a) w (ac_share a) (ac_state a))
    [mkAccepted miner (submit_params "0x0001000000abcdef") share1 engine2] /\
  NoDup (map (fun a => submitted_work (ac_params a) (ac_state a))
    [mkAccepted miner (submit_params "0x0001000000abcdef") share1 engine2]).
Proof.
  apply (@ergo_shares_earned listed_order sample_compute engine0 engine4).
  eapply (run_other _ _ _ _ engine1); [left; eexists; apply surjective_pairing|].
  eapply (run_other _ _ _ _ engine2).
  { right. exists (mkSession None fzero "" ""), []. eexists. apply (get_pair (JNull, None, 0) engine0). reflexivity. }
  eapply run_accepted; [apply (get_pair (new_share miner) engine0); vm_compute; reflexivity|vm_compute; reflexivity|].
  eapply (run_refused _ _ _ _ miner (submit_params "0001000000ABCDEF"));
    [apply (get_pair (new_share miner) engine0); vm_compute; reflexivity|vm_compute; reflexivity|].
  apply run_done.
Defined.
