(* ===== verification/Beam.v ===== *)
(** * Beam: src/engine/beam/beam.go

    The engine for Beam: the node is a stratum server that pushes jobs over a
    stream, and the pool forwards the solutions of its miners.  The proof of work
    (BeamHash III, powkit) is an argument; a write to the node may fail. *)
From Stdlib Require Import ZArith Lia List Strings.Ascii Strings.String Strings.Byte Floats.SpecFloat.
From stdpp Require Import base list strings gmap.
From S2P Require Import Prelude Bytes Float Strconv Utils Types Json Effects Algorithm Engine EngineWork.
Import ListNotations.
Local Open Scope string_scope.
Local Open Scope Z_scope.
Local Open Scope go_scope.

Record job := mkJob { j_id : string; j_input : bytes; j_difficulty : Z }.

(** The connection is the encoder, nil when the stream is down; the node answers
    a write with whether it succeeded. *)
Record engine := mkEngine {
  noncePrefix : bytes;
  connected : bool;
  conn : Node json bool;
  book : Book job;
}.
Definition with_book (b : Book job) (e : engine) : engine := mkEngine (noncePrefix e) (connected e) (conn e) b.
Definition with_conn (up : bool) (n : Node json bool) (e : engine) : engine := mkEngine (noncePrefix e) up n (book e).
Definition New (n : Node json bool) : engine := mkEngine [] false n empty_book.

Definition send (msg : json) (e : engine) : err_or unit * engine :=
  if connected e then
    let '(sent, n) := ask msg (conn e) in
    ((if (sent : bool) then Ok tt else Err "write"), with_conn true n e)
  else (Err "beam: not connected", e).

(** The dial gives a fresh connection. *)
Definition connectAndLogin (password : string) (dialled : bool) (e : engine) : err_or unit * engine :=
  if dialled then
    send (JObj [("api_key", JStr password); ("id", JStr "login"); ("jsonrpc", JStr "2.0"); ("method", JStr "login")])
      (with_conn true (conn e) e)
  else (Err "dial", e).
(** The stream ended. *)
Definition disconnect (e : engine) : engine := with_conn false (conn e) e.

Definition line_schema : schema := SStruct
  [("method", SString); ("id", SString); ("input", SString); ("difficulty", SUint); ("code", SInt);
   ("description", SString); ("nonceprefix", SString)].

Section Beam.
Context `{MapOrder}.
(** [verify(header, solution)]; [None] is an error. *)
Variable verify : bytes -> bytes -> option bool.

(** A line of the node, [None] when it is not JSON; whether a new job arrived. *)
Definition handleLine (line : option json) (e : engine) : bool * engine :=
  match line with
  | None => (false, e)
  | Some m =>
      if negb (fits line_schema m) then (false, e)
      else
        let method := field_string m "method" in
        let id := field_string m "id" in
        if String.eqb method "job" then
          let '(input, oki) := hex_decode (field_string m "input") in
          if negb oki || negb (length input =? 32)%nat then (false, e)
          else (true, with_book (publish 16 id (mkJob id input (field_uint m "difficulty")) (book e)) e)
        else if String.eqb method "result" then
          if String.eqb id "login" then
            let '(p, okp) := hex_decode (field_string m "nonceprefix") in
            (false, if okp then mkEngine p (connected e) (conn e) (book e) else e)
          else (false, e)
        else (false, e)
  end.

Definition currentJob (e : engine) : option job := current (book e).

Definition OnSubscribe (_ : Session) (_ : list json) (e : engine) : result ((json * option bytes * Z) * engine) :=
  let p := noncePrefix e in
  Val ((JArr [JNull; JStr (hex_encode p)], match p with [] => None | _ => Some p end, 8 - Z.of_nat (length p)), e).

Definition JobParamsForDifficulty (_ : float64) (e : engine) : result (option (list json)) :=
  Val (match currentJob e with
       | None => None
       | Some j => Some [JStr (j_id j); JStr (hex_encode (j_input j)); JNum (FormatUint (j_difficulty j))]
       end).
Definition JobNotification (_ : bool) (e : engine) : result ((string * option (list json)) * engine) :=
  let! params := JobParamsForDifficulty (float_of_Z 1) e in Val (("mining.notify", params), e).
Definition TargetParams (diff : float64) : result (string * list out) :=
  Val ("mining.set_difficulty", [OFloat diff]).

Definition submission (params : list json) : option (string * string * string) :=
  if (length params <? 4)%nat then None
  else
    jobID ← str_param params 1;
    nonceHex ← str_param params 2;
    outputHex ← str_param params 3;
    Some (jobID, plain_hex nonceHex, plain_hex outputHex).

Definition OnSubmit (s : Session) (params : list json) (e : engine) : result (Share * engine) :=
  let share := new_share s in
  match submission params with
  | None => Val (set_error ErrIncorrectNonceSize share, e)
  | Some (jobID, nonceHex, outputHex) =>
      match find_job jobID (book e) with
      | None => Val (set_error ErrJobNotFound share, e)
      | Some (p, en) =>
          let j := en_job en in
          let share := set_job (j_id j) 0 share in
          let '(nonce, okn) := hex_decode nonceHex in
          if negb okn || negb (length nonce =? 8)%nat then Val (set_error ErrIncorrectNonceSize share, e)
          else
            let '(output, oko) := hex_decode outputHex in
            if negb oko || negb (length output =? 104)%nat then Val (set_error ErrIncorrectNonceSize share, e)
            else
              let key := (nonceHex ++ outputHex)%string in
              if bool_decide (key ∈ en_seen en) then Val (set_error ErrDuplicateShare share, e)
              else
                let e := with_book (mark p key (book e)) e in
                let header := (j_input j ++ nonce)%list in
                match verify header output with
                | Some true =>
                    let share := set_diff (float_of_Z (j_difficulty j)) share in
                    let '(r, e) := send (JObj [("id", JStr (j_id j)); ("jsonrpc", JStr "2.0"); ("method", JStr "solution");
                                               ("nonce", JStr nonceHex); ("output", JStr outputHex)]) e in
                    match r with
                    | Err _ => Val (share, e)
                    | Ok _ => Val (set_hash (hex_encode header) "" share, e)
                    end
                | _ => Val (set_error ErrIncorrectNonceSize share, e)
                end
      end
  end.

Definition beam_ops : EngineOps engine := {|
  Engine.Name := "beam";
  Engine.OnSubscribe := OnSubscribe;
  Engine.JobNotification := JobNotification;
  Engine.OnSubmit := OnSubmit;
  Engine.JobParamsForDifficulty := Some JobParamsForDifficulty;
  Engine.NotifyMethod := Some "mining.notify";
  Engine.TargetParams := Some TargetParams;
  Engine.ObjectParams := None |}.

(** ** The shares *)
Definition submitted_work (params : list json) (e : engine) : option (nat * (bytes * bytes)) :=
  '(jobID, nonceHex, outputHex) ← submission params;
  '(p, _) ← find_job jobID (book e);
  Some (p, (fst (hex_decode nonceHex), fst (hex_decode outputHex))).
Definition solution_used (e : engine) (w : nat * (bytes * bytes)) : Prop :=
  seen (book e) (fst w) (hex_encode (fst (snd w)) ++ hex_encode (snd (snd w)))%string.

(** The solution verifies over the job's input and the nonce.  The difficulty it
    is credited is the network difficulty the node named: neither it nor the
    session's is checked. *)
Definition beam_share (s : Session) (w : nat * (bytes * bytes)) (sh : Share) (e : engine) : Prop :=
  exists en, bk_heap (book e) !! fst w = Some en /\
    length (fst (snd w)) = 8%nat /\ length (snd (snd w)) = 104%nat /\
    verify (j_input (en_job en) ++ fst (snd w)) (snd (snd w)) = Some true /\
    s_Diff sh = float_of_Z (j_difficulty (en_job en)) /\ s_JobId sh = j_id (en_job en).

Lemma beam_submission_lower ps id n o : submission ps = Some (id, n, o) -> is_lower n /\ is_lower o.
Proof.
  unfold submission. destruct (_ <? 4)%nat; [done|]. destruct (str_param ps 1); [|done]. cbn.
  destruct (str_param ps 2); [|done]. cbn. destruct (str_param ps 3); [|done]. cbn.
  intros [= _ <- <-]. split; apply plain_hex_lower.
Qed.

Lemma send_book msg e r e' : send msg e = (r, e') -> book e' = book e.
Proof. unfold send. destruct (connected e); [destruct (ask _ _)|]; intros E; apply pair_equal_spec in E as [_ <-]; done. Qed.

Lemma beam_OnSubmit_spec s ps e sh e' :
  OnSubmit s ps e = Val (sh, e') ->
  (forall w, solution_used e w -> solution_used e' w) /\
  (claims sh = true -> exists w, submitted_work ps e = Some w /\ beam_share s w sh e /\
     (s_ErrorCode sh = 0 -> beam_share s w sh e) /\ ~ solution_used e w /\ solution_used e' w).
Proof.
  intros E. unfold OnSubmit in E. handler_cases E.
  all: apply Val_pair_inj in E as [<- <-].
  all: try match goal with R : send _ _ = _ |- _ => apply send_book in R end.
  all: unfold solution_used; repeat match goal with R : book ?e1 = _ |- context [book ?e1] => rewrite R end.
  all: split; [|try discriminate]; cbn [with_book book].
  all: try (by intros w Hw).
  all: try (intros w Hq; apply seen_mark; by left).
  all: intros _; zbool; subst.
  all: match goal with
       | R : submission _ = Some (_, ?n, ?o), F : find_job _ _ = Some (?p, ?en), D : hex_decode ?n = (?nonce, true),
         D' : hex_decode ?o = (?output, true), K : bool_decide _ = false |- _ =>
           destruct (beam_submission_lower _ _ _ _ R) as [Ln Lo];
           pose proof (find_job_seen _ _ _ _ F) as (Hp & Hlt & Hs); apply bool_decide_eq_false in K;
           exists (p, (nonce, output)); cbn [fst snd];
           rewrite (hex_decode_canonical n nonce Ln D), (hex_decode_canonical o output Lo D');
           split; [unfold submitted_work; rewrite R; cbn; rewrite F; cbn; by rewrite D, D'|]
       end.
  all: match goal with |- ?A /\ _ => assert A as Hb by (eexists; split_and!; done) end.
  all: split_and!; [exact Hb|by intros _|by rewrite Hs|apply seen_mark; by right].
Qed.

#[export] Instance beam_checker : ShareChecker (K := nat * (bytes * bytes)) OnSubmit := {
  work_of := submitted_work;
  used := solution_used;
  proved := beam_share;
  earned := beam_share;
  submit_used s ps e sh e' E := proj1 (beam_OnSubmit_spec s ps e sh e' E);
  submit_claims s ps e sh e' E := proj2 (beam_OnSubmit_spec s ps e sh e' E);
}.

(** What the engine does beside checking shares *)
Definition other_step (e e' : engine) : Prop :=
  (exists line b, handleLine line e = (b, e')) \/ (exists pw up r, connectAndLogin pw up e = (r, e')) \/ e' = disconnect e.
Lemma beam_other_step_used e e' : other_step e e' -> forall w, solution_used e w -> solution_used e' w.
Proof.
  intros [(line & b & E)|[(pw & up & r & E)| ->]] w; [| |done].
  - unfold handleLine in E. handler_cases E; apply pair_equal_spec in E as [_ <-]; try done.
    all: unfold solution_used; cbn [with_book book]; try (by rewrite seen_publish).
    all: by destruct b0.
  - unfold connectAndLogin in E. destruct up; [|by apply pair_equal_spec in E as [_ <-]].
    apply send_book in E. unfold solution_used. by rewrite E.
Qed.

(** The shares a Beam engine accepts, over any run of submissions by any
    miners interleaved with the lines of the node, reconnections included: each
    one is a verified BeamHash III solution of its job's input for the nonce it
    submitted, credited the difficulty the node gave the job; and no solution of
    a job is accepted twice, however it is spelled. *)
Theorem beam_shares_earned (e e' : engine) (l : list (Accepted engine)) :
  engine_run OnSubmit other_step e l e' ->
  Forall (fun a => exists w, submitted_work (ac_params a) (ac_state a) = Some w /\
            beam_share (ac_session a) w (ac_share a) (ac_state a)) l /\
  NoDup (map (fun a => submitted_work (ac_params a) (ac_state a)) l).
Proof. exact (run_credits_once OnSubmit other_step beam_other_step_used e l e'). Qed.

(** The assigned difficulty of a session plays no part in the verdict. *)
Lemma session_difficulty_ignored s s' ps e :
  SessionWorkerName s = SessionWorkerName s' -> SessionRemoteAddr s = SessionRemoteAddr s' ->
  OnSubmit s ps e = OnSubmit s' ps e.
Proof. intros Hw Hr. unfold OnSubmit, new_share. by rewrite Hw, Hr. Qed.
End Beam.

(** ** Witness *)
Definition sample_verify (header solution : bytes) : option bool := Some (negb (bytes_eqb solution (zeros 104))).
Definition sample_node : Node json bool := mkNode [] (fun _ _ => true).
Definition job_line : json :=
  JObj [("method", JStr "job"); ("id", JStr "212"); ("input", JStr (hex_encode (repeat x5a 32))); ("difficulty", JNum "4096")].
Definition engine0 : engine := New sample_node.
Definition engine1 : engine := snd (connectAndLogin "key" true engine0).
Definition engine2 : engine := snd (@handleLine listed_order (Some job_line) engine1).
Definition miner : Session := mkSession None (float_of_Z 1) "alice.rig1" "10.0.0.1:5000".
Definition submit_params (nonce : string) : list json :=
  [JStr "alice.rig1"; JStr "212"; JStr nonce; JStr (hex_encode (repeat x01 104))].
Definition submit1 := OnSubmit sample_verify miner (submit_params "0xab4e3a0000000001") engine2.
Definition share1 : Share := get (new_share miner) (rbind submit1 (fun r => Val (fst r))).
Definition engine3 : engine := get engine0 (rbind submit1 (fun r => Val (snd r))).
Definition submit2 := OnSubmit sample_verify miner (submit_params "AB4E3A0000000001") engine3.
Definition engine4 : engine := get engine0 (rbind submit2 (fun r => Val (snd r))).
Lemma beam_shares_earned_witness :
  Forall (fun a => exists w, submitted_work (ac_params a) (ac_state a) = Some w /\
            beam_share sample_verify (ac_session a) w (ac_share a) (ac_state a))
    [mkAccepted miner (submit_params "0xab4e3a0000000001") share1 engine2] /\
  NoDup (map (fun a => submitted_work (ac_params a) (ac_state a))
    [mkAccepted miner (submit_params "0xab4e3a0000000001") share1 engine2]).
Proof.
  apply (@beam_shares_earned listed_order sample_verify engine0 engine4).
  eapply (run_other _ _ _ _ engine1); [right; left; exists "key", true; eexists; apply surjective_pairing|].
  eapply (run_other _ _ _ _ engine2); [left; exists (Some job_line); eexists; apply surjective_pairing|].
  eapply run_accepted; [apply (get_pair (new_share miner) engine0); vm_compute; reflexivity|vm_compute; reflexivity|].
  eapply (run_refused _ _ _ _ miner (submit_params "AB4E3A0000000001"));
    [apply (get_pair (new_share miner) engine0); vm_compute; reflexivity|vm_compute; reflexivity|].
  apply run_done.
Defined.
