(* ===== verification/Kaspa.v ===== *)
(** * Kaspa: src/engine/kaspa/kaspa.go

    The engine for Kaspa.  The block type, the header hash and the heavyhash
    state are kaspad's and are arguments of the model ([Kaspad]); the node is a
    log of requests.  A share is keyed by the text of its nonce, which has many
    spellings: the theorems say what that lets through. *)
From Stdlib Require Import ZArith Lia List Strings.Ascii Strings.String Strings.Byte Floats.SpecFloat.
From stdpp Require Import base list strings gmap.
From S2P Require Import Prelude Bytes Float Strconv Utils Types Json Effects Algorithm Engine EngineWork.
Import ListNotations.
Local Open Scope string_scope.
Local Open Scope Z_scope.
Local Open Scope go_scope.

(** github.com/kaspanet/kaspad: domain blocks with the accessors of their
    headers, the consensus hashes, and the value and target of a pow.State. *)
Class Kaspad := {
  DomainBlock : Type;
  TimeInMilliseconds : DomainBlock -> Z;
  Nonce : DomainBlock -> Z;
  SetTime : Z -> DomainBlock -> DomainBlock;
  SetNonce : Z -> DomainBlock -> DomainBlock;
  DAAScore : DomainBlock -> Z;
  HeaderHash : DomainBlock -> bytes;
  BlockHash : DomainBlock -> string;
  ProofOfWorkValue : DomainBlock -> Z -> Z;
  StateTarget : DomainBlock -> Z;
}.

Section Kaspa.
Context `{MapOrder} `{Kaspad}.

(** A template reply: whether the node is synced, and the block, which may fail
    to convert.  A submission: whether it was taken without a reject reason. *)
Inductive request := AskTemplate (address : string) | AskSubmit (block : DomainBlock).
Inductive reply := RError | RTemplate (synced : bool) (block : option DomainBlock) | RSubmit (accepted : bool).

Record job := mkJob { j_id : string; j_block : DomainBlock; j_prePowHash : bytes; j_timestamp : Z }.
(** [templateKick] is a channel of capacity one. *)
Record engine := mkEngine {
  jobCounter : Z;
  templateKick : bool;
  client : Node request reply;
  book : Book job;
}.
Definition with_book (b : Book job) (e : engine) : engine := mkEngine (jobCounter e) (templateKick e) (client e) b.
Definition with_client (n : Node request reply) (e : engine) : engine := mkEngine (jobCounter e) (templateKick e) n (book e).
Definition New (n : Node request reply) : engine := mkEngine 0 false n empty_book.
(** The callback of the notification stream: a full channel drops the kick. *)
Definition on_template_notification (e : engine) : engine := mkEngine (jobCounter e) true (client e) (book e).

Variable poolAddress : string.
(** KASPA_ALLOW_UNSYNCED is set. *)
Variable allow_unsynced : bool.

(** The header hash is taken with time and nonce zeroed, which are put back. *)
Definition acceptBlock (block : DomainBlock) (e : engine) : engine :=
  let n := u64 (jobCounter e + 1) in
  let id := FormatHex n in
  let ts := TimeInMilliseconds block in
  let mutable := SetNonce 0 (SetTime 0 block) in
  let prePow := HeaderHash mutable in
  mkEngine n (templateKick e) (client e) (publish 16 id (mkJob id block prePow ts) (book e)).

Definition refresh (e : engine) : err_or bool * engine :=
  let '(r, n) := ask (AskTemplate poolAddress) (client e) in
  let e := with_client n e in
  match r with
  | RTemplate synced block =>
      if negb synced && negb allow_unsynced then (Err "kaspa: node is not synced", e)
      else match block with
           | None => (Err "bad block", e)
           | Some block => (Ok true, acceptBlock block e)
           end
  | _ => (Err "transport", e)
  end.

Definition currentJob (e : engine) : option job := current (book e).

Definition OnSubscribe (_ : Session) (_ : list json) (e : engine) : result ((json * option bytes * Z) * engine) :=
  Val ((JArr [JBool true; JStr "EthereumStratum/1.0.0"], None, 0), e).

(** [fmt.Sprintf("%016x", v)] of a uint64 *)
Definition hex16 (v : Z) : string := let s := FormatHex v in String.append (repeat_char (16 - String.length s) "0") s.
(** The words of a 32-byte hash and the timestamp; indexing a shorter hash
    panics. *)
Definition largeJobParams (prePowHash : bytes) (timestamp : Z) : result string :=
  if (length prePowHash <? 32)%nat then Panic "index out of range"
  else
    let word i := be_value (take 8 (drop i prePowHash)) in
    let tsBytes := le_bytes 8 (u64 timestamp) in
    Val (hex16 (word 0%nat) ++ hex16 (word 8%nat) ++ hex16 (word 16%nat) ++ hex16 (word 24%nat) ++ hex16 (le_value tsBytes)).

Definition JobParamsForDifficulty (_ : float64) (e : engine) : result (option (list json)) :=
  match currentJob e with
  | None => Val None
  | Some j => let! large := largeJobParams (j_prePowHash j) (j_timestamp j) in Val (Some [JStr (j_id j); JStr large])
  end.
Definition JobNotification (_ : bool) (e : engine) : result ((string * option (list json)) * engine) :=
  let! params := JobParamsForDifficulty (float_of_Z 1) e in Val (("mining.notify", params), e).
Definition TargetParams (diff : float64) : result (string * list out) :=
  Val ("mining.set_difficulty", [OFloat diff]).

Definition submission (params : list json) : option (string * string) :=
  if (length params <? 3)%nat then None
  else
    jobID ← str_param params 1;
    nonceHex ← str_param params 2;
    Some (jobID, plain_hex nonceHex).

Definition OnSubmit (s : Session) (params : list json) (e : engine) : result (Share * engine) :=
  let share := new_share s in
  match submission params with
  | None => Val (set_error ErrIncorrectNonceSize share, e)
  | Some (jobID, nonceHex) =>
      match find_job jobID (book e) with
      | None => Val (set_error ErrJobNotFound share, e)
      | Some (p, en) =>
          let j := en_job en in
          let share := set_job (j_id j) (i64 (DAAScore (j_block j))) share in
          match ParseUint nonceHex 16 with
          | (_, Some _) => Val (set_error ErrIncorrectNonceSize share, e)
          | (nonce, None) =>
              if bool_decide (nonceHex ∈ en_seen en) then Val (set_error ErrDuplicateShare share, e)
              else
                let e := with_book (mark p nonceHex (book e)) e in
                let powValue := ProofOfWorkValue (j_block j) nonce in
                let! d := DiffFromValue Pow256 powValue in
                let share := set_diff d share in
                if fltb d (SessionDifficulty s) then Val (set_error ErrLowDiffShare share, e)
                else if powValue <=? StateTarget (j_block j) then
                  let solved := SetNonce nonce (j_block j) in
                  let '(r, n) := ask (AskSubmit solved) (client e) in
                  let e := with_client n e in
                  match r with
                  | RSubmit true => Val (set_hash (BlockHash solved) "" share, e)
                  | _ => Val (share, e)
                  end
                else Val (share, e)
          end
      end
  end.

Definition kaspa_ops : EngineOps engine := {|
  Engine.Name := "kaspa";
  Engine.OnSubscribe := OnSubscribe;
  Engine.JobNotification := JobNotification;
  Engine.OnSubmit := OnSubmit;
  Engine.JobParamsForDifficulty := Some JobParamsForDifficulty;
  Engine.NotifyMethod := Some "mining.notify";
  Engine.TargetParams := Some TargetParams;
  Engine.ObjectParams := None |}.

(** ** The shares

    The work is known by its spelling only. *)
Definition submitted_text (params : list json) (e : engine) : option (nat * string) :=
  '(jobID, nonceHex) ← submission params;
  '(p, _) ← find_job jobID (book e);
  Some (p, nonceHex).
Definition text_used (e : engine) (w : nat * string) : Prop := seen (book e) (fst w) (snd w).
Definition heavyhash_work (s : Session) (w : nat * string) (sh : Share) (e : engine) : Prop :=
  exists en nonce, bk_heap (book e) !! fst w = Some en /\ ParseUint (snd w) 16 = (nonce, None) /\
    DiffFromValue Pow256 (ProofOfWorkValue (j_block (en_job en)) nonce) = Val (s_Diff sh) /\
    s_JobId sh = j_id (en_job en).
Definition heavyhash_share (s : Session) (w : nat * string) (sh : Share) (e : engine) : Prop :=
  exists en nonce, bk_heap (book e) !! fst w = Some en /\ ParseUint (snd w) 16 = (nonce, None) /\
    DiffFromValue Pow256 (ProofOfWorkValue (j_block (en_job en)) nonce) = Val (s_Diff sh) /\
    fltb (s_Diff sh) (SessionDifficulty s) = false /\ s_JobId sh = j_id (en_job en) /\
    (s_BlockHash sh <> "" -> ProofOfWorkValue (j_block (en_job en)) nonce <= StateTarget (j_block (en_job en))).

Lemma kaspa_OnSubmit_spec s ps e sh e' :
  OnSubmit s ps e = Val (sh, e') ->
  (forall w, text_used e w -> text_used e' w) /\
  (claims sh = true -> exists w, submitted_text ps e = Some w /\ heavyhash_work s w sh e /\
     (s_ErrorCode sh = 0 -> heavyhash_share s w sh e) /\ ~ text_used e w /\ text_used e' w).
Proof.
  intros E. unfold OnSubmit in E. handler_cases E.
  all: apply Val_pair_inj in E as [<- <-]; split; [|try discriminate]; unfold text_used; cbn [with_client with_book book].
  all: try (by intros w Hw).
  all: try (intros w Hq; apply seen_mark; by left).
  all: intros _; zbool; subst.
  all: match goal with
       | R : submission _ = Some (_, ?n), F : find_job _ _ = Some (?p, ?en), K : bool_decide _ = false |- _ =>
           pose proof (find_job_seen _ _ _ _ F) as (Hp & Hlt & Hs); apply bool_decide_eq_false in K;
           exists (p, n); cbn [fst snd]; split; [unfold submitted_text; rewrite R; cbn; by rewrite F|]
       end.
  all: split; [by do 2 eexists|]; split; [|split; [by rewrite Hs|apply seen_mark; by right]].
  all: intros Hz; try discriminate Hz; do 2 eexists; split_and!; done.
Qed.

#[export] Instance kaspa_checker : ShareChecker (K := nat * string) OnSubmit := {
  work_of := submitted_text;
  used := text_used;
  proved := heavyhash_work;
  earned := heavyhash_share;
  submit_used s ps e sh e' E := proj1 (kaspa_OnSubmit_spec s ps e sh e' E);
  submit_claims s ps e sh e' E := proj2 (kaspa_OnSubmit_spec s ps e sh e' E);
}.

Definition other_step (e e' : engine) : Prop :=
  (exists r, refresh e = (r, e')) \/ e' = on_template_notification e.
Lemma kaspa_other_step_used e e' : other_step e e' -> forall w, text_used e w -> text_used e' w.
Proof.
  intros [[r E]| ->] w; [|done]. unfold refresh in E. handler_cases E; apply pair_equal_spec in E as [_ <-]; try done.
  unfold text_used, acceptBlock. cbn [book with_client]. by rewrite seen_publish.
Qed.

(** The shares over a run: earned, and no text accepted twice for a job. *)
Lemma kaspa_shares_earned (e e' : engine) (l : list (Accepted engine)) :
  engine_run OnSubmit other_step e l e' ->
  Forall (fun a => exists w, submitted_text (ac_params a) (ac_state a) = Some w /\
            heavyhash_share (ac_session a) w (ac_share a) (ac_state a)) l /\
  NoDup (map (fun a => submitted_text (ac_params a) (ac_state a)) l).
Proof. exact (run_credits_once OnSubmit other_step kaspa_other_step_used e l e'). Qed.

(** One proof of work is credited more than once.  The duplicate check
    compares the text of the nonce, and a hexadecimal number may be written with
    any number of leading zeros: a share that was accepted is accepted again,
    with the same difficulty for the same job, under every other spelling of its
    nonce that has not been used. *)
Theorem respelled_share_accepted_again s jobID n1 n2 worker v e p en sh e1 :
  OnSubmit s [worker; JStr jobID; JStr n1] e = Val (sh, e1) -> s_ErrorCode sh = 0 ->
  ParseUint (plain_hex n1) 16 = (v, None) -> ParseUint (plain_hex n2) 16 = (v, None) ->
  find_job jobID (book e1) = Some (p, en) -> plain_hex n2 ∉ en_seen en ->
  exists sh' e2, OnSubmit s [worker; JStr jobID; JStr n2] e1 = Val (sh', e2) /\
    s_ErrorCode sh' = 0 /\ s_Diff sh' = s_Diff sh /\ s_JobId sh' = s_JobId sh.
Proof.
  intros E Hc P1 P2 F1 Hn. unfold OnSubmit in E.
  change (submission [worker; JStr jobID; JStr n1]) with (Some (jobID, plain_hex n1)) in E. cbv iota in E.
  rewrite P1 in E. destruct (find_job jobID (book e)) as [[q en0]|] eqn:F.
  2:{ apply Val_pair_inj in E as [<- _]. discriminate. }
  destruct (bool_decide (plain_hex n1 ∈ en_seen en0)) eqn:K.
  { apply Val_pair_inj in E as [<- _]. discriminate. }
  assert (book e1 = mark q (plain_hex n1) (book e)) as Hb.
  { handler_cases E; by apply Val_pair_inj in E as [_ <-]. }
  assert (q = p /\ en_job en = en_job en0) as [-> Hj].
  { rewrite Hb in F1. by destruct (find_job_mark _ _ _ _ _ _ _ F1 F) as [-> ->]. }
  unfold OnSubmit. change (submission [worker; JStr jobID; JStr n2]) with (Some (jobID, plain_hex n2)). cbv iota.
  rewrite F1, P2, bool_decide_false, Hj by done. cbv zeta in E.
  destruct (DiffFromValue Pow256 _) as [d|m]; [|discriminate E]. cbn [rbind] in *.
  destruct (fltb d (SessionDifficulty s)).
  { apply Val_pair_inj in E as [<- _]. discriminate. }
  destruct (_ <=? _).
  - destruct (ask _ _) as [r1 c1]. destruct (ask _ _) as [r2 c2].
    assert (s_Diff sh = d /\ s_JobId sh = j_id (en_job en0)) as [-> ->].
    { destruct r1 as [| |[]]; apply Val_pair_inj in E as [<- _]; done. }
    destruct r2 as [| |[]]; do 2 eexists; (split; [reflexivity|]); done.
  - apply Val_pair_inj in E as [<- _]. do 2 eexists. split; [reflexivity|]. done.
Qed.

(** The large job is the hash and the time as the digits of a number, the most
    significant first. *)
Lemma hex16_bytes v : 0 <= v < 2 ^ 64 -> hex16 v = hex_encode (be_bytes 8 v).
Proof. intros Hv. unfold hex16, FormatHex. by apply (padded_hex 8 v); [lia|]. Qed.
Lemma largeJobParams_layout h ts :
  length h = 32%nat -> largeJobParams h ts = Val (hex_encode (h ++ be_bytes 8 (u64 ts)))%list.
Proof.
  intros Hh. unfold largeJobParams. rewrite Hh. cbn [Nat.ltb Nat.leb]. rewrite le_value_bytes.
  assert (forall i, (i <= 24)%nat -> hex16 (be_value (take 8 (drop i h))) = hex_encode (take 8 (drop i h))) as W.
  { intros i Hi. assert (length (take 8 (drop i h)) = 8%nat) as L by (rewrite length_take, length_drop; lia).
    pose proof (be_value_range (take 8 (drop i h))) as R. rewrite L in R. rewrite hex16_bytes by exact R.
    rewrite <- L at 1. by rewrite be_bytes_value. }
  rewrite !W by lia. pose proof (wrapu_range 64 ts ltac:(lia)).
  rewrite Z.mod_small by (cbn; lia). rewrite hex16_bytes by done. f_equal. rewrite <- !hex_encode_app. f_equal.
  do 32 (destruct h as [|? h]; [done|]). by destruct h.
Qed.
End Kaspa.


(** ** Witness: a block is its time and nonce *)
Definition sample_kaspad : Kaspad :=
  {| DomainBlock := Z * Z; TimeInMilliseconds := fst; Nonce := snd;
     SetTime := fun t b => (t, snd b); SetNonce := fun n b => (fst b, n); DAAScore := fun _ => 7;
     HeaderHash := fun b => Sha256 (be_bytes 8 (fst b) ++ be_bytes 8 (snd b)); BlockHash := fun _ => "bb";
     ProofOfWorkValue := fun b n => be_value (Sha256 (be_bytes 8 (fst b) ++ be_bytes 8 n)); StateTarget := fun _ => 2 ^ 200 |}.
Section Witness.
Local Existing Instance sample_kaspad.
Local Existing Instance listed_order.
Definition sample_node : Node request reply := mkNode [] (fun _ _ => RTemplate true (Some (1700000000123, 0))).
Definition engine0 : engine := New sample_node.
Definition engine1 : engine := snd (refresh "kaspa:pool" false engine0).
Definition miner : Session := mkSession None (float_of_Z 1) "alice.rig1" "10.0.0.1:5000".
Definition submit1 := OnSubmit miner [JStr "alice.rig1"; JStr "1"; JStr "0xabc1"] engine1.
Definition share1 : Share := get (new_share miner) (rbind submit1 (fun r => Val (fst r))).
Definition engine2 : engine := get engine0 (rbind submit1 (fun r => Val (snd r))).
Definition no_entry : Entry job := mkEntry (mkJob "" ((0, 0) : @DomainBlock sample_kaspad) [] 0) ∅.
Lemma respelled_share_accepted_again_witness :
  exists sh' e2, OnSubmit miner [JStr "alice.rig1"; JStr "1"; JStr "00000ABC1"] engine2 = Val (sh', e2) /\
    s_ErrorCode sh' = 0 /\ s_Diff sh' = s_Diff share1 /\ s_JobId sh' = s_JobId share1.
Proof.
  apply (respelled_share_accepted_again miner "1" "0xabc1" "00000ABC1" (JStr "alice.rig1") 43969 engine1 0%nat
    (default no_entry (bk_heap (book engine2) !! 0%nat)) share1 engine2).
  - apply (get_pair (new_share miner) engine0). vm_compute. reflexivity.
  - vm_compute. reflexivity.
  - vm_compute. reflexivity.
  - vm_compute. reflexivity.
  - apply find_job_default; vm_compute; reflexivity.
  - apply (bool_decide_unpack _). vm_compute. exact I.
Defined.
End Witness.
