(* ===== verification/Ethash.v ===== *)
(** * Ethash: src/engine/ethash/ethash.go, math.go and rpc.go

    The engine for Ethash coins in the ethproxy dialect: the pool brokers
    eth_getWork packages, recomputes the proof of work (go-etchash) and submits
    solutions.  The hash type of go-ethereum and the light hasher of go-etchash,
    with the block its epochs double at, are arguments ([EthHashes]); the node is a
    log of requests. *)
From Stdlib Require Import ZArith Lia List Strings.Ascii Strings.String Strings.Byte Floats.SpecFloat.
From stdpp Require Import base list strings gmap.
From S2P Require Import Prelude Bytes Float Strconv Utils Types Json Effects Algorithm Engine EngineWork.
Import ListNotations.
Local Open Scope string_scope.
Local Open Scope Z_scope.
Local Open Scope go_scope.

(** common.Hash with HexToHash, Hex and Big; and Compute of the light hasher
    [etchash.New(&fblock, nil)], which given the block number, header hash and nonce
    gives the mix digest and the result.  Two hashers made for different [fblock]
    are different functions. *)
Class EthHashes := {
  Hash : Type;
  HexToHash : string -> Hash;
  Hash_Hex : Hash -> string;
  Hash_Big : Hash -> Z;
  Compute (fblock block : Z) : Hash -> Z -> Hash * Hash;
}.

(** ** rpc.go: the answer to a request is a JSON body or a failure *)
Definition eth_node : Type := Node (string * list json) (option json).
Definition response_schema : schema := SStruct
  [("jsonrpc", SString); ("id", SInt); ("result", SAny); ("error", SStruct [("code", SInt); ("message", SString)])].

Definition eth_call (method : string) (params : list json) (n : eth_node) : err_or json * eth_node :=
  let '(reply, n) := ask (method, params) n in
  (match reply with
   | None => Err "transport or decode error"
   | Some j =>
       if negb (fits response_schema j) then Err "decode"
       else match last_value j "error" with
            | Some (JObj _) => Err "rpc error"
            | _ => match last_value j "result" with Some r => Ok r | None => Err "unexpected end of JSON input" end
            end
   end, n).

Definition json_string (j : json) : string := match j with JStr s => s | _ => "" end.
Definition GetWork (n : eth_node) : err_or (list string) * eth_node :=
  let '(r, n) := eth_call "eth_getWork" [] n in
  (err_bind r (fun j =>
     if negb (fits (SList SString) j) then Err "json: cannot unmarshal"
     else let work := match j with JArr l => map json_string l | _ => [] end in
          if (length work <? 3)%nat then Err "eth_getWork returned fewer than 3 fields" else Ok work), n).
Definition SubmitWork (nonce headerHash mixHash : string) (n : eth_node) : err_or bool * eth_node :=
  let '(r, n) := eth_call "eth_submitWork" [JStr nonce; JStr headerHash; JStr mixHash] n in
  (err_bind r (fun j =>
     if negb (fits SBool j) then Err "json: cannot unmarshal"
     else Ok (match j with JBool b => b | _ => false end)), n).
Definition BlockNumber (n : eth_node) : err_or string * eth_node :=
  let '(r, n) := eth_call "eth_blockNumber" [] n in
  (err_bind r (fun j => if negb (fits SString j) then Err "json: cannot unmarshal" else Ok (json_string j)), n).

(** ** math.go *)
Definition TargetFromDifficulty (diff : float64) : result Z := share_target Pow256 diff.
Definition DifficultyFromResult (r : Z) : result float64 := DiffFromValue Pow256 r.
Definition MeetsTarget (r target : Z) : bool := r <=? target.

(** ** ethash.go *)
Record work := mkWork { jobID : string; headerHash : string; seedHash : string; target : Z; blockNumber : Z }.
(** [light] is the activation block of the light hasher, nil before [Init]. *)
Record engine := mkEngine { rpc : eth_node; light : option Z; cur : option work; seen_keys : gset string }.
Definition with_rpc (n : eth_node) (e : engine) : engine := mkEngine n (light e) (cur e) (seen_keys e).
Definition with_light (fblock : Z) (e : engine) : engine := mkEngine (rpc e) (Some fblock) (cur e) (seen_keys e).
Definition New (n : eth_node) : engine := mkEngine n None None ∅.

Definition hexToBig (s : string) : option Z := BigSetString 16 (trim_prefix "0X" (trim_prefix "0x" s)).
(** [n.Uint64()]: the low 64 bits of the magnitude *)
Definition Uint64 (n : Z) : Z := u64 (Z.abs n).
Definition shortJobID (headerHash : string) : string :=
  let h := trim_prefix "0x" headerHash in if 8 <=? slen h then substring 0 8 h else h.

(** The head's number is asked for when the package does not carry one. *)
Definition work_block_number (w : list string) (n : eth_node) : Z * eth_node :=
  let b := match w !! 3%nat with
           | Some s => match hexToBig s with Some n => Uint64 n | None => 0 end
           | None => 0
           end in
  if b =? 0 then
    let '(r, n) := BlockNumber n in
    (match r with
     | Ok hn => match hexToBig hn with Some h => u64 (Uint64 h + 1) | None => 0 end
     | Err _ => 0
     end, n)
  else (b, n).

Definition RefreshWork (e : engine) : err_or bool * engine :=
  let '(r, n) := GetWork (rpc e) in
  let e := with_rpc n e in
  match r with
  | Err m => (Err m, e)
  | Ok w =>
      let field i := default "" (w !! i) in
      match hexToBig (field 2%nat) with
      | None => (Err "ethash: bad target in getWork", e)
      | Some target =>
          let '(b, n) := work_block_number w (rpc e) in
          let nw := mkWork (shortJobID (field 0%nat)) (field 0%nat) (field 1%nat) target b in
          let changed := match cur e with Some c => negb (String.eqb (headerHash c) (headerHash nw)) | None => true end in
          (Ok changed, mkEngine n (light e) (Some nw) (if changed then ∅ else seen_keys e))
      end
  end.

Definition CurrentWork (e : engine) : string * string * string * Z :=
  match cur e with
  | None => ("", "", "", 0)
  | Some w => (jobID w, headerHash w, seedHash w, blockNumber w)
  end.

Definition JobParamsForDifficulty (diff : float64) (e : engine) : result (option (list json)) :=
  match cur e with
  | None => Val None
  | Some w =>
      let! t := TargetFromDifficulty diff in
      Val (Some [JStr (headerHash w); JStr (seedHash w); JStr ("0x" ++ TargetHex t)])
  end.
Definition OnSubscribe (_ : Session) (_ : list json) (e : engine) : result ((json * option bytes * Z) * engine) :=
  Val ((JBool true, None, 0), e).
Definition JobNotification (_ : bool) (e : engine) : result ((string * option (list json)) * engine) :=
  Val (("", match cur e with
            | None => None
            | Some w => Some [JStr (headerHash w); JStr (seedHash w); JStr ("0x" ++ TargetHex (target w))]
            end), e).

Definition parseSubmit (params : list json) : option (string * string * string) :=
  if (length params <? 3)%nat then None
  else
    n ← str_param params 0; h ← str_param params 1; m ← str_param params 2; Some (n, h, m).

Section Submit.
Context `{EthHashes}.

Definition OnSubmit (s : Session) (params : list json) (e : engine) : result (Share * engine) :=
  let share := new_share s in
  match parseSubmit params with
  | None => Val (set_error ErrIncorrectNonceSize share, e)
  | Some (nonceHex, h1, mixHex) =>
      match cur e with
      | None => Val (set_error ErrJobNotFound share, e)
      | Some c =>
          if negb (EqualFold h1 (headerHash c)) then Val (set_error ErrJobNotFound share, e)
          else
            let share := set_job (jobID c) (i64 (blockNumber c)) share in
            match ParseUint (trim_prefix "0x" nonceHex) 16 with
            | (_, Some _) => Val (set_error ErrIncorrectNonceSize share, e)
            | (nonce, None) =>
                let key := headerHash c ++ "|" ++ nonceHex in
                if bool_decide (key ∈ seen_keys e) then Val (set_error ErrDuplicateShare share, e)
                else
                  let e := mkEngine (rpc e) (light e) (cur e) ({[key]} ∪ seen_keys e) in
                  match light e with
                  | None => Panic "nil pointer dereference"
                  | Some fblock =>
                      let '(mixDigest, r) := Compute fblock (blockNumber c) (HexToHash (headerHash c)) nonce in
                      if negb (EqualFold (trim_prefix "0x" mixHex) (trim_prefix "0x" (Hash_Hex mixDigest)))
                      then Val (set_error ErrIncorrectNonceSize share, e)
                      else
                        let resultBig := Hash_Big r in
                        let! d := DifficultyFromResult resultBig in
                        let share := set_diff d share in
                        let! shareTarget := TargetFromDifficulty (SessionDifficulty s) in
                        if negb (MeetsTarget resultBig shareTarget) then Val (set_error ErrLowDiffShare share, e)
                        else if MeetsTarget resultBig (target c) then
                          let '(r, n) := SubmitWork nonceHex (headerHash c) (Hash_Hex mixDigest) (rpc e) in
                          let e := with_rpc n e in
                          match r with
                          | Ok true => Val (set_hash (headerHash c) "" share, e)
                          | _ => Val (share, e)
                          end
                        else Val (share, e)
                  end
            end
      end
  end.

Definition ethash_ops : EngineOps engine := {|
  Engine.Name := "ethash";
  Engine.OnSubscribe := OnSubscribe;
  Engine.JobNotification := JobNotification;
  Engine.OnSubmit := OnSubmit;
  Engine.JobParamsForDifficulty := Some JobParamsForDifficulty;
  Engine.NotifyMethod := None;
  Engine.TargetParams := None;
  Engine.ObjectParams := None |}.

(** ** The shares *)

(** What an accepted Ethash share stands for: a solution of the current work
    whose recomputed mix digest is the one submitted, at the share target of the
    session; its text was not used for this work before and is registered; only a
    solution of the network target is reported as a block, and only when the node
    took it. *)
Theorem ethash_share_earned (s : Session) (nonceHex h1 mixHex : string) (rest : list json) (e e' : engine) (sh : Share) :
  OnSubmit s (JStr nonceHex :: JStr h1 :: JStr mixHex :: rest) e = Val (sh, e') -> s_ErrorCode sh = 0 ->
  exists fblock c nonce mix r t,
    light e = Some fblock /\ cur e = Some c /\ to_lower h1 = to_lower (headerHash c) /\
    ParseUint (trim_prefix "0x" nonceHex) 16 = (nonce, None) /\
    Compute fblock (blockNumber c) (HexToHash (headerHash c)) nonce = (mix, r) /\
    to_lower (trim_prefix "0x" mixHex) = to_lower (trim_prefix "0x" (Hash_Hex mix)) /\
    share_target Pow256 (SessionDifficulty s) = Val t /\ Hash_Big r <= t /\
    DiffFromValue Pow256 (Hash_Big r) = Val (s_Diff sh) /\
    ((headerHash c ++ "|" ++ nonceHex)%string ∉ seen_keys e) /\
    seen_keys e' = {[(headerHash c ++ "|" ++ nonceHex)%string]} ∪ seen_keys e /\
    (s_BlockHash sh <> "" -> Hash_Big r <= target c /\
       fst (SubmitWork nonceHex (headerHash c) (Hash_Hex mix) (rpc e)) = Ok true).
Proof.
  intros E Hc. unfold OnSubmit in E.
  change (parseSubmit _) with (Some (nonceHex, h1, mixHex)) in E. cbv iota in E. handler_cases E.
  all: apply Val_pair_inj in E as [<- <-]; try discriminate Hc.
  all: unfold MeetsTarget, EqualFold in *; zbool; subst.
  all: repeat match goal with R : String.eqb _ _ = true |- _ => apply String.eqb_eq in R end.
  all: repeat match goal with R : bool_decide _ = false |- _ => apply bool_decide_eq_false in R end.
  all: do 6 eexists; split_and!; try eassumption; try reflexivity.
  all: try (intros Hb; by destruct (Hb eq_refl)).
  intros _. split; [done|]. match goal with R : SubmitWork _ _ _ (rpc _) = _ |- _ => exact (f_equal fst R) end.
Qed.

(** Case and leading zeros are not normalised before the duplicate check: an
    accepted share is accepted again under another spelling of its nonce. *)
Lemma respelled_nonce_accepted_again (s : Session) (n1 n2 h1 mixHex : string) (v : Z) (e e1 : engine) (sh : Share) c :
  OnSubmit s [JStr n1; JStr h1; JStr mixHex] e = Val (sh, e1) -> s_ErrorCode sh = 0 -> cur e1 = Some c ->
  ParseUint (trim_prefix "0x" n1) 16 = (v, None) -> ParseUint (trim_prefix "0x" n2) 16 = (v, None) ->
  (headerHash c ++ "|" ++ n2)%string ∉ seen_keys e1 ->
  exists sh' e2, OnSubmit s [JStr n2; JStr h1; JStr mixHex] e1 = Val (sh', e2) /\
    s_ErrorCode sh' = 0 /\ s_Diff sh' = s_Diff sh.
Proof.
  intros E Hc Hcur P1 P2 Hn. unfold OnSubmit in E.
  change (parseSubmit _) with (Some (n1, h1, mixHex)) in E. cbv iota in E. rewrite P1 in E.
  unfold OnSubmit. change (parseSubmit _) with (Some (n2, h1, mixHex)). cbv iota. rewrite P2.
  assert (cur e = cur e1 /\ light e = light e1) as [Hce Hle].
  { destruct (cur e) eqn:Ec; [|by apply Val_pair_inj in E as [<- _]].
    handler_cases E; apply Val_pair_inj in E as [<- <-]; try discriminate Hc; cbn; done. }
  rewrite Hce, Hcur in E. cbn [light] in E |- *. rewrite Hle in E. rewrite Hcur. destruct (negb (EqualFold h1 (headerHash c))).
  { apply Val_pair_inj in E as [<- _]. discriminate. }
  rewrite (bool_decide_false (_ ∈ seen_keys e1)) by done.
  destruct (bool_decide (_ ∈ seen_keys e)).
  { apply Val_pair_inj in E as [<- _]. discriminate. }
  cbv zeta in *. cbn [light] in *. destruct (light e1) as [fb|]; [|discriminate E].
  destruct (Compute _ _ _ v) as [mix r].
  destruct (negb (EqualFold _ _)).
  { apply Val_pair_inj in E as [<- _]. discriminate. }
  destruct (DifficultyFromResult _) as [d|]; [|discriminate E]. cbn [rbind] in *.
  destruct (TargetFromDifficulty _) as [t|]; [|discriminate E]. cbn [rbind] in *.
  destruct (negb (MeetsTarget _ t)).
  { apply Val_pair_inj in E as [<- _]. discriminate. }
  destruct (MeetsTarget _ (target c)).
  - destruct (SubmitWork _ _ _ _) as [r1 n1']. destruct (SubmitWork _ _ _ _) as [r2 n2'].
    assert (s_Diff sh = d) as ->. { by destruct r1 as [[]|]; apply Val_pair_inj in E as [<- _]. }
    destruct r2 as [[]|]; do 2 eexists; (split; [reflexivity|]); done.
  - apply Val_pair_inj in E as [<- _]. do 2 eexists. split; [reflexivity|]. done.
Qed.
End Submit.

(** ** Witness *)
Definition sample_hashes : EthHashes :=
  {| Hash := bytes; HexToHash := fun s => fst (hex_decode (trim_prefix "0x" s)); Hash_Hex := fun h => "0x" ++ hex_encode h;
     Hash_Big := be_value;
     Compute := fun _ b h n => (Sha256 (h ++ be_bytes 8 n)%list, Sha256 (be_bytes 8 n ++ h)%list) |}.
Definition sample_header : string := "0x" ++ hex_encode (repeat x5a 32).
Definition sample_node : eth_node :=
  mkNode [] (fun _ q =>
    if String.eqb (fst q) "eth_getWork" then
      Some (JObj [("jsonrpc", JStr "2.0"); ("id", JNum "1");
        ("result", JArr [JStr sample_header; JStr "0xaa"; JStr "0x10000"; JStr "0xb28a00"])])
    else Some (JObj [("result", JBool true)])).
Definition engine0 : engine := with_light 11700000 (New sample_node).
Definition engine1 : engine := snd (RefreshWork engine0).
Definition miner : Session := mkSession None (float_of_Z 1) "alice.rig1" "10.0.0.1:5000".
Definition mix_of (nonce : Z) : string := Hash_Hex (EthHashes := sample_hashes) (Sha256 (repeat x5a 32 ++ be_bytes 8 nonce)%list).
Definition submit1 := @OnSubmit sample_hashes miner [JStr "0xAB"; JStr sample_header; JStr (mix_of 171)] engine1.
Definition share1 : Share := get (new_share miner) (rbind submit1 (fun r => Val (fst r))).
Definition engine2 : engine := get engine0 (rbind submit1 (fun r => Val (snd r))).
Lemma ethash_share_earned_witness :
  exists fblock c nonce mix r t,
    light engine1 = Some fblock /\ cur engine1 = Some c /\ to_lower sample_header = to_lower (headerHash c) /\
    ParseUint (trim_prefix "0x" "0xAB") 16 = (nonce, None) /\
    @Compute sample_hashes fblock (blockNumber c) (@HexToHash sample_hashes (headerHash c)) nonce = (mix, r) /\
    to_lower (trim_prefix "0x" (mix_of 171)) = to_lower (trim_prefix "0x" (@Hash_Hex sample_hashes mix)) /\
    share_target Pow256 (float_of_Z 1) = Val t /\ @Hash_Big sample_hashes r <= t /\
    DiffFromValue Pow256 (@Hash_Big sample_hashes r) = Val (s_Diff share1) /\
    ((headerHash c ++ "|" ++ "0xAB")%string ∉ seen_keys engine1) /\
    seen_keys engine2 = {[(headerHash c ++ "|" ++ "0xAB")%string]} ∪ seen_keys engine1 /\
    (s_BlockHash share1 <> "" -> @Hash_Big sample_hashes r <= target c /\
       fst (SubmitWork "0xAB" (headerHash c) (@Hash_Hex sample_hashes mix) (rpc engine1)) = Ok true).
Proof.
  apply (@ethash_share_earned sample_hashes miner "0xAB" sample_header (mix_of 171) [] engine1 engine2 share1).
  - apply (get_pair (new_share miner) engine0). vm_compute. reflexivity.
  - vm_compute. reflexivity.
Defined.
(** One solution, accepted twice. *)
Example respelled_nonce_credited_twice :
  map (fun n => s_ErrorCode (get (new_share miner) (rbind (@OnSubmit sample_hashes miner [JStr n; JStr sample_header; JStr (mix_of 171)] engine2)
                  (fun r => Val (fst r))))) ["0xAB"; "0xab"; "0x0ab"; "ab"] = [25; 0; 0; 0].
Proof. vm_compute. reflexivity. Qed.
