(* ===== verification/Equihash.v ===== *)
(** * Equihash: src/engine/equihash/equihash.go

    The engine for Zcash-style coins.  The node gives a complete coinbase, so a
    job is a fixed header of 108 bytes; a share is 28 bytes of nonce and a
    solution.  The verifier is an argument; the node is the network of
    [Daemons]. *)
From Stdlib Require Import ZArith Lia List Strings.String Strings.Byte Floats.SpecFloat.
From stdpp Require Import base list strings gmap.
From S2P Require Import Prelude Bytes Float Strconv Utils Merkle Types Json Config Effects Algorithm DaemonReplies Daemons Engine EngineWork.
Import ListNotations.
Local Open Scope string_scope.
Local Open Scope Z_scope.
Local Open Scope go_scope.

Definition diff1 : Z := 0x0007ffff00000000000000000000000000000000000000000000000000000000.
Definition nonce1Size : nat := 4.

Inductive client := ZCash | Flux.
Record variant := mkVariant { v_n : Z; v_k : Z; v_client : client; v_solBytes : Z }.
Definition variantFor (name : string) : err_or variant :=
  let name := to_lower name in
  let named l := existsb (String.eqb name) l in
  let make n k c := Ok (mkVariant n k c (u32 (u32 (2 ^ k) * u32 (n / (k + 1) + 1)) / 8)) in
  if named [""; "equihash"; "zcash"; "equihash200_9"] then make 200 9 ZCash
  else if named ["zelhash"; "flux"; "equihash125_4"] then make 125 4 Flux
  else Err ("unknown equihash variant: " ++ name).

Definition zgbt_schema : schema := SStruct
  [("version", SInt32); ("previousblockhash", SString); ("finalsaplingroothash", SString);
   ("defaultroots", SStruct [("merkleroot", SString); ("blockcommitmentshash", SString)]);
   ("bits", SString); ("target", SString); ("curtime", SUint32); ("height", SInt);
   ("coinbasetxn", SStruct [("data", SString)]); ("transactions", SList (SStruct [("data", SString)]))].
Record zGBT := mkGBT {
  Version : Z; PreviousBlockHash : string; FinalSaplingRootHash : string; MerkleRoot : string;
  BlockCommitmentsHash : string; Bits : string; Target : string; CurTime : Z; Height : Z;
  CoinbaseTxn : string; Transactions : list string;
}.
Definition zgbt_of (j : json) : zGBT :=
  let roots := sub_object j "defaultroots" in
  mkGBT (field_int j "version") (field_string j "previousblockhash") (field_string j "finalsaplingroothash")
    (field_string roots "merkleroot") (field_string roots "blockcommitmentshash") (field_string j "bits")
    (field_string j "target") (field_uint j "curtime") (field_int j "height")
    (field_string (sub_object j "coinbasetxn") "data")
    (map (fun t => field_string t "data") (field_list j "transactions")).

Record job := mkJob {
  j_id : string; j_prefix108 : bytes; j_ntimeLE : string; j_target : Z; j_txCount : Z; j_txData : bytes;
  j_prevHash : string; j_height : Z;
  j_verHex : string; j_prevHex : string; j_merkleHex : string; j_reservedHex : string; j_bitsHex : string;
}.
Record engine := mkEngine { net : network; enCounter : Z; jobCounter : Z; book : Book job }.
Definition with_book (b : Book job) (e : engine) : engine := mkEngine (net e) (enCounter e) (jobCounter e) b.
Definition with_net (n : network) (e : engine) : engine := mkEngine n (enCounter e) (jobCounter e) (book e).
Definition New (n : network) : engine := mkEngine n 0 0 empty_book.

(** ** merkleRoot *)
Definition merkle_next (level : list bytes) : list bytes :=
  map (fun i => Sha256d (nth (2 * i) level [] ++ nth (2 * i + 1) level [])%list) (seq 0 (length level / 2)).
Definition duplicate_last (level : list bytes) : list bytes :=
  if (length level mod 2 =? 1)%nat then (level ++ [nth (length level - 1) level []])%list else level.
Fixpoint merkle_loop (fuel : nat) (level : list bytes) : result bytes :=
  if (1 <? length level)%nat then
    match fuel with
    | O => Panic "out of fuel"
    | S f => merkle_loop f (merkle_next (duplicate_last level))
    end
  else match level with x :: _ => Val x | [] => Panic "index out of range" end.
(** The levels shrink, so the first is fuel enough. *)
Definition merkleRoot (rawTxs : list bytes) : result bytes :=
  let level := map Sha256d rawTxs in merkle_loop (length level) level.

Definition trimSolutionPrefix (sol : bytes) (want : Z) : option bytes :=
  p ← find (fun p => blen sol =? want + p) [1; 3; 5]; Some (drop (Z.to_nat p) sol).

Definition hexd (s : string) : result bytes := HexDecode (bytes_of_string s).

(** [mining.set_target] carries the share target. *)
Definition TargetParams (diff : float64) : result (string * list out) :=
  let! t := share_target diff1 diff in Val ("mining.set_target", [OJson (JStr (TargetHex t))]).

Section Equihash.
Context `{MapOrder}.
Variable ValidURL : string -> bool.
Variable dm : DaemonManager.
(** The random request id, at each point of the history. *)
Variable request_id : network -> Z.
Variable v : variant.
(** [v.client.Verify(header, solution)]; [None] is an error. *)
Variable Verify : client -> bytes -> bytes -> option bool.

Definition getTemplate (n : network) : result (err_or zGBT * network) :=
  let! ((_, r, _), n) := Cmd ValidURL dm (request_id n) "getblocktemplate"
      [JObj [("capabilities", JArr (map JStr ["coinbasetxn"; "workid"]))]] n in
  Val (match r with
       | None => Err "getblocktemplate returned nothing"
       | Some r =>
           match Error r with
           | Some e => Err ("getblocktemplate failed: " ++ e_Message e)
           | None =>
               match Unmarshal zgbt_schema (Result r) with
               | None => Err "json"
               | Some j =>
                   let gbt := zgbt_of j in
                   if String.eqb (CoinbaseTxn gbt) "" then Err "node did not provide coinbasetxn" else Ok gbt
               end
           end
       end, n).

Definition template_root (gbt : zGBT) (coinbase : bytes) (rawTxs : list bytes) : result bytes :=
  if negb (String.eqb (MerkleRoot gbt) "") then let! b := hexd (MerkleRoot gbt) in Val (ReverseBytes b)
  else merkleRoot (coinbase :: rawTxs).
Definition template_reserved (gbt : zGBT) : result bytes :=
  if negb (String.eqb (BlockCommitmentsHash gbt) "") then let! b := hexd (BlockCommitmentsHash gbt) in Val (ReverseBytes b)
  else if negb (String.eqb (FinalSaplingRootHash gbt) "") then let! b := hexd (FinalSaplingRootHash gbt) in Val (ReverseBytes b)
  else Val (zeros 32).
Definition template_target (gbt : zGBT) : result Z :=
  match BigSetString 16 (Target gbt) with
  | Some t => if t <=? 0 then BigIntFromBitsHex (Bits gbt) else Val t
  | None => BigIntFromBitsHex (Bits gbt)
  end.

Definition acceptTemplate (gbt : zGBT) (e : engine) : result engine :=
  let n := u64 (jobCounter e + 1) in
  let id := FormatHex n in
  let! coinbase := hexd (CoinbaseTxn gbt) in
  let! rawTxs := rmap hexd (Transactions gbt) in
  let! merkle := template_root gbt coinbase rawTxs in
  let! reserved := template_reserved gbt in
  let! prevb := hexd (PreviousBlockHash gbt) in
  let prev := ReverseBytes prevb in
  let! bitsb := hexd (Bits gbt) in
  let bits := ReverseBytes bitsb in
  let version := PackUint32LE (u32 (Version gbt)) in
  let ntime := PackUint32LE (CurTime gbt) in
  let! target := template_target gbt in
  let j := mkJob id (version ++ prev ++ merkle ++ reserved ++ ntime ++ bits)%list (hex_encode ntime) target
             (Z.of_nat (length (Transactions gbt)) + 1) (coinbase ++ concat rawTxs)%list (PreviousBlockHash gbt)
             (Height gbt) (hex_encode version) (hex_encode prev) (hex_encode merkle) (hex_encode reserved) (hex_encode bits) in
  Val (mkEngine (net e) (enCounter e) n (publish 8 id j (book e))).

Definition currentJob (e : engine) : option job := current (book e).

Definition refresh (e : engine) : result (err_or bool * engine) :=
  let! (r, n) := getTemplate (net e) in
  let e := with_net n e in
  match r with
  | Err m => Val (Err m, e)
  | Ok gbt =>
      let same := match currentJob e with
                  | Some cur => String.eqb (j_prevHash cur) (PreviousBlockHash gbt)
                  | None => false
                  end in
      if same then Val (Ok false, e) else let! e := acceptTemplate gbt e in Val (Ok true, e)
  end.
(** [Init] from the point where the manager exists *)
Definition Init (e : engine) : result (err_or unit * engine) :=
  let! (r, n) := getTemplate (net e) in
  let e := with_net n e in
  match r with Err m => Val (Err m, e) | Ok gbt => let! e := acceptTemplate gbt e in Val (Ok tt, e) end.

Definition OnSubscribe (_ : Session) (_ : list json) (e : engine) : result ((json * option bytes * Z) * engine) :=
  let n := u32 (enCounter e + 1) in
  let en := be_bytes nonce1Size n in
  Val ((JArr [JNull; JStr (hex_encode en)], Some en, 32 - Z.of_nat nonce1Size),
       mkEngine (net e) n (jobCounter e) (book e)).

Definition JobParamsForDifficulty (_ : float64) (e : engine) : result (option (list json)) :=
  Val (match currentJob e with
       | None => None
       | Some j => Some [JStr (j_id j); JStr (j_verHex j); JStr (j_prevHex j); JStr (j_merkleHex j);
                         JStr (j_reservedHex j); JStr (j_ntimeLE j); JStr (j_bitsHex j); JBool true]
       end).
Definition JobNotification (_ : bool) (e : engine) : result ((string * option (list json)) * engine) :=
  let! params := JobParamsForDifficulty (float_of_Z 1) e in Val (("mining.notify", params), e).

(** [worker, jobId, ntimeLE, nonce2Hex, solutionHex] *)
Definition submission (params : list json) : option (string * string * string * string) :=
  if (length params <? 5)%nat then None
  else
    jobID ← str_param params 1;
    ntime ← str_param params 2;
    nonce2Hex ← str_param params 3;
    solHex ← str_param params 4;
    Some (jobID, ntime, plain_hex nonce2Hex, plain_hex solHex).
(** The solution, with or without its size in front. *)
Definition decode_solution (solHex : string) : option bytes :=
  let '(sol, oks) := hex_decode solHex in
  if negb oks then None
  else if blen sol =? v_solBytes v then Some sol else trimSolutionPrefix sol (v_solBytes v).
Definition full_header (header sol : bytes) : bytes := (header ++ VarIntBytes (blen sol) ++ sol)%list.
Definition block_bytes (full : bytes) (j : job) : bytes := (full ++ VarIntBytes (j_txCount j) ++ j_txData j)%list.

(** What follows when the solution meets the network target. *)
Definition submit_found (full : bytes) (j : job) (share : Share) (e : engine) : result (Share * engine) :=
  let blockHex := hex_encode (block_bytes full j) in
  let! (_, n) := await (SubmitBlock ValidURL dm (request_id (net e)) blockHex (net e)) in
  let blockHash := hex_encode (ReverseBytes (Sha256d full)) in
  let share := set_hash blockHash blockHex share in
  let! ((_, tx), n) := await (CheckBlockAccepted ValidURL dm (request_id n) blockHash n) in
  Val (if String.eqb tx "" then share else set_txhash tx share, with_net n e).

Definition OnSubmit (s : Session) (params : list json) (e : engine) : result (Share * engine) :=
  let share := new_share s in
  match submission params with
  | None => Val (set_error ErrIncorrectNonceSize share, e)
  | Some (jobID, ntime, nonce2Hex, solHex) =>
      match find_job jobID (book e) with
      | None => Val (set_error ErrJobNotFound share, e)
      | Some (p, en) =>
          let j := en_job en in
          let share := set_job (j_id j) (j_height j) share in
          if negb (EqualFold ntime (j_ntimeLE j)) then Val (set_error ErrNTimeOutOfRange share, e)
          else
            let en1 := default [] (ExtraNonce1 s) in
            if (length en1 =? 0)%nat || negb (slen nonce2Hex =? (32 - blen en1) * 2)
            then Val (set_error ErrIncorrectNonceSize share, e)
            else
              let '(nonce2, okn) := hex_decode nonce2Hex in
              if negb okn then Val (set_error ErrIncorrectNonceSize share, e)
              else
                match decode_solution solHex with
                | None => Val (set_error ErrIncorrectNonceSize share, e)
                | Some sol =>
                    if bool_decide (nonce2Hex ∈ en_seen en) then Val (set_error ErrDuplicateShare share, e)
                    else
                      let e := with_book (mark p nonce2Hex (book e)) e in
                      let header := (j_prefix108 j ++ en1 ++ nonce2)%list in
                      match Verify (v_client v) header sol with
                      | Some true =>
                          let full := full_header header sol in
                          let hashNum := be_value (ReverseBytes (Sha256d full)) in
                          let! d := DiffFromValue diff1 hashNum in
                          let share := set_diff d share in
                          let! t := share_target diff1 (SessionDifficulty s) in
                          if t <? hashNum then Val (set_error ErrLowDiffShare share, e)
                          else if hashNum <=? j_target j then submit_found full j share e
                          else Val (share, e)
                      | _ => Val (set_error ErrIncorrectNonceSize share, e)
                      end
                end
      end
  end.

Definition equihash_ops : EngineOps engine := {|
  Engine.Name := "equihash";
  Engine.OnSubscribe := OnSubscribe;
  Engine.JobNotification := JobNotification;
  Engine.OnSubmit := OnSubmit;
  Engine.JobParamsForDifficulty := Some JobParamsForDifficulty;
  Engine.NotifyMethod := Some "mining.notify";
  Engine.TargetParams := Some TargetParams;
  Engine.ObjectParams := None |}.

(** ** The shares

    The register holds the miner's part of the nonce only. *)
Definition submitted_work (params : list json) (e : engine) : option (nat * bytes) :=
  '(jobID, _, nonce2Hex, _) ← submission params;
  '(p, _) ← find_job jobID (book e);
  Some (p, fst (hex_decode nonce2Hex)).
Definition nonce2_used (e : engine) (w : nat * bytes) : Prop := seen (book e) (fst w) (hex_encode (snd w)).
Definition equihash_work (s : Session) (w : nat * bytes) (sh : Share) (e : engine) : Prop :=
  exists en en1 sol,
    bk_heap (book e) !! fst w = Some en /\ ExtraNonce1 s = Some en1 /\ (length en1 + length (snd w) = 32)%nat /\
    let header := (j_prefix108 (en_job en) ++ en1 ++ snd w)%list in
    Verify (v_client v) header sol = Some true /\
    DiffFromValue diff1 (le_value (Sha256d (full_header header sol))) = Val (s_Diff sh) /\
    s_JobId sh = j_id (en_job en).
Definition equihash_share (s : Session) (w : nat * bytes) (sh : Share) (e : engine) : Prop :=
  exists en en1 sol t,
    bk_heap (book e) !! fst w = Some en /\ ExtraNonce1 s = Some en1 /\ (length en1 + length (snd w) = 32)%nat /\
    let header := (j_prefix108 (en_job en) ++ en1 ++ snd w)%list in
    let full := full_header header sol in
    Verify (v_client v) header sol = Some true /\
    share_target diff1 (SessionDifficulty s) = Val t /\ le_value (Sha256d full) <= t /\
    DiffFromValue diff1 (le_value (Sha256d full)) = Val (s_Diff sh) /\ s_JobId sh = j_id (en_job en) /\
    (s_BlockHex sh <> "" -> le_value (Sha256d full) <= j_target (en_job en) /\
       s_BlockHex sh = hex_encode (block_bytes full (en_job en)) /\ s_BlockHash sh = hex_encode (rev (Sha256d full))).

Lemma submit_found_spec full j share e sh e' :
  submit_found full j share e = Val (sh, e') ->
  book e' = book e /\ s_ErrorCode sh = s_ErrorCode share /\ s_Diff sh = s_Diff share /\ s_JobId sh = s_JobId share /\
  s_BlockHex sh = hex_encode (block_bytes full j) /\ s_BlockHash sh = hex_encode (rev (Sha256d full)).
Proof.
  unfold submit_found, await. intros E. handler_cases E. all: apply Val_pair_inj in E as [<- <-].
  all: rewrite <- (ReverseBytes_rev (Sha256d full)); destruct (String.eqb _ ""); done.
Qed.
Lemma equihash_submission_lower ps id nt n2 so : submission ps = Some (id, nt, n2, so) -> is_lower n2.
Proof.
  unfold submission. destruct (_ <? 5)%nat; [done|]. destruct (str_param ps 1); [|done]. cbn.
  destruct (str_param ps 2); [|done]. cbn. destruct (str_param ps 3); [|done]. cbn.
  destruct (str_param ps 4); [|done]. cbn. intros [= _ _ <- _]. apply plain_hex_lower.
Qed.
Lemma default_nonempty (o : option bytes) : (length (default [] o) =? 0)%nat = false -> o = Some (default [] o).
Proof. by destruct o. Qed.

Lemma equihash_OnSubmit_spec s ps e sh e' :
  OnSubmit s ps e = Val (sh, e') ->
  (forall w, nonce2_used e w -> nonce2_used e' w) /\
  (claims sh = true -> exists w, submitted_work ps e = Some w /\ equihash_work s w sh e /\
     (s_ErrorCode sh = 0 -> equihash_share s w sh e) /\ ~ nonce2_used e w /\ nonce2_used e' w).
Proof.
  intros E. unfold OnSubmit in E. handler_cases E.
  all: try (apply submit_found_spec in E as (Eb & Ec & Ed & Ej & Ex & Eh); cbn in Ed, Ej).
  all: try apply Val_pair_inj in E as [<- <-]; split; [|try discriminate]; unfold nonce2_used; cbn [with_net with_book book].
  all: try (by intros w Hw).
  all: try (intros w Hw; try rewrite Eb; apply seen_mark; by left).
  all: intros _; zbool; subst.
  all: match goal with
       | R : submission _ = Some (_, _, ?key, _), F : find_job _ _ = Some (?p, ?en), D : hex_decode ?key = (?nonce, _),
         K : bool_decide (?key ∈ _) = false |- _ =>
           destruct (fresh_claim _ _ _ _ _ _ F K (equihash_submission_lower _ _ _ _ _ R) D) as (Hp & Hn & Hu);
           assert (2 * Z.of_nat (length nonce) = slen key) as Hlen
             by (rewrite <- (hex_encode_length nonce); by rewrite (hex_decode_canonical key nonce (equihash_submission_lower _ _ _ _ _ R) D));
           exists (p, nonce); split; [unfold submitted_work; rewrite R; cbn; rewrite F; cbn; by rewrite D|]
       end.
  all: match goal with N : length (default [] _) <> 0%nat |- _ => apply Nat.eqb_neq, default_nonempty in N end.
  all: rewrite !ReverseBytes_rev in *; unfold be_value in *; rewrite !rev_involutive in *.
  all: match goal with N : ExtraNonce1 _ = Some ?en1 |- context [equihash_work _ (_, ?nonce) _ _] =>
         assert (length en1 + length nonce = 32)%nat as H32 by (unfold blen in *; lia) end.
  all: split; [do 3 eexists; split_and!; try done; congruence|].
  all: split; [|try rewrite Eb; by split]; intros Hz; try discriminate Hz.
  all: do 4 eexists; split; [exact Hp|]; split; [eassumption|]; split; [exact H32|].
  all: split_and!; try done.
  all: try congruence.
Qed.

#[export] Instance equihash_checker : ShareChecker (K := nat * bytes) OnSubmit := {
  work_of := submitted_work;
  used := nonce2_used;
  proved := equihash_work;
  earned := equihash_share;
  submit_used s ps e sh e' E := proj1 (equihash_OnSubmit_spec s ps e sh e' E);
  submit_claims s ps e sh e' E := proj2 (equihash_OnSubmit_spec s ps e sh e' E);
}.

Definition other_step (e e' : engine) : Prop :=
  (exists r, refresh e = Val (r, e')) \/ (exists s ps r, OnSubscribe s ps e = Val (r, e')).
Lemma acceptTemplate_book gbt e e' :
  acceptTemplate gbt e = Val e' ->
  exists j, book e' = publish 8 (FormatHex (u64 (jobCounter e + 1))) j (book e) /\ jobCounter e' = u64 (jobCounter e + 1).
Proof. unfold acceptTemplate. intros E. handler_cases E. apply Val_inj in E as <-. by eexists. Qed.
Lemma equihash_other_step_used e e' : other_step e e' -> forall w, nonce2_used e w -> nonce2_used e' w.
Proof.
  intros [[r E]|(s & ps & r & E)] w.
  - unfold refresh in E. handler_cases E; apply Val_pair_inj in E as [_ <-]; try done.
    all: match goal with A : acceptTemplate _ _ = _ |- _ => apply acceptTemplate_book in A as (j & Hb & _) end.
    all: unfold nonce2_used; rewrite Hb, seen_publish; done.
  - unfold OnSubscribe in E. by apply Val_pair_inj in E as [_ <-].
Qed.

(** The shares an Equihash engine accepts, over any run of submissions by any
    miners interleaved with new work and new sessions: the header of each is the
    job's 108 bytes, the prefix of its session and the submitted rest of a 32-byte
    nonce; its solution verifies for that header; the double SHA-256 of header and
    solution meets the share target of the session; a block is the serialised
    one, of the network target; and no rest of a nonce is accepted twice for a
    job. *)
Theorem equihash_shares_earned (e e' : engine) (l : list (Accepted engine)) :
  engine_run OnSubmit other_step e l e' ->
  Forall (fun a => exists w, submitted_work (ac_params a) (ac_state a) = Some w /\
            equihash_share (ac_session a) w (ac_share a) (ac_state a)) l /\
  NoDup (map (fun a => submitted_work (ac_params a) (ac_state a)) l).
Proof. exact (run_credits_once OnSubmit other_step equihash_other_step_used e l e'). Qed.

(** The register of the job after a share was accepted. *)
Lemma accepted_registered s jobID nt n2 so w e sh e1 p en :
  OnSubmit s [w; JStr jobID; JStr nt; JStr n2; JStr so] e = Val (sh, e1) -> s_ErrorCode sh = 0 ->
  find_job jobID (book e1) = Some (p, en) -> plain_hex n2 ∈ en_seen en /\ EqualFold nt (j_ntimeLE (en_job en)) = true /\
  slen (plain_hex n2) = (32 - blen (default [] (ExtraNonce1 s))) * 2 /\ snd (hex_decode (plain_hex n2)) = true.
Proof.
  intros E Hc F. unfold OnSubmit in E.
  change (submission [w; JStr jobID; JStr nt; JStr n2; JStr so]) with (Some (jobID, nt, plain_hex n2, plain_hex so)) in E.
  cbv iota in E. handler_cases E.
  all: try (apply submit_found_spec in E as (Eb & _)).
  all: try apply Val_pair_inj in E as [<- <-]; try discriminate Hc; cbn [with_book book] in F; try rewrite Eb in F.
  all: match goal with G : find_job _ (book _) = Some _ |- _ => destruct (find_job_mark _ _ _ _ _ _ _ F G) as [-> ->] end.
  all: cbn [en_seen en_job]; zbool; split_and!; try set_solver; try done.
  all: match goal with R : hex_decode _ = _ |- _ => by rewrite R end.
Qed.

(** Miners share one register of nonces.  Every session is given a prefix of
    its own, so equal rests of the nonce are different work; but the register
    holds the rest alone: once one miner's share is accepted, the same rest is
    refused as a duplicate to every other miner, whatever its prefix and its
    solution. *)
Theorem nonce2_refused_to_others s1 s2 jobID nt n2 so1 so2 w1 w2 e sh e1 p en sol :
  OnSubmit s1 [w1; JStr jobID; JStr nt; JStr n2; JStr so1] e = Val (sh, e1) -> s_ErrorCode sh = 0 ->
  find_job jobID (book e1) = Some (p, en) ->
  length (default [] (ExtraNonce1 s2)) = length (default [] (ExtraNonce1 s1)) ->
  default [] (ExtraNonce1 s2) <> [] -> decode_solution (plain_hex so2) = Some sol ->
  exists sh2, OnSubmit s2 [w2; JStr jobID; JStr nt; JStr n2; JStr so2] e1 = Val (sh2, e1) /\
    s_ErrorCode sh2 = ErrDuplicateShare.
Proof.
  intros E Hc F Hl Hn Hs. destruct (accepted_registered _ _ _ _ _ _ _ _ _ _ _ E Hc F) as (Hin & Ht & Hlen & Hd).
  unfold OnSubmit.
  change (submission [w2; JStr jobID; JStr nt; JStr n2; JStr so2]) with (Some (jobID, nt, plain_hex n2, plain_hex so2)).
  cbv iota zeta. rewrite F, Ht, Hs. cbn [negb]. unfold blen in *. rewrite Hl, Hlen, Z.eqb_refl. cbn [negb].
  replace (length (default [] (ExtraNonce1 s1)) =? 0)%nat with false.
  2:{ symmetry. apply Nat.eqb_neq. rewrite <- Hl. by destruct (default [] (ExtraNonce1 s2)). }
  cbn [orb]. destruct (hex_decode (plain_hex n2)) as [nonce2 okn]. cbn in Hd. subst okn. cbn [negb].
  rewrite bool_decide_true by done. eexists. split; [reflexivity|done].
Qed.
End Equihash.

(** ** The merkle root *)
Lemma merkle_next_pairs level : merkle_next (duplicate_last level) = pairs Sha256d level.
Proof.
  unfold merkle_next, duplicate_last.
  induction level as [|a|a b level IH] using byte_ind2; [done|done|]. cbn [pairs]. rewrite <- IH. clear IH.
  assert (length (a :: b :: level) mod 2 = length level mod 2)%nat as Em.
  { cbn [length]. replace (S (S (length level))) with (length level + 1 * 2)%nat by lia. apply Nat.Div0.mod_add. }
  assert (forall l : list bytes, map (fun i => Sha256d (nth (2 * i) (a :: b :: l) [] ++ nth (2 * i + 1) (a :: b :: l) [])%list)
            (seq 0 (length (a :: b :: l) / 2)) =
          Sha256d (a ++ b) :: map (fun i => Sha256d (nth (2 * i) l [] ++ nth (2 * i + 1) l [])%list) (seq 0 (length l / 2))) as W.
  { intros l. cbn [length]. replace (S (S (length l))) with (length l + 1 * 2)%nat by lia. rewrite Nat.div_add by lia.
    rewrite Nat.add_1_r. cbn [seq map]. f_equal. rewrite <- seq_shift, map_map. apply map_ext. intros i.
    replace (2 * S i)%nat with (S (S (2 * i))) by lia. replace (S (S (2 * i)) + 1)%nat with (S (S (2 * i + 1))) by lia. done. }
  rewrite Em. destruct (length level mod 2 =? 1)%nat eqn:Eo; [|apply W].
  assert ((a :: b :: level) ++ [nth (length (a :: b :: level) - 1) (a :: b :: level) []] =
          a :: b :: (level ++ [nth (length level - 1) level []]))%list as ->; [|apply W].
  cbn [app length]. do 3 f_equal. replace (S (S (length level)) - 1)%nat with (S (length level)) by lia.
  destruct level as [|c level]; [discriminate Eo|]. cbn [length]. by replace (S (length level) - 1)%nat with (length level) by lia.
Qed.
Lemma merkle_loop_root fuel level :
  level <> [] -> (length level <= fuel)%nat -> merkle_loop fuel level = Val (merkle_root Sha256d level).
Proof.
  revert level; induction fuel as [|fuel IH]; intros level Hn Hf.
  { destruct level; [done|cbn in Hf; lia]. }
  destruct level as [|x [|y level]]; [done|done|]. cbn [merkle_loop]. cbn [length Nat.ltb Nat.leb].
  rewrite merkle_next_pairs, merkle_root_step. pose proof (pairs_length Sha256d (x :: y :: level)) as Hp.
  apply IH; [done|cbn [length] in *; lia].
Qed.
(** The engine's own merkle root is the reference root of the transaction
    hashes, the one the bitcoin side of the pool computes from its branch. *)
Theorem merkleRoot_reference (coinbase : bytes) (rawTxs : list bytes) :
  merkleRoot (coinbase :: rawTxs) = Val (merkle_root Sha256d (map Sha256d (coinbase :: rawTxs))).
Proof. apply merkle_loop_root; [done|lia]. Qed.

Lemma decode_solution_size v so sol : 0 <= v_solBytes v -> decode_solution v so = Some sol -> blen sol = v_solBytes v.
Proof.
  intros Hv. unfold decode_solution. destruct (hex_decode so) as [b okb]. destruct okb; [|done]. cbn [negb].
  destruct (Z.eqb_spec (blen b) (v_solBytes v)); [by intros [= <-]|]. unfold trimSolutionPrefix, blen in *. cbn [find].
  repeat match goal with |- context [if ?x =? ?y then _ else _] => destruct (Z.eqb_spec x y) end; cbn; try done.
  all: intros [= <-]; rewrite length_drop; lia.
Qed.
Lemma variantFor_sizes name v : variantFor name = Ok v -> v_solBytes v = 1344 \/ v_solBytes v = 52.
Proof.
  unfold variantFor. destruct (existsb _ _); [intros [= <-]; by left|]. destruct (existsb _ _); [intros [= <-]; by right|done].
Qed.

(** ** Witnesses *)
Definition sample_gbt : json := JObj
  [("version", JNum "4"); ("previousblockhash", JStr (hex_encode (repeat x11 32))); ("bits", JStr "1c00ffff");
   ("target", JStr "00000000000000000000000000000000000000000000000000000000000000ff"); ("curtime", JNum "1700000000");
   ("height", JNum "2000000"); ("coinbasetxn", JObj [("data", JStr "0400008085202f89")]);
   ("transactions", JArr [JObj [("data", JStr "aabb")]])].
Definition sample_node : network := mkNode [] (fun _ _ => reply sample_gbt).
Definition engine0 : engine := New sample_node.
Definition zcash : variant := mkVariant 200 9 ZCash 1344.
Definition sample_verify (c : client) (header sol : bytes) : bool := (length header =? 140)%nat.
Definition submits := @OnSubmit (fun _ => true) sample_manager (fun _ => 1) zcash (fun c h s => Some (sample_verify c h s)).
Definition refreshed := @refresh listed_order (fun _ => true) sample_manager (fun _ => 1) engine0.
Definition engine1 : engine := get engine0 (rbind refreshed (fun r => Val (snd r))).
Definition easy : float64 := float_dyadic 1 (-30).
Definition alice : Session := mkSession (Some [x00; x00; x00; x01]) easy "alice.rig1" "10.0.0.1:5000".
Definition bob : Session := mkSession (Some [x00; x00; x00; x02]) easy "bob.rig1" "10.0.0.2:5000".
Definition nonce2_text : string := hex_encode (repeat xcd 28).
Definition solution_text (b : byte) : string := hex_encode (repeat b 1344).
Definition submit_params (who sol : string) : list json :=
  [JStr who; JStr "1"; JStr (hex_encode (le_bytes 4 1700000000)); JStr nonce2_text; JStr sol].
Definition submit1 := submits alice (submit_params "alice.rig1" (solution_text x01)) engine1.
Definition share1 : Share := get (new_share alice) (rbind submit1 (fun r => Val (fst r))).
Definition engine2 : engine := get engine0 (rbind submit1 (fun r => Val (snd r))).
Definition submit2 := submits bob (submit_params "bob.rig1" (solution_text x02)) engine2.
Definition engine3 : engine := get engine0 (rbind submit2 (fun r => Val (snd r))).
Definition no_entry : Entry job := mkEntry (mkJob "" [] "" 0 0 [] "" 0 "" "" "" "" "") ∅.
Lemma equihash_shares_earned_witness :
  Forall (fun a => exists w, submitted_work (ac_params a) (ac_state a) = Some w /\
            equihash_share zcash (fun c h s => Some (sample_verify c h s)) (ac_session a) w (ac_share a) (ac_state a))
    [mkAccepted alice (submit_params "alice.rig1" (solution_text x01)) share1 engine1] /\
  NoDup (map (fun a => submitted_work (ac_params a) (ac_state a))
    [mkAccepted alice (submit_params "alice.rig1" (solution_text x01)) share1 engine1]).
Proof.
  apply (@equihash_shares_earned listed_order (fun _ => true) sample_manager (fun _ => 1) zcash
           (fun c h s => Some (sample_verify c h s)) engine0 engine3).
  eapply (run_other _ _ _ _ engine1).
  { left. eexists. apply (get_pair (Err "") engine0). vm_compute. reflexivity. }
  eapply run_accepted; [apply (get_pair (new_share alice) engine0); vm_compute; reflexivity|vm_compute; reflexivity|].
  eapply (run_refused _ _ _ _ bob (submit_params "bob.rig1" (solution_text x02)));
    [apply (get_pair (new_share alice) engine0); vm_compute; reflexivity|vm_compute; reflexivity|].
  apply run_done.
Defined.
Lemma nonce2_refused_to_others_witness :
  exists sh2, submits bob (submit_params "bob.rig1" (solution_text x02)) engine2 = Val (sh2, engine2) /\
    s_ErrorCode sh2 = ErrDuplicateShare.
Proof.
  apply (nonce2_refused_to_others (fun _ => true) sample_manager (fun _ => 1) zcash (fun c h s => Some (sample_verify c h s))
    alice bob "1" (hex_encode (le_bytes 4 1700000000)) nonce2_text (solution_text x01) (solution_text x02)
    (JStr "alice.rig1") (JStr "bob.rig1") engine1 share1 engine2 0%nat (default no_entry (bk_heap (book engine2) !! 0%nat)) (repeat x02 1344)).
  - apply (get_pair (new_share alice) engine0). vm_compute. reflexivity.
  - vm_compute. reflexivity.
  - apply find_job_default; vm_compute; reflexivity.
  - reflexivity.
  - discriminate.
  - vm_compute. reflexivity.
Defined.
