(* ===== verification/Kawpow.v ===== *)
(** * Kawpow: src/engine/kawpow/kawpow.go

    The engine for KawPow coins: the coinbase and merkle root of the bitcoin path
    ([Jobs]) with a header, a proof of work and a dialect of its own.  The
    proof of work and the random choices are arguments; the node is the network
    of [Daemons]. *)
From Stdlib Require Import ZArith Lia List Strings.String Strings.Byte Floats.SpecFloat.
From stdpp Require Import base list strings gmap.
From S2P Require Import Prelude Bytes Float Strconv Utils Merkle Types Json Config Effects Algorithm Transactions Jobs DaemonReplies Daemons Engine EngineWork.
Import ListNotations.
Local Open Scope string_scope.
Local Open Scope Z_scope.
Local Open Scope go_scope.

Definition epochLength : Z := 7500.
Definition diff1 : Z := 0x00000000ff000000000000000000000000000000000000000000000000000000.

Record job := mkJob {
  j_id : string; j_inner : Job; j_header80 : bytes; j_headerHash : bytes; j_seedHash : bytes;
  j_height : Z; j_bits : string; j_coinbase : bytes;
}.
Record engine := mkEngine { net : network; enCounter : Z; jobCounter : Z; book : Book job }.
Definition with_book (b : Book job) (e : engine) : engine := mkEngine (net e) (enCounter e) (jobCounter e) b.
Definition with_net (n : network) (e : engine) : engine := mkEngine n (enCounter e) (jobCounter e) (book e).
Definition New (n : network) : engine := mkEngine n 0 0 empty_book.

(** ** Serialisation *)
Definition serializeKawpowInput (version : Z) (prevHashInternal merkleRootInternal : bytes) (nTime : Z)
    (bitsHex : string) (height : Z) : result bytes :=
  let! bits := HexDecode (bytes_of_string bitsHex) in
  Val (PackUint32LE version ++ prevHashInternal ++ merkleRootInternal ++ PackUint32LE nTime ++ ReverseBytes bits ++
       PackUint32LE height)%list.
Definition fullHeader (j : job) (nonce : Z) (mix : bytes) : bytes :=
  (j_header80 j ++ PackUint64LE nonce ++ ReverseBytes mix)%list.
Definition serializeBlock (j : job) (nonce : Z) (mix : bytes) : bytes :=
  (fullHeader j nonce mix ++
   VarIntBytes (u64 (Z.of_nat (length (g_Transactions (GetBlockTemplate_of (j_inner j)))) + 1)) ++
   j_coinbase j ++ TransactionData (j_inner j))%list.
Definition seedHash `{PowHashes} (height : Z) : bytes :=
  Nat.iter (Z.to_nat (height / epochLength)) LegacyKeccak256 (zeros 32).

Section Kawpow.
Context `{MapOrder} `{AddressCodec} `{Platform} `{PowHashes}.
Variable ValidURL : string -> bool.
Variable dm : DaemonManager.
(** The random request id and the time, at each point of the history. *)
Variable request_id clock : network -> Z.
Variable opts : Options.
(** [e.pow.Compute(headerHash, height, nonce)]: mix and digest, or an error. *)
Variable Compute : bytes -> Z -> Z -> option (bytes * bytes).

Definition acceptTemplate (gbt : GetBlockTemplate) (e : engine) : result engine :=
  let n := u64 (jobCounter e + 1) in
  let id := FormatHex n in
  let! script := recipient_script (PoolAddress opts) in
  let! placeholder := HexDecode (bytes_of_string "f000000ff111111f") in
  let! inner := NewJob (clock (net e)) id gbt script placeholder "POW" (c_TxMessages (Coin opts))
                  (RewardRecipients opts) (fun b => Val (Sha256d b)) in
  let fixed := be_bytes 8 n in
  let coinbase := SerializeCoinbase inner (take 4 fixed) (drop 4 fixed) in
  let! merkleRoot := MerkleTree_WithFirst (MerkleTree_of inner) (Sha256d coinbase) in
  let! prevb := HexDecode (bytes_of_string (g_PreviousBlockHash gbt)) in
  let prevHash := ReverseBytes prevb in
  let! header80 := serializeKawpowInput (u32 (g_Version gbt)) prevHash merkleRoot (g_CurTime gbt) (g_Bits gbt) (u32 (g_Height gbt)) in
  let headerHash := ReverseBytes (Sha256d header80) in
  let j := mkJob id inner header80 headerHash (seedHash (u64 (g_Height gbt))) (u64 (g_Height gbt)) (g_Bits gbt) coinbase in
  Val (mkEngine (net e) (enCounter e) n (publish 8 id j (book e))).

Definition currentJob (e : engine) : option job := current (book e).

Definition getTemplate (e : engine) : result (err_or GetBlockTemplate * engine) :=
  let! (r, n) := GetBlockTemplate_cmd ValidURL dm (request_id (net e)) (net e) in Val (r, with_net n e).
Definition refresh (e : engine) : result (err_or bool * engine) :=
  let! (r, e) := getTemplate e in
  match r with
  | Err m => Val (Err m, e)
  | Ok gbt =>
      let same := match currentJob e with
                  | Some cur => String.eqb (g_PreviousBlockHash (GetBlockTemplate_of (j_inner cur))) (g_PreviousBlockHash gbt)
                  | None => false
                  end in
      if same then Val (Ok false, e) else let! e := acceptTemplate gbt e in Val (Ok true, e)
  end.
(** [Init] from the point where the manager exists; warming the cache of the
    proof of work changes nothing here. *)
Definition Init (e : engine) : result (err_or unit * engine) :=
  let! (r, e) := getTemplate e in
  match r with Err m => Val (Err m, e) | Ok gbt => let! e := acceptTemplate gbt e in Val (Ok tt, e) end.

Definition OnSubscribe (_ : Session) (_ : list json) (e : engine) : result ((json * option bytes * Z) * engine) :=
  let n := u32 (enCounter e + 1) in
  let en := be_bytes 2 (u16 n) in
  Val ((JArr [JNull; JStr (hex_encode en)], Some en, 6), mkEngine (net e) n (jobCounter e) (book e)).

Definition JobParamsForDifficulty (diff : float64) (e : engine) : result (option (list json)) :=
  match currentJob e with
  | None => Val None
  | Some cur =>
      let! t := share_target diff1 diff in
      Val (Some [JStr (j_id cur); JStr (hex_encode (j_headerHash cur)); JStr (hex_encode (j_seedHash cur));
                 JStr (TargetHex t); JBool true; JNum (FormatUint (j_height cur)); JStr (j_bits cur)])
  end.
Definition JobNotification (_ : bool) (e : engine) : result ((string * option (list json)) * engine) :=
  let! params := JobParamsForDifficulty (float_of_Z 1) e in Val (("mining.notify", params), e).

(** [worker, jobId, 0xnonce, 0xheaderHash, 0xmixHash] *)
Definition submission (params : list json) : option (string * string * string * string) :=
  if (length params <? 5)%nat then None
  else
    jobID ← str_param params 1;
    nonceHex ← str_param params 2;
    headerHex ← str_param params 3;
    mixHex ← str_param params 4;
    Some (jobID, plain_hex nonceHex, plain_hex headerHex, plain_hex mixHex).

Definition submit_found (nonce : Z) (mix digest : bytes) (j : job) (share : Share) (e : engine) : result (Share * engine) :=
  let blockHex := hex_encode (serializeBlock j nonce mix) in
  let! (_, n) := await (SubmitBlock ValidURL dm (request_id (net e)) blockHex (net e)) in
  let blockHash := hex_encode digest in
  let share := set_hash blockHash blockHex share in
  let! ((_, tx), n) := await (CheckBlockAccepted ValidURL dm (request_id n) blockHash n) in
  Val (if String.eqb tx "" then share else set_txhash tx share, with_net n e).

Definition OnSubmit (s : Session) (params : list json) (e : engine) : result (Share * engine) :=
  let share := new_share s in
  match submission params with
  | None => Val (set_error ErrIncorrectNonceSize share, e)
  | Some (jobID, nonceHex, headerHex, mixHex) =>
      match find_job jobID (book e) with
      | None => Val (set_error ErrJobNotFound share, e)
      | Some (p, en) =>
          let j := en_job en in
          if negb (String.eqb headerHex (hex_encode (j_headerHash j))) then Val (set_error ErrJobNotFound share, e)
          else
            let share := set_reward (g_CoinbaseValue (GetBlockTemplate_of (j_inner j)))
                           (set_job (j_id j) (i64 (j_height j)) share) in
            if negb (slen nonceHex =? 16) then Val (set_error ErrIncorrectNonceSize share, e)
            else if outside_prefix s nonceHex then Val (set_error ErrIncorrectNonceSize share, e)
            else
              match ParseUint nonceHex 16 with
              | (_, Some _) => Val (set_error ErrIncorrectNonceSize share, e)
              | (nonce, None) =>
                  if bool_decide (nonceHex ∈ en_seen en) then Val (set_error ErrDuplicateShare share, e)
                  else
                    let e := with_book (mark p nonceHex (book e)) e in
                    match Compute (j_headerHash j) (j_height j) nonce with
                    | None => Val (set_error ErrJobNotFound share, e)
                    | Some (mix, digest) =>
                        if negb (String.eqb mixHex (hex_encode mix)) then Val (set_error ErrIncorrectNonceSize share, e)
                        else
                          let digestBig := be_value digest in
                          let! d := DiffFromValue diff1 digestBig in
                          let share := set_diff d share in
                          let! t := share_target diff1 (SessionDifficulty s) in
                          if t <? digestBig then Val (set_error ErrLowDiffShare share, e)
                          else if digestBig <=? Target (j_inner j) then submit_found nonce mix digest j share e
                          else Val (share, e)
                    end
              end
      end
  end.

Definition kawpow_ops : EngineOps engine := {|
  Engine.Name := "kawpow";
  Engine.OnSubscribe := OnSubscribe;
  Engine.JobNotification := JobNotification;
  Engine.OnSubmit := OnSubmit;
  Engine.JobParamsForDifficulty := Some JobParamsForDifficulty;
  Engine.NotifyMethod := Some "mining.notify";
  Engine.TargetParams := None;
  Engine.ObjectParams := None |}.

(** ** The shares *)
Definition submitted_work (params : list json) (e : engine) : option (nat * Z) :=
  '(jobID, nonceHex, _, _) ← submission params;
  '(p, _) ← find_job jobID (book e);
  Some (p, fst (ParseUint nonceHex 16)).

Definition kawpow_work (s : Session) (w : nat * Z) (sh : Share) (e : engine) : Prop :=
  exists en mix digest,
    bk_heap (book e) !! fst w = Some en /\ in_session s (snd w) /\
    Compute (j_headerHash (en_job en)) (j_height (en_job en)) (snd w) = Some (mix, digest) /\
    DiffFromValue diff1 (be_value digest) = Val (s_Diff sh) /\ s_JobId sh = j_id (en_job en).
(** The KawPow digest of the job's header hash at the share target; a block is
    the job's, with the nonce and mix, named by its digest. *)
Definition kawpow_share (s : Session) (w : nat * Z) (sh : Share) (e : engine) : Prop :=
  exists en mix digest t,
    bk_heap (book e) !! fst w = Some en /\ in_session s (snd w) /\
    Compute (j_headerHash (en_job en)) (j_height (en_job en)) (snd w) = Some (mix, digest) /\
    share_target diff1 (SessionDifficulty s) = Val t /\ be_value digest <= t /\
    DiffFromValue diff1 (be_value digest) = Val (s_Diff sh) /\ s_JobId sh = j_id (en_job en) /\
    (s_BlockHex sh <> "" -> be_value digest <= Target (j_inner (en_job en)) /\
       s_BlockHex sh = hex_encode (serializeBlock (en_job en) (snd w) mix) /\ s_BlockHash sh = hex_encode digest).

Lemma kawpow_submit_found_spec nonce mix digest j share e sh e' :
  submit_found nonce mix digest j share e = Val (sh, e') ->
  book e' = book e /\ s_ErrorCode sh = s_ErrorCode share /\ s_Diff sh = s_Diff share /\ s_JobId sh = s_JobId share /\
  s_BlockHex sh = hex_encode (serializeBlock j nonce mix) /\ s_BlockHash sh = hex_encode digest.
Proof.
  unfold submit_found, await. intros E. handler_cases E. all: apply Val_pair_inj in E as [<- <-].
  all: destruct (String.eqb _ ""); done.
Qed.
Lemma kawpow_submission_lower ps id n h m : submission ps = Some (id, n, h, m) -> is_lower n.
Proof.
  unfold submission. destruct (_ <? 5)%nat; [done|]. destruct (str_param ps 1); [|done]. cbn.
  destruct (str_param ps 2); [|done]. cbn. destruct (str_param ps 3); [|done]. cbn.
  destruct (str_param ps 4); [|done]. cbn. intros [= _ <- _ _]. apply plain_hex_lower.
Qed.

Lemma kawpow_OnSubmit_spec s ps e sh e' :
  OnSubmit s ps e = Val (sh, e') ->
  (forall w, nonce64_used (book e) w -> nonce64_used (book e') w) /\
  (claims sh = true -> exists w, submitted_work ps e = Some w /\ kawpow_work s w sh e /\
     (s_ErrorCode sh = 0 -> kawpow_share s w sh e) /\ ~ nonce64_used (book e) w /\ nonce64_used (book e') w).
Proof.
  intros E. unfold OnSubmit in E. handler_cases E.
  all: try (apply kawpow_submit_found_spec in E as (Eb & Ec & Ed & Ej & Ex & Eh); cbn in Ed, Ej).
  all: try apply Val_pair_inj in E as [<- <-]; split; [|try discriminate]; cbn [with_net with_book book].
  all: try (by intros w Hw).
  all: try (intros w; try rewrite Eb; apply nonce64_used_mono; intros q k Hq; apply seen_mark; by left).
  all: intros _; zbool; subst.
  all: match goal with
       | R : submission _ = Some (_, ?key, _, _), F : find_job _ _ = Some (?p, ?en), D : ParseUint ?key 16 = (?nonce, _),
         L : slen ?key = 16, K : bool_decide (?key ∈ _) = false, O : outside_prefix _ ?key = false |- _ =>
           pose proof (kawpow_submission_lower _ _ _ _ _ R) as Hl;
           destruct (fresh_claim64 _ _ _ _ _ _ F K Hl L D) as (Hp & Hn & Hu);
           pose proof (outside_prefix_spec _ _ _ Hl L D O) as Hs;
           exists (p, nonce); split; [unfold submitted_work; rewrite R; cbn; rewrite F; cbn; by rewrite D|]
       end.
  all: split; [do 3 eexists; split_and!; try done; try eassumption; congruence|].
  all: split; [|try rewrite Eb; by split]; intros Hz; try discriminate Hz.
  all: do 4 eexists; split_and!; try done; try eassumption; try congruence.
Qed.

#[export] Instance kawpow_checker : ShareChecker (K := nat * Z) OnSubmit := {
  work_of := submitted_work;
  used e := nonce64_used (book e);
  proved := kawpow_work;
  earned := kawpow_share;
  submit_used s ps e sh e' E := proj1 (kawpow_OnSubmit_spec s ps e sh e' E);
  submit_claims s ps e sh e' E := proj2 (kawpow_OnSubmit_spec s ps e sh e' E);
}.

Definition other_step (e e' : engine) : Prop :=
  (exists r, refresh e = Val (r, e')) \/ (exists s ps r, OnSubscribe s ps e = Val (r, e')).
Lemma kawpow_acceptTemplate_book gbt e e' :
  acceptTemplate gbt e = Val e' -> exists j, book e' = publish 8 (FormatHex (u64 (jobCounter e + 1))) j (book e).
Proof. unfold acceptTemplate. intros E. handler_cases E. apply Val_inj in E as <-. by eexists. Qed.
Lemma getTemplate_book e r e' : getTemplate e = Val (r, e') -> book e' = book e.
Proof. unfold getTemplate. intros E. handler_cases E. by apply Val_pair_inj in E as [_ <-]. Qed.
Lemma kawpow_other_step_used e e' : other_step e e' -> forall w, nonce64_used (book e) w -> nonce64_used (book e') w.
Proof.
  intros [[r E]|(s & ps & r & E)] w.
  - unfold refresh in E. handler_cases E; apply Val_pair_inj in E as [_ <-].
    all: subst; match goal with R : getTemplate _ = _ |- _ => apply getTemplate_book in R; rewrite <- R end; try done.
    all: match goal with A : acceptTemplate _ _ = _ |- _ => apply kawpow_acceptTemplate_book in A as (j & Hb) end.
    all: rewrite Hb; apply nonce64_used_mono; intros p k; by rewrite seen_publish.
  - unfold OnSubscribe in E. by apply Val_pair_inj in E as [_ <-].
Qed.

(** The shares a KawPow engine accepts, over any run of submissions by any
    miners interleaved with new work and new sessions: each is the proof of work
    of its job's header hash for the nonce it submitted, which starts with the
    bytes of its session; its digest meets the share target of the session; a
    block is the job's with nonce and mix, at the network target, named by the
    digest; and no nonce of a job is accepted twice, however it is spelled. *)
Theorem kawpow_shares_earned (e e' : engine) (l : list (Accepted engine)) :
  engine_run OnSubmit other_step e l e' ->
  Forall (fun a => exists w, submitted_work (ac_params a) (ac_state a) = Some w /\
            kawpow_share (ac_session a) w (ac_share a) (ac_state a)) l /\
  NoDup (map (fun a => submitted_work (ac_params a) (ac_state a)) l).
Proof. exact (run_credits_once OnSubmit other_step kawpow_other_step_used e l e'). Qed.

(** ** The job *)
Lemma NewJob_tree now id gbt script ph reward tm rc inner :
  NewJob now id gbt script ph reward tm rc (fun b => Val (Sha256d b)) = Val inner ->
  exists txs, rmap tx_hash_bytes (g_Transactions gbt) = Val txs /\
    NewMerkleTree ([] :: txs) (Some (fun b => Val (Sha256d b))) = Val (MerkleTree_of inner).
Proof.
  unfold NewJob, GetTransactionBytes. intros E. handler_cases E. apply Val_inj in E as <-. cbn [MerkleTree_of].
  destruct (rmap tx_hash_bytes (g_Transactions gbt)) as [txs|]; cbn [rbind] in *; [|discriminate].
  match goal with R : Val (_ :: txs) = Val _ |- _ => apply Val_inj in R as <- end. by exists txs.
Qed.
Lemma HexDecode_rev s b : HexDecode (bytes_of_string s) = Val b -> hex_decode s = (rev (ReverseBytes b), true).
Proof.
  unfold HexDecode, hex_decode. destruct (hex_decode_bytes _) as [d []]; [|discriminate]. intros [= <-].
  by rewrite ReverseBytes_rev, rev_involutive.
Qed.
(** The job made of a template: its 80-byte input is the version, the
    previous hash, the merkle root of the job's own coinbase and the transactions
    of the template, the time, the bits and the height, integers little-endian
    and hashes reversed; the header hash that miners and the proof of work are
    given is its reversed double SHA-256; and the header of a block built from
    the job is 120 bytes for a 32-byte mix. *)
Theorem kawpow_job_of_template gbt e e' :
  acceptTemplate gbt e = Val e' ->
  exists j prev bits txs,
    currentJob e' = Some j /\
    hex_decode (g_PreviousBlockHash gbt) = (rev prev, true) /\ hex_decode (g_Bits gbt) = (rev bits, true) /\
    rmap tx_hash_bytes (g_Transactions gbt) = Val txs /\
    j_header80 j = (le_bytes 4 (u32 (g_Version gbt)) ++ prev ++ merkle_root Sha256d (Sha256d (j_coinbase j) :: txs) ++
                    le_bytes 4 (g_CurTime gbt) ++ bits ++ le_bytes 4 (u32 (g_Height gbt)))%list /\
    j_headerHash j = rev (Sha256d (j_header80 j)) /\
    (length prev = 32%nat -> length bits = 4%nat -> forall nonce mix, length mix = 32%nat ->
       length (j_header80 j) = 80%nat /\ length (fullHeader j nonce mix) = 120%nat).
Proof.
  unfold acceptTemplate, serializeKawpowInput. intros E. handler_cases E. apply Val_inj in E as <-.
  match goal with R : NewJob _ _ _ _ _ _ _ _ _ = Val ?i |- _ => destruct (NewJob_tree _ _ _ _ _ _ _ _ _ R) as (txs & Ht & Hm) end.
  assert (total_hasher (default_hasher (Some (fun b => Val (Sha256d b)))) Sha256d) as Th by (intros b; reflexivity).
  match goal with R : MerkleTree_WithFirst _ ?c = Val _ |- _ =>
    rewrite (WithFirst_merkle_root_aux txs _ Sha256d c _ Th Hm) in R; apply Val_inj in R as <- end.
  destruct (HexDecode (bytes_of_string (g_Bits gbt))) as [bits|] eqn:Eb; cbn [rbind] in *; [|discriminate].
  match goal with R : Val _ = Val ?h |- context [mkJob _ _ ?h] => apply Val_inj in R as Rh end.
  match goal with R : HexDecode (bytes_of_string (g_PreviousBlockHash gbt)) = Val _ |- _ => apply HexDecode_rev in R end.
  apply HexDecode_rev in Eb. eexists; do 3 eexists. split; [apply current_publish|].
  cbn [j_header80 j_coinbase j_headerHash]. split; [eassumption|]. split; [exact Eb|]. split; [exact Ht|].
  split; [symmetry; exact Rh|]. split; [apply ReverseBytes_rev|]. intros L1 L2 nonce mix L3.
  unfold fullHeader, PackUint64LE, PackUint32LE in *. cbn [j_header80]. rewrite <- Rh.
  rewrite !length_app, !le_bytes_length, !ReverseBytes_length in *.
  rewrite (merkle_root_width Sha256d 32); [lia|apply Sha256d_length|done|].
  constructor; [apply Sha256d_length|by eapply tx_hashes_width].
Qed.
End Kawpow.

(** ** Witnesses *)
Definition sample_options : Options :=
  {| DisablePayment := true; Config.Coin := sample_coin; Config.Engine := "kawpow";
     PoolAddress := mkRecipient "76a91488ac" "script" fzero None;
     RewardRecipients := []; BlockRefreshInterval := 0; JobRebroadcastTimeout := 0;
     ConnectionTimeout := 0; TCPProxyProtocol := false; Banning := None; Ports := []; Config.Daemons := [];
     P2P := None; Config.Algorithm := mkAlgorithmOptions "kawpow" 0 true "" ""; Payment := None |}.
Definition sample_gbt : json := JObj
  [("version", JNum "805306368"); ("previousblockhash", JStr (hex_encode (repeat x11 32))); ("bits", JStr "1b00ffff");
   ("target", JStr "00000000000000000000000000000000000000000000000000000000000000ff"); ("curtime", JNum "1700000000");
   ("height", JNum "15001"); ("coinbasevalue", JNum "250000000000");
   ("transactions", JArr [JObj [("data", JStr "aabb"); ("txid", JStr (hex_encode (repeat x22 32)))]])].
Definition sample_node : network := mkNode [] (fun _ _ => reply sample_gbt).
Definition sample_compute (h : bytes) (height nonce : Z) : option (bytes * bytes) :=
  Some (Sha256 h, Sha256 (h ++ be_bytes 8 nonce)%list).
Section Witness.
Local Existing Instance listed_order.
Local Existing Instance hex_codec.
Local Existing Instance amd64.
Local Existing Instance sha_primitives.
Definition engine0 : engine := New sample_node.
Definition refreshed := refresh (fun _ => true) sample_manager (fun _ => 1) (fun _ => 1700000000) sample_options engine0.
Definition engine1 : engine := get engine0 (rbind refreshed (fun r => Val (snd r))).
Definition miner : Session := mkSession (Some [x00; x01]) (float_dyadic 1 (-40)) "alice.rig1" "10.0.0.1:5000".
Definition header_text : string := match currentJob engine1 with Some j => hex_encode (j_headerHash j) | None => "" end.
Definition mix_text : string := hex_encode (Sha256 (fst (hex_decode header_text))).
Definition submit_params (nonce : string) : list json :=
  [JStr "alice.rig1"; JStr "1"; JStr nonce; JStr ("0x" ++ header_text); JStr mix_text].
Definition submits := OnSubmit (fun _ => true) sample_manager (fun _ => 1) sample_compute.
Definition submit1 := submits miner (submit_params "0x0001000000abcdef") engine1.
Definition share1 : Share := get (new_share miner) (rbind submit1 (fun r => Val (fst r))).
Definition engine2 : engine := get engine0 (rbind submit1 (fun r => Val (snd r))).
Definition submit2 := submits miner (submit_params "0001000000ABCDEF") engine2.
Definition engine3 : engine := get engine0 (rbind submit2 (fun r => Val (snd r))).
Lemma kawpow_shares_earned_witness :
  Forall (fun a => exists w, submitted_work (ac_params a) (ac_state a) = Some w /\
            kawpow_share sample_compute (ac_session a) w (ac_share a) (ac_state a))
    [mkAccepted miner (submit_params "0x0001000000abcdef") share1 engine1] /\
  NoDup (map (fun a => submitted_work (ac_params a) (ac_state a))
    [mkAccepted miner (submit_params "0x0001000000abcdef") share1 engine1]).
Proof.
  apply (kawpow_shares_earned (fun _ => true) sample_manager (fun _ => 1) (fun _ => 1700000000) sample_options
           sample_compute engine0 engine3).
  eapply (run_other _ _ _ _ engine1).
  { left. eexists. apply (get_pair (Err "") engine0). vm_compute. reflexivity. }
  eapply run_accepted; [apply (get_pair (new_share miner) engine0); vm_compute; reflexivity|vm_compute; reflexivity|].
  eapply (run_refused _ _ _ _ miner (submit_params "0001000000ABCDEF"));
    [apply (get_pair (new_share miner) engine0); vm_compute; reflexivity|vm_compute; reflexivity|].
  apply run_done.
Defined.
Definition template1 : GetBlockTemplate := get no_template (BytesToGetBlockTemplate (Some sample_gbt)).
Definition accepted1 : result engine := acceptTemplate (fun _ => 1700000000) sample_options template1 engine0.
Lemma kawpow_job_of_template_witness :
  exists j prev bits txs,
    currentJob (get engine0 accepted1) = Some j /\
    hex_decode (g_PreviousBlockHash template1) = (rev prev, true) /\ hex_decode (g_Bits template1) = (rev bits, true) /\
    rmap tx_hash_bytes (g_Transactions template1) = Val txs /\
    j_header80 j = (le_bytes 4 (u32 (g_Version template1)) ++ prev ++ merkle_root Sha256d (Sha256d (j_coinbase j) :: txs) ++
                    le_bytes 4 (g_CurTime template1) ++ bits ++ le_bytes 4 (u32 (g_Height template1)))%list /\
    j_headerHash j = rev (Sha256d (j_header80 j)) /\
    (length prev = 32%nat -> length bits = 4%nat -> forall nonce mix, length mix = 32%nat ->
       length (j_header80 j) = 80%nat /\ length (fullHeader j nonce mix) = 120%nat).
Proof.
  apply (kawpow_job_of_template (fun _ => 1700000000) sample_options template1 engine0 (get engine0 accepted1)).
  apply get_val. vm_compute. reflexivity.
Defined.
End Witness.
