(* ===== verification/Alephium.v ===== *)
(** * Alephium: src/engine/alephium/alephium.go

    The engine for Alephium: the binary miner protocol of the node, a job per
    chain, and the shares.  Blake3 is an argument; the connection is a stream of
    bytes to read and a log of frames written. *)
From Stdlib Require Import ZArith Lia List Strings.String Strings.Byte Floats.SpecFloat.
From stdpp Require Import base list strings gmap.
From S2P Require Import Prelude Bytes Sha256 Float Strconv Utils Types Effects Algorithm Engine EngineWork.
Import ListNotations.
Local Open Scope string_scope.
Local Open Scope Z_scope.
Local Open Scope go_scope.

Definition nonceSize : Z := 24.
Definition msgJobs : byte := x00.
Definition msgSubmitResult : byte := x01.
Definition msgSubmitBlock : byte := x00.
Definition protocolVersion : byte := x01.

Record job := mkJob {
  j_id : string; j_fromGroup : Z; j_toGroup : Z; j_headerBlob : bytes; j_txsBlob : bytes; j_target : Z; j_height : Z }.

(** ** The codec *)

(** [io.ReadFull] of [n] bytes from what the stream still holds. *)
Definition ReadFull (n : Z) (stream : bytes) : option bytes * bytes :=
  if Z.of_nat (length stream) <? n then (None, []) else (Some (take (Z.to_nat n) stream), drop (Z.to_nat n) stream).
Definition readFrame (stream : bytes) : err_or (byte * byte * bytes) * bytes :=
  match ReadFull 4 stream with
  | (None, stream) => (Err "unexpected EOF", stream)
  | (Some lenBuf, stream) =>
      let n := be_value lenBuf in
      if (n <? 2) || (Z.shiftl 32 20 <? n) then (Err "alephium: bad frame length", stream)
      else match ReadFull n stream with
           | (Some (version :: msgType :: payload), stream) => (Ok (version, msgType, payload), stream)
           | (_, stream) => (Err "unexpected EOF", stream)
           end
  end.
Definition buildFrame (msgType : byte) (payload : bytes) : bytes :=
  let body := (protocolVersion :: msgType :: payload)%list in
  (be_bytes 4 (u32 (Z.of_nat (length body))) ++ body)%list.
Definition appendBlob (dst x : bytes) : bytes := (dst ++ be_bytes 4 (u32 (Z.of_nat (length x))) ++ x)%list.

(** reader: the bytes, the position and whether it failed.  A position never
    passes the end, so the additions of [int] do not overflow. *)
Record reader := mkReader { r_b : bytes; r_pos : Z; r_err : bool }.
Definition fail_reader (r : reader) : reader := mkReader (r_b r) (r_pos r) true.
Definition rest (r : reader) : bytes := drop (Z.to_nat (r_pos r)) (r_b r).
Definition int32 (r : reader) : Z * reader :=
  if r_err r || (Z.of_nat (length (r_b r)) <? r_pos r + 4) then (0, fail_reader r)
  else (i32 (be_value (take 4 (rest r))), mkReader (r_b r) (r_pos r + 4) false).
Definition blob (r : reader) : bytes * reader :=
  let '(n, r) := int32 r in
  if r_err r || (n <? 0) || (Z.of_nat (length (r_b r)) <? r_pos r + n) then ([], fail_reader r)
  else (take (Z.to_nat n) (rest r), mkReader (r_b r) (r_pos r + n) false).

(** The job is numbered before it is read. *)
Definition read_job (id : string) (r : reader) : job * reader :=
  let '(fromGroup, r) := int32 r in
  let '(toGroup, r) := int32 r in
  let '(headerBlob, r) := blob r in
  let '(txsBlob, r) := blob r in
  let '(target, r) := blob r in
  let '(height, r) := int32 r in
  (mkJob id (u32 fromGroup) (u32 toGroup) headerBlob txsBlob (be_value target) height, r).
Fixpoint read_jobs (count : nat) (counter : Z) (r : reader) : err_or (list job) * Z :=
  match count with
  | O => (Ok [], counter)
  | S count =>
      let counter := u64 (counter + 1) in
      let '(j, r) := read_job (FormatHex counter) r in
      if r_err r then (Err "unexpected EOF", counter)
      else let '(l, counter) := read_jobs count counter r in
           (err_bind l (fun l => Ok (j :: l)), counter)
  end.
Definition parseJobs (payload : bytes) (counter : Z) : err_or (list job) * Z :=
  let '(count, r) := int32 (mkReader payload 0 false) in
  if r_err r || (count <? 0) || (4096 <? count) then (Err "alephium: bad job count", counter)
  else read_jobs (Z.to_nat count) counter r.

(** ** The engine *)
Record engine := mkEngine {
  connected : bool;
  conn : Node bytes bool;
  jobCounter : Z;
  enCounter : Z;
  jobs : gmap string nat;
  order : list string;
  book : Book job;
}.
Definition with_book (b : Book job) (e : engine) : engine :=
  mkEngine (connected e) (conn e) (jobCounter e) (enCounter e) (jobs e) (order e) b.
Definition New (conn : Node bytes bool) : engine := mkEngine false conn 0 0 ∅ [] empty_book.

Definition minBig (a b : Z) : Z := if a <? b then a else b.
Fixpoint hasPrefixBytes (b prefix : bytes) : bool :=
  match prefix, b with
  | [], _ => true
  | _ :: _, [] => false
  | p :: prefix, x :: b => bool_decide (x = p) && hasPrefixBytes b prefix
  end.

Section Alephium.
Context `{MapOrder}.
Variable blake3_Sum256 : bytes -> bytes.
Definition doubleBlake3 (b : bytes) : bytes := blake3_Sum256 (blake3_Sum256 b).

(** One more job: a new object in the three tables. *)
Definition add_job (e : engine) (j : job) : engine :=
  let p := length (bk_heap (book e)) in
  mkEngine (connected e) (conn e) (jobCounter e) (enCounter e) (<[j_id j := p]> (jobs e)) (order e ++ [j_id j])%list
    (mkBook (bk_heap (book e) ++ [mkEntry j ∅])%list (bk_cur (book e)) (<[j_id j := p]> (bk_history (book e)))).

(** One turn of the outer loop deletes the first entry that is not a current
    job; when all are, it goes round for ever. *)
Definition evict_one (live : gmap string nat) (h : gmap string nat) : option (gmap string nat) :=
  '(k, _) ← find (fun p => negb (bool_decide (is_Some (live !! fst p)))) (range h); Some (delete k h).
Fixpoint evict_dead (fuel : nat) (live h : gmap string nat) : result (gmap string nat) :=
  if (64 <? size h)%nat then
    match fuel with
    | O => Panic "out of fuel"
    | S fuel => match evict_one live h with Some h => evict_dead fuel live h | None => Panic "blocked for ever" end
    end
  else Val h.

Definition handleJobs (payload : bytes) (e : engine) : result (err_or unit * engine) :=
  let '(r, counter) := parseJobs payload (jobCounter e) in
  let e := mkEngine (connected e) (conn e) counter (enCounter e) (jobs e) (order e) (book e) in
  match r with
  | Err m => Val (Err m, e)
  | Ok js =>
      let e := mkEngine (connected e) (conn e) (jobCounter e) (enCounter e) ∅ [] (book e) in
      let e := fold_left add_job js e in
      let! h := evict_dead (size (bk_history (book e))) (jobs e) (bk_history (book e)) in
      Val (Ok tt, with_book (mkBook (bk_heap (book e)) (bk_cur (book e)) h) e)
  end.

(** [Init] after the connection was dialled: the first message must bring jobs. *)
Definition Init (stream : bytes) (e : engine) : result (err_or unit * engine * bytes) :=
  let e := mkEngine true (conn e) (jobCounter e) (enCounter e) (jobs e) (order e) (book e) in
  let '(r, stream) := readFrame stream in
  match r with
  | Err m => Val (Err m, e, stream)
  | Ok (_, msgType, payload) =>
      if negb (bool_decide (msgType = msgJobs)) then Val (Err "alephium: expected initial Jobs", e, stream)
      else let! (r, e) := handleJobs payload e in Val (r, e, stream)
  end.
(** One turn of the reading loop: whether there is new work. *)
Definition read_message (stream : bytes) (e : engine) : result (err_or bool * engine * bytes) :=
  let '(r, stream) := readFrame stream in
  match r with
  | Err m => Val (Err m, e, stream)
  | Ok (_, msgType, payload) =>
      if bool_decide (msgType = msgJobs) then
        let! (r, e) := handleJobs payload e in
        Val (Ok (match r with Ok _ => true | Err _ => false end), e, stream)
      else Val (Ok false, e, stream)
  end.

Definition OnSubscribe (_ : Session) (_ : list json) (e : engine) : result ((json * option bytes * Z) * engine) :=
  let n := u32 (enCounter e + 1) in
  let en := be_bytes 2 (u16 n) in
  Val ((JArr [JNull; JStr (hex_encode en)], Some en, nonceSize - 2),
       mkEngine (connected e) (conn e) (jobCounter e) n (jobs e) (order e) (book e)).

Definition live_job (e : engine) (id : string) : result job :=
  match p ← jobs e !! id; bk_heap (book e) !! p with
  | Some en => Val (en_job en)
  | None => Panic "nil pointer dereference"
  end.
(** What a miner is told of a chain's job. *)
Definition job_entry (shareTarget : Z) (j : job) : json :=
  JArr [JStr (j_id j); JNum (FormatUint (j_fromGroup j)); JNum (FormatUint (j_toGroup j));
        JStr (hex_encode (j_headerBlob j)); JStr (TargetHex (minBig (j_target j) shareTarget))].
Definition JobParamsForDifficulty (diff : float64) (e : engine) : result (option (list json)) :=
  let! shareTarget := share_target Pow256 diff in
  let! js := rmap (live_job e) (order e) in
  Val (Some [JArr (map (job_entry shareTarget) js)]).
Definition JobNotification (_ : bool) (e : engine) : result ((string * option (list json)) * engine) :=
  let! params := JobParamsForDifficulty (float_of_Z 1) e in Val (("mining.notify", params), e).

Definition submitBlock (blockBlob : bytes) (e : engine) : err_or unit * engine :=
  let frame := buildFrame msgSubmitBlock (appendBlob [] blockBlob) in
  if negb (connected e) then (Err "alephium: not connected", e)
  else let '(sent, n) := ask frame (conn e) in
       (if (sent : bool) then Ok tt else Err "write failed",
        mkEngine (connected e) n (jobCounter e) (enCounter e) (jobs e) (order e) (book e)).

(** [worker, jobId, nonceHex] *)
Definition submission (params : list json) : option (string * string) :=
  if (length params <? 3)%nat then None
  else jobID ← str_param params 1; nonceHex ← str_param params 2; Some (jobID, plain_hex nonceHex).

Definition OnSubmit (s : Session) (params : list json) (e : engine) : result (Share * engine) :=
  let share := new_share s in
  match submission params with
  | None => Val (set_error ErrIncorrectNonceSize share, e)
  | Some (jobID, nonceHex) =>
      match find_job jobID (book e) with
      | None => Val (set_error ErrJobNotFound share, e)
      | Some (p, en) =>
          let j := en_job en in
          let share := set_job (j_id j) (j_height j) share in
          let '(nonce, okn) := hex_decode nonceHex in
          if negb okn || negb (blen nonce =? nonceSize) then Val (set_error ErrIncorrectNonceSize share, e)
          else if negb (hasPrefixBytes nonce (default [] (ExtraNonce1 s))) then Val (set_error ErrIncorrectNonceSize share, e)
          else if bool_decide (nonceHex ∈ en_seen en) then Val (set_error ErrDuplicateShare share, e)
          else
            let e := with_book (mark p nonceHex (book e)) e in
            let powHash := doubleBlake3 (nonce ++ j_headerBlob j)%list in
            let hashNum := be_value powHash in
            let! d := DiffFromValue Pow256 hashNum in
            let share := set_diff d share in
            let! t := share_target Pow256 (SessionDifficulty s) in
            if t <? hashNum then Val (set_error ErrLowDiffShare share, e)
            else if hashNum <=? j_target j then
              let '(r, e) := submitBlock (nonce ++ j_headerBlob j ++ j_txsBlob j)%list e in
              match r with
              | Err _ => Val (share, e)
              | Ok _ => Val (set_hash (hex_encode powHash) "" share, e)
              end
            else Val (share, e)
      end
  end.

Definition alephium_ops : EngineOps engine := {|
  Engine.Name := "alephium";
  Engine.OnSubscribe := OnSubscribe;
  Engine.JobNotification := JobNotification;
  Engine.OnSubmit := OnSubmit;
  Engine.JobParamsForDifficulty := Some JobParamsForDifficulty;
  Engine.NotifyMethod := Some "mining.notify";
  Engine.TargetParams := None;
  Engine.ObjectParams := None |}.

(** ** The shares *)
Definition submitted_work (params : list json) (e : engine) : option (nat * bytes) :=
  '(jobID, nonceHex) ← submission params;
  '(p, _) ← find_job jobID (book e);
  Some (p, fst (hex_decode nonceHex)).
Definition nonce_used (e : engine) (w : nat * bytes) : Prop := seen (book e) (fst w) (hex_encode (snd w)).
Definition blake3_work (s : Session) (w : nat * bytes) (sh : Share) (e : engine) : Prop :=
  exists en,
    bk_heap (book e) !! fst w = Some en /\ length (snd w) = 24%nat /\
    take (length (default [] (ExtraNonce1 s))) (snd w) = default [] (ExtraNonce1 s) /\
    DiffFromValue Pow256 (be_value (doubleBlake3 (snd w ++ j_headerBlob (en_job en))%list)) = Val (s_Diff sh) /\
    s_JobId sh = j_id (en_job en).
(** The double Blake3 hash of the nonce and the chain's header at the share
    target; a reported block is named by it, at the network target. *)
Definition blake3_share (s : Session) (w : nat * bytes) (sh : Share) (e : engine) : Prop :=
  exists en t,
    let h := doubleBlake3 (snd w ++ j_headerBlob (en_job en))%list in
    bk_heap (book e) !! fst w = Some en /\ length (snd w) = 24%nat /\
    take (length (default [] (ExtraNonce1 s))) (snd w) = default [] (ExtraNonce1 s) /\
    share_target Pow256 (SessionDifficulty s) = Val t /\ be_value h <= t /\
    DiffFromValue Pow256 (be_value h) = Val (s_Diff sh) /\ s_JobId sh = j_id (en_job en) /\
    (s_BlockHash sh <> "" -> s_BlockHash sh = hex_encode h /\ be_value h <= j_target (en_job en)).

Lemma hasPrefixBytes_take b prefix : hasPrefixBytes b prefix = true -> take (length prefix) b = prefix.
Proof.
  revert b; induction prefix as [|p prefix IH]; intros [|x b]; cbn [hasPrefixBytes]; try done.
  intros E. apply andb_prop in E as [E1 E2]. apply bool_decide_eq_true in E1 as ->. cbn [length firstn]. f_equal. by apply IH.
Qed.
Lemma alephium_submission_lower ps id n : submission ps = Some (id, n) -> is_lower n.
Proof.
  unfold submission. destruct (_ <? 3)%nat; [done|]. destruct (str_param ps 1); [|done]. cbn.
  destruct (str_param ps 2); [|done]. cbn. intros [= _ <-]. apply plain_hex_lower.
Qed.
Lemma submitBlock_book b e r e' : submitBlock b e = (r, e') -> book e' = book e.
Proof. unfold submitBlock. intros E. handler_cases E; by apply pair_equal_spec in E as [_ <-]. Qed.

Lemma alephium_OnSubmit_spec s ps e sh e' :
  OnSubmit s ps e = Val (sh, e') ->
  (forall w, nonce_used e w -> nonce_used e' w) /\
  (claims sh = true -> exists w, submitted_work ps e = Some w /\ blake3_work s w sh e /\
     (s_ErrorCode sh = 0 -> blake3_share s w sh e) /\ ~ nonce_used e w /\ nonce_used e' w).
Proof.
  intros E. unfold OnSubmit in E. handler_cases E.
  all: apply Val_pair_inj in E as [<- <-]; split; [|try discriminate]; unfold nonce_used.
  all: try match goal with R : submitBlock _ _ = _ |- _ => apply submitBlock_book in R; rewrite R end; cbn [with_book book].
  all: try (by intros w Hw).
  all: try (intros w Hw; apply seen_mark; by left).
  all: intros _; zbool; subst.
  all: match goal with
       | R : submission _ = Some (_, ?key), F : find_job _ _ = Some (?p, ?en), D : hex_decode ?key = (?nonce, _),
         K : bool_decide (?key ∈ _) = false, P : hasPrefixBytes ?nonce _ = true |- _ =>
           destruct (fresh_claim _ _ _ _ _ _ F K (alephium_submission_lower _ _ _ R) D) as (Hp & Hn & Hu);
           apply hasPrefixBytes_take in P;
           exists (p, nonce); split; [unfold submitted_work; rewrite R; cbn; rewrite F; cbn; by rewrite D|]
       end.
  all: match goal with |- blake3_work _ (_, ?nonce) _ _ /\ _ => assert (length nonce = 24%nat) as Hlen
         by (unfold blen, nonceSize in *; lia) end.
  all: split; [by eexists|]; split; [|by split]; intros Hz; try discriminate Hz.
  all: do 2 eexists; cbv zeta; cbn [fst snd]; split; [exact Hp|]; split; [exact Hlen|].
  all: split_and!; done.
Qed.

#[export] Instance alephium_checker : ShareChecker (K := nat * bytes) OnSubmit := {
  work_of := submitted_work;
  used := nonce_used;
  proved := blake3_work;
  earned := blake3_share;
  submit_used s ps e sh e' E := proj1 (alephium_OnSubmit_spec s ps e sh e' E);
  submit_claims s ps e sh e' E := proj2 (alephium_OnSubmit_spec s ps e sh e' E);
}.

(** Messages of the node and new sessions *)
Definition other_step (e e' : engine) : Prop :=
  (exists payload r, handleJobs payload e = Val (r, e')) \/ (exists s ps r, OnSubscribe s ps e = Val (r, e')).
Lemma seen_add_jobs js e p key : seen (book e) p key -> seen (book (fold_left add_job js e)) p key.
Proof.
  revert e; induction js as [|j js IH]; intros e Hs; [done|]. cbn [fold_left]. apply IH.
  destruct Hs as (en & He & Hk). exists en. split; [|done]. cbn. by apply lookup_app_l_Some.
Qed.
Lemma alephium_other_step_used e e' : other_step e e' -> forall w, nonce_used e w -> nonce_used e' w.
Proof.
  intros [(payload & r & E)|(s & ps & r & E)] w Hw.
  - unfold handleJobs in E. handler_cases E; apply Val_pair_inj in E as [_ <-]; [|exact Hw].
    unfold nonce_used, with_book. cbn [book]. unfold seen. cbn [bk_heap].
    apply (seen_add_jobs a (mkEngine (connected e) (conn e) z (enCounter e) ∅ [] (book e))). exact Hw.
  - unfold OnSubscribe in E. by apply Val_pair_inj in E as [_ <-].
Qed.

(** The shares an Alephium engine accepts, over any run of submissions by any
    miners interleaved with job messages and new sessions: each is the double
    Blake3 hash of its 24-byte nonce, which starts with the bytes of its session,
    and the header of its chain; it meets the share target of the session; a
    block is reported only at the network target of the chain; and no nonce of a
    job is accepted twice, however it is spelled. *)
Theorem alephium_shares_earned (e e' : engine) (l : list (Accepted engine)) :
  engine_run OnSubmit other_step e l e' ->
  Forall (fun a => exists w, submitted_work (ac_params a) (ac_state a) = Some w /\
            blake3_share (ac_session a) w (ac_share a) (ac_state a)) l /\
  NoDup (map (fun a => submitted_work (ac_params a) (ac_state a)) l).
Proof. exact (run_credits_once OnSubmit other_step alephium_other_step_used e l e'). Qed.
End Alephium.

(** ** The codec reads what it writes *)
Lemma readFrame_buildFrame msgType payload rest :
  Z.of_nat (length payload) + 2 <= 2 ^ 25 ->
  readFrame (buildFrame msgType payload ++ rest) = (Ok (protocolVersion, msgType, payload), rest).
Proof.
  intros Hl. unfold buildFrame. set (body := (protocolVersion :: msgType :: payload)%list).
  assert (length body = S (S (length payload))) as Lb by done.
  rewrite (wrapu_small 32) by lia. set (n := Z.of_nat (length body)).
  unfold readFrame, ReadFull. rewrite <- app_assoc.
  assert (length (be_bytes 4 n) = 4%nat) as L4 by apply be_bytes_length.
  replace (_ <? 4) with false by (symmetry; apply Z.ltb_ge; rewrite length_app; lia).
  change (Z.to_nat 4) with 4%nat. rewrite (take_app_length' _ _ 4), (drop_app_length' _ _ 4) by done.
  rewrite be_value_bytes. rewrite Z.mod_small by (subst n; cbn; lia).
  replace (n <? 2) with false by (symmetry; apply Z.ltb_ge; lia).
  replace (Z.shiftl 32 20 <? n) with false by (symmetry; apply Z.ltb_ge; subst n; change (Z.shiftl 32 20) with (2 ^ 25); lia).
  cbn [orb]. replace (_ <? n) with false by (symmetry; apply Z.ltb_ge; rewrite length_app; lia).
  subst n. rewrite Nat2Z.id, take_app_length, drop_app_length. done.
Qed.

Definition reader_at (pre post : bytes) : reader := mkReader (pre ++ post) (Z.of_nat (length pre)) false.
Lemma rest_at pre post : rest (reader_at pre post) = post.
Proof. unfold rest, reader_at. cbn. by rewrite Nat2Z.id, drop_app_length. Qed.
Lemma int32_at pre v post :
  0 <= v < 2 ^ 32 -> int32 (reader_at pre (be_bytes 4 v ++ post)) = (i32 v, reader_at (pre ++ be_bytes 4 v) post).
Proof.
  intros Hv. unfold int32. rewrite rest_at. unfold reader_at. cbn [r_err r_b r_pos orb].
  assert (length (be_bytes 4 v) = 4%nat) as L4 by apply be_bytes_length.
  replace (_ <? _) with false by (symmetry; apply Z.ltb_ge; rewrite !length_app; lia).
  rewrite (take_app_length' _ _ 4) by done. rewrite be_value_bytes, Z.mod_small by (cbn; lia).
  rewrite <- app_assoc, length_app, L4. do 2 f_equal. lia.
Qed.
Lemma blob_at pre x post :
  Z.of_nat (length x) < 2 ^ 31 -> blob (reader_at pre (appendBlob [] x ++ post)) = (x, reader_at (pre ++ appendBlob [] x) post).
Proof.
  intros Hx. unfold blob, appendBlob. cbn [app]. rewrite (wrapu_small 32) by lia. rewrite <- app_assoc.
  rewrite int32_at by lia. rewrite wraps_small by lia. rewrite rest_at. unfold reader_at. cbn [r_err r_b r_pos orb].
  replace (_ <? 0) with false by (symmetry; apply Z.ltb_ge; lia). cbn [orb].
  replace (_ <? _) with false by (symmetry; apply Z.ltb_ge; rewrite !length_app; lia).
  rewrite Nat2Z.id, take_app_length. rewrite (app_assoc pre), <- (app_assoc _ x post), !length_app. do 2 f_equal. lia.
Qed.

(** A job as the node writes it, its target as bytes. *)
Record wire_job := mkWire { w_from : Z; w_to : Z; w_header : bytes; w_txs : bytes; w_target : bytes; w_height : Z }.
Definition wire_ok (w : wire_job) : Prop :=
  0 <= w_from w < 2 ^ 32 /\ 0 <= w_to w < 2 ^ 32 /\ Z.of_nat (length (w_header w)) < 2 ^ 31 /\
  Z.of_nat (length (w_txs w)) < 2 ^ 31 /\ Z.of_nat (length (w_target w)) < 2 ^ 31 /\ - 2 ^ 31 <= w_height w < 2 ^ 31.
Definition write_job (w : wire_job) : bytes :=
  (be_bytes 4 (w_from w) ++ be_bytes 4 (w_to w) ++ appendBlob [] (w_header w) ++ appendBlob [] (w_txs w) ++
   appendBlob [] (w_target w) ++ be_bytes 4 (u32 (w_height w)))%list.
Definition write_jobs (l : list wire_job) : bytes :=
  (be_bytes 4 (Z.of_nat (length l)) ++ concat (map write_job l))%list.
Definition read_back (id : string) (w : wire_job) : job :=
  mkJob id (w_from w) (w_to w) (w_header w) (w_txs w) (be_value (w_target w)) (w_height w).
(** The ids the engine gives to consecutive jobs. *)
Definition ids_from (counter : Z) (n : nat) : list string := map (fun i => FormatHex (u64 (counter + 1 + Z.of_nat i))) (seq 0 n).

Lemma u32_i32 v : 0 <= v < 2 ^ 32 -> u32 (i32 v) = v.
Proof.
  intros Hv. unfold wrapu, wraps. change (2 ^ (32 - 1)) with (2 ^ 31).
  rewrite <- Zminus_mod_idemp_l, Z.mod_mod, Zminus_mod_idemp_l by lia.
  replace (v + 2 ^ 31 - 2 ^ 31) with v by lia. by apply Z.mod_small.
Qed.
Lemma i32_u32 v : - 2 ^ 31 <= v < 2 ^ 31 -> i32 (u32 v) = v.
Proof.
  intros Hv. unfold wrapu, wraps. change (2 ^ (32 - 1)) with (2 ^ 31). rewrite Zplus_mod_idemp_l.
  rewrite Z.mod_small by lia. lia.
Qed.
Lemma read_job_at id pre w post :
  wire_ok w -> read_job id (reader_at pre (write_job w ++ post)) = (read_back id w, reader_at (pre ++ write_job w) post).
Proof.
  intros (H1 & H2 & H3 & H4 & H5 & H6). unfold read_job, write_job. rewrite <- !app_assoc.
  rewrite int32_at by done. rewrite int32_at by done. rewrite blob_at by done. rewrite blob_at by done.
  rewrite blob_at by done. rewrite int32_at by (apply wrapu_range; lia).
  rewrite !u32_i32, i32_u32 by done. unfold read_back. by rewrite <- !app_assoc.
Qed.
Lemma u64_succ c k : u64 (u64 (c + 1) + 1 + k) = u64 (c + 1 + (1 + k)).
Proof. unfold wrapu. rewrite <- Z.add_assoc, Zplus_mod_idemp_l. done. Qed.
Lemma ids_from_cons c n : ids_from c (S n) = FormatHex (u64 (c + 1)) :: ids_from (u64 (c + 1)) n.
Proof.
  unfold ids_from. cbn [seq map]. f_equal; [do 2 f_equal; lia|]. rewrite <- seq_shift, map_map. apply map_ext.
  intros i. rewrite u64_succ. do 2 f_equal. lia.
Qed.
Lemma read_jobs_at pre l post c :
  Forall wire_ok l ->
  fst (read_jobs (length l) c (reader_at pre (concat (map write_job l) ++ post))) = Ok (zip_with read_back (ids_from c (length l)) l).
Proof.
  intros F. revert pre c. induction F as [|w l Hw F IH]; intros pre c; [done|].
  cbn [length]. rewrite ids_from_cons. cbn [length read_jobs map concat zip_with]. rewrite <- app_assoc, read_job_at by done.
  change (r_err (reader_at _ _)) with false. cbv iota. specialize (IH (pre ++ write_job w)%list (u64 (c + 1))).
  destruct (read_jobs _ _ _) as [r c']. cbn [fst] in IH |- *. by rewrite IH.
Qed.

(** C35: the jobs message round-trips: what the node writes for up to 4096 chains
    is read back chain by chain, numbered with the consecutive ids of the
    engine, whatever follows in the message; and a frame the engine builds is
    read back with its version and type, whatever follows in the stream. *)
Theorem parseJobs_roundtrip (l : list wire_job) (post : bytes) (counter : Z) (msgType : byte) (payload stream : bytes) :
  Forall wire_ok l -> (length l <= 4096)%nat -> Z.of_nat (length payload) + 2 <= 2 ^ 25 ->
  fst (parseJobs (write_jobs l ++ post) counter) = Ok (zip_with read_back (ids_from counter (length l)) l) /\
  readFrame (buildFrame msgType payload ++ stream) = (Ok (protocolVersion, msgType, payload), stream).
Proof.
  intros F Hl Hp. split; [|by apply readFrame_buildFrame]. unfold parseJobs, write_jobs. rewrite <- app_assoc.
  change (mkReader ?b 0 false) with (reader_at [] b). rewrite int32_at by lia. rewrite wraps_small by lia.
  change (r_err (reader_at _ _)) with false. cbn [orb].
  replace (_ <? 0) with false by (symmetry; apply Z.ltb_ge; lia).
  replace (4096 <? _) with false by (symmetry; apply Z.ltb_ge; lia). cbn [orb]. rewrite Nat2Z.id. by apply read_jobs_at.
Qed.

(** ** How many chains the history can hold *)
Lemma FormatHex_inj a b : 0 <= a < 2 ^ 64 -> 0 <= b < 2 ^ 64 -> FormatHex a = FormatHex b -> a = b.
Proof.
  intros Ha Hb E. destruct (padded_hex 8 a) as [_ Ea]; [lia|done|]. destruct (padded_hex 8 b) as [_ Eb]; [lia|done|].
  unfold FormatHex in E. rewrite E, Eb in Ea. apply hex_encode_inj, (f_equal be_value) in Ea.
  rewrite !be_value_bytes, !Z.mod_small in Ea by (cbn; lia). done.
Qed.
Lemma ids_from_NoDup c n : Z.of_nat n <= 2 ^ 64 -> NoDup (ids_from c n).
Proof.
  intros Hn. apply NoDup_fmap_2_strong; [|apply NoDup_seq].
  intros i j Hi%elem_of_seq Hj%elem_of_seq E. apply FormatHex_inj in E; [|apply wrapu_range; lia|apply wrapu_range; lia].
  unfold wrapu in E.
  assert ((Z.of_nat i - Z.of_nat j) mod 2 ^ 64 = 0) as D.
  { replace (Z.of_nat i - Z.of_nat j) with ((c + 1 + Z.of_nat i) - (c + 1 + Z.of_nat j)) by lia.
    by rewrite Zminus_mod, E, Z.sub_diag. }
  apply Z.mod_divide in D as [q D]; [|lia]. nia.
Qed.
Lemma read_job_id id r : j_id (fst (read_job id r)) = id.
Proof. unfold read_job. by repeat match goal with |- context [let '(_, _) := ?x in _] => destruct x end. Qed.
Lemma read_jobs_ids n c r js c' : read_jobs n c r = (Ok js, c') -> map j_id js = ids_from c n.
Proof.
  revert c r js c'; induction n as [|n IH]; intros c r js c'; cbn [read_jobs]; [by intros [= <- _]|].
  pose proof (read_job_id (FormatHex (u64 (c + 1))) r) as J. destruct (read_job _ r) as [j r0]. cbn [fst] in J.
  destruct (r_err r0); [discriminate|]. destruct (read_jobs n (u64 (c + 1)) r0) as [[l|m] c2] eqn:E; cbn [err_bind]; [|discriminate].
  intros [= <- _]. cbn [map]. rewrite ids_from_cons, J. f_equal. by eapply IH.
Qed.
Lemma parseJobs_ids payload c js c' :
  parseJobs payload c = (Ok js, c') -> map j_id js = ids_from c (length js) /\ (length js <= 4096)%nat.
Proof.
  unfold parseJobs. destruct (int32 _) as [count r]. destruct (r_err r || _ || _) eqn:B; [discriminate|]. zbool.
  intros E. apply read_jobs_ids in E. pose proof (f_equal (@length string) E) as L.
  unfold ids_from in L. rewrite !length_map, length_seq in L. split; [by rewrite L|lia].
Qed.

Section Limit.
Context `{MapOrder}.
Lemma evict_one_spec live h :
  match evict_one live h with
  | Some h' => exists k, is_Some (h !! k) /\ live !! k = None /\ h' = delete k h
  | None => forall k, is_Some (h !! k) -> is_Some (live !! k)
  end.
Proof.
  unfold evict_one. destruct (find _ (range h)) as [[k p]|] eqn:E; cbn [mbind option_bind].
  - apply find_some in E as [Hin Hd]. apply list_elem_of_In, elem_of_range in Hin. exists k. split; [by exists p|].
    split; [|done]. apply negb_true_iff, bool_decide_eq_false in Hd. cbn in Hd. by apply eq_None_not_Some.
  - intros k [p Hp]. apply elem_of_range in Hp. apply list_elem_of_In in Hp. pose proof (find_none _ _ E _ Hp) as D.
    by apply negb_false_iff, bool_decide_eq_true in D.
Qed.
Lemma size_delete_lt (h : gmap string nat) k : is_Some (h !! k) -> size h = S (size (delete k h)).
Proof. intros Hk. destruct Hk as [p Hp]. rewrite <- (insert_delete_id h k p Hp) at 1. apply map_size_insert_None, lookup_delete_eq. Qed.

Lemma evict_dead_spec fuel live h :
  (size h <= fuel)%nat -> (forall k p, live !! k = Some p -> h !! k = Some p) ->
  if (size live <=? 64)%nat
  then exists h', evict_dead fuel live h = Val h' /\ (size h' <= 64)%nat /\ (forall k p, live !! k = Some p -> h' !! k = Some p)
  else evict_dead fuel live h = Panic "blocked for ever".
Proof.
  revert h; induction fuel as [|fuel IH]; intros h Hf Hsub.
  all: assert (size live <= size h)%nat as Hle by (apply map_subseteq_size, map_subseteq_spec; exact Hsub).
  - cbn [evict_dead]. destruct (Nat.leb_spec (size live) 64); [|lia].
    replace (64 <? size h)%nat with false by (symmetry; apply Nat.ltb_ge; lia). exists h. split; [done|]. split; [lia|done].
  - cbn [evict_dead]. destruct (Nat.ltb_spec 64 (size h)) as [Hgt|Hgt].
    2:{ destruct (Nat.leb_spec (size live) 64); [|lia]. exists h. done. }
    pose proof (evict_one_spec live h) as V. destruct (evict_one live h) as [h'|].
    + destruct V as (k & Hk & Hl & ->). apply IH.
      * rewrite (size_delete_lt h k Hk) in Hf. lia.
      * intros k' p' Hp. rewrite lookup_delete_ne; [by apply Hsub|]. intros ->. congruence.
    + destruct (Nat.leb_spec (size live) 64) as [L|]; [|done]. exfalso.
      assert (size h <= size live)%nat; [|lia]. rewrite <- !size_dom. apply subseteq_size. intros k Hk.
      apply elem_of_dom. apply V. by apply elem_of_dom in Hk.
Qed.

(** The tables after the jobs of a message were added. *)
Lemma add_jobs_tables js e :
  NoDup (map j_id js) -> (forall j, j ∈ js -> jobs e !! j_id j = None) ->
  (forall k p, jobs e !! k = Some p -> bk_history (book e) !! k = Some p) ->
  let e' := fold_left add_job js e in
  size (jobs e') = (size (jobs e) + length js)%nat /\ order e' = (order e ++ map j_id js)%list /\
  (forall k p, jobs e' !! k = Some p -> bk_history (book e') !! k = Some p) /\
  (forall j, j ∈ js -> exists p, jobs e' !! j_id j = Some p /\ bk_heap (book e') !! p = Some (mkEntry j ∅)) /\
  (forall k p, jobs e !! k = Some p -> jobs e' !! k = Some p) /\
  (forall p en, bk_heap (book e) !! p = Some en -> bk_heap (book e') !! p = Some en).
Proof.
  revert e; induction js as [|j js IH]; intros e Hn Hf Hh; cbn [fold_left].
  { cbv zeta. rewrite app_nil_r, Nat.add_0_r. split_and!; try done. intros j Hj. by apply elem_of_nil in Hj. }
  cbn [map] in Hn. apply NoDup_cons in Hn as [Hj Hn].
  destruct (IH (add_job e j)) as (A & B & C & D & F & G).
  - done.
  - intros j' Hj'. cbn. rewrite lookup_insert_ne; [apply Hf; by right|]. intros E. apply Hj. rewrite E. by apply list_elem_of_fmap_2.
  - intros k p. cbn. destruct (decide (k = j_id j)) as [->|Hne].
    + by rewrite !lookup_insert_eq.
    + rewrite !lookup_insert_ne by done. apply Hh.
  - cbv zeta in *. split_and!.
    + rewrite A. cbn [add_job jobs]. rewrite map_size_insert_None by (apply Hf; by left). cbn [length]. lia.
    + rewrite B. cbn. by rewrite <- app_assoc.
    + exact C.
    + intros j' [->|Hj']%elem_of_cons; [|by apply D]. exists (length (bk_heap (book e))). split.
      * apply F. cbn. by rewrite lookup_insert_eq.
      * apply G. cbn. by apply list_lookup_middle.
    + intros k p Hk. apply F. cbn. rewrite lookup_insert_ne; [done|]. intros <-. rewrite Hf in Hk by (by left). done.
    + intros p en Hp. apply G. cbn. by apply lookup_app_l_Some.
Qed.

(** The history holds 64 jobs, and a message with more chains than that, of
    which the protocol allows 4096, hangs the engine with its lock held: the
    eviction only deletes jobs that are not current.  A message with at most 64
    chains is accepted: the history stays within 64, the order is that of the
    message, and every job of it can be submitted to. *)
Theorem handleJobs_chain_limit (payload : bytes) (e : engine) (js : list job) (c : Z) :
  parseJobs payload (jobCounter e) = (Ok js, c) ->
  if (length js <=? 64)%nat
  then exists e', handleJobs payload e = Val (Ok tt, e') /\ (size (bk_history (book e')) <= 64)%nat /\
         order e' = ids_from (jobCounter e) (length js) /\
         forall j, j ∈ js -> exists p, find_job (j_id j) (book e') = Some (p, mkEntry j ∅)
  else handleJobs payload e = Panic "blocked for ever".
Proof.
  intros E. destruct (parseJobs_ids _ _ _ _ E) as [Hids Hlen]. unfold handleJobs. rewrite E.
  cbn [connected conn jobCounter enCounter jobs order book].
  set (e0 := mkEngine (connected e) (conn e) c (enCounter e) ∅ [] (book e)).
  destruct (add_jobs_tables js e0) as (A & B & C & D & _).
  { rewrite Hids. apply ids_from_NoDup. lia. }
  { intros j _. apply lookup_empty. }
  { intros k p. cbn. by rewrite lookup_empty. }
  cbv zeta in A, B, C, D. set (e1 := fold_left add_job js e0) in *.
  pose proof (evict_dead_spec (size (bk_history (book e1))) (jobs e1) (bk_history (book e1)) ltac:(done) C) as V.
  rewrite A in V. change (size (jobs e0)) with 0%nat in V. cbn [Nat.add] in V.
  destruct (length js <=? 64)%nat.
  - destruct V as (h & -> & Hs & Hk). cbn [rbind]. eexists. split; [reflexivity|]. cbn [with_book book bk_history order].
    split; [done|]. split; [by rewrite B, <- Hids|]. intros j Hj. destruct (D j Hj) as (p & Hp & Hh). exists p.
    unfold find_job. cbn [bk_history bk_heap]. rewrite (Hk _ _ Hp). cbn. by rewrite Hh.
  - by rewrite V.
Qed.
End Limit.

(** The target a miner is told is the network's whenever that is the harder one,
    whatever the difficulty of the session. *)
Lemma announced_target_capped shareTarget j :
  j_target j < shareTarget -> minBig (j_target j) shareTarget = j_target j.
Proof. intros Hl. unfold minBig. by rewrite (proj2 (Z.ltb_lt _ _) Hl). Qed.

(** ** Witnesses *)
Definition sample_wire (target : list byte) : wire_job :=
  mkWire 0 3 (repeat x11 10) [xaa; xbb] target 77.
Definition sample_wires : list wire_job := [sample_wire (repeat xff 32); sample_wire [x01; x00]].
Lemma parseJobs_roundtrip_witness :
  fst (parseJobs (write_jobs sample_wires ++ [x09]) 41) = Ok (zip_with read_back (ids_from 41 2) sample_wires) /\
  readFrame (buildFrame msgJobs (write_jobs sample_wires) ++ [x00; x01]) =
    (Ok (protocolVersion, msgJobs, write_jobs sample_wires), [x00; x01]).
Proof.
  apply (parseJobs_roundtrip sample_wires [x09] 41 msgJobs (write_jobs sample_wires) [x00; x01]).
  - repeat constructor; vm_compute; discriminate.
  - cbn. lia.
  - vm_compute. discriminate.
Defined.

Section Witness.
Local Existing Instance listed_order.
Local Existing Instance amd64.
Definition engine0 : engine := New (mkNode [] (fun _ _ => true)).
Definition jobs1 : bytes := write_jobs sample_wires.
Definition engine1 : engine :=
  get engine0 (rbind (handleJobs jobs1 engine0) (fun r => Val (snd r))).
Definition engine2 : engine := get engine0 (rbind (OnSubscribe (mkSession None fzero "" "") [] engine1) (fun r => Val (snd r))).
Definition miner : Session := mkSession (Some [x00; x01]) (float_dyadic 1 (-20)) "alice.rig1" "10.0.0.1:5000".
Definition submit_params (id nonce : string) : list json := [JStr "alice.rig1"; JStr id; JStr nonce].
Definition nonce_text : string := hex_encode ([x00; x01] ++ repeat xab 22)%list.
Definition submit1 := OnSubmit Sha256 miner (submit_params "1" ("0x" ++ nonce_text)) engine2.
Definition share1 : Share := get (new_share miner) (rbind submit1 (fun r => Val (fst r))).
Definition engine3 : engine := get engine0 (rbind submit1 (fun r => Val (snd r))).
Definition submit2 := OnSubmit Sha256 miner (submit_params "1" nonce_text) engine3.
Definition engine4 : engine := get engine0 (rbind submit2 (fun r => Val (snd r))).
Lemma alephium_shares_earned_witness :
  Forall (fun a => exists w, submitted_work (ac_params a) (ac_state a) = Some w /\
            blake3_share Sha256 (ac_session a) w (ac_share a) (ac_state a))
    [mkAccepted miner (submit_params "1" ("0x" ++ nonce_text)) share1 engine2] /\
  NoDup (map (fun a => submitted_work (ac_params a) (ac_state a))
    [mkAccepted miner (submit_params "1" ("0x" ++ nonce_text)) share1 engine2]).
Proof.
  apply (@alephium_shares_earned listed_order Sha256 engine0 engine4).
  eapply (run_other _ _ _ _ engine1).
  { left. exists jobs1. eexists. apply (get_pair (Err "") engine0). vm_compute. reflexivity. }
  eapply (run_other _ _ _ _ engine2).
  { right. exists (mkSession None fzero "" ""), []. eexists. apply (get_pair (JNull, None, 0) engine0). vm_compute. reflexivity. }
  eapply run_accepted; [apply (get_pair (new_share miner) engine0); vm_compute; reflexivity|vm_compute; reflexivity|].
  eapply (run_refused _ _ _ _ miner (submit_params "1" nonce_text));
    [apply (get_pair (new_share miner) engine0); vm_compute; reflexivity|vm_compute; reflexivity|].
  apply run_done.
Defined.
(** 65 chains, of the 4096 a message may bring. *)
Definition too_many : bytes := write_jobs (repeat (sample_wire [x01]) 65).
Definition decoded (payload : bytes) : list job := match parseJobs payload 0 with (Ok js, _) => js | _ => [] end.
Lemma parseJobs_decoded payload :
  (match fst (parseJobs payload 0) with Ok _ => true | _ => false end) = true ->
  parseJobs payload 0 = (Ok (decoded payload), snd (parseJobs payload 0)).
Proof. unfold decoded. by destruct (parseJobs payload 0) as [[js|m] c]. Qed.
Lemma handleJobs_chain_limit_witness :
  length (decoded too_many) = 65%nat /\ handleJobs too_many engine0 = Panic "blocked for ever" /\
  length (decoded jobs1) = 2%nat /\
  exists e', handleJobs jobs1 engine0 = Val (Ok tt, e') /\ (size (bk_history (book e')) <= 64)%nat /\
         order e' = ids_from (jobCounter engine0) (length (decoded jobs1)) /\
         forall j, j ∈ decoded jobs1 -> exists p, find_job (j_id j) (book e') = Some (p, mkEntry j ∅).
Proof.
  assert ((length (decoded too_many) <=? 64)%nat = false) as L1 by (vm_compute; reflexivity).
  assert ((length (decoded jobs1) <=? 64)%nat = true) as L2 by (vm_compute; reflexivity).
  split; [vm_compute; reflexivity|]. split; [|split; [vm_compute; reflexivity|]].
  - generalize (handleJobs_chain_limit too_many engine0 (decoded too_many) (snd (parseJobs too_many 0))
                  (parseJobs_decoded too_many ltac:(vm_compute; reflexivity))).
    rewrite L1. intros V. exact V.
  - generalize (handleJobs_chain_limit jobs1 engine0 (decoded jobs1) (snd (parseJobs jobs1 0))
                  (parseJobs_decoded jobs1 ltac:(vm_compute; reflexivity))).
    rewrite L2. intros V. exact V.
Defined.
End Witness.
