(* ===== verification/P2P.v ===== *)
(** * P2P: src/p2p/peer.go

    The peer that listens to the coin's own network for announcements of blocks:
    the frames it sends, the parser that reads the connection, the handlers it
    starts as goroutines, and the channel of announcements, which has no buffer.
    The connection is what its reads return. *)
From Stdlib Require Import ZArith Lia List Strings.String Strings.Byte.
From stdpp Require Import base list strings relations.
From S2P Require Import Prelude Bytes Sha256 Utils Types Config.
Import ListNotations.
Local Open Scope string_scope.
Local Open Scope Z_scope.

(** ** The peer and the frames it sends *)
Record Peer := mkPeer {
  Magic : bytes;
  NetworkServices : bytes;
  EmptyNetAddress : bytes;
  UserAgent : bytes;
  BlockStartHeight : bytes;
  RelayTransactions : bytes;
  ProtocolVersion : Z;
}.
Definition NewPeer (protocolVersion : Z) (options : P2POptions) : result Peer :=
  match hex_decode (p2p_Magic options) with
  | (magic, true) =>
      Val (mkPeer magic (fst (hex_decode "0100000000000000")) (fst (hex_decode "010000000000000000000000000000000000ffff000000000000"))
             (VarStringBytes "/node-stratum/") (fst (hex_decode "00000000"))
             (if p2p_DisableTransactions options then [x00] else []) protocolVersion)
  | (_, false) => Panic "magic hex string is incorrect"
  end.
(** The entries of [Commands] and of [InvCodes]. *)
Definition version_command : bytes := CommandStringBytes "version".
Definition inv_command : bytes := CommandStringBytes "inv".
Definition verack_command : bytes := CommandStringBytes "verack".
Definition inv_block : Z := 2.

(** What [SendMessage] writes. *)
Definition message_header (p : Peer) (command payload : bytes) : bytes :=
  (Magic p ++ command ++ PackUint32LE (u32 (Z.of_nat (length payload))) ++ take 4 (Sha256d payload))%list.
Definition SendMessage (p : Peer) (command payload : bytes) : bytes := (message_header p command payload ++ payload)%list.
(** [nonce] is what [rand.Read] fills in, [now] the Unix time. *)
Definition SendVersion (p : Peer) (nonce : bytes) (now : Z) : bytes :=
  SendMessage p version_command
    (PackUint32LE (u32 (ProtocolVersion p)) ++ NetworkServices p ++ PackUint64LE (u64 now) ++ EmptyNetAddress p ++
     EmptyNetAddress p ++ nonce ++ UserAgent p ++ BlockStartHeight p ++ RelayTransactions p)%list.

(** ** Announcements *)

(** The entries that are looked at: the hashes sent to the channel, in order, and
    how it ends.  The slices of the payload reach to its end. *)
Fixpoint inv_entries (fuel : nat) (count : Z) (buf : bytes) : list string * result unit :=
  if count =? 0 then ([], Val tt)
  else match fuel with
       | O => ([], Panic "out of fuel")
       | S fuel =>
           if (length buf <? 4)%nat then ([], Panic "index out of range")
           else
             let kind := le_value (take 4 buf) in
             if (kind =? inv_block) && (length buf <? 36)%nat then ([], Panic "slice bounds out of range")
             else
               let found := if kind =? inv_block then [hex_encode (take 32 (drop 4 buf))] else [] in
               if (length buf <? 36)%nat then (found, Panic "slice bounds out of range")
               else let '(l, r) := inv_entries fuel (i64 (count - 1)) (drop 36 buf) in ((found ++ l)%list, r)
       end.
(** The count, read as the source reads it, and what follows it. *)
Definition inv_count (payload : bytes) : option (Z * bytes) :=
  match payload with
  | [] => None
  | b :: buf =>
      if Z_of_byte b <? 0xFD then Some (Z_of_byte b, buf)
      else if (length payload <? 2)%nat then None
      else Some (le_value (take 2 payload), drop 2 payload)
  end.
Definition HandleInv (payload : bytes) : list string * result unit :=
  match inv_count payload with
  | None => ([], Panic "index out of range")
  | Some (count, buf) => inv_entries (S (length buf)) (i64 (count - 1)) buf
  end.

(** ** The parser and its goroutines *)

(** What the reads of the connection find, in order; at the end of the list the
    other side has closed it. *)
Inductive chunk := Data (b : bytes) | Broken.
Inductive read_result := ReadN (b : bytes) | ReadEOF | ReadError.
Definition Read (n : nat) (c : list chunk) : read_result * list chunk :=
  if (n =? 0)%nat then (ReadN [], c)
  else match c with
       | [] => (ReadEOF, [])
       | Broken :: c => (ReadError, c)
       | Data b :: c => if (length b <=? n)%nat then (ReadN b, c) else (ReadN (take n b), Data (drop n b) :: c)
       end.
(** A buffer after a read into it. *)
Definition fill (d buffer : bytes) : bytes := (d ++ drop (length d) buffer)%list.

(** A goroutine that handles a message: it was given the payload, and a slice of
    the parser's header that it has not read yet; or it is sending hashes to the
    channel, and then returns or panics. *)
Inductive handler :=
| Started (payload : bytes)
| Notifying (blocks : list string) (outcome : result unit).
Record Parser := mkParser {
  header : bytes;
  conn : list chunk;
  handlers : list handler;
  VerAck : bool;
  sent : list bytes;
  notified : list string;
  crashed : bool;
}.
Definition new_parser (c : list chunk) : Parser := mkParser (zeros 24) c [] false [] [] false.
Definition with_conn (h : bytes) (c : list chunk) (s : Parser) : Parser :=
  mkParser h c (handlers s) (VerAck s) (sent s) (notified s) (crashed s).
Definition set_handlers (l : list handler) (s : Parser) : Parser :=
  mkParser (header s) (conn s) l (VerAck s) (sent s) (notified s) (crashed s).
Definition remove_handler (i : nat) (s : Parser) : Parser := set_handlers (delete i (handlers s)) s.

(** One turn of the parser's loop. *)
Definition read_message (p : Peer) (s : Parser) : Parser :=
  match Read 24 (conn s) with
  | (ReadEOF, c) => with_conn (header s) c s
  | (ReadError, c) => with_conn (header s) c s
  | (ReadN d, c) =>
      let h := fill d (header s) in
      if (length d <? 24)%nat then with_conn h c s
      else if negb (bool_decide (take 4 h = Magic p)) then with_conn h c s
      else
        let size := Z.to_nat (le_value (take 4 (drop 16 h))) in
        match Read size c with
        | (ReadN d, c) =>
            let payload := fill d (zeros size) in
            let s := with_conn h c s in
            if bool_decide (take 4 (Sha256d payload) = take 4 (drop 20 h))
            then set_handlers (handlers s ++ [Started payload])%list s else s
        | (_, c) => with_conn h c s
        end
  end.

(** The handler [i] reads its command, where the parser reads its headers. *)
Definition HandleMessage (p : Peer) (i : nat) (payload : bytes) (s : Parser) : Parser :=
  let command := take 12 (drop 4 (header s)) in
  if bool_decide (command = inv_command) then
    let '(blocks, outcome) := HandleInv payload in
    set_handlers (<[i := Notifying blocks outcome]> (handlers s)) s
  else if bool_decide (command = verack_command) then
    remove_handler i (mkParser (header s) (conn s) (handlers s) true (sent s) (notified s) (crashed s))
  else if bool_decide (command = version_command) then
    remove_handler i (mkParser (header s) (conn s) (handlers s) (VerAck s)
      (sent s ++ [SendMessage p verack_command []])%list (notified s) (crashed s))
  else remove_handler i s.

(** [ProcessBlockNotify]: the send of handler [i] meets a receive. *)
Definition ProcessBlockNotify (i : nat) (b : string) (l : list string) (o : result unit) (s : Parser) : Parser :=
  mkParser (header s) (conn s) (<[i := Notifying l o]> (handlers s)) (VerAck s) (sent s) (notified s ++ [b])%list (crashed s).

Inductive step (p : Peer) : Parser -> Parser -> Prop :=
| step_read s : crashed s = false -> step p s (read_message p s)
| step_handle s i payload :
    crashed s = false -> handlers s !! i = Some (Started payload) -> step p s (HandleMessage p i payload s)
| step_notify s i b l o :
    crashed s = false -> handlers s !! i = Some (Notifying (b :: l) o) -> step p s (ProcessBlockNotify i b l o s)
| step_return s i :
    crashed s = false -> handlers s !! i = Some (Notifying [] (Val tt)) -> step p s (remove_handler i s)
| step_panic s i m :
    crashed s = false -> handlers s !! i = Some (Notifying [] (Panic m)) ->
    step p s (mkParser (header s) (conn s) [] (VerAck s) (sent s) (notified s) true).

(** ** What an announcement announces *)
Record entry := mkEntry { e_kind : Z; e_hash : bytes }.
Definition entry_ok (e : entry) : Prop := 0 <= e_kind e < 2 ^ 32 /\ length (e_hash e) = 32%nat.
Definition write_entry (e : entry) : bytes := (le_bytes 4 (e_kind e) ++ e_hash e)%list.
Definition write_entries (l : list entry) : bytes := concat (map write_entry l).
Definition blocks_of (l : list entry) : list string :=
  map (fun e => hex_encode (e_hash e)) (List.filter (fun e => e_kind e =? inv_block) l).

Lemma write_entry_length e : entry_ok e -> length (write_entry e) = 36%nat.
Proof. intros [_ H]. unfold write_entry. rewrite length_app, le_bytes_length. lia. Qed.
Lemma write_entries_length l : Forall entry_ok l -> length (write_entries l) = (36 * length l)%nat.
Proof.
  induction 1 as [|e l He F IH]; [done|]. unfold write_entries in *. cbn [map concat length].
  rewrite length_app, IH, write_entry_length by done. lia.
Qed.
Lemma inv_entries_entry fuel count e buf :
  entry_ok e -> count <> 0 ->
  inv_entries (S fuel) count (write_entry e ++ buf) =
  let '(l, r) := inv_entries fuel (i64 (count - 1)) buf in ((blocks_of [e] ++ l)%list, r).
Proof.
  intros He Hc. pose proof (write_entry_length e He) as L. cbn [inv_entries]. rewrite (proj2 (Z.eqb_neq _ _) Hc).
  replace (length (write_entry e ++ buf) <? 4)%nat with false by (symmetry; apply Nat.ltb_ge; rewrite length_app; lia).
  replace (length (write_entry e ++ buf) <? 36)%nat with false by (symmetry; apply Nat.ltb_ge; rewrite length_app; lia).
  rewrite andb_false_r. rewrite (drop_app_length' _ buf 36) by done. destruct He as [Hk Hl].
  unfold write_entry. rewrite <- app_assoc. assert (length (le_bytes 4 (e_kind e)) = 4%nat) as L4 by apply le_bytes_length.
  rewrite (take_app_length' _ _ 4), (drop_app_length' _ _ 4), le_value_bytes, Z.mod_small by (cbn; lia).
  rewrite (take_app_length' _ _ 32) by done. unfold blocks_of. cbn [List.filter map]. by destruct (e_kind e =? inv_block).
Qed.
Lemma inv_entries_written l fuel buf :
  Forall entry_ok l -> (length l <= fuel)%nat -> Z.of_nat (length l) < 2 ^ 62 ->
  inv_entries fuel (Z.of_nat (length l)) (write_entries l ++ buf) = (blocks_of l, Val tt).
Proof.
  intros F. revert fuel; induction F as [|e l He F IH]; intros fuel Hf Hl; [by destruct fuel|].
  destruct fuel as [|fuel]; [cbn in Hf; lia|]. cbn [length] in *. unfold write_entries. cbn [map concat]. rewrite <- app_assoc.
  rewrite inv_entries_entry by (done || lia). rewrite wraps_small by lia.
  replace (Z.of_nat (S (length l)) - 1) with (Z.of_nat (length l)) by lia. rewrite IH by lia.
  unfold blocks_of. cbn [List.filter]. by destruct (e_kind e =? inv_block).
Qed.

(** The loop counts down to 0: it reads all it counted, or runs off the end. *)
Lemma inv_entries_returns fuel count buf :
  (length buf < fuel)%nat -> - 2 ^ 62 + Z.of_nat (length buf) <= count < 2 ^ 62 ->
  is_val (snd (inv_entries fuel count buf)) = (0 <=? count) && (36 * count <=? Z.of_nat (length buf)).
Proof.
  revert count buf; induction fuel as [|fuel IH]; intros count buf Hf Hc; [lia|]. cbn [inv_entries].
  destruct (Z.eqb_spec count 0) as [->|Hn].
  { symmetry. cbn [snd is_val]. apply andb_true_intro. split; apply Z.leb_le; lia. }
  destruct (Nat.ltb_spec (length buf) 4) as [H4|H4].
  { symmetry. apply andb_false_iff. destruct (Z.leb_spec 0 count); [right; apply Z.leb_gt; lia|by left]. }
  destruct (Nat.ltb_spec (length buf) 36) as [H36|H36].
  { symmetry. rewrite andb_true_r. cbn [snd]. destruct (_ =? inv_block); cbn [snd is_val].
    all: apply andb_false_iff; destruct (Z.leb_spec 0 count); [right; apply Z.leb_gt; lia|by left]. }
  rewrite andb_false_r. rewrite wraps_small by lia. specialize (IH (count - 1) (drop 36 buf)).
  rewrite length_drop in IH. specialize (IH ltac:(lia) ltac:(lia)).
  destruct (inv_entries fuel (count - 1) (drop 36 buf)) as [l r]. cbn [snd] in *. rewrite IH.
  destruct (Z.leb_spec 0 count), (Z.leb_spec 0 (count - 1)), (Z.leb_spec (36 * (count - 1)) (Z.of_nat (length buf - 36))),
    (Z.leb_spec (36 * count) (Z.of_nat (length buf))); cbn; lia || done.
Qed.

Lemma HandleInv_spec (l : list entry) (last : entry) :
  Forall entry_ok l -> entry_ok last -> (length l < 252)%nat ->
  HandleInv (byte_of_Z (Z.of_nat (length l) + 1) :: write_entries (l ++ [last])) = (blocks_of l, Val tt).
Proof.
  intros F Hlast Hl. unfold HandleInv, inv_count. rewrite Z_of_byte_of_Z, Z.mod_small by lia.
  replace (_ <? 0xFD) with true by (symmetry; apply Z.ltb_lt; lia).
  rewrite wraps_small by lia. replace (Z.of_nat (length l) + 1 - 1) with (Z.of_nat (length l)) by lia.
  unfold write_entries. rewrite map_app, concat_app. apply inv_entries_written; [done| |lia].
  rewrite length_app. pose proof (write_entries_length l F) as W. unfold write_entries in W. lia.
Qed.

(** An announcement of one to 252 entries sends the hashes of its blocks to the
    channel, in order, except that the last entry is never looked at: a node that
    announces one block per message, as nodes do, announces nothing. *)
Theorem HandleInv_announces (l : list entry) (last : entry) :
  Forall entry_ok l -> entry_ok last -> (length l < 252)%nat ->
  HandleInv (byte_of_Z (Z.of_nat (length l) + 1) :: write_entries (l ++ [last])) = (blocks_of l, Val tt).
Proof. exact (HandleInv_spec l last). Qed.

(** The payload of an announcement, as the protocol counts its entries. *)
Definition inv_payload (l : list entry) : bytes := (VarIntBytes (Z.of_nat (length l)) ++ write_entries l)%list.

(** Which announcements end the process, panicking in their goroutine: those
    that count no entry, and, when the count takes two more bytes, all those whose
    low byte is not small, as the tag byte is taken for the low byte and the low
    byte for the high one. *)
Theorem HandleInv_crashes (l : list entry) :
  Forall entry_ok l -> Z.of_nat (length l) <= 0xFFFF ->
  is_val (snd (HandleInv (inv_payload l))) =
  negb (bool_decide (l = [])) &&
  ((Z.of_nat (length l) <? 0xFD) || (252 + 256 * (Z.of_nat (length l) mod 256) <=? Z.of_nat (length l))).
Proof.
  intros F Hl. pose proof (write_entries_length l F) as W. set (n := Z.of_nat (length l)) in *. unfold HandleInv, inv_payload. fold n.
  unfold VarIntBytes. destruct (Z.ltb_spec n 0xFD) as [Hs|Hb].
  - cbn [app]. unfold inv_count. rewrite Z_of_byte_of_Z, Z.mod_small by lia. rewrite (proj2 (Z.ltb_lt n 0xFD) Hs).
    rewrite wraps_small by lia. rewrite inv_entries_returns by lia. rewrite W, orb_true_l, andb_true_r.
    destruct l as [|e l]; [done|]. cbn [length] in *. rewrite bool_decide_eq_false_2 by done.
    apply andb_true_intro. split; apply Z.leb_le; lia.
  - replace (n <=? 0xFFFF) with true by (symmetry; apply Z.leb_le; lia). rewrite (wrapu_small 16) by lia.
    cbn [le_bytes app]. unfold inv_count. rewrite Z_of_byte_of_Z. cbn [Z.modulo]. change (0xFD mod 256) with 0xFD.
    change (0xFD <? 0xFD) with false. cbv iota. cbn [length Nat.ltb Nat.leb take drop le_value].
    rewrite !Z_of_byte_of_Z. change (0xFD mod 256) with 0xFD.
    pose proof (Z.mod_pos_bound n 256 ltac:(lia)) as M.
    rewrite wraps_small by lia. rewrite inv_entries_returns by (cbn [length]; lia). cbn [length].
    rewrite bool_decide_eq_false_2 by (intros ->; cbn in *; lia). cbn [negb andb orb]. rewrite W.
    destruct (Z.leb_spec 0 (253 + 256 * (n mod 256 + 256 * 0) - 1)); [|lia]. cbn [andb].
    destruct (Z.leb_spec (36 * (253 + 256 * (n mod 256 + 256 * 0) - 1)) (Z.of_nat (S (36 * length l)))),
      (Z.leb_spec (252 + 256 * (n mod 256)) n); lia || done.
Qed.

(** ** The parser *)
Definition peer_ok (p : Peer) : Prop := length (Magic p) = 4%nat.
Definition command_ok (c : bytes) : Prop := length c = 12%nat.
(** What a segment holds after its first message. *)
Definition segment (rest : bytes) (c : list chunk) : list chunk := if decide (rest = []) then c else Data rest :: c.

Lemma message_header_length p command payload :
  peer_ok p -> command_ok command -> length (message_header p command payload) = 24%nat.
Proof.
  unfold peer_ok, command_ok, message_header, PackUint32LE. intros Hp Hc.
  rewrite !length_app, Hp, Hc, le_bytes_length, length_take, Sha256d_length. lia.
Qed.
(** The fields of a header the pool builds. *)
Lemma message_header_fields p command payload :
  peer_ok p -> command_ok command -> Z.of_nat (length payload) < 2 ^ 32 ->
  let h := message_header p command payload in
  take 4 h = Magic p /\ take 12 (drop 4 h) = command /\
  Z.to_nat (le_value (take 4 (drop 16 h))) = length payload /\ take 4 (drop 20 h) = take 4 (Sha256d payload).
Proof.
  intros Hp Hc Hl h. unfold peer_ok, command_ok in *. subst h. unfold message_header, PackUint32LE.
  rewrite (wrapu_small 32) by lia. set (len := le_bytes 4 _). assert (length len = 4%nat) as L4 by apply le_bytes_length.
  split; [by rewrite (take_app_length' _ _ 4)|]. rewrite (drop_app_length' (Magic p) _ 4) by done.
  split; [by rewrite (take_app_length' command _ 12)|].
  rewrite (app_assoc (Magic p)). rewrite (drop_app_length' (Magic p ++ command) _ 16) by (rewrite length_app; lia).
  rewrite (app_assoc _ len). rewrite (drop_app_length' ((Magic p ++ command) ++ len) _ 20) by (rewrite !length_app; lia).
  rewrite (take_app_length' len _ 4) by done. split; [|by rewrite take_take].
  subst len. rewrite le_value_bytes, Z.mod_small by (cbn; lia). lia.
Qed.
Lemma Read_segment n d rest c : length d = n -> Read n (segment (d ++ rest) c) = (ReadN d, segment rest c).
Proof.
  intros <-. unfold Read, segment. destruct (Nat.eqb_spec (length d) 0) as [E|E].
  { apply length_zero_iff_nil in E as ->. done. }
  rewrite decide_False by (by destruct d). rewrite length_app. destruct (decide (rest = [])) as [->|Hr].
  - rewrite app_nil_r. by rewrite (proj2 (Nat.leb_le _ _)) by (cbn; lia).
  - rewrite (proj2 (Nat.leb_gt _ _)) by (destruct rest; [done|cbn; lia]). by rewrite take_app_length, drop_app_length.
Qed.
Lemma fill_whole d buffer : length buffer = length d -> fill d buffer = d.
Proof. intros E. unfold fill. rewrite drop_ge by lia. by rewrite app_nil_r. Qed.

(** A message that is in the segment whole is read in one turn. *)
Lemma read_message_frame p command payload rest c s :
  peer_ok p -> command_ok command -> Z.of_nat (length payload) < 2 ^ 32 -> length (header s) = 24%nat ->
  conn s = segment (SendMessage p command payload ++ rest) c ->
  read_message p s =
  set_handlers (handlers s ++ [Started payload])%list (with_conn (message_header p command payload) (segment rest c) s).
Proof.
  intros Hp Hc Hl Hh Hs. pose proof (message_header_length p command payload Hp Hc) as L.
  destruct (message_header_fields p command payload Hp Hc Hl) as (F1 & F2 & F3 & F4).
  unfold read_message, SendMessage in *. rewrite Hs, <- app_assoc, Read_segment by done.
  rewrite fill_whole by lia. rewrite L. change (24 <? 24)%nat with false. cbv iota zeta. rewrite F1, bool_decide_eq_true_2 by done. cbn [negb].
  rewrite F3, F4, Read_segment by done. rewrite fill_whole by (unfold zeros; by rewrite repeat_length).
  by rewrite bool_decide_eq_true_2.
Qed.
Lemma read_message_header p s : length (header s) = 24%nat -> length (header (read_message p s)) = 24%nat.
Proof.
  intros Hh. unfold read_message.
  assert (forall c d c', Read 24 c = (ReadN d, c') -> length (fill d (header s)) = 24%nat) as Hf.
  { intros c d c' E. unfold fill. rewrite length_app, length_drop, Hh. cut (length d <= 24)%nat; [lia|].
    unfold Read in E. cbn in E. destruct c as [|[b|] c]; try done. destruct (Nat.leb_spec (length b) 24); injection E as <- _; [done|].
    rewrite length_take. lia. }
  destruct (Read 24 (conn s)) as [[d| |] c] eqn:E; try done. specialize (Hf _ _ _ E).
  repeat case_match_eqn; done.
Qed.
(** The other side closed the connection: the loop goes round for ever, and
    never dials again. *)
Lemma closed_connection_spins p s : conn s = [] -> read_message p s = s.
Proof. intros E. unfold read_message. rewrite E. cbn. destruct s. cbn in *. by subst. Qed.

Lemma step_ignored p s i payload :
  crashed s = false -> handlers s !! i = Some (Started payload) ->
  (let command := take 12 (drop 4 (header s)) in
   command <> inv_command /\ command <> verack_command /\ command <> version_command) ->
  step p s (remove_handler i s).
Proof.
  intros Hc Hi (N1 & N2 & N3). replace (remove_handler i s) with (HandleMessage p i payload s); [by apply step_handle|].
  unfold HandleMessage. by rewrite !bool_decide_eq_false_2.
Qed.
(** The hashes of a handler meet a receive each. *)
Lemma deliver p h c l o va st nt :
  rtc (step p) (mkParser h c [Notifying l o] va st nt false) (mkParser h c [Notifying [] o] va st (nt ++ l)%list false).
Proof.
  revert nt; induction l as [|b l IH]; intros nt; [by rewrite app_nil_r|].
  eapply rtc_l; [by apply (step_notify p _ 0 b l o)|]. unfold ProcessBlockNotify. cbn [insert list_insert header conn handlers VerAck sent notified crashed].
  specialize (IH (nt ++ [b])%list). by rewrite <- app_assoc in IH.
Qed.

Definition handled (s : Parser) : Prop := handlers s = [] /\ crashed s = false.

(** A goroutine of the parser keeps a slice of the buffer the next header is
    read into.  Of two messages that arrive together, the first can be handled
    after the second was read, and then it is handled as a message of the
    second's kind: an announcement of new blocks followed by a message the pool
    ignores can announce nothing at all, where handled in time it announces its
    blocks. *)
Theorem announcement_overtaken (p : Peer) (l : list entry) (last : entry) (other payload2 : bytes) (c : list chunk) :
  peer_ok p -> Forall entry_ok l -> entry_ok last -> (length l < 252)%nat ->
  command_ok other -> other <> inv_command -> other <> verack_command -> other <> version_command ->
  Z.of_nat (length payload2) < 2 ^ 32 ->
  let inv := byte_of_Z (Z.of_nat (length l) + 1) :: write_entries (l ++ [last]) in
  let start := new_parser (segment (SendMessage p inv_command inv ++ SendMessage p other payload2) c) in
  exists late timely,
    rtc (step p) start late /\ handled late /\ conn late = c /\ notified late = [] /\
    rtc (step p) start timely /\ handled timely /\ conn timely = c /\ notified timely = blocks_of l.
Proof.
  intros Hp F Hlast Hl Hc N1 N2 N3 H2 inv start.
  assert (Z.of_nat (length inv) < 2 ^ 32) as Hi.
  { subst inv. cbn [length]. rewrite write_entries_length by (by apply Forall_app; split; [|constructor]). rewrite length_app. cbn. lia. }
  set (h1 := message_header p inv_command inv). set (h2 := message_header p other payload2).
  assert (inv_command <> other) as N1' by congruence.
  assert (take 12 (drop 4 h1) = inv_command) as C1 by (by apply message_header_fields).
  assert (take 12 (drop 4 h2) = other) as C2 by (by apply message_header_fields).
  assert (length h1 = 24%nat) as L1 by (by apply message_header_length).
  assert (segment (SendMessage p other payload2) c = segment (SendMessage p other payload2 ++ []) c) as E2 by (by rewrite app_nil_r).
  pose (s1 := mkParser h1 (segment (SendMessage p other payload2) c) [Started inv] false [] [] false).
  assert (step p start s1) as S1.
  { replace s1 with (read_message p start); [by apply step_read|]. subst start. unfold new_parser.
    by rewrite (read_message_frame p inv_command inv (SendMessage p other payload2) c). }
  exists (mkParser h2 c [] false [] [] false), (mkParser h2 c [] false [] (blocks_of l) false).
  split_and!; try done.
  - eapply rtc_l; [exact S1|]. eapply rtc_l; [by apply step_read|].
    rewrite (read_message_frame p other payload2 [] c) by done. fold h2.
    eapply rtc_l; [by apply (step_ignored p _ 0 inv); [..|cbn [header with_conn set_handlers]; rewrite C2]|].
    eapply rtc_l; [by apply (step_ignored p _ 0 payload2); [..|cbn [header with_conn set_handlers remove_handler]; rewrite C2]|].
    done.
  - eapply rtc_l; [exact S1|]. eapply rtc_l; [by apply (step_handle p s1 0 inv)|].
    unfold HandleMessage. cbn [header s1]. rewrite C1, bool_decide_eq_true_2 by done. subst inv.
    rewrite HandleInv_spec by done. etransitivity; [exact (deliver p h1 (conn s1) (blocks_of l) (Val tt) false [] [])|].
    eapply rtc_l; [by apply (step_return p _ 0)|]. eapply rtc_l; [by apply step_read|].
    rewrite (read_message_frame p other payload2 [] c) by done. fold h2.
    eapply rtc_l; [by apply (step_ignored p _ 0 payload2); [..|cbn [header with_conn set_handlers remove_handler]; rewrite C2]|].
    done.
Qed.
(** In every state that is reached the slices of the header are in its range. *)
Lemma reached_header p c s : rtc (step p) (new_parser c) s -> length (header s) = 24%nat.
Proof.
  enough (forall s0, rtc (step p) s0 s -> length (header s0) = 24%nat -> length (header s) = 24%nat) as G by (intros R; by eapply G).
  intros s0. induction 1 as [|s0 s1 s2 S _ IH]; [done|]. intros H0. apply IH. destruct S; try done.
  - by apply read_message_header.
  - unfold HandleMessage. destruct (HandleInv payload). by repeat case_match_eqn.
Qed.

(** ** Witnesses *)
Definition sample_peer : Peer :=
  get (mkPeer [] [] [] [] [] [] 0) (NewPeer 70015 (mkP2POptions "127.0.0.1" 8333 "f9beb4d9" true)).
Definition sample_block (b : byte) : entry := mkEntry 2 (repeat b 32).
Definition sample_tx (b : byte) : entry := mkEntry 1 (repeat b 32).
Definition ping_command : bytes := CommandStringBytes "ping".
Lemma HandleInv_announces_witness :
  HandleInv (x03 :: write_entries [sample_tx x01; sample_block x02; sample_block x03]) = ([hex_encode (repeat x02 32)], Val tt) /\
  HandleInv (x01 :: write_entries [sample_block x03]) = ([], Val tt).
Proof.
  split.
  - apply (HandleInv_announces [sample_tx x01; sample_block x02] (sample_block x03)); [|by split|cbn; lia].
    by repeat constructor.
  - apply (HandleInv_announces [] (sample_block x03)); [|by split|cbn; lia]. constructor.
Defined.
Lemma HandleInv_crashes_witness :
  is_val (snd (HandleInv (inv_payload []))) = false /\
  is_val (snd (HandleInv (inv_payload (repeat (sample_tx x01) 253)))) = false /\
  is_val (snd (HandleInv (inv_payload (repeat (sample_tx x01) 256)))) = true.
Proof.
  split; [|split].
  - rewrite (HandleInv_crashes []); [reflexivity|constructor|cbn; lia].
  - rewrite (HandleInv_crashes (repeat (sample_tx x01) 253)); [reflexivity| |rewrite repeat_length; lia].
    apply Forall_forall. intros e ->%list_elem_of_In%repeat_spec. by split.
  - rewrite (HandleInv_crashes (repeat (sample_tx x01) 256)); [reflexivity| |rewrite repeat_length; lia].
    apply Forall_forall. intros e ->%list_elem_of_In%repeat_spec. by split.
Defined.
Lemma announcement_overtaken_witness :
  exists late timely,
    let start := new_parser [Data (SendMessage sample_peer inv_command (x02 :: write_entries [sample_block x02; sample_tx x01]) ++
                                   SendMessage sample_peer ping_command (repeat x07 8))] in
    rtc (step sample_peer) start late /\ handled late /\ conn late = [] /\ notified late = [] /\
    rtc (step sample_peer) start timely /\ handled timely /\ conn timely = [] /\ notified timely = [hex_encode (repeat x02 32)].
Proof.
  apply (announcement_overtaken sample_peer [sample_block x02] (sample_tx x01) ping_command (repeat x07 8) []).
  - reflexivity.
  - by repeat constructor.
  - by split.
  - cbn. lia.
  - reflexivity.
  - discriminate.
  - discriminate.
  - discriminate.
  - cbn. lia.
Defined.
