(* ===== verification/Pool.v ===== *)
(** * Pool: src/pool/pool.go, stats.go, and the choice in cmd/nomp/main.go

    The pool puts the other components together: it checks the configuration and
    the daemons, learns what it can about the coin, fetches the first template,
    and then lives from ticks of its polling and announcements of the peer.  The
    options are shared by pointer: what the start-up learns about the coin is seen
    by the daemon manager and the job manager.  [Init] lists what it starts; the
    listeners, the connection to the storage and the printed summary are modelled
    in Startup. *)
From Stdlib Require Import ZArith Lia List Strings.Ascii Strings.String Strings.Byte Floats.SpecFloat.
From stdpp Require Import base list strings gmap relations.
From S2P Require Import Prelude Bytes Sha256 Float Strconv Utils Types Json Config Algorithm Effects DaemonReplies Daemons Engine Transactions Jobs JobManager JobManagerSpec P2P.
Import ListNotations.
Local Open Scope string_scope.
Local Open Scope Z_scope.
Local Open Scope go_scope.

(** ** The base units of a coin, from a balance *)
Definition dquote : string := String (ascii_of_nat 34) EmptyString.
(** The raw text of a value, as [json.Marshal] compacts it; strings without a
    character that is escaped. *)
Fixpoint raw_text (j : json) : string :=
  match j with
  | JNull => "null"
  | JBool b => if b then "true" else "false"
  | JNum l => l
  | JStr s => dquote ++ s ++ dquote
  | JArr l => "[" ++ Join (map raw_text l) "," ++ "]"
  | JObj m => "{" ++ Join (map (fun p => dquote ++ fst p ++ dquote ++ ":" ++ raw_text (snd p)) m) "," ++ "}"
  end.
(** The text before the first occurrence of a separator. *)
Definition before (sep s : string) : string :=
  match String.index 0 sep s with Some i => String.substring 0 i s | None => s end.
(** A reply without an error, whose id is a number, is its id, its result if
    there is one, and a brace. *)
Definition detect_magnitude (r : Response) : result Z :=
  match Result r with
  | None => Panic "index out of range"
  | Some j =>
      let split2 := before "," (before ("result" ++ dquote ++ ":") (raw_text j ++ "}")) in
      match Split split2 "."%char with
      | _ :: d :: _ =>
          match ParseInt ("10" ++ FormatInt (slen d) ++ "0") 10 with
          | (magnitude, None) => Val magnitude
          | _ => Panic "detecting number of satoshis in a coin"
          end
      | _ => Panic "index out of range"
      end
  end.
Definition coin_precision (magnitude : Z) : Z := slen (FormatUint (u64 magnitude)) - 1.

(** ** The pool *)
Record Stats := mkStats { st_Connections : Z; st_Difficulty : float64; st_NetworkHashrate : float64; st_StratumPorts : list Z }.
Definition NewStats : Stats := mkStats 0 fzero fzero [].
Record Pool := mkPool {
  pl_DaemonManager : DaemonManager;
  pl_JobManager : JobManager;
  pl_P2PManager : option Peer;
  pl_Options : Options;
  pl_Magnitude : Z;
  pl_CoinPrecision : Z;
  pl_Stats : Stats;
  pl_ProtocolVersion : Z;
}.
(** What [Init] starts, in order. *)
Inductive started := EvPolling (seconds : Z) | EvStratum | EvAPI | EvPayments.

Definition with_jm (jm : JobManager) (p : Pool) : Pool :=
  mkPool (pl_DaemonManager p) jm (pl_P2PManager p) (pl_Options p) (pl_Magnitude p) (pl_CoinPrecision p) (pl_Stats p) (pl_ProtocolVersion p).
Definition with_stats (s : Stats) (p : Pool) : Pool :=
  mkPool (pl_DaemonManager p) (pl_JobManager p) (pl_P2PManager p) (pl_Options p) (pl_Magnitude p) (pl_CoinPrecision p) s (pl_ProtocolVersion p).
Definition with_peer (peer : Peer) (p : Pool) : Pool :=
  mkPool (pl_DaemonManager p) (pl_JobManager p) (Some peer) (pl_Options p) (pl_Magnitude p) (pl_CoinPrecision p) (pl_Stats p) (pl_ProtocolVersion p).
Definition with_version (v : Z) (p : Pool) : Pool :=
  mkPool (pl_DaemonManager p) (pl_JobManager p) (pl_P2PManager p) (pl_Options p) (pl_Magnitude p) (pl_CoinPrecision p) (pl_Stats p) v.

(** Writes through the pointers of the options. *)
Definition coin_options (c : CoinOptions) (o : Options) : Options :=
  {| DisablePayment := DisablePayment o; Coin := c; Config.Engine := Config.Engine o; PoolAddress := PoolAddress o;
     RewardRecipients := RewardRecipients o; BlockRefreshInterval := BlockRefreshInterval o;
     JobRebroadcastTimeout := JobRebroadcastTimeout o; ConnectionTimeout := ConnectionTimeout o;
     TCPProxyProtocol := TCPProxyProtocol o; Banning := Banning o; Ports := Ports o; Config.Daemons := Config.Daemons o;
     Config.P2P := Config.P2P o; Config.Algorithm := Config.Algorithm o; Payment := Payment o |}.
Definition checked_options (a : AlgorithmOptions) (addr : Recipient) (rs : list Recipient) (o : Options) : Options :=
  {| DisablePayment := DisablePayment o; Coin := Coin o; Config.Engine := Config.Engine o; PoolAddress := addr;
     RewardRecipients := rs; BlockRefreshInterval := BlockRefreshInterval o;
     JobRebroadcastTimeout := JobRebroadcastTimeout o; ConnectionTimeout := ConnectionTimeout o;
     TCPProxyProtocol := TCPProxyProtocol o; Banning := Banning o; Ports := Ports o; Config.Daemons := Config.Daemons o;
     Config.P2P := Config.P2P o; Config.Algorithm := a; Payment := Payment o |}.
Definition set_coin (c : CoinOptions) (p : Pool) : Pool :=
  let dm := pl_DaemonManager p in
  let jm := pl_JobManager p in
  let o := coin_options c (pl_Options p) in
  mkPool (mkDaemonManager (dm_Daemons dm) (dm_clients dm) (Some c))
    (mkJobManager (jm_PoolAddress jm) o (jm_ExtraNoncePlaceholder jm) (jm_ExtraNonce2Size jm) (jm_jobs jm) (jm_CurrentJob jm)
       (jm_ValidJobs jm) (jm_CoinbaseHasher jm))
    (pl_P2PManager p) o (pl_Magnitude p) (pl_CoinPrecision p) (pl_Stats p) (pl_ProtocolVersion p).
Definition set_reward (r : string) (c : CoinOptions) : CoinOptions :=
  mkCoinOptions (c_Name c) (c_Symbol c) (c_TxMessages c) (c_GBTRules c) r (c_NoSubmitBlock c) (c_Testnet c).
Definition set_no_submit (b : bool) (c : CoinOptions) : CoinOptions :=
  mkCoinOptions (c_Name c) (c_Symbol c) (c_TxMessages c) (c_GBTRules c) (c_Reward c) b (c_Testnet c).
Definition set_testnet (b : bool) (c : CoinOptions) : CoinOptions :=
  mkCoinOptions (c_Name c) (c_Symbol c) (c_TxMessages c) (c_GBTRules c) (c_Reward c) (c_NoSubmitBlock c) b.
Definition update_coin (f : CoinOptions -> CoinOptions) (p : Pool) : Pool := set_coin (f (Coin (pl_Options p))) p.

Section Pool.
Context `{AddressCodec} `{Platform} `{PowHashes}.
Variable algs : Algorithms.
Variable ValidURL : string -> bool.
(** The random numbers and the time, at each point of the history. *)
Variable request_id clock : network -> Z.
Variable random : network -> bytes.

(** ** Construction *)
Definition checked_script (r : Recipient) : result Recipient :=
  let! (s, r) := GetScript r in
  match s with None => Panic "failed to get the script, check the address and type" | Some _ => Val r end.
Definition fetch_magnitude (dm : DaemonManager) (n : network) : result (Z * network) :=
  let! ((_, r, _), n) := Cmd ValidURL dm (request_id n) "getbalance" [] n in
  match r with
  | None => Panic "nil pointer dereference"
  | Some r =>
      match Error r with
      | Some _ => Panic "getbalance failed"
      | None => let! m := detect_magnitude r in Val (m, n)
      end
  end.
Definition NewPool (o : Options) (n : network) : result (Pool * network) :=
  let eng := to_lower (Config.Engine o) in
  let alg := Config.Algorithm o in
  if negb (String.eqb eng "") && negb (String.eqb eng "gbt") then Panic "engine must be constructed via pool.NewEnginePool"
  else if negb (IsSupported algs (a_Name alg)) then Panic "algorithm is not supported"
  else if negb (String.eqb (a_BlockHasher alg) "") && negb (IsSupported algs (a_BlockHasher alg)) then Panic "blockHasher is not supported"
  else
    let multiplier := if a_Multiplier alg =? 0 then DefaultMultiplier algs (a_Name alg) else a_Multiplier alg in
    let alg := mkAlgorithmOptions (a_Name alg) multiplier (a_SHA256dBlockHasher alg) (a_BlockHasher alg) (a_CoinbaseHasher alg) in
    let! _ := Warmup (a_Name alg) in
    let! dm := NewDaemonManager (Some (Config.Daemons o)) (Some (Coin o)) in
    let! (_, n) := await (Check_ ValidURL dm (request_id n) n) in
    let! addr := checked_script (PoolAddress o) in
    let! rs := rmap checked_script (RewardRecipients o) in
    let o := checked_options alg addr rs o in
    let! (magnitude, n) := (if DisablePayment o then Val (100000000, n) else fetch_magnitude dm n) in
    let! jm := NewJobManager algs o in
    Val (mkPool dm jm None o (u64 magnitude) (coin_precision magnitude) NewStats 0, n).

(** A pool that runs an engine: the factory of its name, and what [Init] of the
    engine says. *)
Definition NewEnginePool {E} (engines : gmap string (Options -> err_or E)) (o : Options) : result E :=
  match Engine.Get (to_lower (Config.Engine o)) engines with
  | None => Panic "engine is not registered"
  | Some f => match f o with Err _ => Panic "engine init failed" | Ok e => Val e end
  end.
(** cmd/nomp/main.go *)
Definition main_pool {E} (engines : gmap string (Options -> err_or E)) (o : Options) (n : network) : result (E + Pool * network) :=
  if negb (String.eqb (Config.Engine o) "") && negb (String.eqb (Config.Engine o) "gbt")
  then let! e := NewEnginePool engines o in Val (inl e)
  else let! p := NewPool o n in Val (inr p).

(** ** What the start-up learns *)
Fixpoint all_ready (results : list (option Response)) : result unit :=
  match results with
  | [] => Val tt
  | None :: _ => Panic "daemon is not available"
  | Some r :: results => match Error r with Some _ => Panic "daemon is not ready for mining" | None => all_ready results end
  end.
Definition CheckAllReady (p : Pool) (n : network) : result (unit * network) :=
  let dm := pl_DaemonManager p in
  let! ((_, results), n) := await (CmdAll ValidURL dm (request_id n) "getblocktemplate" (template_params dm) n) in
  let! _ := all_ready results in Val (tt, n).

(** [None] for the error that is tested before the nil it should be tested
    after. *)
Definition ask_daemon (method : string) (p : Pool) (n : network) : result (option Response * network) :=
  let! ((_, r, _), n) := Cmd ValidURL (pl_DaemonManager p) (request_id n) method [] n in Val (r, n).
Definition expect (method : string) (p : Pool) (n : network) : result (option (option json) * network) :=
  let! (r, n) := ask_daemon method p n in
  match r with
  | None => Panic "nil pointer dereference"
  | Some r => Val (match Error r with Some _ => None | None => Some (Result r) end, n)
  end.
(** A difficulty that is an object has the kind Map, which no case has. *)
Definition note_difficulty (d : json) (p : Pool) : float64 * Pool :=
  match d with
  | JNum l => (fst (ParseFloat l), update_coin (set_reward "POW") p)
  | _ => (fzero, p)
  end.
Definition note_submitblock (r : option Response) (p : Pool) : result (option Pool) :=
  match r ≫= Error with
  | None => Val None
  | Some e =>
      if String.eqb (e_Message e) "Method not found" then Val (Some (update_coin (set_no_submit true) p))
      else if e_Code e =? -1 then Val (Some (update_coin (set_no_submit false) p))
      else Panic "Could not detect block submission RPC method"
  end.
Definition set_connections (c : Z) (s : Stats) : Stats := mkStats c (st_Difficulty s) (st_NetworkHashrate s) (st_StratumPorts s).
(** getinfo, or getnetworkinfo and getblockchaininfo; [None] when it gives up. *)
Definition note_network (p : Pool) (n : network) : result (option Pool * network) :=
  let! (r, n) := ask_daemon "getinfo" p n in
  match r with
  | None => Panic "nil pointer dereference"
  | Some r =>
      match Error r with
      | None =>
          let! i := BytesToGetInfo (Result r) in
          let p := with_version (gi_Protocolversion i) (update_coin (set_testnet (gi_Testnet i)) p) in
          Val (Some (with_stats (set_connections (gi_Connections i) (pl_Stats p)) p), n)
      | Some _ =>
          let! (r, n) := expect "getnetworkinfo" p n in
          match r with
          | None => Val (None, n)
          | Some r =>
              let! ni := BytesToGetNetworkInfo r in
              let! (r, n) := expect "getblockchaininfo" p n in
              match r with
              | None => Val (None, n)
              | Some r =>
                  let! bi := BytesToGetBlockchainInfo r in
                  let testnet := match String.index 0 "test" (gc_Chain bi) with Some _ => true | None => false end in
                  let p := with_version (gn_Protocolversion ni) (update_coin (set_testnet testnet) p) in
                  Val (Some (with_stats (set_connections (gn_Connections ni) (pl_Stats p)) p), n)
              end
          end
      end
  end.
(** The last line, reached when nothing gave up. *)
Definition note_work (diff : float64) (p : Pool) : result Pool :=
  let! mul := shift_one (a_Multiplier (Config.Algorithm (pl_Options p))) in
  let s := pl_Stats p in
  Val (with_stats (mkStats (st_Connections s) (fmul diff (float_of_Z mul)) (st_NetworkHashrate s) (st_StratumPorts s)) p).
Definition DetectCoinData (p : Pool) (n : network) : result (Pool * network) :=
  let! (r, n) := expect "getdifficulty" p n in
  match r with
  | None => Val (p, n)
  | Some r =>
      let! d := BytesToGetDifficulty r in
      let '(diff, p) := note_difficulty d p in
      let! (r, n) := expect "getmininginfo" p n in
      match r with
      | None => Val (p, n)
      | Some r =>
          let! mi := BytesToGetMiningInfo r in
          let s := pl_Stats p in
          let p := with_stats (mkStats (st_Connections s) (st_Difficulty s) (gm_Networkhashps mi) (st_StratumPorts s)) p in
          let! (r, n) := ask_daemon "submitblock" p n in
          let! q := note_submitblock r p in
          match q with
          | None => Val (p, n)
          | Some p =>
              let! (r, n) := expect "getwalletinfo" p n in
              match r with
              | None => Val (p, n)
              | Some _ =>
                  let! (q, n) := note_network p n in
                  match q with
                  | None => Val (p, n)
                  | Some p => let! p := note_work diff p in Val (p, n)
                  end
              end
          end
      end
  end.

(** ** Templates *)
Definition fetch (p : Pool) (n : network) : result (err_or GetBlockTemplate * network) :=
  GetBlockTemplate_cmd ValidURL (pl_DaemonManager p) (request_id n) n.
Definition process_template (gbt : GetBlockTemplate) (p : Pool) (n : network) : result (Pool * network) :=
  let! jm := ProcessTemplate (clock n) (random n) gbt (pl_JobManager p) in Val (with_jm jm p, n).
(** One turn of the polling loop. *)
Definition poll_tick (p : Pool) (n : network) : result (Pool * network) :=
  let! (r, n) := fetch p n in
  match r with Ok gbt => process_template gbt p n | Err _ => Val (p, n) end.
(** One turn of the loop that listens to the peer; after an error the template is
    nil. *)
Definition notify_tick (blockHash : string) (p : Pool) (n : network) : result (Pool * network) :=
  match current_job (pl_JobManager p) with
  | Some j =>
      if String.eqb blockHash (g_PreviousBlockHash (GetBlockTemplate_of j)) then Val (p, n)
      else let! (r, n) := fetch p n in
           match r with Ok gbt => process_template gbt p n | Err _ => Panic "nil pointer dereference" end
  | None => Val (p, n)
  end.

(** ** Start-up *)
Definition startPaymentsIfEnabled (p : Pool) : list started :=
  if DisablePayment (pl_Options p) then [] else match Payment (pl_Options p) with None => [] | Some _ => [EvPayments] end.
Definition SetupBlockPolling (p : Pool) : list started :=
  let s := BlockRefreshInterval (pl_Options p) in if s <=? 0 then [] else [EvPolling s].
(** It calls [Init] of the pool, where that of the peer is meant. *)
Definition SetupP2PBlockNotify (Init : Pool -> network -> result ((Pool * list started) * network)) (p : Pool) (n : network)
  : result ((Pool * list started) * network) :=
  match Config.P2P (pl_Options p) with
  | None => Val ((p, []), n)
  | Some o => let! peer := NewPeer (pl_ProtocolVersion p) o in Init (with_peer peer p) n
  end.
(** [fuel] bounds how deep [Init] calls itself. *)
Fixpoint Init (fuel : nat) (p : Pool) (n : network) : result ((Pool * list started) * network) :=
  match fuel with
  | O => Panic "out of fuel"
  | S fuel =>
      let! (_, n) := CheckAllReady p n in
      let! (p, n) := DetectCoinData p n in
      let! (initGBT, n) := fetch p n in
      match initGBT with
      | Err _ => Panic "getblocktemplate failed"
      | Ok gbt =>
          let! ((p, before), n) := SetupP2PBlockNotify (Init fuel) p n in
          let! (p, n) := process_template gbt p n in
          Val ((p, before ++ SetupBlockPolling p ++ [EvStratum; EvAPI] ++ startPaymentsIfEnabled p)%list, n)
      end
  end.
(** [Init] of a pool that runs an engine. *)
Definition Init_engine (p : Pool) : list started := ([EvStratum; EvAPI] ++ startPaymentsIfEnabled p)%list.

(** ** A found block

    [JobManager.ProcessShare] with the daemons themselves behind it. *)
Definition ProcessShare_daemons (dm : DaemonManager) (now : Z) (share : Share) (jm : JobManager) (n : network)
  : result (JobManager * list share_event * network) :=
  if negb (String.eqb (s_BlockHex share) EmptyString) then
    let! (_, n) := await (SubmitBlock ValidURL dm (request_id n) (s_BlockHex share) n) in
    let! ((isAccepted, tx), n) := await (CheckBlockAccepted ValidURL dm (request_id n) (s_BlockHash share) n) in
    let share := set_txhash tx share in
    let! (r, n) := GetBlockTemplate_cmd ValidURL dm (request_id n) n in
    match r with
    | Err _ => Panic "failed fetching GBT"
    | Ok gbt =>
        let! jm := ProcessTemplate now (random n) gbt jm in
        Val (jm, [EvSubmitBlock (s_BlockHex share); EvCheckBlock (s_BlockHash share); EvGetTemplate;
                  EvPutShare share isAccepted], n)
    end
  else Val (jm, [EvPutShare share false], n).

(** ** The pool as a transition system: whatever the network is at each step *)
Inductive pool_step : Pool -> Pool -> Prop :=
| pool_tick p n p' n' : poll_tick p n = Val (p', n') -> pool_step p p'
| pool_notify h p n p' n' : notify_tick h p n = Val (p', n') -> pool_step p p'
| pool_submit p jm jobId prevDiff diff en1 en2 nt nn ip w share now :
    ProcessSubmit algs now (pl_JobManager p) jobId prevDiff diff en1 en2 nt nn ip w = Val (share, jm) ->
    pool_step p (with_jm jm p)
| pool_share p now share n jm ev n' :
    ProcessShare_daemons (pl_DaemonManager p) now share (pl_JobManager p) n = Val (jm, ev, n') ->
    pool_step p (with_jm jm p).

(** Peel the calls off an equation with [Val]. *)
Ltac peel E :=
  repeat match type of E with
  | rbind ?m _ = Val _ => let F := fresh "F" in destruct m as [?|?] eqn:F; cbn [rbind] in E; [|discriminate E]
  | (let '(_, _) := ?x in _) = Val _ => destruct x; cbn [fst snd] in E
  | match ?x with _ => _ end = Val _ => let F := fresh "F" in destruct x eqn:F; try discriminate E
  end.

Definition same_manager (p p' : Pool) : Prop :=
  let jm := pl_JobManager p in let jm' := pl_JobManager p' in
  jm_jobs jm' = jm_jobs jm /\ jm_CurrentJob jm' = jm_CurrentJob jm /\ jm_ValidJobs jm' = jm_ValidJobs jm /\
  Config.P2P (pl_Options p') = Config.P2P (pl_Options p).
Lemma same_manager_trans p p' p'' : same_manager p p' -> same_manager p' p'' -> same_manager p p''.
Proof. intros (A & B & C & D) (A' & B' & C' & D'). unfold same_manager. by rewrite A', B', C', D'. Qed.
Lemma note_network_same p n q n' : note_network p n = Val (Some q, n') -> same_manager p q.
Proof. unfold note_network. intros E. peel E. all: try discriminate E. all: injection E as <- _; done. Qed.
Lemma note_submitblock_same r p q : note_submitblock r p = Val (Some q) -> same_manager p q.
Proof. unfold note_submitblock. intros E. peel E; try discriminate E; injection E as <-; done. Qed.
(** Learning about the coin touches no job, and leaves the peer's options. *)
Lemma DetectCoinData_same p n p' n' : DetectCoinData p n = Val (p', n') -> same_manager p p'.
Proof.
  unfold DetectCoinData. intros E.
  destruct (expect _ p n) as [[[r|] n1]|] eqn:E1; cbn [rbind] in E; [|by injection E as <- _|discriminate].
  destruct (BytesToGetDifficulty r) as [d|]; cbn [rbind] in E; [|discriminate].
  assert (same_manager p (snd (note_difficulty d p))) as S1 by (by destruct d).
  destruct (note_difficulty d p) as [diff p1]. cbn [snd] in S1. apply (same_manager_trans p p1); [done|]. clear S1 E1.
  destruct (expect _ p1 n1) as [[[r2|] n2]|]; cbn [rbind] in E; [|by injection E as <- _|discriminate].
  destruct (BytesToGetMiningInfo r2) as [mi|]; cbn [rbind] in E; [|discriminate].
  set (p2 := with_stats _ p1) in *. apply (same_manager_trans p1 p2); [done|]. clearbody p2.
  destruct (ask_daemon _ p2 n2) as [[r3 n3]|]; cbn [rbind] in E; [|discriminate].
  destruct (note_submitblock r3 p2) as [[p3|]|] eqn:E3; cbn [rbind] in E; [|by injection E as <- _|discriminate].
  apply (same_manager_trans p2 p3); [by eapply note_submitblock_same|].
  destruct (expect _ p3 n3) as [[[r4|] n4]|]; cbn [rbind] in E; [|by injection E as <- _|discriminate].
  destruct (note_network p3 n4) as [[[p4|] n5]|] eqn:E4; cbn [rbind] in E; [|by injection E as <- _|discriminate].
  apply (same_manager_trans p3 p4); [by eapply note_network_same|].
  unfold note_work in E. destruct (shift_one _); cbn [rbind] in E; [by injection E as <- _|discriminate].
Qed.

Lemma process_template_step gbt p n p' n' :
  process_template gbt p n = Val (p', n') ->
  n' = n /\ exists jm, p' = with_jm jm p /\ ProcessTemplate (clock n) (random n) gbt (pl_JobManager p) = Val jm.
Proof.
  unfold process_template. destruct (ProcessTemplate _ _ _ _) as [jm|] eqn:E; cbn [rbind]; [|done].
  intros V. apply Val_pair_inj in V as [<- <-]. split; [done|]. by exists jm.
Qed.
Lemma pool_step_manager p p' : pool_step p p' -> rtc (jm_step algs) (pl_JobManager p) (pl_JobManager p').
Proof.
  assert (forall gbt p n p' n', process_template gbt p n = Val (p', n') -> rtc (jm_step algs) (pl_JobManager p) (pl_JobManager p')) as W.
  { intros gbt q n q' n' E. apply process_template_step in E as (_ & jm & -> & E). apply rtc_once. by eapply step_template. }
  intros S. destruct S as [p n p' n' E|h p n p' n' E|p jm jobId pd d en1 en2 nt nn ip w share now E|p now share n jm ev n' E].
  - unfold poll_tick in E. destruct (fetch p n) as [[[gbt|] n1]|]; cbn [rbind] in E; [by eapply W| |discriminate].
    by apply Val_pair_inj in E as [<- _].
  - unfold notify_tick in E. destruct (current_job _) as [j|]; [|by apply Val_pair_inj in E as [<- _]].
    destruct (String.eqb _ _); [by apply Val_pair_inj in E as [<- _]|].
    destruct (fetch p n) as [[[gbt|] n1]|]; cbn [rbind] in E; [by eapply W|discriminate|discriminate].
  - apply rtc_once. by eapply step_submit.
  - unfold ProcessShare_daemons in E. destruct (negb _); [|by injection E as <- _ _].
    destruct (await _) as [[l n1]|]; cbn [rbind] in E; [|discriminate].
    destruct (await _) as [[[acc tx] n2]|]; cbn [rbind] in E; [|discriminate].
    destruct (GetBlockTemplate_cmd _ _ _ _) as [[[gbt|] n3]|]; cbn [rbind] in E; [|discriminate|discriminate].
    destruct (ProcessTemplate _ _ _ _) as [jm'|] eqn:T; cbn [rbind] in E; [|discriminate].
    injection E as <- _ _. apply rtc_once. by eapply step_template.
Qed.
Lemma ProcessTemplate_current now rnd t jm jm' :
  ProcessTemplate now rnd t jm = Val jm' ->
  exists h, current_height jm' = Some h /\ g_Height t <= h /\ (forall h0, current_height jm = Some h0 -> h0 <= h) /\
    (h = g_Height t -> exists j, current_job jm' = Some j /\ (GetBlockTemplate_of j = t \/ jm' = jm)).
Proof.
  intros E. destruct (ProcessTemplate_cases _ _ _ _ _ E) as [(-> & j & Hj & Hlt)|(j & -> & Ht & _ & Hc)].
  - unfold current_height. rewrite Hj. cbn. eexists. split; [done|]. split; [lia|]. split; [intros ? [= <-]; lia|].
    intros _. exists j. split; [done|by right].
  - exists (g_Height t). unfold current_height. rewrite current_job_install. cbn. rewrite Ht. split; [done|]. split; [lia|].
    split; [|intros _; exists j; split; [done|by left]].
    intros h0. destruct (current_job jm) as [c|]; cbn; [|done]. intros [= <-]. by destruct Hc.
Qed.

(** What [Init] goes through up to the first template. *)
Definition first_template (p : Pool) (n : network) : result ((Pool * GetBlockTemplate) * network) :=
  let! (_, n) := CheckAllReady p n in
  let! (p, n) := DetectCoinData p n in
  let! (initGBT, n) := fetch p n in
  match initGBT with Err _ => Panic "getblocktemplate failed" | Ok gbt => Val ((p, gbt), n) end.
Lemma first_template_same p n p1 gbt n1 : first_template p n = Val (p1, gbt, n1) -> same_manager p p1.
Proof.
  unfold first_template. destruct (CheckAllReady p n) as [[u n0]|]; cbn [rbind]; [|discriminate].
  destruct (DetectCoinData p n0) as [[q m]|] eqn:D; cbn [rbind]; [|discriminate].
  destruct (fetch q m) as [[[g|] m']|]; cbn [rbind]; [|discriminate|discriminate].
  intros [= <- _ _]. by eapply DetectCoinData_same.
Qed.
Lemma Init_unfold fuel p n :
  Init (S fuel) p n =
  (let! ((p, gbt), n) := first_template p n in
   let! ((p, before), n) :=
     (match Config.P2P (pl_Options p) with
      | None => Val ((p, []), n)
      | Some o => let! peer := NewPeer (pl_ProtocolVersion p) o in Init fuel (with_peer peer p) n
      end) in
   let! (p, n) := process_template gbt p n in
   Val ((p, before ++ SetupBlockPolling p ++ [EvStratum; EvAPI] ++ startPaymentsIfEnabled p)%list, n)).
Proof.
  unfold first_template. cbn [Init]. destruct (CheckAllReady p n) as [[u n0]|]; cbn [rbind]; [|done].
  destruct (DetectCoinData p n0) as [[q m]|]; cbn [rbind]; [|done]. by destruct (fetch q m) as [[[g|] m']|].
Qed.
Lemma Init_no_peer fuel p n : is_val (Init fuel p n) = true -> Config.P2P (pl_Options p) = None.
Proof.
  revert p n; induction fuel as [|fuel IH]; intros p n; [discriminate|]. rewrite Init_unfold.
  destruct (first_template p n) as [[[p1 gbt] n1]|] eqn:E; cbn [rbind]; [|discriminate].
  apply first_template_same in E as (_ & _ & _ & <-). destruct (Config.P2P (pl_Options p1)) as [o|] eqn:EP; [|done].
  destruct (NewPeer _ o) as [peer|]; cbn [rbind]; [|discriminate]. intros V.
  cut (Config.P2P (pl_Options (with_peer peer p1)) = None); [cbn [with_peer pl_Options]; congruence|]. apply (IH _ n1). by destruct (Init _ _ _).
Qed.
Lemma Init_alone fuel p n :
  Config.P2P (pl_Options p) = None ->
  Init (S fuel) p n =
  (let! ((p, gbt), n) := first_template p n in
   let! (p, n) := process_template gbt p n in
   Val ((p, SetupBlockPolling p ++ [EvStratum; EvAPI] ++ startPaymentsIfEnabled p)%list, n)).
Proof.
  intros HP. rewrite Init_unfold. destruct (first_template p n) as [[[p1 gbt] n1]|] eqn:E; cbn [rbind]; [|done].
  apply first_template_same in E as (_ & _ & _ & EP). rewrite EP, HP. cbn [rbind]. by destruct (process_template _ _ _) as [[q m]|].
Qed.

(** The start-up of a pool returns only when no peer is configured: with one,
    it calls itself before it listens to the peer, and again, however deep it is
    allowed to go.  Without a peer it does not call itself at all. *)
Theorem Init_returns_without_peer (fuel : nat) (p : Pool) (n : network) :
  (is_val (Init fuel p n) = true -> Config.P2P (pl_Options p) = None) /\
  (Config.P2P (pl_Options p) = None -> Init (S fuel) p n = Init 1 p n).
Proof. split; [apply Init_no_peer|]. intros HP. by rewrite !Init_alone. Qed.

Lemma same_manager_wf p q : same_manager p q -> jm_wf (pl_JobManager p) -> jm_wf (pl_JobManager q).
Proof. intros (A & B & C & _) [Hv Hc]. split; [rewrite A, C; exact Hv|rewrite A, B, C; exact Hc]. Qed.
Lemma NewPool_wf o n p n' : NewPool o n = Val (p, n') -> jm_wf (pl_JobManager p).
Proof.
  unfold NewPool. intros E. repeat (destruct (_ && _); [discriminate E|]). destruct (negb (IsSupported _ _)); [discriminate E|].
  repeat (destruct (_ && _); [discriminate E|]). peel E. injection E as <- _. cbn. by eapply NewJobManager_wf.
Qed.
Lemma pool_steps_manager p p' : rtc pool_step p p' -> rtc (jm_step algs) (pl_JobManager p) (pl_JobManager p').
Proof. induction 1 as [|p q r S _ IH]; [done|]. etransitivity; [by apply pool_step_manager|exact IH]. Qed.
Lemma jm_steps_wf jm jm' : jm_wf jm -> rtc (jm_step algs) jm jm' -> jm_wf jm'.
Proof. intros W. induction 1 as [|x y z S _ IH]; [done|]. apply IH. by eapply jm_step_wf. Qed.
Lemma jm_steps_height jm jm' h :
  rtc (jm_step algs) jm jm' -> current_height jm = Some h -> exists h', current_height jm' = Some h' /\ h <= h'.
Proof.
  intros R. revert h; induction R as [|x y z S _ IH]; intros h Hh; [exists h; split; [done|lia]|].
  destruct (jm_step_height _ _ _ _ S Hh) as (h1 & Hh1 & L1). destruct (IH h1 Hh1) as (h2 & Hh2 & L2). exists h2. split; [done|lia].
Qed.

(** C13: once the start-up has returned, the pool has a job to hand out and keeps one
    for as long as its process lives.  From then on, after any sequence of ticks,
    announcements, submissions and found blocks whose handlers return, with whatever
    answers of the network, the manager is well-formed and the height of its current
    job is not below that of the template the pool started with.  A handler that
    panics ends the process and is no step of the sequence; one is the poll of a pool
    whose first daemon does not answer (getblocktemplate.go:107,
    [GetBlockTemplate_first_daemon_down]). *)
Theorem pool_always_has_job (o : Options) (n n0 n1 n2 : network) (fuel : nat) (p0 p1 p : Pool) (ev : list started) :
  NewPool o n = Val (p0, n0) -> Init fuel p0 n1 = Val (p1, ev, n2) -> rtc pool_step p1 p ->
  exists q gbt h, first_template p0 n1 = Val (q, gbt, n2) /\
    jm_wf (pl_JobManager p) /\ current_height (pl_JobManager p) = Some h /\ g_Height gbt <= h.
Proof.
  intros HN HI HR. destruct fuel as [|fuel]; [discriminate HI|].
  rewrite Init_alone in HI by (apply (Init_no_peer (S fuel) p0 n1); by rewrite HI).
  destruct (first_template p0 n1) as [[[q gbt] m]|] eqn:EF; cbn [rbind] in HI; [|discriminate].
  destruct (process_template gbt q m) as [[q' m']|] eqn:ET; cbn [rbind] in HI; [|discriminate].
  apply process_template_step in ET as (-> & jm & -> & ET). injection HI as <- _ <-.
  assert (jm_wf (pl_JobManager q)) as Wq.
  { apply (same_manager_wf p0); [by eapply first_template_same|]. by eapply NewPool_wf. }
  destruct (ProcessTemplate_current _ _ _ _ _ ET) as (h & Hh & Hge & _ & _).
  apply pool_steps_manager in HR. cbn [with_jm pl_JobManager] in HR.
  destruct (jm_steps_height _ _ h HR Hh) as (h' & Hh' & Hle). exists q, gbt, h'. split; [done|]. split; [|split; [done|lia]].
  eapply jm_steps_wf; [|exact HR]. by eapply ProcessTemplate_wf.
Qed.

(** The difficulty of a coin that also stakes is an object of two numbers; it is
    taken for no difficulty at all, and the reward stays as it was configured. *)
Lemma proof_of_stake_undetected m p : note_difficulty (JObj m) p = (fzero, p).
Proof. done. Qed.
(** The name of the engine is compared as it is written, then looked up in lower
    case: "GBT" is sent to the engines, none of which has it, where [NewPool] would
    take it. *)
Lemma upper_case_gbt {E} (engines : gmap string (Options -> err_or E)) o n :
  Config.Engine o = "GBT" -> engines !! "gbt" = None ->
  main_pool engines o n = Panic "engine is not registered" /\
  negb (String.eqb (to_lower (Config.Engine o)) "") && negb (String.eqb (to_lower (Config.Engine o)) "gbt") = false.
Proof.
  intros Eo Eg. unfold main_pool, NewEnginePool, Engine.Get. rewrite Eo.
  change (to_lower "GBT") with "gbt". rewrite Eg. done.
Qed.

(** ** Found blocks *)
Lemma await_val {A} (m : result (option A * network)) a n : await m = Val (a, n) -> m = Val (Some a, n).
Proof. unfold await. destruct m as [[[x|] n']|]; cbn [rbind]; [|discriminate|discriminate]. by intros [= <- <-]. Qed.

(** C14: behind the daemons, a share is processed as the job manager specifies it:
    for a found block the block is submitted to the daemons first, then they are
    asked whether they accepted it, then the next template is fetched, and what
    they answer to these requests is what the specification's daemon answers. *)
Theorem ProcessShare_refines (dm : DaemonManager) (now : Z) (share : Share) (jm jm' : JobManager)
    (ev : list share_event) (n n' : network) :
  ProcessShare_daemons dm now share jm n = Val (jm', ev, n') ->
  exists b : block_daemon,
    ProcessShare b now (random n') share jm = Val (jm', ev) /\
    (s_BlockHex share <> "" -> exists l n1 n2 gbt,
       SubmitBlock ValidURL dm (request_id n) (s_BlockHex share) n = Val (Some l, n1) /\
       CheckBlockAccepted ValidURL dm (request_id n1) (s_BlockHash share) n1 = Val (Some (bd_accepted b (s_BlockHash share)), n2) /\
       GetBlockTemplate_cmd ValidURL dm (request_id n2) n2 = Val (Ok gbt, n') /\ bd_template b = Val gbt).
Proof.
  unfold ProcessShare_daemons, ProcessShare. destruct (String.eqb_spec (s_BlockHex share) "") as [E|E]; cbn [negb].
  { intros [= <- <- <-]. exists (Build_block_daemon (fun _ => (false, "")) (Panic "")). by split. }
  destruct (await (SubmitBlock _ _ _ _ _)) as [[l n1]|] eqn:A1; cbn [rbind]; [|discriminate].
  destruct (await (CheckBlockAccepted _ _ _ _ _)) as [[[acc tx] n2]|] eqn:A2; cbn [rbind]; [|discriminate].
  destruct (GetBlockTemplate_cmd _ _ _ _) as [[[gbt|] n3]|] eqn:A3; cbn [rbind]; [|discriminate|discriminate].
  destruct (ProcessTemplate _ _ _ _) as [jm1|] eqn:A4; cbn [rbind]; [|discriminate]. intros [= <- <- <-].
  exists (Build_block_daemon (fun _ => (acc, tx)) (Val gbt)). cbn [bd_accepted bd_template rbind]. rewrite A4. cbn [rbind].
  split; [done|]. intros _. apply await_val in A1, A2. by exists l, n1, n2, gbt.
Qed.

(** C37: a found block is recorded only when every daemon answers: with one daemon
    that does not, the goroutine of the miner's connection never gets past the
    submission of the block, and the share that found it is not stored, where a
    share that found nothing is. *)
Theorem found_block_needs_every_daemon (dm : DaemonManager) (i : nat) (d : DaemonOptions) (n : network) :
  dm_Daemons dm !! i = Some d ->
  (forall body, is_val (http_request_for ValidURL dm d body) = true) ->
  (forall log q, q_URL q = DaemonOptions_URL d -> node_answer n log q = None) ->
  forall now share jm,
    is_val (ProcessShare_daemons dm now share jm n) = bool_decide (s_BlockHex share = "").
Proof.
  intros Hd Hv Ha now share jm. unfold ProcessShare_daemons. destruct (String.eqb_spec (s_BlockHex share) "") as [E|E]; cbn [negb].
  { by rewrite bool_decide_eq_true_2. }
  rewrite bool_decide_eq_false_2 by done.
  destruct (await (SubmitBlock _ _ _ _ _)) as [[l n1]|] eqn:A1; cbn [rbind]; [|done]. exfalso. apply await_val in A1.
  assert (forall method params r n', CmdAll ValidURL dm (request_id n) method params n <> Val (Some r, n')) as W.
  { intros method params r m. pose proof (Hv (envelope (request_id n) method params)) as Hr.
    destruct (http_request_for ValidURL dm d (envelope (request_id n) method params)) as [q|] eqn:Eq; [|done].
    apply (down_answered ValidURL dm _ method params n i d q Hd Eq). apply Ha. by eapply http_request_URL. }
  unfold SubmitBlock in A1. destruct (dm_Coin dm) as [coin|]; [|discriminate].
  destruct (c_NoSubmitBlock coin); destruct (CmdAll _ _ _ _ _ _) as [[[r|] m]|] eqn:EC; cbn [rbind fmap option_fmap option_map] in A1;
    try discriminate; by destruct (W _ _ _ _ EC).
Qed.
End Pool.

(** ** The base units of a coin *)
Definition is_digit (c : ascii) : bool := (48 <=? code c) && (code c <=? 57).
Fixpoint is_digits (s : string) : bool :=
  match s with EmptyString => true | String c s => is_digit c && is_digits s end.
Lemma is_digits_lacks c s : is_digit c = false -> is_digits s = true -> lacks c s = true.
Proof.
  intros Hc. induction s as [|a s IH]; [done|]. cbn [is_digits lacks]. intros [Ha Hs]%andb_prop. rewrite IH by done.
  destruct (Ascii.eqb_spec a c) as [->|]; [congruence|done].
Qed.
Lemma before_lacks c sep s : lacks c s = true -> before (String c sep) s = s.
Proof.
  unfold before. intros H. enough (String.index 0 (String c sep) s = None) as -> by done.
  induction s as [|a s IH]; [done|]. cbn [lacks] in H. apply andb_prop in H as [Ha Hs]. cbn [String.index].
  rewrite IH by done. cbn [String.prefix]. destruct (ascii_dec c a) as [->|_]; [by rewrite Ascii.eqb_refl in Ha|done].
Qed.

(** The number of base units the pool reads off a balance: the source means a
    power of ten with a zero for each decimal of the balance; it appends the
    count of the decimals, the closing brace of the reply among them, to the
    digits of ten, so that a coin of eight decimals gets 1090 units, and a
    precision of three. *)
Theorem magnitude_of_balance (whole decimals : string) :
  is_digits whole = true -> is_digits decimals = true -> (String.length decimals <= 8)%nat ->
  exists m, detect_magnitude (mkRpc (Some (JNum (whole ++ "." ++ decimals))) None) = Val m /\
    m = 1000 + 10 * (slen decimals + 1) /\ coin_precision m = 3.
Proof.
  intros Hw Hd Hl. unfold detect_magnitude. cbn [Result raw_text].
  assert (forall c, is_digit c = false -> c <> "."%char -> c <> "}"%char -> lacks c ((whole ++ "." ++ decimals) ++ "}") = true) as L.
  { intros c Hc H1 H2. rewrite !lacks_app. rewrite (is_digits_lacks c whole), (is_digits_lacks c decimals) by done. cbn [lacks].
    by rewrite !(proj2 (Ascii.eqb_neq _ _)) by congruence. }
  change ("result" ++ dquote ++ ":") with (String "r" ("esult" ++ dquote ++ ":")). rewrite (before_lacks "r"%char), (before_lacks ","%char) by (by apply L).
  replace ((whole ++ "." ++ decimals) ++ "}") with (whole ++ String "." (decimals ++ "}")) by (by rewrite <- !string_app_assoc).
  unfold Split. rewrite split_on_app by (by apply is_digits_lacks).
  rewrite split_on_lacks by (rewrite lacks_app; by rewrite is_digits_lacks).
  change ("" ++ (decimals ++ "}")) with (decimals ++ "}").
  assert (slen (decimals ++ "}") = slen decimals + 1) as -> by (unfold slen; rewrite string_length_app; cbn; lia).
  exists (1000 + 10 * (slen decimals + 1)). unfold slen.
  revert Hl. generalize (String.length decimals). intros k Hk. do 9 (destruct k as [|k]; [vm_compute; by repeat split|]). lia.
Qed.
Lemma magnitude_of_balance_witness :
  exists m, detect_magnitude (mkRpc (Some (JNum ("12" ++ "." ++ "34500000"))) None) = Val m /\
    m = 1000 + 10 * (slen "34500000" + 1) /\ coin_precision m = 3.
Proof. apply (magnitude_of_balance "12" "34500000"); [reflexivity|reflexivity|cbn; lia]. Defined.

(** ** Witnesses: a pool with one daemon that answers *)
Definition sample_gbt (height : string) : json := JObj
  [("version", JNum "536870912"); ("previousblockhash", JStr (hex_encode (repeat x11 32))); ("bits", JStr "207fffff");
   ("target", JStr easy_target); ("curtime", JNum "1700000000"); ("height", JNum height);
   ("coinbasevalue", JNum "625000000"); ("transactions", JArr [])].
(** The daemon is a block further for each nine requests. *)
Definition sample_reply (log : list http_request) (method : string) : json :=
  if String.eqb method "getblocktemplate" then sample_gbt (FormatInt (840000 + Z.of_nat (length log) / 9))
  else if String.eqb method "getdifficulty" then JNum "16.5"
  else if String.eqb method "getbalance" then JNum "0.00000000"
  else if String.eqb method "getblock" then JObj [("tx", JArr [JStr "c0ffee"])]
  else if String.eqb method "getinfo" then JObj [("protocolversion", JNum "70015"); ("connections", JNum "8"); ("testnet", JBool true)]
  else JObj [].
Definition sample_response (log : list http_request) (method : string) : json :=
  if String.eqb method "submitblock"
  then JObj [("id", JNum "1"); ("error", JObj [("code", JNum "-1"); ("message", JStr "submitblock needs a block")])]
  else JObj [("id", JNum "1"); ("result", sample_reply log method); ("error", JNull)].
Definition sample_network : network :=
  mkNode [] (fun log q => Some (mkResponse 200 (Some (sample_response log (field_string (q_Body q) "method"))) false)).
Definition sample_pool_options (peer : option P2POptions) : Options :=
  {| DisablePayment := false; Coin := mkCoinOptions "coin" "CN" false None "" false false; Config.Engine := "gbt";
     PoolAddress := mkRecipient sample_script "script" fzero None; RewardRecipients := []; BlockRefreshInterval := 5;
     JobRebroadcastTimeout := 0; ConnectionTimeout := 0; TCPProxyProtocol := false; Banning := None; Ports := [];
     Config.Daemons := [daemon1]; Config.P2P := peer; Config.Algorithm := mkAlgorithmOptions "sha256d" 0 true "" "";
     Payment := None |}.

Lemma started_val {A B C} (d1 : A) (d2 : C) (m : result (A * B * C)) (b : B) :
  rbind m (fun r => Val (snd (fst r))) = Val b ->
  m = Val (get d1 (rbind m (fun r => Val (fst (fst r)))), b, get d2 (rbind m (fun r => Val (snd r)))).
Proof. destruct m as [[[x y] z]|]; cbn; [|done]. intros E. by apply Val_inj in E as ->. Qed.

Section Witness.
Local Existing Instance hex_codec.
Local Existing Instance amd64.
Local Existing Instance sha_primitives.
Definition all_urls (_ : string) : bool := true.
Definition one_id (_ : network) : Z := 1.
Definition at_1700000000 (_ : network) : Z := 1700000000.
Definition sample_random (n : network) : bytes := be_bytes 8 (Z.of_nat (length (node_log n))).
Definition made (peer : option P2POptions) : result (Pool * network) :=
  NewPool sample_algs all_urls one_id (sample_pool_options peer) sample_network.
Definition dead_pool : Pool :=
  mkPool sample_manager no_manager None (sample_pool_options None) 0 0 NewStats 0.
Definition pool0 (peer : option P2POptions) : Pool := get dead_pool (rbind (made peer) (fun r => Val (fst r))).
Definition network0 (peer : option P2POptions) : network := get sample_network (rbind (made peer) (fun r => Val (snd r))).
Definition started1 : result ((Pool * list started) * network) :=
  Init all_urls one_id at_1700000000 sample_random 1 (pool0 None) (network0 None).
Definition pool1 : Pool := get dead_pool (rbind started1 (fun r => Val (fst (fst r)))).
Definition network1 : network := get sample_network (rbind started1 (fun r => Val (snd r))).
Definition ticked : result (Pool * network) := poll_tick all_urls one_id at_1700000000 sample_random pool1 network1.
Definition pool2 : Pool := get dead_pool (rbind ticked (fun r => Val (fst r))).
Definition network2 : network := get sample_network (rbind ticked (fun r => Val (snd r))).
Example started_here :
  rbind started1 (fun r => Val (snd (fst r))) = Val [EvPolling 5; EvStratum; EvAPI] /\
  pl_Magnitude pool1 = 1090 /\ c_Reward (Coin (jm_Options (pl_JobManager pool1))) = "POW" /\ pl_ProtocolVersion pool1 = 70015 /\
  current_height (pl_JobManager pool1) = Some 840000 /\ current_height (pl_JobManager pool2) = Some 840001.
Proof. vm_compute. by repeat split. Qed.
Lemma pool_always_has_job_witness :
  exists q gbt h,
    first_template all_urls one_id (pool0 None) (network0 None) = Val (q, gbt, network1) /\
    jm_wf (pl_JobManager pool2) /\ current_height (pl_JobManager pool2) = Some h /\ g_Height gbt <= h.
Proof.
  apply (pool_always_has_job sample_algs all_urls one_id at_1700000000 sample_random (sample_pool_options None) sample_network
           (network0 None) (network0 None) network1 1 (pool0 None) pool1 pool2 [EvPolling 5; EvStratum; EvAPI]).
  - apply (get_pair dead_pool sample_network). vm_compute. reflexivity.
  - apply (started_val dead_pool sample_network started1). vm_compute. reflexivity.
  - apply rtc_once, (pool_tick _ _ _ _ _ _ network1 _ network2). apply (get_pair dead_pool sample_network). vm_compute. reflexivity.
Defined.
Definition a_peer : option P2POptions := Some (mkP2POptions "127.0.0.1" 8333 "f9beb4d9" true).
Lemma Init_returns_without_peer_witness :
  (is_val (Init all_urls one_id at_1700000000 sample_random 5 (pool0 a_peer) (network0 a_peer)) = true -> a_peer = None) /\
  (None = None :> option P2POptions ->
   Init all_urls one_id at_1700000000 sample_random 6 (pool0 None) (network0 None) =
   Init all_urls one_id at_1700000000 sample_random 1 (pool0 None) (network0 None)).
Proof.
  split.
  - apply (Init_returns_without_peer all_urls one_id at_1700000000 sample_random 5 (pool0 a_peer) (network0 a_peer)).
  - apply (Init_returns_without_peer all_urls one_id at_1700000000 sample_random 5 (pool0 None) (network0 None)).
Defined.

(** A found block, with its daemon and with one that is down *)
Definition found_share : Share :=
  mkShare "1" "1.2.3.4:5" "alice" "rig1" 0 840000 625000000 fzero "00ab" "0100" "".
Definition processed : result (JobManager * list share_event * network) :=
  ProcessShare_daemons all_urls one_id sample_random (pl_DaemonManager pool1) 1700000000 found_share (pl_JobManager pool1) network1.
Definition jm_after : JobManager := get no_manager (rbind processed (fun r => Val (fst (fst r)))).
Definition network_after : network := get sample_network (rbind processed (fun r => Val (snd r))).
Definition found_events : list share_event :=
  [EvSubmitBlock "0100"; EvCheckBlock "00ab"; EvGetTemplate; EvPutShare (set_txhash "c0ffee" found_share) true].
Lemma ProcessShare_refines_witness :
  exists b : block_daemon,
    ProcessShare b 1700000000 (sample_random network_after) found_share (pl_JobManager pool1) = Val (jm_after, found_events) /\
    (s_BlockHex found_share <> "" -> exists l n1 n2 gbt,
       SubmitBlock all_urls (pl_DaemonManager pool1) 1 (s_BlockHex found_share) network1 = Val (Some l, n1) /\
       CheckBlockAccepted all_urls (pl_DaemonManager pool1) 1 (s_BlockHash found_share) n1 = Val (Some (bd_accepted b (s_BlockHash found_share)), n2) /\
       GetBlockTemplate_cmd all_urls (pl_DaemonManager pool1) 1 n2 = Val (Ok gbt, network_after) /\ bd_template b = Val gbt).
Proof.
  apply (ProcessShare_refines all_urls one_id sample_random (pl_DaemonManager pool1) 1700000000 found_share (pl_JobManager pool1)
           jm_after found_events network1 network_after).
  apply (started_val no_manager sample_network processed). vm_compute. reflexivity.
Defined.
Lemma found_block_needs_every_daemon_witness :
  is_val (ProcessShare_daemons all_urls one_id sample_random sample_manager 1700000000 found_share (pl_JobManager pool1) down1) = false.
Proof.
  apply (found_block_needs_every_daemon all_urls one_id sample_random sample_manager 0 daemon1 down1).
  - reflexivity.
  - intros body. vm_compute. reflexivity.
  - intros log q Hq. cbn. rewrite Hq. reflexivity.
Defined.
End Witness.
