(* ===== verification/Api.v ===== *)
(** * Api: src/api/server.go

    The HTTP handlers that report on the pool.  The router is a third-party
    package: a handler here is what it writes, from the variables of its path.
    The handlers read Redis through the storage; a read that fails is logged and
    its zero value reported. *)
From Stdlib Require Import ZArith Lia List Strings.String Floats.SpecFloat.
From stdpp Require Import base list strings gmap.
From S2P Require Import Prelude Bytes Float Strconv Utils Types Config Effects Storage.
Import ListNotations.
Local Open Scope string_scope.
Local Open Scope Z_scope.
Local Open Scope prog_scope.

(** ** Paths and the published configuration *)
Record Server := mkServer { sv_availablePaths : list string; sv_config : list string }.
Definition RegisterFunc (path : string) (s : Server) : Server :=
  mkServer (sv_availablePaths s ++ [path])%list (sv_config s).
(** The keys of the map, which says nothing of their order. *)
Definition ConvertConf (s : Server) : Server := mkServer (sv_availablePaths s) ["ports"; "algorithm"; "coin"; "api"].
Definition NewAPIServer : Server :=
  fold_left (fun s path => RegisterFunc path s)
    ["/"; "/pool"; "/config"; "/config/{key}"; "/miner/{miner}"; "/miner/{miner}/rig/{rig}"] (ConvertConf (mkServer [] [])).
Definition indexFunc (s : Server) : json := JArr (map JStr (sv_availablePaths s)).
Definition configIndexFunc (s : Server) : json := JArr (map (fun k => JStr ("/config/" ++ k)) (sv_config s)).
(** The options of a key, [None] for the null of a key that is not there. *)
Inductive published := PubPorts (p : list (Z * PortOptions)) | PubAlgorithm (a : AlgorithmOptions) | PubCoin (c : CoinOptions) | PubApi.
Definition configFunc (o : Options) (key : string) : option published :=
  if String.eqb key "ports" then Some (PubPorts (Ports o))
  else if String.eqb key "algorithm" then Some (PubAlgorithm (Config.Algorithm o))
  else if String.eqb key "coin" then Some (PubCoin (Coin o))
  else if String.eqb key "api" then Some PubApi
  else None.

(** ** Reports *)
Record Hashrates := mkHashrates {
  Hashrate1Min : float64; Hashrate30Min : float64; Hashrate1H : float64; Hashrate6H : float64; Hashrate1D : float64 }.
Record PoolInfo := mkPoolInfo { pi_CoinName : string; pi_Hashrates : Hashrates; pi_Miners : option (list string) }.
Record MinerInfo := mkMinerInfo { mi_Name : string; mi_Hashrates : Hashrates; mi_RoundContrib : float64; mi_Rigs : option (list string) }.
Record RigInfo := mkRigInfo { ri_Name : string; ri_MinerName : string; ri_Hashrates : Hashrates }.

Definition or_zero (r : err_or float64) : float64 := match r with Ok f => f | Err _ => fzero end.
Definition or_nil {A} (r : err_or A) : option A := match r with Ok a => Some a | Err _ => None end.
(** The five windows that end now. *)
Definition windows (read : Z -> Z -> prog (err_or float64)) (now : Z) : prog Hashrates :=
  do! hs1M := read (i64 (now - 60)) now in
  do! hs30M := read (i64 (now - 30 * 60)) now in
  do! hs1H := read (i64 (now - 60 * 60)) now in
  do! hs6H := read (i64 (now - 6 * 60 * 60)) now in
  do! hs1D := read (i64 (now - 24 * 60 * 60)) now in
  Ret (mkHashrates (or_zero hs1M) (or_zero hs30M) (or_zero hs1H) (or_zero hs6H) (or_zero hs1D)).
(** [json.Marshal] refuses a number that is not finite; nothing is written
    then. *)
Definition all_finite (h : Hashrates) : bool :=
  finite (Hashrate1Min h) && finite (Hashrate30Min h) && finite (Hashrate1H h) && finite (Hashrate6H h) && finite (Hashrate1D h).

Section Handlers.
Variable s : DB.
(** The name of the coin is never filled in. *)
Definition poolFunc (now : Z) : prog (option PoolInfo) :=
  do! hs := windows (GetPoolHashrate s) now in
  do! miners := GetMinerIndex s in
  Ret (if all_finite hs then Some (mkPoolInfo "" hs (or_nil miners)) else None).
Definition minerFunc (minerName : string) (now : Z) : prog (option MinerInfo) :=
  do! contrib := GetMinerCurrentRoundContrib s minerName in
  do! hs := windows (GetMinerHashrate s minerName) now in
  do! rigs := GetRigIndex s minerName in
  Ret (if all_finite hs && finite (or_zero contrib) then Some (mkMinerInfo minerName hs (or_zero contrib) (or_nil rigs)) else None).
Definition rigFunc (minerName rigName : string) (now : Z) : prog (option RigInfo) :=
  do! hs := windows (GetRigHashrate s minerName rigName) now in
  Ret (if all_finite hs then Some (mkRigInfo rigName minerName hs) else None).
End Handlers.

(** ** The hashrate that is reported *)

(** A program that only reads, against the replies of a store. *)
Fixpoint read_run {A} (reply : forall X, redis X -> err_or X) (m : prog A) : A :=
  match m with
  | Ret a => a
  | Redis e k => read_run reply (k (reply _ e))
  | Rpc _ _ _ k => read_run reply (k None)
  end.
Lemma read_run_bind {A B} reply (m : prog A) (f : A -> prog B) : read_run reply (pbind m f) = read_run reply (f (read_run reply m)).
Proof. induction m as [a|X e k IH|d me ps k IH]; cbn [pbind read_run]; [done|apply IH|apply IH]. Qed.
(** How many members the commands sent to Redis added to a sorted set, at most. *)
Definition zadds (k : string) (cmds : list wcmd) : Z :=
  Z.of_nat (length (List.filter (fun c => match c with ZAdd k' _ _ => String.eqb k' k | _ => false end) cmds)).

Section Reports.
Variable s : DB.
Variable reply : forall X, redis X -> err_or X.
Variable cmds : list wcmd.
(** [ZRANGE] takes ranks, not scores: from a rank past the last it lists
    nothing. *)
Hypothesis zrange_ranks : forall k from to, zadds k cmds <= from -> reply _ (ZRange k from to) = Ok [].
Variable now : Z.
Hypothesis now_time : 0 <= now < 2 ^ 62.

Definition idle : Hashrates := mkHashrates fzero fzero fzero fzero fzero.
Lemma hashrate_past_ranks k d :
  zadds k cmds <= now - 86400 -> 0 < d <= 86400 -> fdiv fzero (float_of_Z d) = fzero ->
  read_run reply (hashrate k (i64 (now - d)) now) = Ok fzero.
Proof.
  intros Hk Hd Hz. unfold hashrate, call. cbn [pbind read_run]. rewrite wraps_small by lia.
  rewrite zrange_ranks by lia. cbn [read_run sum_diffs err_bind]. rewrite wraps_small by lia.
  replace (now - (now - d)) with d by lia. by rewrite Hz.
Qed.
Lemma windows_past_ranks k read :
  (forall from to, read from to = hashrate k from to) -> zadds k cmds <= now - 86400 ->
  read_run reply (windows read now) = idle.
Proof.
  intros Hr Hk. unfold windows. rewrite !Hr. rewrite !read_run_bind.
  rewrite !(hashrate_past_ranks k) by (done || lia || reflexivity). done.
Qed.
End Reports.

(** The hashrates the API reports are zero whatever the miners do: the
    sorted sets of shares are read by rank, where the bounds are Unix times, so
    that nothing is listed until a set holds more shares than seconds have passed
    since 1970. *)
Theorem reported_hashrates_are_zero (s : DB) (reply : forall X, redis X -> err_or X) (cmds : list wcmd) (now : Z) (miner rig : string) :
  (forall k from to, zadds k cmds <= from -> reply _ (ZRange k from to) = Ok []) ->
  0 <= now < 2 ^ 62 -> (forall k, zadds k cmds <= now - 86400) ->
  (exists miners, read_run reply (poolFunc s now) = Some (mkPoolInfo "" idle miners)) /\
  read_run reply (rigFunc s miner rig now) = Some (mkRigInfo rig miner idle) /\
  (forall c, read_run reply (GetMinerCurrentRoundContrib s miner) = Ok c -> finite c = true ->
     exists rigs, read_run reply (minerFunc s miner now) = Some (mkMinerInfo miner idle c rigs)).
Proof.
  intros Hz Hn Hk. split; [|split].
  - unfold poolFunc. rewrite !read_run_bind. rewrite (windows_past_ranks reply cmds Hz now Hn (key s ":pool:shares")) by done.
    cbn [read_run]. by eexists.
  - unfold rigFunc. rewrite !read_run_bind.
    by rewrite (windows_past_ranks reply cmds Hz now Hn (key s (":miner:" ++ miner ++ ":rig:" ++ rig ++ ":hashes"))).
  - intros c Hc Hf. unfold minerFunc. rewrite !read_run_bind. rewrite Hc.
    rewrite (windows_past_ranks reply cmds Hz now Hn (key s (":miner:" ++ miner ++ ":shares"))) by done.
    cbn [read_run or_zero]. rewrite Hf. by eexists.
Qed.

(** ** Witness: a store after one share *)
Definition sample_storage : DB := mkDB "coin" false pplnsLogCap [].
Definition sample_share : Share := mkShare "1" "1.2.3.4:5" "alice" "rig1" 0 840000 0 (float_of_Z 1000) "" "" "".
Definition sent_cmds : list wcmd := valid_share_cmds sample_storage 1700000000 sample_share 1.
(** Sorted sets of one member, and a hash. *)
Definition sample_replies (X : Type) (e : redis X) : err_or X :=
  match e in redis X return err_or X with
  | ZRange k from to => Ok (if (zadds k sent_cmds <=? from)%Z then [] else ["1000.00000"])
  | HGet k f => Ok (Some (HText "1000"))
  | SMembers k => Ok ["alice"]
  | _ => Err "not used"
  end.
Lemma reported_hashrates_are_zero_witness :
  (exists miners, read_run sample_replies (poolFunc sample_storage 1700000060) = Some (mkPoolInfo "" idle miners)) /\
  read_run sample_replies (rigFunc sample_storage "alice" "rig1" 1700000060) = Some (mkRigInfo "rig1" "alice" idle) /\
  (forall c, read_run sample_replies (GetMinerCurrentRoundContrib sample_storage "alice") = Ok c -> finite c = true ->
     exists rigs, read_run sample_replies (minerFunc sample_storage "alice" 1700000060) = Some (mkMinerInfo "alice" idle c rigs)).
Proof.
  apply (reported_hashrates_are_zero sample_storage sample_replies sent_cmds 1700000060 "alice" "rig1").
  - intros k from to Hk. cbn [sample_replies]. by rewrite (proj2 (Z.leb_le _ _) Hk).
  - lia.
  - intros k. unfold zadds. pose proof (List.filter_length_le (fun c => match c with ZAdd k' _ _ => String.eqb k' k | _ => false end) sent_cmds).
    change (length sent_cmds) with 8%nat in *. lia.
Defined.
