(* ===== verification/Stratum.v ===== *)
(** * Stratum: src/stratum/subscriptionCounter.go and src/stratum/client.go

    One miner connection of the Bitcoin path.  A handler runs in a small state
    monad over the [world] it shares with the rest of the pool (the job manager,
    the ban list, the storage queue) and ends in one of three ways: it returns,
    it panics, or it blocks for ever on a channel. *)
From Stdlib Require Import ZArith Lia List Strings.Ascii Strings.String Strings.Byte Floats.SpecFloat.
From stdpp Require Import base list strings gmap.
From S2P Require Import Prelude Bytes Float Strconv Utils Types Config Algorithm Effects VarDiff Bans Engine Jobs JobManager.
Import ListNotations.
Local Open Scope string_scope.
Local Open Scope Z_scope.

(** ** SubscriptionCounter *)
Record SubscriptionCounter := mkCounter { Count : Z; Padding : bytes }.
Definition NewSubscriptionCounter : SubscriptionCounter := mkCounter 0 [].
Definition Next (sc : SubscriptionCounter) : bytes * SubscriptionCounter :=
  let count := u64 (Count sc + 1) in
  let count := if count =? 2 ^ 64 - 1 then 0 else count in
  (app (Padding sc) (le_bytes 8 count), mkCounter count (Padding sc)).

(** ** Messages *)

(** daemons.JsonRpcRequest as received; [q_Params] is [None] when the key is
    absent. *)
Record JsonRpcRequest := mkRequest {
  q_Id : json;
  q_Method : string;
  q_Params : option json;
}.
Definition ParamsArray (q : JsonRpcRequest) : list json :=
  match q_Params q with Some (JArr l) => l | _ => [] end.
(** [utils.RawJsonToString] *)
Definition RawJsonToString (raw : json) : string := match raw with JStr s => s | _ => "" end.

(** What is written to a socket; a response without a result leaves the key out. *)
Inductive out_params := PArray (l : list out) | PBare (o : out).
Inductive message :=
| Response (id : json) (result : option json) (error : option JsonRpcError)
| ResultPush (id : json) (result : list out)
| Request (id : json) (method : string) (params : out_params).

(** ** The connection *)
Record Socket := mkSocket {
  so_LocalPort : Z;
  so_Closed : bool;
  so_Sent : list message;
}.
Definition socket_write (m : message) (s : Socket) : Socket :=
  if so_Closed s then s else mkSocket (so_LocalPort s) false (app (so_Sent s) [m]).
Definition socket_close (s : Socket) : Socket := mkSocket (so_LocalPort s) true (so_Sent s).

(** A made channel with the number of values sent on it: the goroutine of
    [HandleNewClient] receives them.  [None] is Go's nil channel, on which a send
    blocks for ever. *)
Definition chan : Type := nat.

Record Client := mkClient {
  c_SubscriptionId : bytes;
  c_RemoteAddress : string;
  c_Socket : Socket;
  c_LastActivity : Z;
  c_Shares : Shares;
  c_IsAuthorized : bool;
  c_SubscriptionBeforeAuth : bool;
  c_ExtraNonce1 : option bytes;
  c_VarDiff : option VarDiff;
  c_WorkerName : string;
  c_WorkerPass : string;
  c_PendingDifficulty : option bigfloat;
  c_CurrentDifficulty : option bigfloat;
  c_PreviousDifficulty : option bigfloat;
  c_SocketClosedEvent : option chan;
}.
Definition with_RemoteAddress (v : string) (c : Client) : Client :=
  mkClient (c_SubscriptionId c) v (c_Socket c) (c_LastActivity c) (c_Shares c) (c_IsAuthorized c)
    (c_SubscriptionBeforeAuth c) (c_ExtraNonce1 c) (c_VarDiff c) (c_WorkerName c) (c_WorkerPass c)
    (c_PendingDifficulty c) (c_CurrentDifficulty c) (c_PreviousDifficulty c) (c_SocketClosedEvent c).
Definition with_Socket (v : Socket) (c : Client) : Client :=
  mkClient (c_SubscriptionId c) (c_RemoteAddress c) v (c_LastActivity c) (c_Shares c)
    (c_IsAuthorized c) (c_SubscriptionBeforeAuth c) (c_ExtraNonce1 c) (c_VarDiff c) (c_WorkerName c)
    (c_WorkerPass c) (c_PendingDifficulty c) (c_CurrentDifficulty c) (c_PreviousDifficulty c)
    (c_SocketClosedEvent c).
Definition with_LastActivity (v : Z) (c : Client) : Client :=
  mkClient (c_SubscriptionId c) (c_RemoteAddress c) (c_Socket c) v (c_Shares c) (c_IsAuthorized c)
    (c_SubscriptionBeforeAuth c) (c_ExtraNonce1 c) (c_VarDiff c) (c_WorkerName c) (c_WorkerPass c)
    (c_PendingDifficulty c) (c_CurrentDifficulty c) (c_PreviousDifficulty c) (c_SocketClosedEvent c).
Definition with_Shares (v : Shares) (c : Client) : Client :=
  mkClient (c_SubscriptionId c) (c_RemoteAddress c) (c_Socket c) (c_LastActivity c) v
    (c_IsAuthorized c) (c_SubscriptionBeforeAuth c) (c_ExtraNonce1 c) (c_VarDiff c) (c_WorkerName c)
    (c_WorkerPass c) (c_PendingDifficulty c) (c_CurrentDifficulty c) (c_PreviousDifficulty c)
    (c_SocketClosedEvent c).
Definition with_IsAuthorized (v : bool) (c : Client) : Client :=
  mkClient (c_SubscriptionId c) (c_RemoteAddress c) (c_Socket c) (c_LastActivity c) (c_Shares c) v
    (c_SubscriptionBeforeAuth c) (c_ExtraNonce1 c) (c_VarDiff c) (c_WorkerName c) (c_WorkerPass c)
    (c_PendingDifficulty c) (c_CurrentDifficulty c) (c_PreviousDifficulty c) (c_SocketClosedEvent c).
Definition with_SubscriptionBeforeAuth (v : bool) (c : Client) : Client :=
  mkClient (c_SubscriptionId c) (c_RemoteAddress c) (c_Socket c) (c_LastActivity c) (c_Shares c)
    (c_IsAuthorized c) v (c_ExtraNonce1 c) (c_VarDiff c) (c_WorkerName c) (c_WorkerPass c)
    (c_PendingDifficulty c) (c_CurrentDifficulty c) (c_PreviousDifficulty c) (c_SocketClosedEvent c).
Definition with_ExtraNonce1 (v : option bytes) (c : Client) : Client :=
  mkClient (c_SubscriptionId c) (c_RemoteAddress c) (c_Socket c) (c_LastActivity c) (c_Shares c)
    (c_IsAuthorized c) (c_SubscriptionBeforeAuth c) v (c_VarDiff c) (c_WorkerName c) (c_WorkerPass
    c) (c_PendingDifficulty c) (c_CurrentDifficulty c) (c_PreviousDifficulty c) (c_SocketClosedEvent
    c).
Definition with_VarDiff (v : option VarDiff) (c : Client) : Client :=
  mkClient (c_SubscriptionId c) (c_RemoteAddress c) (c_Socket c) (c_LastActivity c) (c_Shares c)
    (c_IsAuthorized c) (c_SubscriptionBeforeAuth c) (c_ExtraNonce1 c) v (c_WorkerName c)
    (c_WorkerPass c) (c_PendingDifficulty c) (c_CurrentDifficulty c) (c_PreviousDifficulty c)
    (c_SocketClosedEvent c).
Definition with_WorkerName (v : string) (c : Client) : Client :=
  mkClient (c_SubscriptionId c) (c_RemoteAddress c) (c_Socket c) (c_LastActivity c) (c_Shares c)
    (c_IsAuthorized c) (c_SubscriptionBeforeAuth c) (c_ExtraNonce1 c) (c_VarDiff c) v (c_WorkerPass
    c) (c_PendingDifficulty c) (c_CurrentDifficulty c) (c_PreviousDifficulty c) (c_SocketClosedEvent
    c).
Definition with_WorkerPass (v : string) (c : Client) : Client :=
  mkClient (c_SubscriptionId c) (c_RemoteAddress c) (c_Socket c) (c_LastActivity c) (c_Shares c)
    (c_IsAuthorized c) (c_SubscriptionBeforeAuth c) (c_ExtraNonce1 c) (c_VarDiff c) (c_WorkerName c)
    v (c_PendingDifficulty c) (c_CurrentDifficulty c) (c_PreviousDifficulty c) (c_SocketClosedEvent
    c).
Definition with_PendingDifficulty (v : option bigfloat) (c : Client) : Client :=
  mkClient (c_SubscriptionId c) (c_RemoteAddress c) (c_Socket c) (c_LastActivity c) (c_Shares c)
    (c_IsAuthorized c) (c_SubscriptionBeforeAuth c) (c_ExtraNonce1 c) (c_VarDiff c) (c_WorkerName c)
    (c_WorkerPass c) v (c_CurrentDifficulty c) (c_PreviousDifficulty c) (c_SocketClosedEvent c).
Definition with_CurrentDifficulty (v : option bigfloat) (c : Client) : Client :=
  mkClient (c_SubscriptionId c) (c_RemoteAddress c) (c_Socket c) (c_LastActivity c) (c_Shares c)
    (c_IsAuthorized c) (c_SubscriptionBeforeAuth c) (c_ExtraNonce1 c) (c_VarDiff c) (c_WorkerName c)
    (c_WorkerPass c) (c_PendingDifficulty c) v (c_PreviousDifficulty c) (c_SocketClosedEvent c).
Definition with_PreviousDifficulty (v : option bigfloat) (c : Client) : Client :=
  mkClient (c_SubscriptionId c) (c_RemoteAddress c) (c_Socket c) (c_LastActivity c) (c_Shares c)
    (c_IsAuthorized c) (c_SubscriptionBeforeAuth c) (c_ExtraNonce1 c) (c_VarDiff c) (c_WorkerName c)
    (c_WorkerPass c) (c_PendingDifficulty c) (c_CurrentDifficulty c) v (c_SocketClosedEvent c).
Definition with_SocketClosedEvent (v : option chan) (c : Client) : Client :=
  mkClient (c_SubscriptionId c) (c_RemoteAddress c) (c_Socket c) (c_LastActivity c) (c_Shares c)
    (c_IsAuthorized c) (c_SubscriptionBeforeAuth c) (c_ExtraNonce1 c) (c_VarDiff c) (c_WorkerName c)
    (c_WorkerPass c) (c_PendingDifficulty c) (c_CurrentDifficulty c) (c_PreviousDifficulty c) v.

Record world := mkWorld {
  w_client : Client;
  w_jm : option JobManager;
  w_engine : option Engine;
  w_bans : BanningManager;
  w_events : list share_event;
}.

Inductive outcome (A : Type) : Type :=
| Done (a : A)
| Panicked (msg : string)
| Blocked.
Arguments Done {A} a.
Arguments Panicked {A} msg.
Arguments Blocked {A}.

Definition M (A : Type) : Type := world -> outcome A * world.
Definition ret {A} (a : A) : M A := fun w => (Done a, w).
Definition mbind {A B} (m : M A) (f : A -> M B) : M B := fun w =>
  match m w with
  | (Done a, w') => f a w'
  | (Panicked e, w') => (Panicked e, w')
  | (Blocked, w') => (Blocked, w')
  end.
Declare Scope client_scope.
Delimit Scope client_scope with client.
Notation "'act!' x ':=' m 'in' k" := (mbind m (fun x => k))
  (at level 10, x pattern, m at level 100, k at level 200,
   format "'act!'  x  ':='  m  'in' '//' k") : client_scope.
Local Open Scope client_scope.

Definition panic {A} (msg : string) : M A := fun w => (Panicked msg, w).
Definition block {A} : M A := fun w => (Blocked, w).
Definition of_result {A} (r : result A) : M A :=
  match r with Val a => ret a | Panic e => panic e end.
Definition client : M Client := fun w => (Done (w_client w), w).
Definition set_client (f : Client -> Client) : M unit := fun w =>
  (Done tt, mkWorld (f (w_client w)) (w_jm w) (w_engine w) (w_bans w) (w_events w)).
(** A nil [JobManager] is dereferenced. *)
Definition job_manager : M JobManager := fun w =>
  match w_jm w with
  | Some jm => (Done jm, w)
  | None => (Panicked "nil pointer dereference", w)
  end.
Definition set_jm (jm : JobManager) : M unit := fun w =>
  (Done tt, mkWorld (w_client w) (Some jm) (w_engine w) (w_bans w) (w_events w)).
Definition set_engine (e : Engine) : M unit := fun w =>
  (Done tt, mkWorld (w_client w) (w_jm w) (Some e) (w_bans w) (w_events w)).
Definition emit (l : list share_event) : M unit := fun w =>
  (Done tt, mkWorld (w_client w) (w_jm w) (w_engine w) (w_bans w) (app (w_events w) l)).
Definition with_bans {A} (f : BanningManager -> A * BanningManager) : M A := fun w =>
  let '(a, b) := f (w_bans w) in (Done a, mkWorld (w_client w) (w_jm w) (w_engine w) b (w_events w)).

(** *** Primitive actions *)
Definition SendJsonRPC (m : message) : M unit :=
  set_client (fun c => with_Socket (socket_write m (c_Socket c)) c).
Definition close_socket : M unit :=
  set_client (fun c => with_Socket (socket_close (c_Socket c)) c).
(** [sc.SocketClosedEvent <- struct{}{}] *)
Definition send_closed_event : M unit :=
  act! c := client in
  match c_SocketClosedEvent c with
  | Some n => set_client (with_SocketClosedEvent (Some (S n)))
  | None => block
  end.

(** What the environment supplies to one step: the wall clock in seconds, the
    monotonic clock in nanoseconds, the bytes of a fresh job id, the daemons. *)
Record moment := mkMoment {
  m_unix : Z;
  m_nanos : Z;
  m_random : bytes;
  m_daemon : block_daemon;
}.

Definition rpc_error (code : Z) (msg : string) : option JsonRpcError := Some (mkRpcError code msg).
Definition is_zero (x : bigfloat) : bool := match Cmp x (BigF 53 fzero) with Eq => true | _ => false end.

Section Client_operations.
Context `{AddressCodec} `{Platform} `{PowHashes}.
Variable algs : Algorithms.
Variable options : Options.

Definition port_options (port : Z) : option PortOptions :=
  snd <$> find (fun p => fst p =? port) (Ports options).

(** [random] is what the extranonce generator reads. *)
Definition NewStratumClient (now_unix now_nanos : Z) (random : bytes) (subscriptionId : bytes)
    (remote : string) (localPort : Z) (jm : option JobManager) : result Client :=
  rbind
    (match port_options localPort with
     | Some p => match po_VarDiff p with
                 | Some o => rbind (NewVarDiff now_unix o) (fun v => Val (Some v))
                 | None => Val None
                 end
     | None => Val None
     end) (fun varDiff =>
  Val {| c_SubscriptionId := subscriptionId;
         c_RemoteAddress := remote;
         c_Socket := mkSocket localPort false [];
         c_LastActivity := now_nanos;
         c_Shares := mkShares 0 0;
         c_IsAuthorized := false;
         c_SubscriptionBeforeAuth := false;
         c_ExtraNonce1 := match jm with Some _ => Some (GetExtraNonce1 random) | None => None end;
         c_VarDiff := varDiff;
         c_WorkerName := "";
         c_WorkerPass := "";
         c_PendingDifficulty := Some (BigF 53 fzero);
         c_CurrentDifficulty := None;
         c_PreviousDifficulty := None;
         c_SocketClosedEvent := None |}).

(** [Options.Banning] may be nil. *)
Definition ShouldBan (t : moment) (shareValid : bool) : M bool :=
  act! c := client in
  let s := c_Shares c in
  if shareValid then
    act! _ := set_client (with_Shares (mkShares (u64 (sh_Valid s + 1)) (sh_Invalid s))) in
    ret false
  else
    let s := mkShares (sh_Valid s) (u64 (sh_Invalid s + 1)) in
    act! _ := set_client (with_Shares s) in
    match Banning options with
    | None => panic "nil pointer dereference"
    | Some b =>
        if b_CheckThreshold b <=? TotalShares s then
          if fltb (BadPercent s) (b_InvalidPercent b) then
            act! _ := set_client (with_Shares (Reset s)) in ret false
          else
            act! _ := with_bans (fun bm => (tt, AddBannedIP (m_nanos t) (c_RemoteAddress c) bm)) in
            act! _ := send_closed_event in
            act! _ := close_socket in
            ret true
        else ret false
    end.

Definition SendDifficulty (diff : bigfloat) : M bool :=
  act! c := client in
  let same := match c_CurrentDifficulty c with
              | Some cur => match Cmp diff cur with Eq => true | _ => false end
              | None => false
              end in
  if same then ret false
  else
    act! _ := set_client (fun c => with_CurrentDifficulty (Some diff)
                                     (with_PreviousDifficulty (c_CurrentDifficulty c) c)) in
    act! _ := SendJsonRPC (Request (JNum "0") "mining.set_difficulty" (PArray [OFloat (Float64 diff)])) in
    ret true.

(** The pending difficulty, when there is one, replaces the current one. *)
Definition flush_pending : M unit :=
  act! c := client in
  match c_PendingDifficulty c with
  | Some diff =>
      if is_zero diff then ret tt
      else
        act! _ := SendDifficulty diff in
        set_client (with_PendingDifficulty None)
  | None => ret tt
  end.

Definition SendMiningJob (t : moment) (jobParams : list json) : M unit :=
  act! c := client in
  let lastActivityAgo := duration_between (m_nanos t) (c_LastActivity c) in
  if i64 (ConnectionTimeout options * 1000000000) <? lastActivityAgo then
    act! _ := close_socket in send_closed_event
  else
    act! _ := flush_pending in
    SendJsonRPC (Request JNull "mining.notify" (PArray (map OJson jobParams))).

(** [sc.JobManager.CurrentJob.GetJobParams(force)] *)
Definition current_job_params (t : moment) (force : bool) : M (list json) :=
  act! jm := job_manager in
  match current_job jm with
  | Some j => ret (GetJobParams (m_unix t) j force)
  | None => panic "nil pointer dereference"
  end.

Definition HandleSubscribe (q : JsonRpcRequest) : M unit :=
  act! c := client in
  act! _ := (if c_IsAuthorized c then ret tt else set_client (with_SubscriptionBeforeAuth true)) in
  act! jm := job_manager in
  let id := FormatUint (le_value (take 8 (c_SubscriptionId c))) in
  SendJsonRPC (Response (q_Id q)
    (Some (JArr [ JArr [ JArr [JStr "mining.set_difficulty"; JStr id]; JArr [JStr "mining.notify"; JStr id] ];
            JStr (hex_encode (default [] (c_ExtraNonce1 c)));
            JNum (FormatInt (jm_ExtraNonce2Size jm)) ])) None).

(** authorized, disconnect, err *)
Definition AuthorizeFn (ip : string) (port : Z) (workerName password : string)
  : bool * bool * option string := (true, false, None).
(** [string(utils.Jsonify(err))]; an error value has no exported fields. *)
Definition error_json (err : option string) : string := match err with None => "null" | Some _ => "{}" end.

Definition HandleAuthorize (t : moment) (q : JsonRpcRequest) (replyToSocket : bool) : M unit :=
  match ParamsArray q with
  | p0 :: p1 :: _ =>
      act! _ := set_client (fun c => with_WorkerPass (RawJsonToString p1)
                                       (with_WorkerName (RawJsonToString p0) c)) in
      act! c := client in
      let port := so_LocalPort (c_Socket c) in
      let '(authorized, disconnect, err) :=
        AuthorizeFn (c_RemoteAddress c) port (c_WorkerName c) (c_WorkerPass c) in
      let ok := match err with None => authorized | Some _ => false end in
      act! _ := set_client (with_IsAuthorized ok) in
      act! _ :=
        (if replyToSocket then
           SendJsonRPC (Response (q_Id q) (Some (JBool ok))
             (if ok then None else rpc_error 20 (error_json err)))
         else ret tt) in
      act! _ := (if disconnect then act! _ := close_socket in send_closed_event else ret tt) in
      match port_options port with
      | None => panic "nil pointer dereference"
      | Some p =>
          act! diff := of_result (NewBigFloat (po_Diff p)) in
          act! _ := SendDifficulty diff in
          act! params := current_job_params t true in
          SendMiningJob t params
      end
  | _ => ret tt
  end.

(** [sc.EnqueueNextDifficulty] *)
Definition EnqueueNextDifficulty (nextDiff : float64) : M bool :=
  act! d := of_result (NewBigFloat nextDiff) in
  act! _ := set_client (with_PendingDifficulty (Some d)) in
  ret true.

(** An authorized client always has a current difficulty (see ClientSpec); a nil
    one is dereferenced. *)
Definition current_difficulty : M bigfloat :=
  act! c := client in
  match c_CurrentDifficulty c with
  | Some d => ret d
  | None => panic "nil pointer dereference"
  end.

(** The vardiff step of a submission. *)
Definition vardiff_step (t : moment) : M unit :=
  act! c := client in
  match c_VarDiff c with
  | None => ret tt
  | Some vd =>
      act! d := current_difficulty in
      let diff := Float64 d in
      act! r := of_result (CalcNextDiff (m_unix t) diff vd) in
      let '(nextDiff, vd) := r in
      act! _ := set_client (with_VarDiff (Some vd)) in
      if negb (feqb nextDiff diff) && negb (feqb nextDiff fzero)
      then act! _ := EnqueueNextDifficulty nextDiff in ret tt
      else ret tt
  end.

(** [JobManager.ProcessSubmit] and [ProcessShare] on the shared manager. *)
Definition process_submit (t : moment) (diff : bigfloat) (extraNonce1 : bytes)
    (jobId en2 ntime nonce worker : string) : M Share :=
  act! c := client in
  act! jm := job_manager in
  act! r := of_result (ProcessSubmit algs (m_unix t) jm jobId (c_PreviousDifficulty c) diff
                         extraNonce1 en2 ntime nonce (c_RemoteAddress c) worker) in
  let '(share, jm) := r in
  act! _ := set_jm jm in
  act! r := of_result (ProcessShare (m_daemon t) (m_unix t) (m_random t) share jm) in
  let '(jm, events) := r in
  act! _ := set_jm jm in
  act! _ := emit events in
  ret share.

(** Refusing a submission before it is processed. *)
Definition refuse (t : moment) (q : JsonRpcRequest) (code : Z) (msg : string) : M unit :=
  act! _ := SendJsonRPC (Response (q_Id q) None (rpc_error code msg)) in
  act! _ := ShouldBan t false in
  ret tt.

Definition HandleSubmit (t : moment) (q : JsonRpcRequest) : M unit :=
  act! c := client in
  if negb (c_IsAuthorized c) then refuse t q 24 "unauthorized worker"
  else
    match c_ExtraNonce1 c with
    | None => refuse t q 25 "not subscribed"
    | Some extraNonce1 =>
        match ParamsArray q with
        | p0 :: p1 :: p2 :: p3 :: p4 :: _ =>
            act! diff := current_difficulty in
            act! share := process_submit t diff extraNonce1 (RawJsonToString p1) (RawJsonToString p2)
                            (RawJsonToString p3) (RawJsonToString p4) (RawJsonToString p0) in
            act! _ :=
              (if s_ErrorCode share =? ErrLowDiffShare then
                 SendJsonRPC (Request JNull "mining.set_difficulty" (PArray [OFloat (Float64 diff)]))
               else ret tt) in
            act! _ :=
              (if s_ErrorCode share =? ErrNTimeOutOfRange then
                 act! params := current_job_params t true in SendMiningJob t params
               else ret tt) in
            act! _ := vardiff_step t in
            act! _ := flush_pending in
            act! banned := ShouldBan t (s_ErrorCode share =? 0) in
            if (banned : bool) then ret tt
            else
              act! _ :=
                (if s_ErrorCode share =? 0 then ret tt
                 else SendJsonRPC (Response (q_Id q) (Some (JBool false))
                        (rpc_error (s_ErrorCode share) (ErrorWrap_String (s_ErrorCode share))))) in
              SendJsonRPC (Response (q_Id q) (Some (JBool true)) None)
        | _ => refuse t q 24 "malformed submit params"
        end
    end.

(** [HandleMessage] of a client without an engine. *)
Definition HandleMessage_gbt (t : moment) (q : JsonRpcRequest) : M unit :=
  if String.eqb (q_Method q) "mining.subscribe" then HandleSubscribe q
  else if String.eqb (q_Method q) "mining.authorize" then HandleAuthorize t q true
  else if String.eqb (q_Method q) "mining.submit" then
    act! _ := set_client (with_LastActivity (m_nanos t)) in
    HandleSubmit t q
  else if String.eqb (q_Method q) "mining.get_transactions" then
    SendJsonRPC (Response (JNum "0") None None)
  else ret tt.

Definition ManuallyAuthClient (t : moment) (username password : string) : M unit :=
  HandleAuthorize t (mkRequest (JNum "1") "" (Some (JArr [JStr username; JStr password]))) false.
Definition ManuallySetValues (otherClient : Client) : M unit :=
  set_client (fun c => with_CurrentDifficulty (c_CurrentDifficulty otherClient)
    (with_PreviousDifficulty (c_PreviousDifficulty otherClient)
    (with_ExtraNonce1 (c_ExtraNonce1 otherClient) c))).

Definition GetLabel (c : Client) : string :=
  if negb (String.eqb (c_WorkerName c) "")
  then c_WorkerName c ++ " [" ++ c_RemoteAddress c ++ "]"
  else "(unauthorized)" ++ " [" ++ c_RemoteAddress c ++ "]".

(** *** The reading loop of [SetupSocket] *)

(** One result of [ReadBytes]: the line and what [json.Unmarshal] makes of it,
    or the error. *)
Inductive read_result :=
| ReadLine (raw : string) (message : option JsonRpcRequest)
| ReadEOF
| ReadNonNetwork
| ReadTimeout
| ReadTemporary
| ReadOther.

(** [net.ResolveTCPAddr], which may query the resolver. *)
Variable resolve : string -> option string.

Definition CheckBan_client (t : moment) : M bool :=
  act! c := client in with_bans (CheckBan (m_nanos t) (c_RemoteAddress c)).

(** One turn of the loop: whether the loop goes on, and with which [once]. *)
Definition read_step (handle : moment -> JsonRpcRequest -> M unit) (t : moment) (once : bool)
    (r : read_result) : M (option bool) :=
  match r with
  | ReadEOF => act! _ := send_closed_event in ret None
  | ReadNonNetwork | ReadTimeout | ReadOther => ret None
  | ReadTemporary => ret (Some once)
  | ReadLine raw msg =>
      if 10240 <? slen raw then
        act! _ := close_socket in
        act! _ := send_closed_event in
        ret None
      else if slen raw =? 0 then ret (Some once)
      else
        match msg with
        | None =>
            if TCPProxyProtocol options then ret None
            else
              act! _ := close_socket in
              act! _ := send_closed_event in
              ret None
        | Some q =>
            act! once :=
              (if (once && TCPProxyProtocol options)%bool then
                 if HasPrefix raw "PROXY" then
                   match nth_error (Split raw " ") 2 with
                   | Some addr =>
                       act! _ := set_client (with_RemoteAddress (default "<nil>" (resolve addr))) in
                       ret false
                   | None => panic "index out of range"
                   end
                 else ret false
               else ret once) in
            act! _ := CheckBan_client t in
            act! _ := handle t q in
            ret (Some once)
        end
  end.

(** The loop over the results of the reads; the result says whether it is still
    reading.  [SetupSocket] checks the ban list first and ignores the answer. *)
Fixpoint read_loop (handle : moment -> JsonRpcRequest -> M unit) (once : bool)
    (reads : list (moment * read_result)) : M bool :=
  match reads with
  | [] => ret true
  | (t, r) :: reads' =>
      act! next := read_step handle t once r in
      match next with
      | Some once => read_loop handle once reads'
      | None => ret false
      end
  end.
Definition SetupSocket (handle : moment -> JsonRpcRequest -> M unit) (t : moment)
    (reads : list (moment * read_result)) : M bool :=
  act! _ := CheckBan_client t in
  read_loop handle true reads.
End Client_operations.
