(* ===== verification/EngineSession.v ===== *)
(** * EngineSession: src/stratum/engine.go and [HandleMessage] of src/stratum/client.go

    The path of a connection whose pool runs an engine: the session adapter, the
    work pushes, the dialects of [handleEngineMessage] and the credit given to a
    share.  The engine is whatever object the world holds. *)
From Stdlib Require Import ZArith Lia List Strings.Ascii Strings.String Strings.Byte Floats.SpecFloat.
From stdpp Require Import base list strings gmap.
From S2P Require Import Prelude Bytes Float Strconv Types Config Algorithm Effects VarDiff Bans Engine Jobs JobManager Stratum.
Import ListNotations.
Local Open Scope string_scope.
Local Open Scope Z_scope.
Local Open Scope client_scope.

(** strings.IndexByte(s, '.') as the split it is used for *)
Definition splitWorker (workerName : string) : string * string :=
  match SplitN workerName "." 2 with
  | miner :: rig :: _ => (miner, rig)
  | _ => (workerName, "unknown")
  end.

Definition rawParamsToIface (raw : option json) : list json :=
  match raw with
  | Some (JArr l) => l
  | Some (JObj m) => [JObj m]
  | _ => []
  end.

(** [obj["login"].(string)]: the last of equal keys counts. *)
Definition login_name (params : list json) : option string :=
  match params with
  | [JObj m] =>
      match find (fun p => String.eqb (fst p) "login") (rev m) with
      | Some (_, JStr l) => Some l
      | _ => None
      end
  | _ => None
  end.

(** The adapter [engineSession] *)
Definition session_of (c : Client) : Session := {|
  ExtraNonce1 := c_ExtraNonce1 c;
  SessionDifficulty := match c_CurrentDifficulty c with Some d => Float64 d | None => fzero end;
  SessionWorkerName := c_WorkerName c;
  SessionRemoteAddr := c_RemoteAddress c |}.

(** [sc.Engine], nil outside engine mode. *)
Definition engine : M Engine := fun w =>
  match w_engine w with
  | Some e => (Done e, w)
  | None => (Panicked "nil pointer dereference", w)
  end.

Definition wantsObjectParams (e : Engine) : bool := default false (ObjectParams (eng_ops e)).

(** An empty method is a bare result with id 0. *)
Definition Send (method : string) (params : list out) : M unit :=
  if String.eqb method "" then SendJsonRPC (ResultPush (JNum "0") params)
  else
    act! e := engine in
    SendJsonRPC (Request JNull method
      (match params with
       | [p] => if wantsObjectParams e then PBare p else PArray [p]
       | _ => PArray params
       end)).

Section EngineSession_operations.
Context `{AddressCodec} `{Platform} `{PowHashes}.
Variable algs : Algorithms.
Variable options : Options.
(** Whether the client has a storage: [sc.DB != nil]. *)
Variable has_db : bool.

Definition portDefaultDiff (c : Client) : float64 :=
  match port_options options (so_LocalPort (c_Socket c)) with
  | Some p => po_Diff p
  | None => float_of_Z 1
  end.
Definition engineDiff (c : Client) : float64 :=
  match c_CurrentDifficulty c with Some d => Float64 d | None => portDefaultDiff c end.

(** The work package; [JobNotification] may change the engine. *)
Definition engineJobParams : M (option (list json)) :=
  act! c := client in
  act! e := engine in
  match JobParamsForDifficulty (eng_ops e) with
  | Some f => of_result (f (engineDiff c) (eng_self e))
  | None =>
      act! r := of_result (JobNotification (eng_ops e) true (eng_self e)) in
      let '((_, params), s) := r in
      act! _ := set_engine (with_self e s) in
      ret params
  end.

Definition sendEngineWork : M unit :=
  act! params := engineJobParams in
  match params with
  | None => ret tt
  | Some params =>
      act! c := client in
      act! e := engine in
      act! _ :=
        (match TargetParams (eng_ops e) with
         | Some f =>
             act! r := of_result (f (engineDiff c)) in
             let '(method, tParams) := r in
             if String.eqb method "" then ret tt else Send method tParams
         | None => ret tt
         end) in
      Send (default "" (NotifyMethod (eng_ops e))) (map OJson params)
  end.

Definition applyEngineVarDiff (t : moment) : M unit :=
  act! c := client in
  match c_VarDiff c, c_CurrentDifficulty c with
  | Some vd, Some cd =>
      let cur := Float64 cd in
      act! r := of_result (CalcNextDiff (m_unix t) cur vd) in
      let '(next, vd) := r in
      act! _ := set_client (with_VarDiff (Some vd)) in
      if negb (feqb next fzero) && negb (feqb next cur) then
        act! d := of_result (NewBigFloat next) in
        act! _ := set_client (fun c => with_CurrentDifficulty (Some d)
                                         (with_PreviousDifficulty (Some cd) c)) in
        sendEngineWork
      else ret tt
  | _, _ => ret tt
  end.

Definition meetsPreviousEngineDiff (c : Client) (achieved : float64) : bool :=
  match c_PreviousDifficulty c with
  | None => false
  | Some p => let prev := Float64 p in fltb fzero prev && fleb prev achieved
  end.

Definition creditedEngineDiff (c : Client) (achieved : float64) : float64 :=
  let cur := engineDiff c in
  match c_PreviousDifficulty c with
  | None => cur
  | Some p =>
      if fleb cur achieved then cur
      else
        let prev := Float64 p in
        if fltb fzero prev && fleb prev achieved then prev else cur
  end.

Definition set_names (miner rig : string) (s : Share) : Share :=
  mkShare (s_JobId s) (s_RemoteAddr s) miner rig (s_ErrorCode s) (s_BlockHeight s) (s_BlockReward s)
    (s_Diff s) (s_BlockHash s) (s_BlockHex s) (s_TxHash s).
Definition set_blockhex (hex : string) (s : Share) : Share :=
  mkShare (s_JobId s) (s_RemoteAddr s) (s_Miner s) (s_Rig s) (s_ErrorCode s) (s_BlockHeight s)
    (s_BlockReward s) (s_Diff s) (s_BlockHash s) hex (s_TxHash s).
Definition put_share (share : Share) (accepted : bool) : M unit :=
  if has_db then emit [EvPutShare share accepted] else ret tt.

(** The engine's verdict with the tolerance for the previous difficulty. *)
Definition tolerated (c : Client) (share : Share) : Share :=
  if (s_ErrorCode share =? ErrLowDiffShare) && meetsPreviousEngineDiff c (s_Diff share)
  then set_error 0 share else share.
(** What a valid share is recorded as. *)
Definition credited (c : Client) (share : Share) : Share :=
  let '(miner, rig) := splitWorker (c_WorkerName c) in
  let share := set_diff (creditedEngineDiff c (s_Diff share)) (set_names miner rig share) in
  if String.eqb (s_TxHash share) "" then set_blockhex "" share else share.

Definition engine_submit (t : moment) (q : JsonRpcRequest) : M unit :=
  act! c := client in
  if negb (c_IsAuthorized c) then
    act! _ := SendJsonRPC (Response (q_Id q) (Some (JBool false)) (rpc_error 24 "unauthorized worker")) in
    act! _ := ShouldBan options t false in
    ret tt
  else
    act! e := engine in
    act! r := of_result (OnSubmit (eng_ops e) (session_of c) (rawParamsToIface (q_Params q)) (eng_self e)) in
    let '(share, s) := r in
    act! _ := set_engine (with_self e s) in
    let share := tolerated c share in
    let valid := s_ErrorCode share =? 0 in
    act! _ :=
      (if valid then
         let share := credited c share in
         act! _ := put_share share (negb (String.eqb (s_TxHash share) "")) in
         applyEngineVarDiff t
       else
         let '(miner, rig) := splitWorker (c_WorkerName c) in
         put_share (set_names miner rig share) false) in
    act! banned := ShouldBan options t valid in
    if (banned : bool) then ret tt
    else if negb valid then
      SendJsonRPC (Response (q_Id q) (Some (JBool false))
        (rpc_error (s_ErrorCode share) (ErrorWrap_String (s_ErrorCode share))))
    else if wantsObjectParams e then
      SendJsonRPC (Response (q_Id q) (Some (JObj [("status", JStr "OK")])) None)
    else SendJsonRPC (Response (q_Id q) (Some (JBool true)) None).

(** [sc.IsAuthorized = true] and the starting difficulty. *)
Definition authorize : M unit :=
  act! c := client in
  act! _ := set_client (with_IsAuthorized true) in
  match c_CurrentDifficulty c with
  | Some _ => ret tt
  | None =>
      act! d := of_result (NewBigFloat (portDefaultDiff c)) in
      set_client (with_CurrentDifficulty (Some d))
  end.

Definition subscribe (q : JsonRpcRequest) : M (json * option bytes) :=
  act! c := client in
  act! e := engine in
  act! r := of_result (OnSubscribe (eng_ops e) (session_of c) (rawParamsToIface (q_Params q)) (eng_self e)) in
  let '((result, en1, _), s) := r in
  act! _ := set_engine (with_self e s) in
  ret (result, en1).

Definition json_params (p : option (list json)) : json := match p with Some l => JArr l | None => JNull end.

Definition handleEngineMessage (t : moment) (q : JsonRpcRequest) : M unit :=
  let meth m := String.eqb (q_Method q) m in
  let reply r := SendJsonRPC (Response (q_Id q) (Some r) None) in
  if meth "mining.subscribe" then
    act! r := subscribe q in
    act! _ := (match snd r with Some en1 => set_client (with_ExtraNonce1 (Some en1)) | None => ret tt end) in
    reply (fst r)
  else if (meth "eth_submitLogin" || meth "mining.authorize")%bool then
    act! c := client in
    act! _ :=
      (match c_ExtraNonce1 c with
       | None => act! r := subscribe q in set_client (with_ExtraNonce1 (snd r))
       | Some _ => ret tt
       end) in
    act! _ :=
      (match ParamsArray q with
       | p :: _ => set_client (with_WorkerName (RawJsonToString p))
       | [] => ret tt
       end) in
    act! _ := authorize in
    act! _ := reply (JBool true) in
    sendEngineWork
  else if meth "login" then
    act! r := subscribe q in
    act! _ := (match snd r with Some en1 => set_client (with_ExtraNonce1 (Some en1)) | None => ret tt end) in
    act! _ :=
      (match login_name (rawParamsToIface (q_Params q)) with
       | Some l => set_client (with_WorkerName l)
       | None => ret tt
       end) in
    act! _ := authorize in
    reply (fst r)
  else if meth "getjob" then
    act! params := engineJobParams in
    act! e := engine in
    reply (match params with
           | Some [p] => if wantsObjectParams e then p else JArr [p]
           | _ => json_params params
           end)
  else if meth "keepalived" then reply (JObj [("status", JStr "KEEPALIVED")])
  else if meth "eth_getWork" then act! params := engineJobParams in reply (json_params params)
  else if (meth "eth_submitWork" || meth "mining.submit" || meth "submit")%bool then engine_submit t q
  else if (meth "eth_submitHashrate" || meth "mining.extranonce.subscribe")%bool then reply (JBool true)
  else ret tt.

(** [HandleMessage] *)
Definition HandleMessage (t : moment) (q : JsonRpcRequest) : M unit := fun w =>
  match w_engine w with
  | Some _ =>
      (act! _ := set_client (with_LastActivity (m_nanos t)) in handleEngineMessage t q) w
  | None => HandleMessage_gbt algs options t q w
  end.
End EngineSession_operations.
