(* ===== verification/Server.v ===== *)
(** * Server: src/stratum/server.go

    The stratum server: the clients live in a heap ([sv_heap], a pointer being an
    index) and [StratumClients] maps subscription ids to them.  A client's action
    runs on the server's shared job manager, engine, ban list and storage. *)
From Stdlib Require Import ZArith Lia List Strings.String Strings.Byte Floats.SpecFloat.
From stdpp Require Import base list strings gmap.
From S2P Require Import Prelude Bytes Float Types Config Algorithm VarDiff Bans Engine Jobs JobManager Stratum EngineSession.
Import ListNotations.
Local Open Scope Z_scope.
Local Open Scope client_scope.

Record Server := mkServer {
  sv_heap : list Client;
  StratumClients : gmap Z nat;
  sv_counter : SubscriptionCounter;
  sv_jm : option JobManager;
  sv_engine : option Engine;
  sv_bans : BanningManager;
  sv_events : list share_event;
}.

Definition NewStratumServer (jm : option JobManager) (bm : BanningManager) : Server :=
  mkServer [] ∅ NewSubscriptionCounter jm None bm [].
(** [ss.Engine = eng] of the pool *)
Definition set_server_engine (e : option Engine) (s : Server) : Server :=
  mkServer (sv_heap s) (StratumClients s) (sv_counter s) (sv_jm s) e (sv_bans s) (sv_events s).
(** A template the pool hands to the job manager *)
Definition set_server_jm (jm : JobManager) (s : Server) : Server :=
  mkServer (sv_heap s) (StratumClients s) (sv_counter s) (Some jm) (sv_engine s) (sv_bans s) (sv_events s).
Definition set_clients (m : gmap Z nat) (s : Server) : Server :=
  mkServer (sv_heap s) m (sv_counter s) (sv_jm s) (sv_engine s) (sv_bans s) (sv_events s).

Definition world_of (c : Client) (s : Server) : world :=
  mkWorld c (sv_jm s) (sv_engine s) (sv_bans s) (sv_events s).
Definition put_world (p : nat) (w : world) (s : Server) : Server :=
  mkServer (<[p := w_client w]> (sv_heap s)) (StratumClients s) (sv_counter s)
    (w_jm w) (w_engine w) (w_bans w) (w_events w).
(** A client's action; a dangling pointer does not occur. *)
Definition run_client {A} (p : nat) (m : M A) (s : Server) : outcome A * Server :=
  match sv_heap s !! p with
  | Some c => let '(o, w) := m (world_of c s) in (o, put_world p w s)
  | None => (Panicked "nil pointer dereference", s)
  end.

Section Server_operations.
Context `{AddressCodec} `{Platform} `{PowHashes}.
Variable algs : Algorithms.
Variable options : Options.
Variable has_db : bool.
(** [snapshotClients]: the clients of the map in the order Go ranges over it. *)
Variable snapshotClients : gmap Z nat -> list nat.

(** The subscription id, with the client registered and its ban checked (the
    answer is ignored); the reading loop is then fed by [run_client]. *)
Definition HandleNewClient (t : moment) (random : bytes) (remote : string) (localPort : Z) (s : Server)
  : result (bytes * Server) :=
  let '(subscriptionID, counter) := Next (sv_counter s) in
  rbind (NewStratumClient options (m_unix t) (m_nanos t) random subscriptionID remote localPort (sv_jm s))
    (fun c =>
  let p := length (sv_heap s) in
  let s := mkServer (app (sv_heap s) [c]) (<[le_value (take 8 subscriptionID) := p]> (StratumClients s))
             counter (sv_jm s) (sv_engine s) (sv_bans s) (sv_events s) in
  Val (subscriptionID, snd (run_client p (CheckBan_client t) s))).

Definition clientBySubscriptionId (subscriptionId : bytes) (s : Server) : option nat :=
  StratumClients s !! le_value (take 8 subscriptionId).

Definition RemoveStratumClientBySubscriptionId (subscriptionId : bytes) (s : Server) : Server :=
  set_clients (delete (le_value (take 8 subscriptionId)) (StratumClients s)) s.

(** One client after the other; the goroutine goes no further than a client
    whose action does not return. *)
Fixpoint broadcast (m : M unit) (l : list nat) (s : Server) : outcome unit * Server :=
  match l with
  | [] => (Done tt, s)
  | p :: l' =>
      match run_client p m s with
      | (Done _, s') => broadcast m l' s'
      | (o, s') => (o, s')
      end
  end.

Definition BroadcastCurrentMiningJob (t : moment) (jobParams : list json) (s : Server)
  : outcome unit * Server :=
  broadcast (SendMiningJob options t jobParams) (snapshotClients (StratumClients s)) s.

Definition BroadcastEngineWork (s : Server) : outcome unit * Server :=
  broadcast (act! c := client in if c_IsAuthorized c then sendEngineWork options else ret tt)
    (snapshotClients (StratumClients s)) s.

(** One tick of the rebroadcast loop of [Init], with its local [id] and [txs]. *)
Definition rebroadcast_tick (t : moment) (id : string) (txs : bytes) (s : Server)
  : outcome unit * Server * (string * bytes) :=
  match j ← sv_jm s; current_job j with
  | Some j =>
      let force := (negb (String.eqb id (JobId j)) || negb (bool_decide (txs = TransactionData j)))%bool in
      (BroadcastCurrentMiningJob t (GetJobParams (m_unix t) j force) s, (JobId j, TransactionData j))
  | None => (Panicked "nil pointer dereference", s, (id, txs))
  end.

(** A request read from the connection of client [p]. *)
Definition client_message (p : nat) (t : moment) (q : JsonRpcRequest) (s : Server) : outcome unit * Server :=
  run_client p (act! _ := CheckBan_client t in HandleMessage algs options has_db t q) s.

Definition ManuallyAddStratumClient (t : moment) (random : bytes) (c : Client) (s : Server)
  : result (outcome unit * Server) :=
  rbind (HandleNewClient t random (c_RemoteAddress c) (so_LocalPort (c_Socket c)) s)
    (fun r => let '(id, s) := r in
  match clientBySubscriptionId id s with
  | Some p => Val (run_client p (act! _ := ManuallyAuthClient options t (c_WorkerName c) (c_WorkerPass c) in
                                 ManuallySetValues c) s)
  | None => Val (Done tt, s)
  end).
End Server_operations.
