(* ===== verification/ClientSpec.v ===== *)
(** * ClientSpec: the connection of a miner, verified

    Frame and invariant reasoning for the handlers of Stratum and EngineSession,
    and the properties of a connection: an unauthorized miner reaches neither
    the job manager nor the storage, what a share is credited, how a ban ends. *)
From Stdlib Require Import ZArith Lia List Strings.Ascii Strings.String Strings.Byte Floats.SpecFloat.
From stdpp Require Import base list strings gmap relations.
From S2P Require Import Prelude Bytes Float Strconv Utils Types Config Algorithm Effects Storage VarDiff Bans Engine Transactions Jobs JobManager JobManagerSpec Stratum EngineSession.
Import ListNotations.
Local Open Scope string_scope.
Local Open Scope Z_scope.
Local Open Scope client_scope.

(** ** Actions and the states they relate *)

(** [m] changes the world along [R] when it returns and along [B] when it blocks;
    nothing is said of a panic, which in a goroutine ends the process. *)
Definition keeps {A} (R B : world -> world -> Prop) (m : M A) : Prop := forall w,
  match m w with
  | (Done _, w') => R w w'
  | (Blocked, w') => B w w'
  | (Panicked _, _) => True
  end.
Class Absorbs (R B : world -> world -> Prop) : Prop := {
  absorbs_pre : PreOrder R;
  absorbs_refl w : B w w;
  absorbs_trans x y z : R x y -> B y z -> B x z;
}.
#[export] Instance absorbs_self R : PreOrder R -> Absorbs R R.
Proof. intros P. split; [done|done|]. intros x y z. apply P. Qed.
(** Nothing is said of a blocked handler. *)
Definition anything (w w' : world) : Prop := True.
#[export] Instance absorbs_anything R : PreOrder R -> Absorbs R anything.
Proof. by split. Qed.

Section Keeps.
Context (R B : world -> world -> Prop) `{!Absorbs R B}.
Local Instance keeps_pre : PreOrder R := absorbs_pre.

Lemma keeps_ret {A} (a : A) : keeps R B (ret a).
Proof. intros w. cbn. reflexivity. Qed.
Lemma keeps_panic {A} s : keeps R B (panic (A:=A) s).
Proof. by intros w. Qed.
Lemma keeps_block {A} : keeps R B (block (A:=A)).
Proof. intros w. cbn. apply absorbs_refl. Qed.
Lemma keeps_bind {A C} (m : M A) (f : A -> M C) :
  keeps R B m -> (forall a, keeps R B (f a)) -> keeps R B (mbind m f).
Proof.
  intros Hm Hf w. unfold mbind. specialize (Hm w). destruct (m w) as [[a|e|] w']; cbn in *; [|done|done].
  specialize (Hf a w'). destruct (f a w') as [[]]; [by transitivity w'|done|by eapply absorbs_trans].
Qed.
Lemma keeps_client : keeps R B client.
Proof. intros w. cbn. reflexivity. Qed.
Lemma keeps_job_manager : keeps R B job_manager.
Proof. intros w. unfold job_manager. destruct (w_jm w); cbn; [reflexivity|done]. Qed.
Lemma keeps_engine : keeps R B engine.
Proof. intros w. unfold engine. destruct (w_engine w); cbn; [reflexivity|done]. Qed.
Lemma keeps_of_result {A} (r : result A) : keeps R B (of_result r).
Proof. destruct r; [apply keeps_ret|apply keeps_panic]. Qed.
End Keeps.

(** Decomposes a handler into its primitive actions. *)
Ltac keeps_step :=
  match goal with
  | |- keeps ?R ?B (mbind _ _) => apply (keeps_bind R B); [|intros ?]
  | |- keeps ?R ?B (ret _) => apply (keeps_ret R B)
  | |- keeps ?R ?B (panic _) => apply (keeps_panic R B)
  | |- keeps ?R ?B block => apply (keeps_block R B)
  | |- keeps ?R ?B client => apply (keeps_client R B)
  | |- keeps ?R ?B job_manager => apply (keeps_job_manager R B)
  | |- keeps ?R ?B engine => apply (keeps_engine R B)
  | |- keeps ?R ?B (of_result _) => apply (keeps_of_result R B)
  | |- keeps _ _ (match ?x with _ => _ end) => destruct x
  | |- keeps _ _ (let '(_, _) := ?x in _) => destruct x
  end.
Ltac keeps_tac := repeat keeps_step.

(** ** Relations every handler keeps but for named primitives

    The primitives of a connection: an update of the client's own bookkeeping,
    a message written, the socket closed before a handler blocks. *)
Class Frame (R B : world -> world -> Prop) : Prop := {
  frame_absorbs :: Absorbs R B;
  frame_set f :
    (forall c, c_SocketClosedEvent (f c) = c_SocketClosedEvent c) ->
    (forall c, c_IsAuthorized (f c) = c_IsAuthorized c) ->
    (forall c, c_Socket (f c) = c_Socket c) ->
    (forall c, is_Some (c_CurrentDifficulty c) -> is_Some (c_CurrentDifficulty (f c))) ->
    keeps R B (set_client f);
  frame_send m : keeps R B (SendJsonRPC m);
  frame_bans {A} (f : BanningManager -> A * BanningManager) : keeps R B (with_bans f);
  frame_ban : keeps R B (mbind send_closed_event (fun _ => mbind close_socket (fun _ => ret true)));
  frame_close : keeps R B (mbind close_socket (fun _ => send_closed_event));
}.
Ltac frame_set_tac := apply frame_set; [done|done|done|by intros].

Section Handlers.
Context `{AddressCodec} `{Platform} `{PowHashes}.
Variable algs : Algorithms.
Variable options : Options.
Context (R B : world -> world -> Prop) `{!Frame R B}.

Lemma SendJsonRPC_keeps m : keeps R B (SendJsonRPC m).
Proof. apply frame_send. Qed.
Lemma ShouldBan_keeps t v : keeps R B (ShouldBan options t v).
Proof.
  unfold ShouldBan. repeat first [apply frame_bans|apply frame_ban|frame_set_tac|keeps_step].
Qed.
Lemma SendDifficulty_keeps d : keeps R B (SendDifficulty d).
Proof. unfold SendDifficulty. 
  repeat first [apply SendJsonRPC_keeps|frame_set_tac|keeps_step].
Qed.
Lemma flush_pending_keeps : keeps R B flush_pending.
Proof. unfold flush_pending. repeat first [apply SendDifficulty_keeps|frame_set_tac|keeps_step]. Qed.
Lemma SendMiningJob_keeps t l : keeps R B (SendMiningJob options t l).
Proof.
  unfold SendMiningJob. 
  repeat first [apply frame_close|apply flush_pending_keeps|apply SendJsonRPC_keeps|keeps_step].
Qed.
Lemma current_job_params_keeps t b : keeps R B (current_job_params t b).
Proof. unfold current_job_params. keeps_tac. Qed.
Lemma HandleSubscribe_keeps q : keeps R B (HandleSubscribe q).
Proof. unfold HandleSubscribe. repeat first [frame_set_tac|apply SendJsonRPC_keeps|keeps_step]. Qed.
Lemma vardiff_step_keeps t : keeps R B (vardiff_step t).
Proof.
  unfold vardiff_step, current_difficulty, EnqueueNextDifficulty. repeat first [frame_set_tac|keeps_step].
Qed.
Lemma refuse_keeps t q c m : keeps R B (refuse options t q c m).
Proof. unfold refuse. repeat first [apply SendJsonRPC_keeps|apply ShouldBan_keeps|keeps_step]. Qed.
Lemma HandleSubmit_keeps t q :
  (forall d en1 a1 a2 a3 a4 a5, keeps R B (process_submit algs t d en1 a1 a2 a3 a4 a5)) ->
  keeps R B (HandleSubmit algs options t q).
Proof.
  intros Hp. unfold HandleSubmit, current_difficulty.
  repeat first [apply refuse_keeps|apply Hp|apply SendJsonRPC_keeps|apply current_job_params_keeps
    |apply SendMiningJob_keeps|apply vardiff_step_keeps|apply flush_pending_keeps|apply ShouldBan_keeps|keeps_step].
Qed.
End Handlers.

(** ** The frames *)
Definition cl_mono (w w' : world) : Prop :=
  (c_SocketClosedEvent (w_client w) = None -> c_SocketClosedEvent (w_client w') = None) /\
  c_IsAuthorized (w_client w') = c_IsAuthorized (w_client w) /\
  (is_Some (c_CurrentDifficulty (w_client w)) -> is_Some (c_CurrentDifficulty (w_client w'))).
#[export] Instance cl_mono_pre : PreOrder cl_mono.
Proof. split; [done|]. intros x y z (A & B & C) (A' & B' & C'). split_and!; [auto|congruence|auto]. Qed.

Lemma closed_event_mono w :
  match send_closed_event w with
  | (Panicked _, _) => True
  | (_, w') => cl_mono w w' /\ w_jm w' = w_jm w /\ w_events w' = w_events w /\ w_engine w' = w_engine w
  end.
Proof.
  unfold send_closed_event, mbind, client. destruct (c_SocketClosedEvent (w_client w)) eqn:E; cbn.
  - repeat split; [congruence|done].
  - by repeat split.
Qed.

(** Neither the job manager, nor the engine, nor the storage sees anything. *)
Definition quiet (w w' : world) : Prop :=
  cl_mono w w' /\ w_jm w' = w_jm w /\ w_events w' = w_events w /\ w_engine w' = w_engine w.
#[export] Instance quiet_pre : PreOrder quiet.
Proof.
  split; [by repeat split|]. intros x y z (A & B & C & D) (A' & B' & C' & D').
  split; [by transitivity y|]. repeat split; congruence.
Qed.
Lemma quiet_set f :
  (forall c, c_SocketClosedEvent (f c) = c_SocketClosedEvent c) ->
  (forall c, c_IsAuthorized (f c) = c_IsAuthorized c) ->
  (forall c, is_Some (c_CurrentDifficulty c) -> is_Some (c_CurrentDifficulty (f c))) ->
  keeps quiet quiet (set_client f).
Proof. intros H1 H2 H3 w. cbn. split; [|done]. split_and!; cbn; [by rewrite H1|apply H2|apply H3]. Qed.
Lemma quiet_closed : keeps quiet quiet send_closed_event.
Proof. intros w. pose proof (closed_event_mono w). by destruct (send_closed_event w) as [[]]. Qed.
Lemma quiet_close : keeps quiet quiet close_socket.
Proof. by apply quiet_set. Qed.
#[export] Instance quiet_frame : Frame quiet quiet.
Proof.
  split; [apply _|intros; by apply quiet_set|intros; by apply quiet_set| | |].
  - intros A f w. unfold with_bans. destruct (f (w_bans w)). cbn. by repeat split.
  - repeat first [apply quiet_closed|apply quiet_close|keeps_step].
  - repeat first [apply quiet_closed|apply quiet_close|keeps_step].
Qed.

Lemma keeps_mono {A} (R S B C : world -> world -> Prop) (m : M A) :
  (forall w w', R w w' -> S w w') -> (forall w w', B w w' -> C w w') -> keeps R B m -> keeps S C m.
Proof. intros HRS HBC Hm w. specialize (Hm w). destruct (m w) as [[]]; auto. Qed.
Lemma frame_mono R S B C :
  Frame R B -> Absorbs S C -> (forall w w', R w w' -> S w w') -> (forall w w', B w w' -> C w w') -> Frame S C.
Proof.
  intros F A HRS HBC. split; [done|intros|intros|intros| |]; (eapply keeps_mono; [exact HRS|exact HBC|]).
  - by apply frame_set.
  - apply frame_send.
  - apply frame_bans.
  - apply frame_ban.
  - apply frame_close.
Qed.

(** The job manager moves by its own operations; shares may be stored. *)
Section Moves.
Context `{AddressCodec} `{Platform} `{PowHashes}.
Variable algs : Algorithms.
Variable options : Options.

Definition jm_moves (a b : option JobManager) : Prop :=
  match a, b with
  | Some a, Some b => rtc (jm_step algs) a b
  | None, None => True
  | _, _ => False
  end.
#[export] Instance jm_moves_pre : PreOrder jm_moves.
Proof. split; [by intros [x|]; cbn|]. intros [x|] [y|] [z|]; cbn; try done. intros. by etrans. Qed.

Definition moves (w w' : world) : Prop :=
  cl_mono w w' /\ jm_moves (w_jm w) (w_jm w') /\ w_engine w' = w_engine w.
#[export] Instance moves_pre : PreOrder moves.
Proof.
  split; [by repeat split|]. intros x y z (A & B & C) (A' & B' & C').
  split; [by transitivity y|]. split; [by transitivity (w_jm y)|congruence].
Qed.
Lemma quiet_moves w w' : quiet w w' -> moves w w'.
Proof. intros (A & B & _ & D). split; [done|]. split; [by rewrite B|done]. Qed.
#[export] Instance moves_frame : Frame moves moves.
Proof. apply (frame_mono quiet _ quiet); [apply _|apply _|apply quiet_moves..]. Qed.

Lemma ProcessShare_steps dm now random share jm jm' ev :
  ProcessShare dm now random share jm = Val (jm', ev) -> rtc (jm_step algs) jm jm'.
Proof.
  unfold ProcessShare. destruct (negb _).
  - destruct (bd_accepted dm _) as [acc tx]. destruct (bd_template dm) as [gbt|]; cbn [rbind]; [|done].
    destruct (ProcessTemplate now random gbt jm) as [jm1|] eqn:E; cbn [rbind]; [|done].
    intros Ev. apply Val_pair_inj in Ev as [<- _]. apply rtc_once. by eapply step_template.
  - intros Ev. by apply Val_pair_inj in Ev as [<- _].
Qed.

Lemma process_submit_moves t d en1 a1 a2 a3 a4 a5 :
  keeps moves moves (process_submit algs t d en1 a1 a2 a3 a4 a5).
Proof.
  intros w. unfold process_submit, mbind, client, job_manager, of_result, set_jm, emit.
  destruct (w_jm w) as [jm|] eqn:Ej; [|done].
  destruct (ProcessSubmit _ _ _ _ _ _ _ _ _ _ _ _) as [[share jm1]|] eqn:Es; [|done]. cbn.
  destruct (ProcessShare _ _ _ _ _) as [[jm2 ev]|] eqn:Ep; [|done]. cbn.
  split; [by repeat split|]. split; [|done]. cbn. rewrite Ej. cbn. eapply rtc_l; [by eapply step_submit|by eapply ProcessShare_steps].
Qed.

Lemma HandleSubmit_moves t q : keeps moves moves (HandleSubmit algs options t q).
Proof. apply HandleSubmit_keeps; [apply _|]. intros. apply process_submit_moves. Qed.
End Moves.

(** ** Authorization *)
Definition c_inv (w : world) : Prop :=
  c_SocketClosedEvent (w_client w) = None /\
  (c_IsAuthorized (w_client w) = true -> is_Some (c_CurrentDifficulty (w_client w))).
Lemma cl_mono_inv w w' : cl_mono w w' -> c_inv w -> c_inv w'.
Proof. intros (A & B & C) [I J]. split; [auto|]. rewrite B. auto. Qed.

Lemma SendDifficulty_sets d w :
  exists b w', SendDifficulty d w = (Done b, w') /\ quiet w w' /\ is_Some (c_CurrentDifficulty (w_client w')).
Proof.
  pose proof (SendDifficulty_keeps quiet quiet d w) as K. unfold SendDifficulty, mbind, client in *.
  destruct (c_CurrentDifficulty (w_client w)) as [cur|] eqn:E; [destruct (Cmp d cur)|]; cbn in *;
    do 2 eexists; (split; [reflexivity|]); (split; [exact K|]); cbn; rewrite ?E; eauto.
Qed.

(** Whatever an authorization ends in, the client's invariant holds and only
    the client changed. *)
Definition auth_frame (w w' : world) : Prop :=
  (c_inv w -> c_inv w') /\ w_jm w' = w_jm w /\ w_events w' = w_events w /\ w_engine w' = w_engine w.
#[export] Instance auth_frame_pre : PreOrder auth_frame.
Proof.
  split; [intros w; split; done|]. intros x y z (A & B & C & D) (A' & B' & C' & D').
  split; [auto|]. split_and!; congruence.
Qed.
Lemma quiet_auth w w' : quiet w w' -> auth_frame w w'.
Proof. intros (A & B). split; [by apply cl_mono_inv|done]. Qed.

Lemma HandleAuthorize_keeps `{AddressCodec} `{Platform} options t q reply :
  keeps auth_frame auth_frame (HandleAuthorize options t q reply).
Proof.
  intros w. unfold HandleAuthorize. destruct (ParamsArray q) as [|p0 [|p1 l]]; [done|done|].
  unfold AuthorizeFn. unfold mbind at 1, set_client at 1. unfold mbind at 1, client at 1.
  unfold mbind at 1, set_client at 1. cbn [w_client w_jm w_engine w_bans w_events].
  match goal with |- context [mbind _ _ ?w0] => set (w1 := w0) end.
  assert (forall w', quiet w1 w' -> is_Some (c_CurrentDifficulty (w_client w')) -> auth_frame w w') as Hend.
  { intros w' (A & B & C & D) Hs. repeat split; [| |by rewrite B|by rewrite C|by rewrite D].
    - apply A. match goal with I : c_inv w |- _ => apply I end.
    - done. }
  unfold mbind at 1.
  match goal with |- context [?m w1] => assert (Hr : keeps quiet quiet m) end.
  { destruct reply; [apply SendJsonRPC_keeps; apply _|apply (keeps_ret quiet quiet)]. }
  specialize (Hr w1). match goal with |- context [?m w1] => destruct (m w1) as [[[]|e|] w2] eqn:E2 end; [|done|].
  2:{ destruct reply; cbn in E2; discriminate. }
  unfold mbind at 1, ret at 1. destruct (port_options options _) as [po|]; [|done].
  unfold mbind at 1, of_result at 1. destruct (NewBigFloat (po_Diff po)) as [d|]; [|done]. unfold ret at 1.
  unfold mbind at 1. destruct (SendDifficulty_sets d w2) as (b & w3 & -> & Q3 & S3).
  match goal with |- match ?m w3 with _ => _ end => assert (K : keeps quiet quiet m) end.
  { apply (keeps_bind quiet quiet); [apply current_job_params_keeps|intros; apply SendMiningJob_keeps]; apply _. }
  specialize (K w3). destruct (mbind _ _ w3) as [[]]; [|done|];
    (apply Hend; [transitivity w2; [done|]; by transitivity w3|by apply K]).
Qed.

(** ** The engine path *)

(** What the server asks of an engine beside checking a share: to subscribe a
    session, and for the work to push.  An object that is asked nothing else gets
    from one state to another by these calls. *)
Inductive serves : Engine -> Engine -> Prop :=
| serves_subscribe e s ps r st :
    OnSubscribe (eng_ops e) s ps (eng_self e) = Val (r, st) -> serves e (with_self e st)
| serves_work e b r st :
    JobNotification (eng_ops e) b (eng_self e) = Val (r, st) -> serves e (with_self e st).
Definition eng_serves (a b : option Engine) : Prop :=
  match a, b with
  | Some a, Some b => rtc serves a b
  | None, None => True
  | _, _ => False
  end.
#[export] Instance eng_serves_pre : PreOrder eng_serves.
Proof. split; [by intros [x|]; cbn|]. intros [x|] [y|] [z|]; cbn; try done. intros. by etrans. Qed.

(** The engine may serve, the job manager and the storage do not change. *)
Definition eng_quiet (w w' : world) : Prop :=
  cl_mono w w' /\ w_jm w' = w_jm w /\ w_events w' = w_events w /\ eng_serves (w_engine w) (w_engine w').
#[export] Instance eng_quiet_pre : PreOrder eng_quiet.
Proof.
  split; [by repeat split|]. intros x y z (A & B & C & D) (A' & B' & C' & D').
  split; [by transitivity y|]. split; [congruence|]. split; [congruence|by transitivity (w_engine y)].
Qed.
Lemma quiet_eng w w' : quiet w w' -> eng_quiet w w'.
Proof. intros (A & B & C & D). split_and!; [done..|]. by rewrite D. Qed.
#[export] Instance eng_quiet_frame : Frame eng_quiet eng_quiet.
Proof. apply (frame_mono quiet _ quiet); [apply _|apply _|apply quiet_eng..]. Qed.

(** The same along an authorization. *)
Definition eng_auth (w w' : world) : Prop :=
  (c_inv w -> c_inv w') /\ w_jm w' = w_jm w /\ w_events w' = w_events w /\ eng_serves (w_engine w) (w_engine w').
#[export] Instance eng_auth_pre : PreOrder eng_auth.
Proof.
  split; [intros w; split; done|]. intros x y z (A & B & C & D) (A' & B' & C' & D').
  split; [auto|]. split; [congruence|]. split; [congruence|by transitivity (w_engine y)].
Qed.
Lemma eng_quiet_auth w w' : eng_quiet w w' -> eng_auth w w'.
Proof. intros (A & B). split; [by apply cl_mono_inv|done]. Qed.
Lemma auth_frame_eng w w' : auth_frame w w' -> eng_auth w w'.
Proof. intros (A & B & C & D). split_and!; [done..|]. by rewrite D. Qed.

Section EngineFrames.
Context `{AddressCodec} `{Platform} `{PowHashes}.
Variable algs : Algorithms.
Variable options : Options.
Variable has_db : bool.

Lemma engineJobParams_keeps : keeps eng_quiet eng_quiet (engineJobParams options).
Proof.
  intros w. unfold engineJobParams, mbind, client, engine. destruct (w_engine w) as [e|] eqn:E; [|done].
  destruct (JobParamsForDifficulty (eng_ops e)) as [f|].
  - unfold of_result. destruct (f _ _); cbn; [|done]. reflexivity.
  - destruct (JobNotification (eng_ops e) true (eng_self e)) as [[[m params] st]|] eqn:N; cbn; [|done].
    split_and!; [by repeat split|done|done|]. rewrite E. cbn. apply rtc_once. by eapply serves_work.
Qed.
Lemma Send_keeps m l : keeps eng_quiet eng_quiet (Send m l).
Proof. unfold Send. repeat first [apply SendJsonRPC_keeps; apply _|keeps_step]. Qed.
Lemma sendEngineWork_keeps : keeps eng_quiet eng_quiet (sendEngineWork options).
Proof. unfold sendEngineWork. repeat first [apply engineJobParams_keeps|apply Send_keeps|keeps_step]. Qed.
Lemma subscribe_keeps q : keeps eng_quiet eng_quiet (subscribe q).
Proof.
  intros w. unfold subscribe, mbind, client, engine. destruct (w_engine w) as [e|] eqn:E; [|done].
  destruct (OnSubscribe (eng_ops e) _ _ (eng_self e)) as [[[[r en] n] st]|] eqn:N; cbn; [|done].
  split_and!; [by repeat split|done|done|]. rewrite E. cbn. apply rtc_once. by eapply serves_subscribe.
Qed.
Lemma applyEngineVarDiff_keeps t : keeps eng_quiet eng_quiet (applyEngineVarDiff options t).
Proof. unfold applyEngineVarDiff. repeat first [apply sendEngineWork_keeps|frame_set_tac|keeps_step]. Qed.

Lemma authorize_keeps : keeps eng_auth eng_auth (authorize options).
Proof.
  intros w. unfold authorize, mbind, client, set_client, of_result. cbn.
  destruct (c_CurrentDifficulty (w_client w)) as [d|] eqn:E; cbn.
  - split; [|by split_and!]. intros [I J]. split; [done|]. intros _. cbn. rewrite E. eauto.
  - destruct (NewBigFloat _) as [d|]; cbn; [|done]. split; [|by split_and!].
    intros [I J]. split; [done|]. intros _. cbn. eauto.
Qed.

Ltac eng_step :=
  first [apply authorize_keeps
    |eapply keeps_mono; [apply eng_quiet_auth|apply eng_quiet_auth|
       first [apply subscribe_keeps|apply engineJobParams_keeps|apply sendEngineWork_keeps
             |apply SendJsonRPC_keeps; apply _|frame_set_tac]]
    |keeps_step].

(** Every message of an engine client but a submission keeps the frame. *)
Lemma handleEngineMessage_keeps t q w :
  match engine_submit options has_db t q w with (Panicked _, _) => True | (_, w') => eng_auth w w' end ->
  match handleEngineMessage options has_db t q w with (Panicked _, _) => True | (_, w') => eng_auth w w' end.
Proof.
  intros Hs. unfold handleEngineMessage. cbv zeta.
  repeat match goal with
  | |- match (if ?b then _ else _) w with _ => _ end => destruct b
  end; try exact Hs;
  match goal with |- match ?m w with _ => _ end =>
    assert (K : keeps eng_auth eng_auth m) by (repeat eng_step); exact (K w)
  end.
Qed.

(** A submission of a client that is not authorized is refused. *)
Lemma engine_submit_unauthorized t q w :
  c_IsAuthorized (w_client w) = false ->
  match engine_submit options has_db t q w with (Panicked _, _) => True | (_, w') => quiet w w' end.
Proof.
  intros Ha. unfold engine_submit. unfold mbind at 1, client at 1. rewrite Ha. cbn [negb].
  match goal with |- match ?m w with _ => _ end => assert (K : keeps quiet quiet m) end.
  { repeat first [apply SendJsonRPC_keeps; apply _|apply ShouldBan_keeps; apply _|keeps_step]. }
  exact (K w).
Qed.
Lemma HandleSubmit_unauthorized t q w :
  c_IsAuthorized (w_client w) = false ->
  match HandleSubmit algs options t q w with (Panicked _, _) => True | (_, w') => quiet w w' end.
Proof.
  intros Ha. unfold HandleSubmit. unfold mbind at 1, client at 1. rewrite Ha. cbn [negb].
  exact (refuse_keeps options quiet quiet t q 24 "unauthorized worker" w).
Qed.
End EngineFrames.


(** ** An unauthorized miner *)
Definition submits (q : JsonRpcRequest) : bool :=
  String.eqb (q_Method q) "mining.submit" || String.eqb (q_Method q) "submit" ||
  String.eqb (q_Method q) "eth_submitWork".

Section Unauthorized.
Context `{AddressCodec} `{Platform} `{PowHashes}.

Lemma HandleMessage_unauthorized algs options has_db t q w :
  c_IsAuthorized (w_client w) = false ->
  match HandleMessage algs options has_db t q w with (Panicked _, _) => True | (_, w') => eng_auth w w' end.
Proof.
  intros Ha. unfold HandleMessage. destruct (w_engine w) as [e|] eqn:Ee.
  - unfold mbind at 1, set_client at 1.
    match goal with |- context [handleEngineMessage _ _ _ _ ?w0] => set (w1 := w0) end.
    apply (handleEngineMessage_keeps options has_db t q w1).
    pose proof (engine_submit_unauthorized options has_db t q w1 Ha) as K.
    destruct (engine_submit _ _ _ _ w1) as [[]]; [|done|]; by apply eng_quiet_auth, quiet_eng.
  - unfold HandleMessage_gbt. destruct (String.eqb _ _).
    { eapply keeps_mono; [apply eng_quiet_auth|apply eng_quiet_auth|apply HandleSubscribe_keeps; apply _]. }
    destruct (String.eqb _ _).
    { eapply keeps_mono; [apply auth_frame_eng|apply auth_frame_eng|apply HandleAuthorize_keeps]. }
    destruct (String.eqb _ _).
    { unfold mbind at 1, set_client at 1.
      match goal with |- context [HandleSubmit _ _ _ _ ?w0] => set (w1 := w0) end.
      pose proof (HandleSubmit_unauthorized algs options t q w1 Ha) as K.
      destruct (HandleSubmit _ _ _ _ w1) as [[]]; [|done|]; by apply eng_quiet_auth, quiet_eng. }
    destruct (String.eqb _ _); [|cbn; reflexivity].
    eapply keeps_mono; [apply eng_quiet_auth|apply eng_quiet_auth|apply SendJsonRPC_keeps; apply _].
Qed.
(** Of its submissions the engine hears nothing. *)
Lemma submission_unauthorized algs options has_db t q w :
  c_IsAuthorized (w_client w) = false -> submits q = true ->
  match HandleMessage algs options has_db t q w with (Panicked _, _) => True | (_, w') => w_engine w' = w_engine w end.
Proof.
  intros Ha Hq. unfold HandleMessage, submits in *. destruct (w_engine w) as [e|] eqn:Ee.
  - unfold mbind at 1, set_client at 1.
    match goal with |- context [handleEngineMessage _ _ _ _ ?w0] => set (w1 := w0) end.
    pose proof (engine_submit_unauthorized options has_db t q w1 Ha) as K.
    assert (handleEngineMessage options has_db t q w1 = engine_submit options has_db t q w1) as ->.
    { apply orb_prop in Hq as [[Hq|Hq]%orb_prop|Hq]; apply String.eqb_eq in Hq; unfold handleEngineMessage; rewrite Hq; done. }
    destruct (engine_submit _ _ _ _ w1) as [[] w2]; [|done|]; unfold quiet in K; destruct K as (_ & _ & _ & K); rewrite K; exact Ee.
  - pose proof (HandleMessage_unauthorized algs options has_db t q w Ha) as K. unfold HandleMessage in K. rewrite Ee in K.
    destruct (HandleMessage_gbt _ _ _ _ w) as [[] w']; [|done|]; destruct K as (_ & _ & _ & K); rewrite Ee in K;
      by destruct (w_engine w').
Qed.

(** C17: a miner that has not authorized cannot make the pool do work.  Whatever
    message it sends, in either mode, and unless the handler panics, the job
    manager is left as it is, no share is stored or submitted to a daemon, and an
    engine is asked for nothing but to subscribe the session and for the work to
    push; and the engine is not touched at all by a submission, whichever of its
    names it comes under, so no share reaches the engine's [OnSubmit], which is
    where an engine submits to its node. *)
Theorem unauthorized_no_effect algs options has_db t q w o w' :
  c_IsAuthorized (w_client w) = false ->
  HandleMessage algs options has_db t q w = (o, w') -> (forall e, o <> Panicked e) ->
  w_jm w' = w_jm w /\ w_events w' = w_events w /\ eng_serves (w_engine w) (w_engine w') /\
  (submits q = true -> w_engine w' = w_engine w).
Proof.
  intros Ha E Ho. pose proof (HandleMessage_unauthorized algs options has_db t q w Ha) as K.
  pose proof (submission_unauthorized algs options has_db t q w Ha) as K2.
  rewrite E in K, K2. destruct o as [[]|e|]; [|by destruct (Ho e)|]; destruct K as (_ & A & B & C); by split_and!.
Qed.
End Unauthorized.

(** ** What a miner is told *)

(** As long as the handler returns, the socket stays as open as it was and only
    gains messages. *)
Definition talks (w w' : world) : Prop :=
  c_SocketClosedEvent (w_client w) = None ->
  c_SocketClosedEvent (w_client w') = None /\
  so_Closed (c_Socket (w_client w')) = so_Closed (c_Socket (w_client w)) /\
  exists l, so_Sent (c_Socket (w_client w')) = (so_Sent (c_Socket (w_client w)) ++ l)%list.
#[export] Instance talks_pre : PreOrder talks.
Proof.
  split.
  - intros w N. split_and!; [done|done|]. exists []. by rewrite app_nil_r.
  - intros x y z A B N. destruct (A N) as (N1 & C1 & l1 & E1). destruct (B N1) as (N2 & C2 & l2 & E2).
    split_and!; [done|congruence|]. exists (l1 ++ l2)%list. by rewrite E2, E1, app_assoc.
Qed.
Lemma talks_refl_socket w w' :
  c_SocketClosedEvent (w_client w') = c_SocketClosedEvent (w_client w) ->
  c_Socket (w_client w') = c_Socket (w_client w) -> talks w w'.
Proof. intros E1 E2 N. rewrite E1, E2. split_and!; [done|done|]. exists []. by rewrite app_nil_r. Qed.
#[export] Instance talks_frame : Frame talks anything.
Proof.
  split; [apply _| | | | |].
  - intros f Hf1 _ Hf3 _ w. apply talks_refl_socket; [apply Hf1|apply Hf3].
  - intros m w. cbn. intros N. cbn. unfold socket_write.
    destruct (so_Closed (c_Socket (w_client w))) eqn:E; cbn; (split_and!; [done|done|]).
    + exists []. by rewrite app_nil_r.
    + by eexists.
  - intros A f w. unfold with_bans. destruct (f (w_bans w)). by apply talks_refl_socket.
  - intros w. unfold mbind, send_closed_event, client. unfold mbind.
    destruct (c_SocketClosedEvent (w_client w)) as [n|] eqn:E; cbn; [|done]. intros N. congruence.
  - intros w. unfold mbind, send_closed_event, close_socket, client, mbind, set_client. cbn.
    destruct (c_SocketClosedEvent (w_client w)) as [n|] eqn:E; cbn; [|done]. intros N. congruence.
Qed.

Section Answers.
Context `{AddressCodec} `{Platform} `{PowHashes}.
Variable algs : Algorithms.
Variable options : Options.

Lemma process_submit_talks t d en1 a1 a2 a3 a4 a5 :
  keeps talks anything (process_submit algs t d en1 a1 a2 a3 a4 a5).
Proof.
  intros w. unfold process_submit, mbind, client, job_manager, of_result, set_jm, emit.
  destruct (w_jm w) as [jm|] eqn:Ej; [|done].
  destruct (ProcessSubmit _ _ _ _ _ _ _ _ _ _ _ _) as [[share jm1]|] eqn:Es; [|done]. cbn.
  destruct (ProcessShare _ _ _ _ _) as [[jm2 ev]|] eqn:Ep; [|done]. by apply talks_refl_socket.
Qed.

(** What a submission does once its share is processed. *)
Definition after_share (t : moment) (q : JsonRpcRequest) (diff : bigfloat) (share : Share) : M unit :=
  act! _ :=
    (if s_ErrorCode share =? ErrLowDiffShare then
       SendJsonRPC (Request JNull "mining.set_difficulty" (PArray [OFloat (Float64 diff)]))
     else ret tt) in
  act! _ :=
    (if s_ErrorCode share =? ErrNTimeOutOfRange then
       act! params := current_job_params t true in SendMiningJob options t params
     else ret tt) in
  act! _ := vardiff_step t in
  flush_pending.

Lemma after_share_talks t q d share : keeps talks anything (after_share t q d share).
Proof.
  unfold after_share.
  repeat first [apply frame_send|apply current_job_params_keeps; apply _|apply SendMiningJob_keeps; apply _
    |apply vardiff_step_keeps; apply _|apply flush_pending_keeps; apply _|keeps_step].
Qed.

Lemma mbind_run {A B} (m : M A) (f : A -> M B) w :
  mbind m f w = match m w with
                | (Done a, w') => f a w'
                | (Panicked e, w') => (Panicked e, w')
                | (Blocked, w') => (Blocked, w')
                end.
Proof. reflexivity. Qed.

Lemma HandleSubmit_eq t q w en1 d a0 a1 a2 a3 a4 rest :
  c_IsAuthorized (w_client w) = true -> c_ExtraNonce1 (w_client w) = Some en1 ->
  c_CurrentDifficulty (w_client w) = Some d -> ParamsArray q = a0 :: a1 :: a2 :: a3 :: a4 :: rest ->
  HandleSubmit algs options t q w =
    (act! share := process_submit algs t d en1 (RawJsonToString a1) (RawJsonToString a2)
                     (RawJsonToString a3) (RawJsonToString a4) (RawJsonToString a0) in
     act! _ := after_share t q d share in
     act! banned := ShouldBan options t (s_ErrorCode share =? 0) in
     if (banned : bool) then ret tt
     else
       act! _ := (if s_ErrorCode share =? 0 then ret tt
                  else SendJsonRPC (Response (q_Id q) (Some (JBool false))
                         (rpc_error (s_ErrorCode share) (ErrorWrap_String (s_ErrorCode share))))) in
       SendJsonRPC (Response (q_Id q) (Some (JBool true)) None)) w.
Proof.
  intros Ha He Hc Hp. unfold HandleSubmit, current_difficulty.
  unfold mbind at 1, client at 1. rewrite Ha, He, Hp. cbn [negb].
  unfold mbind at 1 2, client at 1. rewrite Hc. unfold ret at 1.
  rewrite !(mbind_run (process_submit _ _ _ _ _ _ _ _ _)).
  destruct (process_submit _ _ _ _ _ _ _ _ _ w) as [[share|e|] w1]; [|done|done].
  unfold after_share.
  generalize (if s_ErrorCode share =? ErrLowDiffShare
    then SendJsonRPC (Request JNull "mining.set_difficulty" (PArray [OFloat (Float64 d)])) else ret tt) as m1.
  generalize (if s_ErrorCode share =? ErrNTimeOutOfRange
    then act! params := current_job_params t true in SendMiningJob options t params else ret tt) as m2.
  intros m2 m1. unfold mbind.
  destruct (m1 w1) as [[[]|e|] w2]; [|done|done]. destruct (m2 w2) as [[[]|e|] w3]; [|done|done].
  by destruct (vardiff_step t w3) as [[[]|e|] w4].
Qed.

(** A rejected share is answered twice: whenever the handler of a rejected
    submission returns on an open connection, the last two messages written are
    a response with the error and the result false, and a second response to the
    same request with the result true. *)
Theorem rejected_share_answered_twice t q w w' en1 d a0 a1 a2 a3 a4 rest share w1 :
  c_SocketClosedEvent (w_client w) = None -> so_Closed (c_Socket (w_client w)) = false ->
  c_IsAuthorized (w_client w) = true -> c_ExtraNonce1 (w_client w) = Some en1 ->
  c_CurrentDifficulty (w_client w) = Some d -> ParamsArray q = a0 :: a1 :: a2 :: a3 :: a4 :: rest ->
  process_submit algs t d en1 (RawJsonToString a1) (RawJsonToString a2) (RawJsonToString a3)
    (RawJsonToString a4) (RawJsonToString a0) w = (Done share, w1) ->
  s_ErrorCode share <> 0 ->
  HandleSubmit algs options t q w = (Done tt, w') ->
  exists l, so_Sent (c_Socket (w_client w')) =
    (so_Sent (c_Socket (w_client w)) ++ l ++
     [Response (q_Id q) (Some (JBool false)) (rpc_error (s_ErrorCode share) (ErrorWrap_String (s_ErrorCode share)));
      Response (q_Id q) (Some (JBool true)) None])%list.
Proof.
  intros Hn Ho Ha He Hc Hp Hs Herr Hh. rewrite (HandleSubmit_eq t q w en1 d a0 a1 a2 a3 a4 rest) in Hh by done.
  pose proof (process_submit_talks t d en1 (RawJsonToString a1) (RawJsonToString a2) (RawJsonToString a3)
    (RawJsonToString a4) (RawJsonToString a0) w) as K1.
  unfold mbind at 1 in Hh. rewrite Hs in Hh, K1. apply Z.eqb_neq in Herr. rewrite Herr in Hh.
  pose proof (after_share_talks t q d share w1) as K2. unfold mbind at 1 in Hh.
  destruct (after_share t q d share w1) as [[[]|e|] w2]; [|discriminate|discriminate].
  pose proof (ShouldBan_keeps options talks anything t false w2) as K3. unfold mbind at 1 in Hh.
  destruct (ShouldBan options t false w2) as [[b|e|] w3] eqn:Eb; [|discriminate|discriminate].
  pose proof (transitivity K1 (transitivity K2 K3)) as K. destruct (K Hn) as (N3 & C3 & l & E3).
  assert (b = false) as ->.
  { destruct b; [|done]. exfalso. clear -Eb K1 K2 Hn. destruct (transitivity K1 K2 Hn) as (N2 & _).
    revert Eb. unfold ShouldBan, mbind, client, set_client. cbn. destruct (Banning options) as [bo|]; [|discriminate].
    destruct (b_CheckThreshold bo <=? _); [|discriminate]. destruct (fltb _ _); [discriminate|].
    unfold send_closed_event, mbind, client, with_bans. cbn. rewrite N2. discriminate. }
  unfold mbind, SendJsonRPC, set_client in Hh. cbn in Hh. injection Hh as <-. cbn.
  unfold socket_write. rewrite C3, Ho. cbn. exists l. rewrite E3, <- !app_assoc. done.
Qed.
End Answers.

(** ** Bans *)
Section Banning_spec.
Context `{AddressCodec} `{Platform} `{PowHashes}.
Variable algs : Algorithms.
Variable options : Options.

(** The counters after one more invalid share call for a ban. *)
Definition ban_due (b : BanningOptions) (s : Shares) : bool :=
  let s := mkShares (sh_Valid s) (u64 (sh_Invalid s + 1)) in
  (b_CheckThreshold b <=? TotalShares s) && negb (fltb (BadPercent s) (b_InvalidPercent b)).

(** A ban never disconnects the miner: [SocketClosedEvent] is never made, so
    when the invalid shares of a connection call for a ban the handler records
    the address and then blocks for ever before it reaches [Socket.Close]; the
    ban is keyed by the address with its port, which a new connection changes,
    and [ShouldBan] never reports one. *)
Theorem ban_blocks_before_close t w b :
  c_SocketClosedEvent (w_client w) = None -> Banning options = Some b ->
  (ban_due b (c_Shares (w_client w)) = true ->
     exists w', ShouldBan options t false w = (Blocked, w') /\
       c_Socket (w_client w') = c_Socket (w_client w) /\
       BannedIPList (w_bans w') = <[c_RemoteAddress (w_client w) := m_nanos t]> (BannedIPList (w_bans w))) /\
  (forall v, fst (ShouldBan options t v w) <> Done true).
Proof.
  intros Hn Hb. split.
  - intros Hd. unfold ban_due in Hd. zbool. eexists. split.
    + unfold ShouldBan, mbind, client, set_client, with_bans, send_closed_event, mbind, client. cbn. rewrite Hb.
      match goal with T : (_ <= _)%Z |- _ => apply Z.leb_le in T; cbn in T; rewrite T end.
      match goal with T : fltb _ _ = false |- _ => cbn in T; rewrite T end. cbn. rewrite Hn. reflexivity.
    + done.
  - intros v. unfold ShouldBan, mbind, client, set_client, with_bans, send_closed_event, mbind, client. cbn.
    destruct v; [done|]. cbn. rewrite Hb. destruct (b_CheckThreshold b <=? _); [|done].
    destruct (fltb _ _); [done|]. cbn. by rewrite Hn.
Qed.
End Banning_spec.

(** ** What an engine share is credited *)
Section Engine_credit.
Context `{AddressCodec} `{Platform} `{PowHashes}.
Variable options : Options.

Lemma credited_diff c share :
  let d := s_Diff (credited options c share) in
  d = engineDiff options c \/
  exists p, c_PreviousDifficulty c = Some p /\ d = Float64 p /\
    fltb fzero (Float64 p) = true /\ fleb (Float64 p) (s_Diff share) = true.
Proof.
  cbv zeta. unfold credited. destruct (splitWorker (c_WorkerName c)) as [miner rig].
  set (s1 := set_diff _ _). assert (s_Diff (if String.eqb (s_TxHash share) "" then set_blockhex "" s1 else s1) = s_Diff s1) as E
    by (by destruct (String.eqb _ _)).
  change (s_TxHash s1) with (s_TxHash share). rewrite E. subst s1. cbn [set_diff s_Diff].
  unfold creditedEngineDiff. destruct (c_PreviousDifficulty c) as [p|]; [|by left].
  destruct (fleb (engineDiff options c) (s_Diff share)); [by left|].
  destruct (fltb fzero (Float64 p)) eqn:E1; [|by left]. destruct (fleb (Float64 p) (s_Diff share)) eqn:E2; [|by left].
  right. by exists p.
Qed.

Lemma credited_fields c share :
  s_ErrorCode (credited options c share) = s_ErrorCode share /\
  s_TxHash (credited options c share) = s_TxHash share /\
  (s_Miner (credited options c share), s_Rig (credited options c share)) = splitWorker (c_WorkerName c) /\
  (s_TxHash share = "" -> s_BlockHex (credited options c share) = "").
Proof.
  unfold credited. destruct (splitWorker (c_WorkerName c)) as [miner rig].
  cbn [set_diff set_names s_TxHash]. destruct (String.eqb_spec (s_TxHash share) "") as [E|E];
    (split_and!; [done|done|done|]); [done|]. by intros ?.
Qed.

Definition code_ok (share : Share) : bool := s_ErrorCode share =? 0.

(** The events of a submission are the recording of its one share. *)
Lemma engine_submit_events t q w e share0 s o w' :
  c_IsAuthorized (w_client w) = true -> w_engine w = Some e ->
  OnSubmit (eng_ops e) (session_of (w_client w)) (rawParamsToIface (q_Params q)) (eng_self e) = Val (share0, s) ->
  engine_submit options true t q w = (o, w') -> (forall m, o <> Panicked m) ->
  let c := w_client w in
  let share := tolerated c share0 in
  w_events w' = (w_events w ++
    [if code_ok share then EvPutShare (credited options c share) (negb (String.eqb (s_TxHash share) ""))
     else EvPutShare (set_names (fst (splitWorker (c_WorkerName c))) (snd (splitWorker (c_WorkerName c))) share)
            false])%list.
Proof.
  intros Ha He Hs Hr Ho. cbv zeta. unfold engine_submit in Hr.
  unfold mbind at 1, client at 1 in Hr. rewrite Ha in Hr. cbn [negb] in Hr.
  unfold mbind at 1, engine at 1 in Hr. rewrite He in Hr.
  unfold mbind at 1, of_result at 1 in Hr. rewrite Hs in Hr. unfold ret at 1 in Hr.
  unfold mbind at 1, set_engine at 1 in Hr.
  set (share := tolerated (w_client w) share0) in *. fold (code_ok share) in Hr.
  match type of Hr with _ ?w0 = _ => set (w1 := w0) in * end. rewrite mbind_run in Hr.
  destruct (code_ok share) eqn:Ec.
  - unfold mbind at 1, put_share, emit in Hr.
    match type of Hr with context [applyEngineVarDiff _ _ ?w0] => set (w2 := w0) in * end.
    pose proof (applyEngineVarDiff_keeps options t w2) as K.
    assert (w_events w2 = (w_events w ++ [EvPutShare (credited options (w_client w) share)
              (negb (String.eqb (s_TxHash share) ""))])%list) as E2.
    { pose proof (proj1 (proj2 (credited_fields (w_client w) share))) as Et. subst w2. cbn [w_events]. by rewrite Et. }
    rewrite <- E2. clearbody w2.
    destruct (applyEngineVarDiff options t w2) as [[[]|m|] w3]; [|by injection Hr as <-; destruct (Ho m)|].
    2:{ injection Hr as _ <-. apply K. }
    destruct K as (_ & _ & <- & _).
    match type of Hr with ?m w3 = _ => assert (K : keeps eng_quiet eng_quiet m) end.
    { repeat first [apply ShouldBan_keeps; apply _|apply frame_send|keeps_step]. }
    specialize (K w3). rewrite Hr in K. destruct o as [a|m|]; [apply K|by destruct (Ho m)|apply K].
  - destruct (splitWorker _) as [miner rig]. unfold put_share, emit in Hr. cbn [fst snd].
    match type of Hr with ?m ?w0 = _ => assert (K : keeps eng_quiet eng_quiet m); [|specialize (K w0)] end.
    { repeat first [apply ShouldBan_keeps; apply _|apply frame_send|keeps_step]. }
    rewrite Hr in K. destruct o as [a|m|]; [apply K|by destruct (Ho m)|apply K].
Qed.

(** C18: what the engine path records.  A submission of an authorized miner
    records exactly one share, under the name and rig of the worker.  A share
    recorded as valid was accepted by the engine, or met the positive difficulty
    in force before the last retarget; it is credited an assigned difficulty, the
    current or the previous one, never more than it achieved when the engine
    checks shares against the current difficulty; and without the transaction id
    of its coinbase it carries no block, so the storage writes no block for it. *)
Theorem engine_share_credit t q w e share0 s o w' :
  c_IsAuthorized (w_client w) = true -> w_engine w = Some e ->
  OnSubmit (eng_ops e) (session_of (w_client w)) (rawParamsToIface (q_Params q)) (eng_self e) = Val (share0, s) ->
  engine_submit options true t q w = (o, w') -> (forall m, o <> Panicked m) ->
  let c := w_client w in
  exists share accepted,
    w_events w' = (w_events w ++ [EvPutShare share accepted])%list /\
    (s_Miner share, s_Rig share) = splitWorker (c_WorkerName c) /\
    (s_ErrorCode share = 0 ->
       (s_ErrorCode share0 = 0 \/ s_ErrorCode share0 = ErrLowDiffShare /\
          meetsPreviousEngineDiff c (s_Diff share0) = true) /\
       (s_Diff share = engineDiff options c \/
          exists p, c_PreviousDifficulty c = Some p /\ s_Diff share = Float64 p) /\
       ((s_ErrorCode share0 = 0 -> fleb (engineDiff options c) (s_Diff share0) = true) ->
          fleb (s_Diff share) (s_Diff share0) = true) /\
       accepted = negb (String.eqb (s_TxHash share) "")) /\
    (s_ErrorCode share <> 0 -> accepted = false /\ s_ErrorCode share = s_ErrorCode share0) /\
    (s_ErrorCode share = 0 -> accepted = false -> forall db seq, block_cmds db share accepted seq = []).
Proof.
  intros Ha He Hs Hr Ho. pose proof (engine_submit_events t q w e share0 s o w' Ha He Hs Hr Ho) as Ev.
  cbv zeta in *. set (c := w_client w) in *. set (share := tolerated c share0) in *.
  assert (s_Diff share = s_Diff share0) as Ed by (subst share; unfold tolerated; by destruct (_ && _)).
  destruct (code_ok share) eqn:Ec; do 2 eexists; (split; [exact Ev|]).
  - apply Z.eqb_eq in Ec. destruct (credited_fields c share) as (F1 & F2 & F3 & F4). rewrite F1, F2.
    split; [exact F3|]. split; [|split; [done|]].
    + intros _. split_and!; [| | |done].
      * unfold share, tolerated in Ec. destruct (s_ErrorCode share0 =? ErrLowDiffShare) eqn:El; [|by left].
        destruct (meetsPreviousEngineDiff c (s_Diff share0)) eqn:Em; [|by left].
        right. split; [by apply Z.eqb_eq|done].
      * destruct (credited_diff c share) as [E|(p & Ep & E & _)]; eauto.
      * intros Hhon. unfold credited. destruct (splitWorker _) as [miner rig].
        assert (D : fleb (creditedEngineDiff options c (s_Diff share)) (s_Diff share0) = true).
        { unfold creditedEngineDiff. rewrite Ed. unfold share, tolerated in Ec.
          destruct (fleb (engineDiff options c) (s_Diff share0)) eqn:Ef.
          { by destruct (c_PreviousDifficulty c). }
          destruct (meetsPreviousEngineDiff c (s_Diff share0)) eqn:Em.
          - unfold meetsPreviousEngineDiff in Em. destruct (c_PreviousDifficulty c) as [p|]; [|done].
            rewrite Em. by apply andb_prop in Em as [_ ?].
          - rewrite andb_false_r in Ec. by apply Hhon in Ec. }
        by destruct (String.eqb _ _).
    + intros _ Hacc db seq. apply negb_false_iff, String.eqb_eq in Hacc. unfold block_cmds. by rewrite F4.
  - apply Z.eqb_neq in Ec. cbn [set_names s_Miner s_Rig s_ErrorCode].
    split; [by destruct (splitWorker _)|]. split; [done|]. split; [|done]. intros _. split; [done|].
    unfold share, tolerated in *. by destruct (_ && _).
Qed.
End Engine_credit.

(** ** Worker names *)
Lemma split_on_head sep s cur :
  exists rest, split_on sep s cur = (cur ++ fst (fst rest)) :: snd rest /\
    (if lacks sep s then fst (fst rest) = s /\ snd rest = []
     else s = fst (fst rest) ++ String sep (snd (fst rest)) /\ lacks sep (fst (fst rest)) = true /\
          snd rest = split_on sep (snd (fst rest)) "").
Proof.
  revert cur; induction s as [|c s IH]; intros cur; cbn [split_on lacks].
  - exists ((""%string, ""%string), []). cbn. by rewrite string_app_nil_r.
  - destruct (Ascii.eqb_spec c sep) as [->|Hne]; cbn [negb andb].
    + exists ((""%string, s), split_on sep s ""). cbn. by rewrite string_app_nil_r.
    + destruct (IH (cur ++ String c "")) as ([[h tl] l] & E & R). cbn [fst snd] in *.
      exists ((String c h, tl), l). cbn [fst snd]. rewrite E, <- string_app_assoc. split; [done|].
      destruct (lacks sep s) eqn:El.
      * by destruct R as [-> ->].
      * destruct R as (-> & Hl & ->). split; [done|]. split; [|done]. cbn [lacks]. rewrite Hl.
        destruct (Ascii.eqb_spec c sep); [done|reflexivity].
Qed.

(** The engine path keys a worker's statistics as the Bitcoin path does
    exactly when the rig part of its name has no further dot: from the second
    dot on the Bitcoin path drops the rest, the engine path keeps it. *)
Theorem splitWorker_matches_gbt (w : string) :
  fst (worker_names w) = fst (splitWorker w) /\
  (worker_names w = splitWorker w <-> lacks "." (snd (splitWorker w)) = true).
Proof.
  unfold worker_names, Split, splitWorker, SplitN.
  destruct (split_on_head "." w "") as ([[h tl] l] & E & R). rewrite E. cbn [fst snd] in *.
  rewrite append_nil. destruct (lacks "." w) eqn:El.
  - destruct R as [-> ->].
    assert (forall s cur, lacks "." s = true -> splitn_on "." 2 s cur = [cur ++ s]) as Hn.
    { induction s as [|c s IH]; intros cur Hs; cbn [splitn_on]; [by rewrite string_app_nil_r|].
      cbn [lacks] in Hs. apply andb_prop in Hs as [H1 H2]. apply negb_true_iff in H1. rewrite H1. cbn [Nat.leb].
      rewrite IH by done. by rewrite <- string_app_assoc. }
    rewrite Hn by done. cbn. split; [done|]. split; reflexivity.
  - destruct R as (-> & Hh & ->). rewrite splitn_on_app by (done || lia). rewrite append_nil.
    assert (splitn_on "." (2 - 1) tl "" = [tl]) as -> by (by destruct tl).
    destruct (split_on_head "." tl "") as ([[h2 tl2] l2] & E2 & R2). rewrite E2, append_nil. cbn [fst snd] in *.
    split; [done|]. destruct (lacks "." tl) eqn:El2.
    + destruct R2 as [-> _]. done.
    + destruct R2 as (-> & Hl2 & _). split; [|done]. intros [= Eq]. exfalso. clear -Eq.
      apply (f_equal String.length) in Eq. rewrite string_length_app in Eq. cbn [String.length] in Eq. lia.
Qed.

(** ** Witnesses *)
Definition pool_options : Options :=
  {| DisablePayment := true;
     Coin := mkCoinOptions "coin" "CN" false None "POW" false false;
     Config.Engine := ""; PoolAddress := mkRecipient sample_script "script" fzero None;
     RewardRecipients := []; BlockRefreshInterval := 0; JobRebroadcastTimeout := 0;
     ConnectionTimeout := 600; TCPProxyProtocol := false;
     Banning := Some (mkBanningOptions 600 (float_of_Z 50) 3 300);
     Ports := [(3333, mkPortOptions (float_of_Z 4) None false)]; Daemons := [];
     P2P := None; Algorithm := mkAlgorithmOptions "sha256d" 0 true "" ""; Payment := None |}.
Definition no_client : Client :=
  mkClient [] "" (mkSocket 0 false []) 0 (mkShares 0 0) false false None None "" "" None None None None.
Definition client0 : Client :=
  get no_client (NewStratumClient pool_options 1700000005 1000 [x01; x02; x03; x04] (le_bytes 8 1)
    "10.0.0.1:5000" 3333 (Some (manager1 hard_target))).
(** Authorized, after one retarget from difficulty 1 to 4. *)
Definition client1 : Client :=
  with_PreviousDifficulty (Some (BigF 53 (float_of_Z 1)))
    (with_CurrentDifficulty (Some (BigF 53 (float_of_Z 4)))
      (with_WorkerName "alice.rig1" (with_IsAuthorized true client0))).
Definition no_bans : BanningManager := NewBanningManager (mkBanningOptions 600 (float_of_Z 50) 3 300).
Definition moment0 : moment :=
  mkMoment 1700000005 2000 job_random (Build_block_daemon (fun _ => (false, "")) (Panic "no template")).
Definition world0 (c : Client) (e : option Engine) : world := mkWorld c (Some (manager1 hard_target)) e no_bans [].
Definition submit_params (job : string) : list json :=
  [JStr "alice.rig1"; JStr job; JStr "00000001"; JStr "6553f100"; JStr "0000000a"].
Definition submit_message (job : string) : JsonRpcRequest :=
  mkRequest (JNum "7") "mining.submit" (Some (JArr (submit_params job))).

(** An engine that reports the achieved difficulty 2 as too low. *)
Definition low_diff_engine : Engine :=
  mkEngine unit tt
    {| Name := "low"; OnSubscribe := fun _ _ s => Val ((JNull, None, 0), s);
       JobNotification := fun _ s => Val (("", None), s);
       OnSubmit := fun _ _ s => Val (set_error ErrLowDiffShare (set_diff (float_of_Z 2)
                                       (base_share "" "" "" "")), s);
       JobParamsForDifficulty := None; NotifyMethod := None; TargetParams := None; ObjectParams := None |}.

Definition client_message (q : JsonRpcRequest) (w : world) : outcome unit * world :=
  @HandleMessage hex_codec amd64 sample_algs pool_options true moment0 q w.

(** An engine that counts the submissions it is asked about. *)
Definition counting_engine : Engine :=
  mkEngine Z 0
    {| Name := "count"; OnSubscribe := fun _ _ s => Val ((JNull, None, 0), s);
       JobNotification := fun _ s => Val (("", None), s);
       OnSubmit := fun _ _ s => Val (base_share "" "" "" "", s + 1);
       JobParamsForDifficulty := None; NotifyMethod := None; TargetParams := None; ObjectParams := None |}.
Lemma unauthorized_no_effect_witness :
  let w' := snd (client_message (submit_message "01") (world0 client0 (Some counting_engine))) in
  w_jm w' = Some (manager1 hard_target) /\ w_events w' = [] /\
  eng_serves (Some counting_engine) (w_engine w') /\
  (submits (submit_message "01") = true -> w_engine w' = Some counting_engine).
Proof.
  apply (@unauthorized_no_effect hex_codec amd64 sample_algs pool_options true moment0
           (submit_message "01") (world0 client0 (Some counting_engine))
           (fst (client_message (submit_message "01") (world0 client0 (Some counting_engine))))).
  - vm_compute. reflexivity.
  - unfold client_message. apply surjective_pairing.
  - intros e. vm_compute. discriminate.
Defined.

Lemma rejected_share_answered_twice_witness :
  let run := @HandleSubmit hex_codec amd64 sample_algs pool_options moment0
               (submit_message "zz") (world0 client1 None) in
  exists l, so_Sent (c_Socket (w_client (snd run))) =
    ([] ++ l ++ [Response (JNum "7") (Some (JBool false)) (rpc_error 20 "job not found");
                 Response (JNum "7") (Some (JBool true)) None])%list.
Proof.
  cbv zeta.
  set (ps := @process_submit hex_codec amd64 sample_algs moment0 (BigF 53 (float_of_Z 4))
               [x01; x02; x03; x04] "zz" "00000001" "6553f100" "0000000a" "alice.rig1" (world0 client1 None)).
  apply (@rejected_share_answered_twice hex_codec amd64 sample_algs pool_options moment0
    (submit_message "zz") (world0 client1 None) _ [x01; x02; x03; x04] (BigF 53 (float_of_Z 4))
    (JStr "alice.rig1") (JStr "zz") (JStr "00000001") (JStr "6553f100") (JStr "0000000a") []
    (set_error 20 (base_share "zz" "10.0.0.1:5000" "alice" "rig1")) (snd ps)).
  - vm_compute. reflexivity.
  - vm_compute. reflexivity.
  - vm_compute. reflexivity.
  - vm_compute. reflexivity.
  - vm_compute. reflexivity.
  - reflexivity.
  - assert (fst ps = Done (set_error 20 (base_share "zz" "10.0.0.1:5000" "alice" "rig1"))) as E
      by (vm_compute; reflexivity).
    rewrite <- E. apply surjective_pairing.
  - vm_compute. discriminate.
  - match goal with |- ?r = _ => assert (fst r = Done tt) as E by (vm_compute; reflexivity) end.
    rewrite <- E. apply surjective_pairing.
Defined.

Lemma ban_blocks_before_close_witness :
  (ban_due (mkBanningOptions 600 (float_of_Z 50) 3 300) (mkShares 0 2) = true ->
   exists w', ShouldBan pool_options moment0 false (world0 (with_Shares (mkShares 0 2) client0) None) = (Blocked, w') /\
     c_Socket (w_client w') = c_Socket client0 /\
     BannedIPList (w_bans w') = <["10.0.0.1:5000" := 2000]> ∅) /\
  (forall v, fst (ShouldBan pool_options moment0 v (world0 (with_Shares (mkShares 0 2) client0) None)) <> Done true).
Proof.
  apply (ban_blocks_before_close pool_options moment0 (world0 (with_Shares (mkShares 0 2) client0) None)
           (mkBanningOptions 600 (float_of_Z 50) 3 300)); vm_compute; reflexivity.
Defined.

Lemma engine_share_credit_witness :
  let w := world0 client1 (Some low_diff_engine) in
  let run := engine_submit pool_options true moment0 (submit_message "01") w in
  exists share accepted,
    w_events (snd run) = [EvPutShare share accepted] /\
    (s_Miner share, s_Rig share) = splitWorker "alice.rig1" /\
    (s_ErrorCode share = 0 ->
       (ErrLowDiffShare = 0 \/ ErrLowDiffShare = ErrLowDiffShare /\
          meetsPreviousEngineDiff client1 (float_of_Z 2) = true) /\
       (s_Diff share = engineDiff pool_options client1 \/
          exists p, c_PreviousDifficulty client1 = Some p /\ s_Diff share = Float64 p) /\
       ((ErrLowDiffShare = 0 -> fleb (engineDiff pool_options client1) (float_of_Z 2) = true) ->
          fleb (s_Diff share) (float_of_Z 2) = true) /\
       accepted = negb (String.eqb (s_TxHash share) "")) /\
    (s_ErrorCode share <> 0 -> accepted = false /\ s_ErrorCode share = ErrLowDiffShare) /\
    (s_ErrorCode share = 0 -> accepted = false -> forall db seq, block_cmds db share accepted seq = []).
Proof.
  cbv zeta.
  apply (engine_share_credit pool_options moment0 (submit_message "01") (world0 client1 (Some low_diff_engine))
    low_diff_engine (set_error ErrLowDiffShare (set_diff (float_of_Z 2) (base_share "" "" "" ""))) tt
    (fst (engine_submit pool_options true moment0 (submit_message "01") (world0 client1 (Some low_diff_engine))))).
  - vm_compute. reflexivity.
  - reflexivity.
  - reflexivity.
  - apply surjective_pairing.
  - intros m. vm_compute. discriminate.
Defined.
