(* ===== verification/ServerSpec.v ===== *)
(** * ServerSpec: the stratum server, verified

    The server as a transition system over its clients, and what holds of every
    state it reaches in the Bitcoin mode: the job manager only moves by its own
    operations and every stored share is one it processed; subscription ids never
    collide, and clients are never removed; an idle client stops a broadcast. *)
From Stdlib Require Import ZArith Lia List Strings.String Strings.Byte Floats.SpecFloat.
From stdpp Require Import base list strings gmap relations.
From S2P Require Import Prelude Bytes Float Utils Types Config Algorithm VarDiff Bans Engine Jobs JobManager JobManagerSpec Stratum EngineSession ClientSpec Server.
Import ListNotations.
Local Open Scope Z_scope.
Local Open Scope client_scope.

(** ** Where the stored shares come from *)

(** What the storage was given, and the shares of a run of the job manager. *)
Definition put (e : share_event) : option (Share * bool) :=
  match e with EvPutShare sh accepted => Some (sh, accepted) | _ => None end.
Definition puts (evs : list share_event) : list (Share * bool) := omap put evs.
Definition processed (l : list jm_event) : list Share :=
  omap (fun e => match e with Processed _ _ sh => Some sh | Issued _ => None end) l.
(** How a processed share is stored: as it is, not accepted; or, when it carries a
    block, with the transaction id and the verdict the daemon answered. *)
Definition stored_as (sh : Share) (p : Share * bool) : Prop :=
  s_BlockHex sh = EmptyString /\ p = (sh, false) \/
  s_BlockHex sh <> EmptyString /\ exists tx accepted, p = (set_txhash tx sh, accepted).

Section Provenance.
Context `{AddressCodec} `{Platform} `{PowHashes}.
Variable algs : Algorithms.
Variable options : Options.

(** From one world to the next the job manager made a run, and the storage was
    given each share the run processed, once and in order. *)
Definition stores (jm : option JobManager) (evs : list share_event) (jm' : option JobManager) (evs' : list share_event) : Prop :=
  forall j, jm = Some j -> exists l j' ps, jm' = Some j' /\ run algs j l j' /\
    puts evs' = (puts evs ++ ps)%list /\ Forall2 stored_as (processed l) ps.
Lemma stores_refl jm evs : stores jm evs jm evs.
Proof. intros j ->. exists [], j, []. rewrite app_nil_r. split_and!; [done|constructor|done|constructor]. Qed.
Lemma stores_trans jm evs jm1 evs1 jm2 evs2 :
  stores jm evs jm1 evs1 -> stores jm1 evs1 jm2 evs2 -> stores jm evs jm2 evs2.
Proof.
  intros A B j Ej. destruct (A j Ej) as (l & j1 & ps & E1 & R1 & P1 & F1).
  destruct (B j1 E1) as (l' & j2 & ps' & E2 & R2 & P2 & F2). exists (l ++ l')%list, j2, (ps ++ ps')%list.
  split_and!; [done|by eapply run_app|by rewrite P2, P1, app_assoc|].
  unfold processed. rewrite omap_app. by apply Forall2_app.
Qed.

Definition w_stores (w w' : world) : Prop := stores (w_jm w) (w_events w) (w_jm w') (w_events w').
Definition prov (w w' : world) : Prop :=
  (c_inv w -> c_inv w') /\ (w_engine w = None -> w_engine w' = None /\ w_stores w w').
#[export] Instance prov_pre : PreOrder prov.
Proof.
  split; [split; [done|]; intros He; split; [done|apply stores_refl]|]. intros x y z [A B] [A' B']. split; [auto|].
  intros He. destruct (B He) as [Ey Sy]. destruct (B' Ey) as [Ez Sz]. split; [done|by eapply stores_trans].
Qed.
Lemma auth_prov w w' : auth_frame w w' -> prov w w'.
Proof.
  intros (A & B & C & D). split; [done|]. intros E. split; [congruence|]. unfold w_stores. rewrite B, C. apply stores_refl.
Qed.
Lemma quiet_prov w w' : quiet w w' -> prov w w'.
Proof. intros Hq. by apply auth_prov, quiet_auth. Qed.
#[export] Instance prov_frame : Frame prov prov.
Proof. apply (frame_mono quiet _ quiet); [apply _|apply _|apply quiet_prov..]. Qed.

Lemma template_run now random t jm jm' :
  ProcessTemplate now random t jm = Val jm' -> exists l, run algs jm l jm' /\ processed l = [].
Proof.
  intros E. destruct (ProcessTemplate_cases _ _ _ _ _ E) as [[-> _]|(j & -> & _)].
  - exists []. split; [|done]. eapply run_dropped; [exact E|constructor].
  - exists [Issued (JobId j)]. split; [|done]. eapply run_issued; [exact E|constructor].
Qed.
(** [ProcessShare] stores the share it is given, once. *)
Lemma ProcessShare_stored dm now random share jm jm' ev :
  ProcessShare dm now random share jm = Val (jm', ev) ->
  exists l p, run algs jm l jm' /\ processed l = [] /\ puts ev = [p] /\ stored_as share p.
Proof.
  unfold ProcessShare. destruct (String.eqb_spec (s_BlockHex share) EmptyString) as [E|E]; cbn [negb].
  - intros Ev. apply Val_pair_inj in Ev as [<- <-]. exists [], (share, false). split_and!; [constructor|done|done|by left].
  - destruct (bd_accepted dm _) as [acc tx]. destruct (bd_template dm) as [gbt|]; cbn [rbind]; [|done].
    destruct (ProcessTemplate now random gbt jm) as [jm1|] eqn:Et; cbn [rbind]; [|done].
    intros Ev. apply Val_pair_inj in Ev as [<- <-]. destruct (template_run _ _ _ _ _ Et) as (l & R & P).
    exists l, (set_txhash tx share, acc). split_and!; [done|done|done|right; eauto].
Qed.

Lemma process_submit_prov t d en1 a1 a2 a3 a4 a5 :
  keeps prov prov (process_submit algs t d en1 a1 a2 a3 a4 a5).
Proof.
  intros w. unfold process_submit, mbind, client, job_manager, of_result, set_jm, emit.
  destruct (w_jm w) as [jm|] eqn:Ej; [|done].
  destruct (ProcessSubmit _ _ _ _ _ _ _ _ _ _ _ _) as [[share jm1]|] eqn:Es; [|done]. cbn.
  destruct (ProcessShare _ _ _ _ _) as [[jm2 ev]|] eqn:Ep; [|done]. cbn.
  split; [done|]. intros Eng. split; [done|]. intros j Hj. cbn. assert (j = jm) as -> by congruence.
  destruct (ProcessShare_stored _ _ _ _ _ _ _ Ep) as (l & p & R & P & V & St).
  eexists (_ :: l), jm2, [p]. split; [done|]. split; [eapply run_processed; [exact Es|exact R]|].
  split; [unfold puts in *; by rewrite omap_app, V|].
  unfold processed in *. cbn. rewrite P. by apply Forall2_cons; split; [|apply Forall2_nil].
Qed.

Lemma HandleMessage_prov has_db t q w :
  w_engine w = None ->
  match HandleMessage algs options has_db t q w with (Panicked _, _) => True | (_, w') => prov w w' end.
Proof.
  intros He. unfold HandleMessage. rewrite He.
  assert (keeps prov prov (HandleMessage_gbt algs options t q)) as K; [|exact (K w)].
  unfold HandleMessage_gbt. destruct (String.eqb _ _); [apply HandleSubscribe_keeps; apply _|].
  destruct (String.eqb _ _).
  { eapply keeps_mono; [apply auth_prov|apply auth_prov|apply HandleAuthorize_keeps]. }
  destruct (String.eqb _ _).
  { apply (keeps_bind prov prov); [frame_set_tac|intros _].
    apply HandleSubmit_keeps; [apply _|]. intros. apply process_submit_prov. }
  destruct (String.eqb _ _); [apply frame_send|apply (keeps_ret prov prov)].
Qed.
End Provenance.

(** ** The server's steps *)
Section Steps.
Context `{AddressCodec} `{Platform} `{PowHashes}.
Variable algs : Algorithms.
Variable options : Options.
Variable has_db : bool.

Inductive sv_step : Server -> Server -> Prop :=
| sv_connect t random remote port s id s' :
    HandleNewClient options t random remote port s = Val (id, s') -> sv_step s s'
| sv_message p t q s o s' :
    client_message algs options has_db p t q s = (o, s') -> (forall e, o <> Panicked e) -> sv_step s s'
| sv_broadcast snapshot t params s o s' :
    BroadcastCurrentMiningJob options snapshot t params s = (o, s') -> (forall e, o <> Panicked e) ->
    sv_step s s'
| sv_template now random gbt jm jm' s :
    sv_jm s = Some jm -> ProcessTemplate now random gbt jm = Val jm' -> sv_step s (set_server_jm jm' s)
| sv_closed id p c n s :
    clientBySubscriptionId id s = Some p -> sv_heap s !! p = Some c -> c_SocketClosedEvent c = Some (S n) ->
    sv_step s (RemoveStratumClientBySubscriptionId id s).

Section Invariant.
Variable jm0 : JobManager.

Definition client_ok (c : Client) : Prop :=
  c_SocketClosedEvent c = None /\
  (c_IsAuthorized c = true -> is_Some (c_CurrentDifficulty c)).
Definition sv_ok (s : Server) : Prop :=
  sv_engine s = None /\ stores algs (Some jm0) [] (sv_jm s) (sv_events s) /\ Forall client_ok (sv_heap s).

Lemma run_client_ok {A} p (m : M A) s o s' :
  (forall w, w_engine w = None ->
     match m w with (Panicked _, _) => True | (_, w') => prov algs w w' end) ->
  run_client p m s = (o, s') -> (forall e, o <> Panicked e) -> sv_ok s ->
  sv_ok s' /\ length (sv_heap s') = length (sv_heap s) /\ StratumClients s' = StratumClients s /\
  sv_counter s' = sv_counter s /\ (forall r, r <> p -> sv_heap s' !! r = sv_heap s !! r).
Proof.
  intros Hm Hr Ho (He & Hj & Hc). unfold run_client in Hr.
  destruct (sv_heap s !! p) as [c|] eqn:Ep; [|injection Hr as <- <-; by destruct (Ho "nil pointer dereference"%string)].
  specialize (Hm (world_of c s) He). destruct (m (world_of c s)) as [o' w'].
  injection Hr as -> <-.
  assert (prov algs (world_of c s) w') as [Hc' Hw] by (destruct o; [done|by destruct (Ho msg)|done]).
  destruct Hw as (E1 & E2); [done|].
  assert (client_ok (w_client w')) as Hcl by (apply Hc'; by eapply Forall_lookup_1 in Hc).
  split; [|split; [apply length_insert|split; [done|split; [done|]]]].
  - split; [done|]. split; [by eapply stores_trans|]. cbn. by apply Forall_insert.
  - intros r Hr. cbn. by apply list_lookup_insert_ne.
Qed.

Definition reg_ok (s : Server) : Prop :=
  Z.of_nat (length (sv_heap s)) < 2 ^ 64 - 1 ->
  Count (sv_counter s) = Z.of_nat (length (sv_heap s)) /\ Padding (sv_counter s) = [] /\
  (forall id p, StratumClients s !! id = Some p <-> (p < length (sv_heap s))%nat /\ id = Z.of_nat p + 1).

(** Steps that leave the registry alone. *)
Definition same_registry (s s' : Server) : Prop :=
  length (sv_heap s') = length (sv_heap s) /\ StratumClients s' = StratumClients s /\
  sv_counter s' = sv_counter s.
Lemma same_registry_ok s s' : same_registry s s' -> reg_ok s -> reg_ok s'.
Proof. intros (E1 & E2 & E3). unfold reg_ok. by rewrite E1, E2, E3. Qed.

Lemma CheckBan_client_prov t : keeps (prov algs) (prov algs) (CheckBan_client t).
Proof. unfold CheckBan_client. repeat first [apply frame_bans|keeps_step]. Qed.

Lemma client_message_ok p t q s o s' :
  client_message algs options has_db p t q s = (o, s') -> (forall e, o <> Panicked e) -> sv_ok s ->
  sv_ok s' /\ same_registry s s'.
Proof.
  intros Hr Ho Hok. unfold client_message in Hr.
  match type of Hr with run_client p ?m s = _ =>
    assert (Hm : forall w, w_engine w = None ->
              match m w with (Panicked _, _) => True | (_, w') => prov algs w w' end) end.
  { intros w He. pose proof (CheckBan_client_prov t w) as K. rewrite mbind_run.
    assert (exists b w1, CheckBan_client t w = (Done b, w1) /\ w_engine w1 = None) as (b & w1 & E & E1).
    { unfold CheckBan_client, mbind, client, with_bans. destruct (CheckBan _ _ _). by do 2 eexists. }
    rewrite E in *. pose proof (HandleMessage_prov algs options has_db t q w1 E1) as K2.
    destruct (HandleMessage _ _ _ _ _ w1) as [[]]; [by transitivity w1|done|by transitivity w1]. }
  destruct (run_client_ok p _ s o s' Hm Hr Ho Hok) as (A & B & C & D & _). split; [done|]. by split.
Qed.

Lemma broadcast_ok m l s o s' :
  keeps (prov algs) (prov algs) m ->
  broadcast m l s = (o, s') -> (forall e, o <> Panicked e) -> sv_ok s -> sv_ok s' /\ same_registry s s'.
Proof.
  intros Hm. revert s. induction l as [|p l IH]; intros s Hr Ho Hok; cbn [broadcast] in Hr.
  { injection Hr as <- <-. by split. }
  destruct (run_client p m s) as [o1 s1] eqn:E1.
  assert (forall e, o1 <> Panicked e) as Ho1.
  { intros e ->. injection Hr as <- <-. by destruct (Ho e). }
  destruct (run_client_ok p m s o1 s1) as (A & B & C & D & _); [|done|done|done|].
  { intros w _. specialize (Hm w). by destruct (m w) as [[]]. }
  destruct o1 as [[]|e|]; [|by destruct (Ho1 e)|injection Hr as <- <-; split; [done|by split]].
  destruct (IH s1 Hr Ho A) as [A2 (B2 & C2 & D2)]. split; [done|]. split_and!; congruence.
Qed.

Lemma HandleNewClient_ok t random remote port s id s' :
  HandleNewClient options t random remote port s = Val (id, s') -> sv_ok s -> reg_ok s ->
  sv_ok s' /\ reg_ok s'.
Proof.
  unfold HandleNewClient. destruct (Next (sv_counter s)) as [sid counter] eqn:En.
  destruct (NewStratumClient _ _ _ _ _ _ _ _) as [c|] eqn:Ec; cbn [rbind]; [|done].
  intros Hr (He & Hj & Hc) Hreg. apply Val_pair_inj in Hr as [<- <-].
  match goal with |- context [run_client _ _ ?s1] => set (s2 := s1) end.
  assert (client_ok c) as Hcok.
  { unfold NewStratumClient in Ec. destruct (match port_options options port with Some _ => _ | None => _ end); [|done].
    apply Val_inj in Ec as <-. by split. }
  assert (sv_ok s2) as H2.
  { split; [done|]. split; [done|]. subst s2. cbn. apply Forall_app. split; [done|]. by constructor. }
  destruct (run_client (length (sv_heap s)) (CheckBan_client t) s2) as [o s3] eqn:E3. cbn [snd].
  assert (forall e, o <> Panicked e) as Ho.
  { intros e ->. unfold run_client in E3. subst s2. cbn [sv_heap] in E3.
    rewrite lookup_app_r, Nat.sub_diag in E3 by done. cbn in E3.
    unfold CheckBan_client, mbind, client, with_bans in E3. by destruct (CheckBan _ _ _). }
  destruct (run_client_ok (length (sv_heap s)) (CheckBan_client t) s2 o s3) as (A & B & C & D & _); [|done|done|done|].
  { intros w _. pose proof (CheckBan_client_prov t w) as K. by destruct (CheckBan_client t w) as [[]]. }
  split; [done|]. apply (same_registry_ok s2); [done|].
  intros Hlen. subst s2. cbn [sv_heap sv_counter StratumClients] in *. rewrite length_app in *. cbn [length] in *.
  destruct Hreg as (Hcount & Hpad & Hmap); [lia|].
  unfold Next in En. rewrite Hcount, Hpad in En. rewrite wrapu_small in En by lia.
  replace (Z.of_nat (length (sv_heap s)) + 1 =? 2 ^ 64 - 1) with false in En by (symmetry; apply Z.eqb_neq; lia).
  assert (sid = le_bytes 8 (Z.of_nat (length (sv_heap s)) + 1) /\
          counter = mkCounter (Z.of_nat (length (sv_heap s)) + 1) []) as [-> ->]
    by (split; symmetry; [exact (f_equal fst En)|exact (f_equal snd En)]).
  cbn [Count Padding].
  assert (le_value (take 8 (le_bytes 8 (Z.of_nat (length (sv_heap s)) + 1))) = Z.of_nat (length (sv_heap s)) + 1) as ->.
  { rewrite take_ge by (by rewrite le_bytes_length). rewrite le_value_bytes. apply Z.mod_small. lia. }
  split; [lia|]. split; [done|]. intros id p. rewrite lookup_insert_Some, Hmap. split; [|]; lia.
Qed.

Lemma sv_step_ok s s' : sv_step s s' -> sv_ok s -> reg_ok s -> sv_ok s' /\ reg_ok s'.
Proof.
  intros [t random remote port s0 id s1 Hn|p t q s0 o s1 Hr Ho|snap t params s0 o s1 Hr Ho
         |now random gbt jm jm' s0 Hjm Ht|id p c n s0 Hid Hp Hn] Hok Hreg.
  - by eapply HandleNewClient_ok.
  - destruct (client_message_ok _ _ _ _ _ _ Hr Ho Hok) as [A B]. split; [done|by eapply same_registry_ok].
  - destruct (broadcast_ok _ _ _ _ _ (SendMiningJob_keeps options (prov algs) (prov algs) t params) Hr Ho Hok) as [A B].
    split; [done|by eapply same_registry_ok].
  - destruct Hok as (He & Hj & Hc). split; [|done]. split; [done|]. split; [|done]. cbn.
    eapply stores_trans; [exact Hj|]. rewrite Hjm. intros j Ej. injection Ej as <-.
    destruct (template_run algs _ _ _ _ _ Ht) as (l & R & P). exists l, jm', [].
    rewrite app_nil_r, P. split_and!; [done|done|done|constructor].
  - destruct Hok as (_ & _ & Hc). eapply Forall_lookup_1 in Hc as [Hn' _]; [|exact Hp]. congruence.
Qed.

Lemma sv_reachable_ok bm s :
  rtc sv_step (NewStratumServer (Some jm0) bm) s -> sv_ok s /\ reg_ok s.
Proof.
  assert (sv_ok (NewStratumServer (Some jm0) bm) /\ reg_ok (NewStratumServer (Some jm0) bm)) as H0'.
  { split; [split; [done|]; split; [apply stores_refl|done]|]. intros _. split; [done|]. split; [done|].
    intros id p. cbn. rewrite lookup_empty. split; [done|lia]. }
  revert H0'. generalize (NewStratumServer (Some jm0) bm). intros s0 H0' R.
  induction R as [s|s s1 s2 S R IH]; [done|]. apply IH. destruct H0' as [A B]. exact (sv_step_ok _ _ S A B).
Qed.

(** C12: the storage receives what the job manager processed.  In every state the
    server reaches, from any sequence of connections, messages, broadcasts and
    templates whose handlers return, the job manager went through a run of its
    operations, and the shares the storage was given are, one for one and in order,
    those the run's submissions were answered with: each as [ProcessSubmit] made it
    and not accepted, or, when it carries a block, with the daemon's transaction id
    and verdict.  So no share is stored twice or lost, and among the stored ones no
    submission is credited twice under a job id unless its job was issued anew
    between the two. *)
Theorem server_stores_processed_shares bm s :
  rtc sv_step (NewStratumServer (Some jm0) bm) s ->
  exists trace jm, sv_jm s = Some jm /\ run algs jm0 trace jm /\
    Forall2 stored_as (processed trace) (puts (sv_events s)) /\
    (forall l1 id k s1 l2 s2 l3, trace = (l1 ++ Processed id k s1 :: l2 ++ Processed id k s2 :: l3)%list ->
       s_ErrorCode s1 = 0 -> s_ErrorCode s2 = 0 -> Issued id ∈ l2).
Proof.
  intros R. apply sv_reachable_ok in R as [(_ & Hj & _) _]. destruct (Hj jm0 eq_refl) as (l & jm & ps & E & Hr & Hp & F).
  exists l, jm. cbn in Hp. rewrite Hp. split_and!; [done..|]. intros l1 id k s1 l2 s2 l3 ->. by eapply no_double_credit_aux.
Qed.

(** Subscription ids never collide below 2^64 - 1 connections, and no client
    is ever removed: [SocketClosedEvent] is never made, so the goroutine that
    would remove a closed client never hears of it, and the registry holds
    exactly one entry for every connection ever accepted. *)
Theorem clients_never_removed bm s :
  rtc sv_step (NewStratumServer (Some jm0) bm) s -> Z.of_nat (length (sv_heap s)) < 2 ^ 64 - 1 ->
  forall id p, StratumClients s !! id = Some p <-> (p < length (sv_heap s))%nat /\ id = Z.of_nat p + 1.
Proof. intros R Hlen. apply sv_reachable_ok in R as [_ Hreg]. by destruct (Hreg Hlen) as (_ & _ & ?). Qed.
End Invariant.

(** ** A broadcast and an idle client *)
Definition idle (t : moment) (c : Client) : Prop :=
  i64 (ConnectionTimeout options * 1000000000) < duration_between (m_nanos t) (c_LastActivity c).

Lemma SendMiningJob_idle t params w :
  idle t (w_client w) -> c_SocketClosedEvent (w_client w) = None ->
  fst (SendMiningJob options t params w) = Blocked.
Proof.
  intros Hi Hn. apply Z.ltb_lt in Hi. unfold SendMiningJob, mbind, client.
  match goal with |- context [if ?b then _ else _] => replace b with true by (symmetry; exact Hi) end.
  unfold close_socket, set_client, send_closed_event, mbind, client. cbn. by rewrite Hn.
Qed.

Lemma broadcast_lookup m l s r :
  r ∉ l -> sv_heap (snd (broadcast m l s)) !! r = sv_heap s !! r.
Proof.
  revert s; induction l as [|p l IH]; intros s Hr; cbn [broadcast]; [done|].
  apply not_elem_of_cons in Hr as [Hp Hl].
  assert (sv_heap (snd (run_client p m s)) !! r = sv_heap s !! r) as E.
  { unfold run_client. destruct (sv_heap s !! p); [|done]. destruct (m _) as [o w]. cbn.
    by apply list_lookup_insert_ne. }
  destruct (run_client p m s) as [[[]|e|] s1]; cbn [snd] in *; [|done|done]. by rewrite IH.
Qed.

Lemma broadcast_app m l1 l2 s :
  broadcast m (l1 ++ l2) s =
  match broadcast m l1 s with (Done _, s') => broadcast m l2 s' | (o, s') => (o, s') end.
Proof.
  revert s; induction l1 as [|p l1 IH]; intros s; cbn [broadcast app]; [done|].
  destruct (run_client p m s) as [[[]|e|] s1]; [apply IH|done|done].
Qed.

(** One idle client stops a broadcast: when a client past the connection
    timeout stands anywhere in the order the server walks its clients, the
    broadcasting goroutine never returns, and no client after it is sent the
    new job. *)
Theorem idle_client_stops_broadcast t params s snapshot l1 p l2 c :
  snapshot (StratumClients s) = l1 ++ p :: l2 -> NoDup (l1 ++ p :: l2) ->
  sv_heap s !! p = Some c -> c_SocketClosedEvent c = None -> idle t c ->
  let r := BroadcastCurrentMiningJob options snapshot t params s in
  fst r <> Done tt /\ (forall q, q ∈ l2 -> sv_heap (snd r) !! q = sv_heap s !! q).
Proof.
  intros Es Hnd Hp Hn Hi. cbv zeta. unfold BroadcastCurrentMiningJob. rewrite Es, broadcast_app.
  set (m := SendMiningJob options t params). apply NoDup_app in Hnd as (_ & Hd & Hnd).
  apply NoDup_cons in Hnd as [Hpl _].
  pose proof (broadcast_lookup m l1 s) as L. destruct (broadcast m l1 s) as [o s1]. cbn [snd] in L.
  assert (p ∉ l1) as Hpl1 by (intros Hin; by apply (Hd p Hin), elem_of_cons; left).
  assert (forall q, q ∈ l2 -> sv_heap s1 !! q = sv_heap s !! q) as L2.
  { intros q Hq. apply L. intros Hin. apply (Hd q Hin). by apply elem_of_cons; right. }
  destruct o as [[]|e|]; [|by split|by split]. cbn [broadcast].
  assert (run_client p m s1 = (Blocked, snd (run_client p m s1))) as E.
  { unfold run_client. rewrite (L p Hpl1), Hp.
    pose proof (SendMiningJob_idle t params (world_of c s1) Hi Hn) as B. fold m in B.
    by destruct (m (world_of c s1)) as [o w]; cbn in B; subst o. }
  rewrite E. cbn [fst snd]. split; [done|]. intros q Hq. rewrite <- L2 by done.
  assert (q <> p) as Hqp by (intros ->; done).
  unfold run_client. destruct (sv_heap s1 !! p); [|done]. destruct (m _) as [o w]. cbn.
  by apply list_lookup_insert_ne.
Qed.
End Steps.

(** ** Witnesses *)

(** The sample pool with a port of a difficulty any hash has. *)
Definition fast_options : Options :=
  {| DisablePayment := true; Coin := Coin pool_options; Config.Engine := ""; PoolAddress := PoolAddress pool_options;
     RewardRecipients := []; BlockRefreshInterval := 0; JobRebroadcastTimeout := 0;
     ConnectionTimeout := 600; TCPProxyProtocol := false; Banning := Banning pool_options;
     Ports := [(3333, mkPortOptions (float_dyadic 1 (-60)) None false)]; Daemons := [];
     P2P := None; Algorithm := Algorithm pool_options; Payment := None |}.
Definition server0 : Server := NewStratumServer (Some (manager1 hard_target)) no_bans.
Definition connect (random : bytes) (remote : string) (s : Server) : result (bytes * Server) :=
  HandleNewClient fast_options moment0 random remote 3333 s.
Definition server1 : Server := get server0 (rbind (connect [x01; x02; x03; x04] "10.0.0.1:5000" server0)
                                              (fun r => Val (snd r))).
Definition server2 : Server := get server0 (rbind (connect [x05; x06; x07; x08] "10.0.0.2:5000" server1)
                                              (fun r => Val (snd r))).
Definition say (p : nat) (q : JsonRpcRequest) (s : Server) : outcome unit * Server :=
  @Server.client_message hex_codec amd64 sample_algs fast_options true p moment0 q s.
Definition authorize_message : JsonRpcRequest :=
  mkRequest (JNum "1") "mining.authorize" (Some (JArr [JStr "alice.rig1"; JStr "x"])).
Definition server3 : Server := snd (say 0 authorize_message server2).
Definition server4 : Server := snd (say 0 (submit_message (RandHexUint64 job_random)) server3).
Definition server5 : Server := snd (say 0 (submit_message (RandHexUint64 job_random)) server4).

Lemma server4_reached : rtc (@sv_step hex_codec amd64 sample_algs fast_options true) server0 server4.
Proof.
  eapply rtc_l.
  { apply (sv_connect _ _ _ moment0 [x01; x02; x03; x04] "10.0.0.1:5000" 3333 _
      (get [] (rbind (connect [x01; x02; x03; x04] "10.0.0.1:5000" server0) (fun r => Val (fst r)))) server1).
    apply get_pair. vm_compute. reflexivity. }
  eapply rtc_l.
  { apply (sv_connect _ _ _ moment0 [x05; x06; x07; x08] "10.0.0.2:5000" 3333 _
      (get [] (rbind (connect [x05; x06; x07; x08] "10.0.0.2:5000" server1) (fun r => Val (fst r)))) server2).
    apply get_pair. vm_compute. reflexivity. }
  eapply rtc_l; [eapply sv_message; [apply (surjective_pairing (say 0 authorize_message server2))|]|].
  { intros e. vm_compute. discriminate. }
  apply rtc_once. eapply sv_message.
  - apply (surjective_pairing (say 0 (submit_message (RandHexUint64 job_random)) server3)).
  - intros e. vm_compute. discriminate.
Qed.

Lemma server5_reached : rtc (@sv_step hex_codec amd64 sample_algs fast_options true) server0 server5.
Proof.
  eapply rtc_r; [exact server4_reached|]. set (q := submit_message (RandHexUint64 job_random)).
  apply (sv_message _ _ _ 0 moment0 q server4 (fst (say 0 q server4))).
  - unfold server5. apply surjective_pairing.
  - intros e. vm_compute. discriminate.
Qed.
(** The storage was given a credited share, and its repetition with the refusal. *)
Example server5_stored : map (fun p => s_ErrorCode (fst p)) (puts (sv_events server5)) = [0; ErrDuplicateShare].
Proof. vm_compute. reflexivity. Qed.
Lemma server_stores_processed_shares_witness :
  exists trace jm, sv_jm server5 = Some jm /\ @run hex_codec amd64 sample_algs (manager1 hard_target) trace jm /\
    Forall2 stored_as (processed trace) (puts (sv_events server5)) /\
    (forall l1 id k s1 l2 s2 l3, trace = (l1 ++ Processed id k s1 :: l2 ++ Processed id k s2 :: l3)%list ->
       s_ErrorCode s1 = 0 -> s_ErrorCode s2 = 0 -> Issued id ∈ l2).
Proof.
  apply (@server_stores_processed_shares hex_codec amd64 sample_algs fast_options true (manager1 hard_target) no_bans).
  exact server5_reached.
Defined.

Lemma clients_never_removed_witness :
  StratumClients server4 !! 1 = Some 0%nat <-> (0 < length (sv_heap server4))%nat /\ 1 = Z.of_nat 0 + 1.
Proof.
  apply (@clients_never_removed hex_codec amd64 sample_algs fast_options true (manager1 hard_target) no_bans).
  - exact server4_reached.
  - vm_compute. reflexivity.
Defined.

(** A moment ten minutes and a second after the first client's last message. *)
Definition later : moment := mkMoment 1700000606 601000002000 job_random (m_daemon moment0).
Definition in_order (m : gmap Z nat) : list nat := [0; 1]%nat.
Lemma idle_client_stops_broadcast_witness :
  let r := BroadcastCurrentMiningJob fast_options in_order later [] server4 in
  fst r <> Done tt /\ (forall q, q ∈ [1%nat] -> sv_heap (snd r) !! q = sv_heap server4 !! q).
Proof.
  apply (idle_client_stops_broadcast fast_options later [] server4 in_order [] 0 [1%nat]
           (default no_client (sv_heap server4 !! 0%nat))).
  - reflexivity.
  - apply (bool_decide_unpack _). vm_compute. exact I.
  - assert (negb (bool_decide (sv_heap server4 !! 0%nat = None)) = true) as E.
    { assert (match sv_heap server4 !! 0%nat with Some _ => true | None => false end = true) as E by (vm_compute; reflexivity).
      destruct (sv_heap server4 !! 0%nat); [done|discriminate]. }
    destruct (sv_heap server4 !! 0%nat); [reflexivity|discriminate].
  - vm_compute. reflexivity.
  - vm_compute. reflexivity.
Defined.
