(* ===== verification/EngineSystem.v ===== *)
(** * EngineSystem: a pool of an engine, as one system

    The stratum server over an engine: connections, messages, work broadcasts and
    the engine's own steps, interleaved in any order.  The engine is seen through
    the interface [PoolEngine]: its shares are checked ([ShareChecker]) and what
    the server calls beside [OnSubmit] are steps that keep the claims.  The
    theorems are proved once against the interface, and every engine that
    discharges it has them. *)
From Stdlib Require Import ZArith Lia List Strings.String Strings.Byte Floats.SpecFloat Logic.Eqdep.
From stdpp Require Import base list strings gmap relations.
From S2P Require Import Prelude Bytes Float Utils Types Config Algorithm Effects Daemons VarDiff Bans Engine Jobs JobManager JobManagerSpec Stratum EngineWork EngineSession Server ClientSpec.
From S2P Require Cryptonote Ergo Beam Kaspa Equihash Kawpow Alephium.
Import ListNotations.
Local Open Scope Z_scope.
Local Open Scope client_scope.

(** ** What an engine promises the server *)
Class PoolEngine {S K : Type} (ops : EngineOps S) (other : S -> S -> Prop) := {
  pe_checker :: ShareChecker (K := K) (OnSubmit ops);
  pe_other_used : forall st st', other st st' -> forall k, used st k -> used st' k;
  pe_subscribe : forall s ps st r st', OnSubscribe ops s ps st = Val (r, st') -> rtc other st st';
  pe_notify : forall b st r st', JobNotification ops b st = Val (r, st') -> rtc other st st';
}.

(** The shares a storage holds as valid *)
Definition valid_share (e : share_event) : option Share :=
  match e with EvPutShare sh _ => if s_ErrorCode sh =? 0 then Some sh else None | _ => None end.
Definition valid_shares (evs : list share_event) : list Share := omap valid_share evs.

Section System.
Context `{AddressCodec} `{Platform} `{PowHashes}.
Variable algs : Algorithms.
Variable options : Options.
Context {S K : Type} (ops : EngineOps S) (other : S -> S -> Prop) `{PE : !PoolEngine (K := K) ops other}.

(** The server's steps, with its storage: a connection, a message of a client, a
    broadcast of the current work (which the pool starts after a refresh), and a
    step of the engine of its own. *)
Definition engine_at (s : Server) (st : S) : Prop := sv_engine s = Some (mkEngine S st ops).
Lemma engine_at_inj s st st' : engine_at s st -> engine_at s st' -> st = st'.
Proof.
  unfold engine_at. intros -> E. apply (inj Some) in E. injection E as E. exact (inj_pair2 Type (fun T => T) S st st' E).
Qed.
Inductive es_step : Server -> Server -> Prop :=
| es_connect t random remote port s id s' :
    HandleNewClient options t random remote port s = Val (id, s') -> es_step s s'
| es_message p t q s o s' :
    Server.client_message algs options true p t q s = (o, s') -> (forall e, o <> Panicked e) -> es_step s s'
| es_broadcast snapshot s o s' :
    BroadcastEngineWork options snapshot s = (o, s') -> (forall e, o <> Panicked e) -> es_step s s'
| es_engine st st' s :
    engine_at s st -> other st st' -> es_step s (set_server_engine (Some (mkEngine S st' ops)) s).

(** ** What a claim becomes

    A submission that claims work, with the share the storage was given for it
    as valid, if any.  It is credited when it was accepted or, refused for its
    difficulty alone, meets the positive difficulty in force before the last
    retarget; the client that made it was authorized, and the share is its own. *)
Record Credit := mkCredit { cr_claim : Accepted S; cr_share : option Share }.
Definition credit_ok (cr : Credit) : Prop :=
  let a := cr_claim cr in
  exists c, c_IsAuthorized c = true /\ ac_session a = session_of c /\
    let tolerable := meetsPreviousEngineDiff c (s_Diff (ac_share a)) in
    match cr_share cr with
    | Some sh => sh = credited options c (tolerated c (ac_share a)) /\ s_ErrorCode sh = 0 /\
        (s_ErrorCode (ac_share a) = 0 \/ s_ErrorCode (ac_share a) = ErrLowDiffShare /\ tolerable = true)
    | None => s_ErrorCode (ac_share a) = ErrLowDiffShare /\ tolerable = false
    end.

(** The engine went from [st] to [st'] along a run with these claims, and the
    storage was given exactly the valid shares of its credits. *)
Definition advance (st : S) (crs : list Credit) (st' : S) : Prop :=
  claims_run (OnSubmit ops) other st (map cr_claim crs) st' /\ Forall credit_ok crs.
Lemma advance_refl st : advance st [] st.
Proof. split; [apply run_done|constructor]. Qed.
Lemma advance_app st crs st1 crs' st' : advance st crs st1 -> advance st1 crs' st' -> advance st (crs ++ crs') st'.
Proof.
  intros [R1 F1] [R2 F2]. split; [rewrite map_app; by eapply run_of_app|by apply Forall_app].
Qed.
Lemma advance_other st st' : rtc other st st' -> advance st [] st'.
Proof. intros R. split; [by apply run_of_others|constructor]. Qed.

(** The relation of two worlds along an action, from the engine state [st] *)
Definition goes (st : S) (w w' : world) : Prop :=
  exists crs st', advance st crs st' /\ w_engine w' = Some (mkEngine S st' ops) /\
    valid_shares (w_events w') = (valid_shares (w_events w) ++ omap cr_share crs)%list.
Definition adv (w w' : world) : Prop := forall st, w_engine w = Some (mkEngine S st ops) -> goes st w w'.
Lemma goes_quiet st st' w w' :
  rtc other st st' -> w_engine w' = Some (mkEngine S st' ops) -> w_events w' = w_events w -> goes st w w'.
Proof.
  intros R E Ev. exists [], st'. split; [by apply advance_other|]. split; [done|]. by rewrite Ev, app_nil_r.
Qed.
#[export] Instance adv_pre : PreOrder adv.
Proof.
  split; [intros w st E; by apply (goes_quiet st st)|].
  intros x y z A B st E. destruct (A st E) as (crs & st1 & R & E1 & V).
  destruct (B st1 E1) as (crs' & st2 & R' & E2 & V'). exists (crs ++ crs')%list, st2.
  split; [by eapply advance_app|]. split; [done|]. by rewrite V', V, omap_app, app_assoc.
Qed.
Lemma quiet_adv w w' : quiet w w' -> adv w w'.
Proof. intros (_ & _ & Ev & Ee) st E. apply (goes_quiet st st); [done|by rewrite Ee|done]. Qed.
#[export] Instance adv_frame : Frame adv adv.
Proof. apply (frame_mono quiet _ quiet); [apply _|apply _|apply quiet_adv..]. Qed.

(** An action is judged at the states of the engine. *)
Lemma keeps_at {A} (m : M A) :
  (forall w st, w_engine w = Some (mkEngine S st ops) ->
     match m w with (Panicked _, _) => True | (_, w') => goes st w w' end) ->
  keeps adv adv m.
Proof.
  intros Hm w. specialize (Hm w). destruct (m w) as [[a|e|] w']; [|done|]; intros st E; by apply Hm.
Qed.
Lemma keeps_goes {A} (m : M A) w st :
  keeps adv adv m -> w_engine w = Some (mkEngine S st ops) ->
  match m w with (Panicked _, _) => True | (_, w') => goes st w w' end.
Proof. intros Hk E. specialize (Hk w). destruct (m w) as [[a|e|] w']; [|done|]; by apply Hk. Qed.

Lemma mbind_assoc {A B C} (m : M A) (f : A -> M B) (g : B -> M C) w :
  mbind (mbind m f) g w = mbind m (fun a => mbind (f a) g) w.
Proof. unfold mbind. by destruct (m w) as [[a|e|] w1]. Qed.

(** ** The actions of a connection *)
Lemma engineJobParams_adv : keeps adv adv (engineJobParams options).
Proof.
  apply keeps_at. intros w st E. unfold engineJobParams, mbind, client, engine. rewrite E. cbn [eng_ops eng_self eng_state].
  destruct (JobParamsForDifficulty ops) as [f|].
  - unfold of_result. destruct (f _ st); cbn; [|done]. by apply (goes_quiet st st).
  - destruct (JobNotification ops true st) as [[[m params] st']|] eqn:N; cbn; [|done].
    apply (goes_quiet st st'); [by eapply pe_notify|done|done].
Qed.
Lemma subscribe_adv q : keeps adv adv (subscribe q).
Proof.
  apply keeps_at. intros w st E. unfold subscribe, mbind, client, engine. rewrite E. cbn [eng_ops eng_self eng_state].
  destruct (OnSubscribe ops _ _ st) as [[[[r en] n] st']|] eqn:N; cbn; [|done].
  apply (goes_quiet st st'); [by eapply pe_subscribe|done|done].
Qed.
Lemma Send_adv m l : keeps adv adv (Send m l).
Proof. unfold Send. repeat first [apply SendJsonRPC_keeps; apply _|keeps_step]. Qed.
Lemma sendEngineWork_adv : keeps adv adv (sendEngineWork options).
Proof. unfold sendEngineWork. repeat first [apply engineJobParams_adv|apply Send_adv|keeps_step]. Qed.
Lemma applyEngineVarDiff_adv t : keeps adv adv (applyEngineVarDiff options t).
Proof. unfold applyEngineVarDiff. repeat first [apply sendEngineWork_adv|frame_set_tac|keeps_step]. Qed.

(** A submission makes one step of the engine and, when it claims work, one credit. *)
Lemma goes_submitted w w1 c ps st sh st' ev acc :
  c_IsAuthorized c = true -> OnSubmit ops (session_of c) ps st = Val (sh, st') ->
  w_engine w1 = Some (mkEngine S st' ops) -> w_events w1 = (w_events w ++ [EvPutShare ev acc])%list ->
  (if code_ok (tolerated c sh) then ev = credited options c (tolerated c sh)
   else s_ErrorCode ev = s_ErrorCode (tolerated c sh)) ->
  goes st w w1.
Proof.
  intros Ha Hs He Hv Hev. set (a := mkAccepted (session_of c) ps sh st).
  assert (valid_shares (w_events w1) = (valid_shares (w_events w) ++ valid_shares [EvPutShare ev acc])%list) as Hvs
    by (unfold valid_shares; by rewrite Hv, omap_app).
  destruct (code_ok (tolerated c sh)) eqn:Ec; unfold code_ok in Ec.
  - assert ((s_ErrorCode ev =? 0) = true) as E0 by (rewrite Hev; by rewrite (proj1 (credited_fields options c _))).
    assert (s_ErrorCode sh = 0 \/ s_ErrorCode sh = ErrLowDiffShare /\ meetsPreviousEngineDiff c (s_Diff sh) = true) as Hor.
    { unfold tolerated in Ec. destruct (s_ErrorCode sh =? ErrLowDiffShare) eqn:El; [|left; by apply Z.eqb_eq].
      destruct (meetsPreviousEngineDiff _ _); [|left; by apply Z.eqb_eq]. right. split; [by apply Z.eqb_eq|done]. }
    exists [mkCredit a (Some ev)], st'. split; [split|split; [done|]].
    + eapply run_accepted; [exact Hs| |apply run_done]. unfold claims. by destruct Hor as [->|[-> _]].
    + constructor; [|constructor]. exists c. do 2 (split; [done|]). cbn. split; [done|]. split; [by apply Z.eqb_eq|done].
    + rewrite Hvs. unfold valid_shares at 2. cbn. by rewrite E0.
  - assert (valid_shares [EvPutShare ev acc] = []) as E0 by (unfold valid_shares; cbn; by rewrite Hev, Ec).
    rewrite E0 in Hvs. destruct (claims sh) eqn:Ecl.
    + assert (s_ErrorCode sh = ErrLowDiffShare /\ meetsPreviousEngineDiff c (s_Diff sh) = false) as Hlow.
      { unfold claims in Ecl. unfold tolerated in Ec. destruct (s_ErrorCode sh =? ErrLowDiffShare) eqn:El.
        - apply Z.eqb_eq in El. split; [done|]. by destruct (meetsPreviousEngineDiff _ _).
        - cbn in Ec. rewrite Ec in Ecl. done. }
      exists [mkCredit a None], st'. split; [split|split; [done|exact Hvs]].
      * eapply run_accepted; [exact Hs|exact Ecl|apply run_done].
      * constructor; [|constructor]. by exists c.
    + exists [], st'. split; [split; [|constructor]|split; [done|exact Hvs]].
      eapply run_refused; [exact Hs|exact Ecl|apply run_done].
Qed.

Lemma engine_submit_adv t q : keeps adv adv (engine_submit options true t q).
Proof.
  apply keeps_at. intros w st E. unfold engine_submit, mbind at 1, client at 1.
  destruct (c_IsAuthorized (w_client w)) eqn:Ha; cbn [negb].
  2:{ refine (keeps_goes _ w st _ E). repeat first [apply SendJsonRPC_keeps; apply _|apply ShouldBan_keeps; apply _|keeps_step]. }
  unfold mbind at 1, engine at 1. rewrite E. unfold mbind at 1, of_result at 1. cbn [eng_ops eng_self eng_state].
  destruct (OnSubmit ops _ _ st) as [[sh st']|] eqn:Es; [|done]. unfold ret at 1.
  unfold mbind at 1, set_engine at 1. change (with_self _ _) with (mkEngine S st' ops).
  set (w1 := mkWorld _ _ _ _ _). set (c := w_client w) in *. fold (code_ok (tolerated c sh)).
  (* the share is stored, and what follows is the connection's own *)
  assert (forall ev acc (rest : M unit), keeps adv adv rest ->
    (if code_ok (tolerated c sh) then ev = credited options c (tolerated c sh)
     else s_ErrorCode ev = s_ErrorCode (tolerated c sh)) ->
    match mbind (put_share true ev acc) (fun _ => rest) w1 with (Panicked _, _) => True | (_, w') => goes st w w' end) as Hput.
  { intros ev acc rest Hk Hev. unfold mbind, put_share, emit.
    match goal with |- context [rest ?w0] => set (w2 := w0) end.
    assert (goes st w w2) as G by (by eapply (goes_submitted w w2 c)).
    destruct G as (crs & st2 & R & E2 & V). pose proof (keeps_goes rest w2 st2 Hk E2) as Hg.
    destruct (rest w2) as [[u|e|] w3]; [|done|];
      (destruct Hg as (crs' & st3 & R' & E3 & V'); exists (crs ++ crs')%list, st3;
       split; [by eapply advance_app|]; split; [done|]; by rewrite V', V, omap_app, app_assoc). }
  match goal with |- context [mbind _ ?f] => set (answer := f) end.
  assert (forall u, keeps adv adv (answer u)) as Ka.
  { intros u. subst answer. cbv beta. repeat first [apply SendJsonRPC_keeps; apply _|apply ShouldBan_keeps; apply _|keeps_step]. }
  clearbody answer. destruct (code_ok (tolerated c sh)).
  - rewrite mbind_assoc. apply Hput; [|done].
    apply (keeps_bind adv adv); [apply applyEngineVarDiff_adv|exact Ka].
  - destruct (splitWorker _) as [miner rig]. exact (Hput (set_names miner rig (tolerated c sh)) false (answer tt) (Ka tt) eq_refl).
Qed.

(** Authorization is the connection's own. *)
Lemma set_client_adv f : keeps adv adv (set_client f).
Proof. intros w st E. cbn. by apply (goes_quiet st st). Qed.
Lemma authorize_adv : keeps adv adv (authorize options).
Proof. unfold authorize. repeat first [apply set_client_adv|keeps_step]. Qed.

Ltac adv_step :=
  first [apply engine_submit_adv|apply subscribe_adv|apply engineJobParams_adv|apply sendEngineWork_adv
        |apply authorize_adv|apply set_client_adv|apply SendJsonRPC_keeps; apply _|keeps_step].

Lemma handleEngineMessage_adv t q : keeps adv adv (handleEngineMessage options true t q).
Proof. unfold handleEngineMessage. cbv zeta. repeat adv_step. Qed.
Lemma HandleMessage_adv t q : keeps adv adv (HandleMessage algs options true t q).
Proof.
  apply keeps_at. intros w st E. unfold HandleMessage. rewrite E. refine (keeps_goes _ w st _ E).
  repeat first [apply handleEngineMessage_adv|adv_step].
Qed.

(** ** The steps of the server *)
Definition sv_goes (st : S) (s s' : Server) : Prop :=
  exists crs st', advance st crs st' /\ engine_at s' st' /\
    valid_shares (sv_events s') = (valid_shares (sv_events s) ++ omap cr_share crs)%list.
Lemma sv_goes_trans st s1 s2 s3 :
  sv_goes st s1 s2 -> (forall st2, engine_at s2 st2 -> sv_goes st2 s2 s3) -> sv_goes st s1 s3.
Proof.
  intros (crs & st1 & R & E1 & V) G. destruct (G st1 E1) as (crs' & st2 & R' & E2 & V').
  exists (crs ++ crs')%list, st2. split; [by eapply advance_app|]. split; [done|]. by rewrite V', V, omap_app, app_assoc.
Qed.
Lemma sv_goes_same st s s' : engine_at s st -> sv_engine s' = sv_engine s -> sv_events s' = sv_events s -> sv_goes st s s'.
Proof.
  intros E Ee Ev. exists [], st. split; [apply advance_refl|]. unfold engine_at. rewrite Ee, Ev.
  split; [done|]. by rewrite app_nil_r.
Qed.
Lemma run_client_goes {A} p (m : M A) s o s' st :
  keeps adv adv m -> run_client p m s = (o, s') -> (forall e, o <> Panicked e) -> engine_at s st -> sv_goes st s s'.
Proof.
  intros Hk Hr Ho E. unfold run_client in Hr. destruct (sv_heap s !! p) as [c|].
  2:{ injection Hr as <- <-. by destruct (Ho "nil pointer dereference"%string). }
  pose proof (keeps_goes m (world_of c s) st Hk E) as G. destruct (m (world_of c s)) as [o' w'].
  injection Hr as -> <-. destruct o as [a|e|]; [exact G|by destruct (Ho e)|exact G].
Qed.
Lemma broadcast_goes m l s o s' st :
  keeps adv adv m -> broadcast m l s = (o, s') -> (forall e, o <> Panicked e) -> engine_at s st -> sv_goes st s s'.
Proof.
  intros Hk. revert s st. induction l as [|p l IH]; intros s st Hr Ho E; cbn [broadcast] in Hr.
  { injection Hr as <- <-. by apply sv_goes_same. }
  destruct (run_client p m s) as [o1 s1] eqn:E1.
  assert (forall e, o1 <> Panicked e) as Ho1 by (intros e ->; injection Hr as <- <-; by destruct (Ho e)).
  pose proof (run_client_goes p m s o1 s1 st Hk E1 Ho1 E) as G.
  destruct o1 as [[]|e|]; [|by destruct (Ho1 e)|by injection Hr as <- <-].
  eapply sv_goes_trans; [exact G|]. intros st2 E2. by apply IH.
Qed.

Lemma es_step_goes s s' st : es_step s s' -> engine_at s st -> sv_goes st s s'.
Proof.
  intros [t random remote port s0 id s1 Hn|p t q s0 o s1 Hr Ho|snap s0 o s1 Hr Ho|st1 st2 s0 E1 Ho] E.
  - unfold HandleNewClient in Hn. destruct (Next (sv_counter s0)) as [sid counter].
    destruct (NewStratumClient _ _ _ _ _ _ _ _) as [c|]; cbn [rbind] in Hn; [|done].
    apply Val_pair_inj in Hn as [_ <-].
    match goal with |- context [run_client ?p ?m ?s2] => destruct (run_client p m s2) as [o s3] eqn:R; set (s4 := s2) in * end.
    eapply (sv_goes_trans st s0 s4); [by apply sv_goes_same|]. intros st2 E2. cbn [snd].
    refine (run_client_goes _ _ s4 o s3 st2 _ R _ E2).
    { unfold CheckBan_client. repeat first [apply frame_bans|keeps_step]. }
    intros e ->. unfold run_client in R. subst s4. cbn [sv_heap] in R.
    rewrite lookup_app_r, Nat.sub_diag in R by done. cbn in R.
    unfold CheckBan_client, mbind, client, with_bans in R. by destruct (CheckBan _ _ _).
  - refine (run_client_goes _ _ s0 o s1 st _ Hr Ho E).
    apply (keeps_bind adv adv); [|intros _; apply HandleMessage_adv].
    unfold CheckBan_client. repeat first [apply frame_bans|keeps_step].
  - refine (broadcast_goes _ _ s0 o s1 st _ Hr Ho E).
    repeat first [apply sendEngineWork_adv|keeps_step].
  - rewrite (engine_at_inj _ _ _ E E1) in *. exists [], st2.
    split; [apply advance_other; by apply rtc_once|]. split; [done|]. by rewrite app_nil_r.
Qed.

Lemma es_run_goes s s' st : rtc es_step s s' -> engine_at s st -> sv_goes st s s'.
Proof.
  intros R. revert st. induction R as [s|s s1 s' Hs R IH]; intros st E; [by apply sv_goes_same|].
  eapply sv_goes_trans; [by eapply es_step_goes|]. exact IH.
Qed.

(** ** What the storage holds *)

(** The claims of a run of the whole server were proved, and none was made twice. *)
Lemma advance_claims st crs st' :
  advance st crs st' ->
  Forall (well_claimed (OnSubmit ops)) (map cr_claim crs) /\
  NoDup (map (fun cr => ac_work (OnSubmit ops) (cr_claim cr)) crs) /\ Forall credit_ok crs.
Proof.
  intros [R F]. apply (run_claims_once (OnSubmit ops) other pe_other_used) in R as [W D].
  split; [done|]. split; [|done]. by rewrite map_map in D.
Qed.

(** What an engine pool credits, as far as the interface goes: what [work_of],
    [proved] and [earned] mean is the engine's. *)
Lemma pool_credits_once s0 st0 s :
  engine_at s0 st0 -> sv_events s0 = [] -> rtc es_step s0 s ->
  exists crs st,
    engine_at s st /\ claims_run (OnSubmit ops) other st0 (map cr_claim crs) st /\
    valid_shares (sv_events s) = omap cr_share crs /\
    NoDup (map (fun cr => work_of (ac_params (cr_claim cr)) (ac_state (cr_claim cr))) crs) /\
    Forall (fun cr => exists k c, let a := cr_claim cr in
      work_of (ac_params a) (ac_state a) = Some k /\ proved (ac_session a) k (ac_share a) (ac_state a) /\
      c_IsAuthorized c = true /\ ac_session a = session_of c /\
      match cr_share cr with
      | Some sh => sh = credited options c (tolerated c (ac_share a)) /\ s_ErrorCode sh = 0 /\
          (s_ErrorCode (ac_share a) = 0 /\ earned (ac_session a) k (ac_share a) (ac_state a) \/
           s_ErrorCode (ac_share a) = ErrLowDiffShare /\ meetsPreviousEngineDiff c (s_Diff (ac_share a)) = true)
      | None => s_ErrorCode (ac_share a) = ErrLowDiffShare /\ meetsPreviousEngineDiff c (s_Diff (ac_share a)) = false
      end) crs.
Proof.
  intros E Ev R. destruct (es_run_goes s0 s st0 R E) as (crs & st & A & E' & V). rewrite Ev in V.
  pose proof (advance_claims _ _ _ A) as (W & D & F). exists crs, st. split_and!; [done|by destruct A|done|done|].
  apply Forall_forall. intros cr Hcr. rewrite Forall_forall in F. destruct (F cr Hcr) as (c & Ha & Hs & Hm).
  rewrite Forall_map, Forall_forall in W. destruct (W cr Hcr) as (k & Ek & Hp & He).
  exists k, c. cbv zeta in *. do 4 (split; [done|]). destruct (cr_share cr); [|done].
  destruct Hm as (-> & E0 & [Hz|Hl]); (split; [done|]; split; [done|]); [left|by right]. split; [done|by apply He].
Qed.
End System.

(** ** The engines keep the promise *)
Ltac unchanged :=
  intros; match goal with E : _ = Val (_, _) |- _ => handler_cases E; apply Val_pair_inj in E as [_ <-]; apply rtc_refl end.

Section Instances.
Context `{MapOrder} `{AddressCodec} `{Platform} `{PowHashes}.

#[export] Instance cryptonote_pool_engine max_slice Hash poolAddress :
  PoolEngine (K := nat * bytes) (Cryptonote.cryptonote_ops Hash) (Cryptonote.new_work max_slice poolAddress).
Proof.
  apply (Build_PoolEngine _ _ (Cryptonote.cryptonote_ops Hash) _ (Cryptonote.cryptonote_checker Hash)); [apply Cryptonote.new_work_used| |].
  - cbn. unfold Cryptonote.OnSubscribe. unchanged.
  - cbn. unfold Cryptonote.JobNotification. unchanged.
Defined.
#[export] Instance ergo_pool_engine Compute :
  PoolEngine (K := nat * Z) (Ergo.ergo_ops Compute) Ergo.other_step.
Proof.
  apply (Build_PoolEngine _ _ (Ergo.ergo_ops Compute) _ (Ergo.ergo_checker Compute)); [apply Ergo.ergo_other_step_used| |].
  - cbn. intros s ps st r st' E. apply rtc_once. right. by exists s, ps, r.
  - cbn. unfold Ergo.JobNotification. unchanged.
Defined.
#[export] Instance beam_pool_engine verify :
  PoolEngine (K := nat * (bytes * bytes)) (Beam.beam_ops verify) Beam.other_step.
Proof.
  apply (Build_PoolEngine _ _ (Beam.beam_ops verify) _ (Beam.beam_checker verify)); [apply Beam.beam_other_step_used| |].
  - cbn. unfold Beam.OnSubscribe. unchanged.
  - cbn. unfold Beam.JobNotification. unchanged.
Defined.
#[export] Instance kaspa_pool_engine `{Kaspa.Kaspad} poolAddress allow_unsynced :
  PoolEngine (K := nat * string) Kaspa.kaspa_ops (Kaspa.other_step poolAddress allow_unsynced).
Proof.
  apply (Build_PoolEngine _ _ Kaspa.kaspa_ops _ (Kaspa.kaspa_checker)); [apply Kaspa.kaspa_other_step_used| |].
  - cbn. unfold Kaspa.OnSubscribe. unchanged.
  - cbn. unfold Kaspa.JobNotification. unchanged.
Defined.
#[export] Instance equihash_pool_engine ValidURL dm request_id v Verify :
  PoolEngine (K := nat * bytes) (Equihash.equihash_ops ValidURL dm request_id v Verify) (Equihash.other_step ValidURL dm request_id).
Proof.
  apply (Build_PoolEngine _ _ (Equihash.equihash_ops ValidURL dm request_id v Verify) _ (Equihash.equihash_checker ValidURL dm request_id v Verify)); [apply Equihash.equihash_other_step_used| |].
  - cbn. intros s ps st r st' E. apply rtc_once. right. by exists s, ps, r.
  - cbn. unfold Equihash.JobNotification. unchanged.
Defined.
#[export] Instance kawpow_pool_engine ValidURL dm request_id clock opts Compute :
  PoolEngine (K := nat * Z) (Kawpow.kawpow_ops ValidURL dm request_id Compute) (Kawpow.other_step ValidURL dm request_id clock opts).
Proof.
  apply (Build_PoolEngine _ _ (Kawpow.kawpow_ops ValidURL dm request_id Compute) _ (Kawpow.kawpow_checker ValidURL dm request_id Compute)); [apply Kawpow.kawpow_other_step_used| |].
  - cbn. intros s ps st r st' E. apply rtc_once. right. by exists s, ps, r.
  - cbn. unfold Kawpow.JobNotification. unchanged.
Defined.
#[export] Instance alephium_pool_engine blake3 :
  PoolEngine (K := nat * bytes) (Alephium.alephium_ops blake3) Alephium.other_step.
Proof.
  apply (Build_PoolEngine _ _ (Alephium.alephium_ops blake3) _ (Alephium.alephium_checker blake3)); [apply Alephium.alephium_other_step_used| |].
  - cbn. intros s ps st r st' E. apply rtc_once. right. by exists s, ps, r.
  - cbn. unfold Alephium.JobNotification. unchanged.
Defined.
End Instances.

(** ** The shares of a CryptoNote pool *)
Section CryptonotePool.
Context `{MapOrder} `{AddressCodec} `{Platform} `{PowHashes}.
Variable algs : Algorithms.
Variable options : Options.
Variable max_slice : Z.
Variable Hash : bytes -> bytes -> option bytes.
Variable poolAddress : string.

(** C6: what a CryptoNote pool credits.  Over any run of the stratum server over the
    CryptoNote engine, in which the connections, messages and broadcasts of all its
    clients and the engine's refreshes of its template interleave at will and no
    handler panics, the valid shares in the storage are exactly, in their order,
    those of a list of claims, and every claim is a submission by an authorized
    client.  Behind each is a job the engine published and the four bytes of a
    nonce, whose RandomX hash was recomputed and is of the share's recorded
    difficulty.  A share was either accepted, and then that difficulty is no lower
    than its session's and a block it carries is the job's blob with the nonce, of
    network difficulty; or it was refused for its difficulty alone and meets the one
    in force before the client's last retarget.  The bytes of a nonce are behind at
    most one claim of each published job, whichever client makes it, in whatever
    case and with or without 0x the hexadecimal text of the nonce is spelled. *)
Theorem engine_pool_credits_once s0 e0 s :
  let ops := Cryptonote.cryptonote_ops Hash in
  let refreshes := Cryptonote.new_work max_slice poolAddress in
  engine_at ops s0 e0 -> sv_events s0 = [] -> rtc (es_step algs options ops refreshes) s0 s ->
  exists crs e,
    engine_at ops s e /\ claims_run (OnSubmit ops) refreshes e0 (map cr_claim crs) e /\
    valid_shares (sv_events s) = omap cr_share crs /\
    NoDup (map (fun cr => Cryptonote.submitted_work (ac_params (cr_claim cr)) (ac_state (cr_claim cr))) crs) /\
    Forall (fun cr => exists job nonce c, let a := cr_claim cr in
      Cryptonote.submitted_work (ac_params a) (ac_state a) = Some (job, nonce) /\
      Cryptonote.randomx_work Hash (ac_session a) (job, nonce) (ac_share a) (ac_state a) /\
      c_IsAuthorized c = true /\ ac_session a = session_of c /\
      match cr_share cr with
      | Some sh => sh = credited options c (tolerated c (ac_share a)) /\ s_ErrorCode sh = 0 /\
          (s_ErrorCode (ac_share a) = 0 /\
             Cryptonote.randomx_share Hash (ac_session a) (job, nonce) (ac_share a) (ac_state a) \/
           s_ErrorCode (ac_share a) = ErrLowDiffShare /\ meetsPreviousEngineDiff c (s_Diff (ac_share a)) = true)
      | None => s_ErrorCode (ac_share a) = ErrLowDiffShare /\ meetsPreviousEngineDiff c (s_Diff (ac_share a)) = false
      end) crs.
Proof.
  intros ops refreshes E Ev R.
  destruct (pool_credits_once algs options ops refreshes s0 e0 s E Ev R) as (crs & e & Ee & Rc & Sv & Nd & F).
  exists crs, e. split_and!; [done..|]. eapply Forall_impl; [exact F|].
  intros cr ([job nonce] & c & Hc). by exists job, nonce, c.
Qed.
End CryptonotePool.

(** ** Witness: a CryptoNote pool with one miner *)
Definition xmr_ops : EngineOps Cryptonote.engine := Cryptonote.cryptonote_ops Cryptonote.sample_hash.
Definition xmr_other : Cryptonote.engine -> Cryptonote.engine -> Prop :=
  @Cryptonote.new_work sha_primitives listed_order 1000 "4pool".
Definition xmr_step : Server -> Server -> Prop :=
  @es_step hex_codec amd64 sample_algs pool_options Cryptonote.engine xmr_ops xmr_other.
Definition xmr_server (e : Cryptonote.engine) : Server :=
  set_server_engine (Some (mkEngine Cryptonote.engine e xmr_ops)) (NewStratumServer None no_bans).
Definition xmr0 : Server := xmr_server Cryptonote.engine0.
Definition xmr1 : Server := xmr_server Cryptonote.engine1.
Definition xmr_connect := HandleNewClient pool_options moment0 [x01; x02; x03; x04] "10.0.0.1:5000" 3333 xmr1.
Definition xmr2 : Server := get xmr1 (rbind xmr_connect (fun r => Val (snd r))).
Definition xmr_say (q : JsonRpcRequest) (s : Server) : outcome unit * Server :=
  @Server.client_message hex_codec amd64 sample_algs pool_options true 0 moment0 q s.
Definition xmr_login : JsonRpcRequest :=
  mkRequest (JNum "1") "login" (Some (JObj [("login", JStr "alice.rig1"); ("pass", JStr "x")])).
Definition xmr_submit (nonce : string) : JsonRpcRequest :=
  mkRequest (JNum "2") "submit" (Some (default JNull (head (Cryptonote.submit_params nonce)))).
Definition xmr3 : Server := snd (xmr_say xmr_login xmr2).
Definition xmr4 : Server := snd (xmr_say (xmr_submit "0000000c") xmr3).
Definition xmr5 : Server := snd (xmr_say (xmr_submit "0000000C") xmr4).

Lemma xmr5_reached : rtc xmr_step xmr0 xmr5.
Proof.
  apply (rtc_l _ _ xmr1).
  { apply (es_engine _ _ _ _ Cryptonote.engine0 Cryptonote.engine1 xmr0); [reflexivity|].
    eexists. apply (get_pair (Ok false) Cryptonote.engine0). vm_compute. reflexivity. }
  apply (rtc_l _ _ xmr2).
  { apply (es_connect _ _ _ _ moment0 [x01; x02; x03; x04] "10.0.0.1:5000" 3333 _
      (get [] (rbind xmr_connect (fun r => Val (fst r))))).
    apply get_pair. vm_compute. reflexivity. }
  apply (rtc_l _ _ xmr3).
  { eapply es_message; [apply (surjective_pairing (xmr_say xmr_login xmr2))|]. intros e. vm_compute. discriminate. }
  apply (rtc_l _ _ xmr4).
  { eapply es_message; [apply (surjective_pairing (xmr_say (xmr_submit "0000000c") xmr3))|]. intros e. vm_compute. discriminate. }
  apply rtc_once. eapply es_message; [apply (surjective_pairing (xmr_say (xmr_submit "0000000C") xmr4))|].
  intros e. vm_compute. discriminate.
Qed.

(** One share is stored as valid; its repetition is stored as refused. *)
Example xmr5_shares :
  map s_ErrorCode (valid_shares (sv_events xmr5)) = [0] /\ length (sv_events xmr5) = 2%nat.
Proof. split; vm_compute; reflexivity. Qed.

Lemma engine_pool_credits_once_witness :
  exists crs e,
    engine_at xmr_ops xmr5 e /\ claims_run (OnSubmit xmr_ops) xmr_other Cryptonote.engine0 (map cr_claim crs) e /\
    valid_shares (sv_events xmr5) = omap cr_share crs /\
    NoDup (map (fun cr => Cryptonote.submitted_work (ac_params (cr_claim cr)) (ac_state (cr_claim cr))) crs) /\
    Forall (fun cr => exists job nonce c, let a := cr_claim cr in
      Cryptonote.submitted_work (ac_params a) (ac_state a) = Some (job, nonce) /\
      Cryptonote.randomx_work Cryptonote.sample_hash (ac_session a) (job, nonce) (ac_share a) (ac_state a) /\
      c_IsAuthorized c = true /\ ac_session a = session_of c /\
      match cr_share cr with
      | Some sh => sh = credited pool_options c (tolerated c (ac_share a)) /\ s_ErrorCode sh = 0 /\
          (s_ErrorCode (ac_share a) = 0 /\
             Cryptonote.randomx_share Cryptonote.sample_hash (ac_session a) (job, nonce) (ac_share a) (ac_state a) \/
           s_ErrorCode (ac_share a) = ErrLowDiffShare /\ meetsPreviousEngineDiff c (s_Diff (ac_share a)) = true)
      | None => s_ErrorCode (ac_share a) = ErrLowDiffShare /\ meetsPreviousEngineDiff c (s_Diff (ac_share a)) = false
      end) crs.
Proof.
  apply (@engine_pool_credits_once listed_order hex_codec amd64 sha_primitives sample_algs pool_options
           1000 Cryptonote.sample_hash "4pool" xmr0 Cryptonote.engine0 xmr5).
  - reflexivity.
  - reflexivity.
  - exact xmr5_reached.
Defined.
