(* ===== verification/Startup.v ===== *)
(** * Startup: how the pool is put together

    The parts of src/pool/pool.go, src/stratum/server.go, src/storage/redis.go,
    src/cmd/nomp and the engines that run once: opening the ports, the engines
    linked into a build and the choice among them, the wiring of an engine pool,
    what an engine does before its first job.  The template notifications of
    kaspad are here too: they race with the watcher from the start. *)
From Stdlib Require Import ZArith Lia List Strings.Ascii Strings.String Strings.Byte Floats.SpecFloat.
From stdpp Require Import base list strings gmap relations.
From S2P Require Import Prelude Bytes Float Strconv Utils Types JsonText Conversions Config Algorithm Effects Storage Daemons Payments VarDiff Bans Engine Jobs JobManager EngineWork Beam Kaspa Ethash Pool Stratum EngineSession Server.
Import ListNotations.
Local Open Scope string_scope.
Local Open Scope Z_scope.
Local Open Scope go_scope.

(** ** The listeners of [Server.Init] *)
Module Listening.
(** The ports that were opened, and the field [Listener]: nil when the last
    attempt failed. *)
Record listeners := mkListeners { portStarted : list Z; Listener : option Z }.
Section Ports.
Variable opens : Z -> bool.
Definition listen (s : listeners) (port : Z) : listeners :=
  if opens port then mkListeners (portStarted s ++ [port])%list (Some port) else mkListeners (portStarted s) None.
(** The ports in the order Go ranges over them. *)
Definition Init (ports : list Z) : result listeners :=
  let s := fold_left listen ports (mkListeners [] None) in
  match portStarted s with [] => Panic "No port listened" | _ => Val s end.
(** The goroutine that accepts: whether a connection to [port] comes out of it. *)
Definition Accept (s : listeners) (port : Z) : result bool :=
  match Listener s with Some p => Val (p =? port) | None => Panic "nil pointer dereference" end.

Lemma listen_all ports s : fold_left listen ports s =
  mkListeners (portStarted s ++ List.filter opens ports)
    (match rev ports with [] => Listener s | p :: _ => if opens p then Some p else None end).
Proof.
  revert s. induction ports as [|p ports IH]; intros s; [cbn; rewrite app_nil_r; by destruct s|].
  cbn [fold_left]. rewrite IH. unfold listen. cbn [List.filter rev]. f_equal.
  - destruct (opens p); cbn [portStarted]; [by rewrite <- app_assoc|done].
  - destruct (rev ports) as [|q l]; cbn [app]; [|done]. by destruct (opens p).
Qed.

(** C28: of the ports the server opens, one is served.  The ports reported as
    started are those that opened, in the order of the range, but the field that
    holds the listener is overwritten in each turn: when the last port opened, a
    connection to any other is never accepted, and when it did not, the goroutine
    that accepts dereferences nil and ends the process, whatever else was open. *)
Theorem only_last_port_served ports last s :
  Init (ports ++ [last])%list = Val s ->
  portStarted s = List.filter opens (ports ++ [last])%list /\
  forall port, Accept s port = if opens last then Val (last =? port) else Panic "nil pointer dereference".
Proof.
  unfold Init. rewrite listen_all. cbn [portStarted app Listener]. rewrite rev_app_distr. cbn [rev app].
  destruct (List.filter opens (ports ++ [last])) eqn:E; [done|]. intros [= <-]. cbn [portStarted]. split; [done|].
  intros port. unfold Accept. cbn [Listener]. by destruct (opens last).
Qed.
End Ports.

(** Of two open ports one is dead; a busy second port takes the pool down. *)
Lemma only_last_port_served_witness :
  let run opens := Init opens [3333; 3334] in
  (exists s, run (fun _ => true) = Val s /\ portStarted s = [3333; 3334] /\ Accept s 3333 = Val false) /\
  (exists s, run (Z.eqb 3333) = Val s /\ portStarted s = [3333] /\ Accept s 3333 = Panic "nil pointer dereference").
Proof.
  cbv zeta. split.
  - exists (mkListeners [3333; 3334] (Some 3334)). split; [reflexivity|].
    destruct (only_last_port_served (fun _ => true) [3333] 3334 (mkListeners [3333; 3334] (Some 3334)) eq_refl) as [-> A].
    split; [reflexivity|]. by rewrite A.
  - exists (mkListeners [3333] None). split; [reflexivity|].
    destruct (only_last_port_served (Z.eqb 3333) [3333] 3334 (mkListeners [3333] None) eq_refl) as [-> A].
    split; [reflexivity|]. by rewrite A.
Defined.
End Listening.

(** ** The engines of a build *)
Module Registry.
Inductive kind := KAlephium | KBeam | KCryptonote | KEquihash | KErgo | KEthash | KKaspa | KKawpow.
Definition registry : Type := gmap string kind.
(** [init] of each engine's package *)
Definition init_alephium (r : registry) : registry := Register "blake3" KAlephium (Register "alephium" KAlephium r).
Definition init_beam (r : registry) : registry := Register "beamhash" KBeam (Register "beam" KBeam r).
Definition init_cryptonote (r : registry) : registry := Register "randomx" KCryptonote (Register "cryptonote" KCryptonote r).
Definition init_equihash (r : registry) : registry := Register "zelhash" KEquihash (Register "equihash" KEquihash r).
Definition init_ergo (r : registry) : registry := Register "autolykos2" KErgo (Register "ergo" KErgo r).
Definition init_ethash (r : registry) : registry := Register "etchash" KEthash (Register "ethash" KEthash r).
Definition init_kaspa (r : registry) : registry := Register "kheavyhash" KKaspa (Register "kaspa" KKaspa r).
Definition init_kawpow (r : registry) : registry := Register "kawpow" KKawpow r.
(** The build tags of src/cmd/nomp/engines_ethash.go and engines_kaspa.go *)
Record tags := mkTags { tag_ethash : bool; tag_kaspa : bool }.
(** The packages in the order of their paths. *)
Definition linked (t : tags) : registry :=
  let r := init_ergo (init_equihash (init_cryptonote (init_beam (init_alephium ∅)))) in
  let r := if tag_ethash t then init_ethash r else r in
  let r := if tag_kaspa t then init_kaspa r else r in
  init_kawpow r.

(** What a name stands for in a build. *)
Definition kind_named (t : tags) (name : string) : option kind :=
  if decide (name ∈ ["alephium"; "blake3"]) then Some KAlephium
  else if decide (name ∈ ["beam"; "beamhash"]) then Some KBeam
  else if decide (name ∈ ["cryptonote"; "randomx"]) then Some KCryptonote
  else if decide (name ∈ ["equihash"; "zelhash"]) then Some KEquihash
  else if decide (name ∈ ["ergo"; "autolykos2"]) then Some KErgo
  else if decide (name ∈ ["ethash"; "etchash"]) then (if tag_ethash t then Some KEthash else None)
  else if decide (name ∈ ["kaspa"; "kheavyhash"]) then (if tag_kaspa t then Some KKaspa else None)
  else if decide (name = "kawpow") then Some KKawpow
  else None.
Definition every_name : list string :=
  ["alephium"; "blake3"; "beam"; "beamhash"; "cryptonote"; "randomx"; "equihash"; "zelhash"; "ergo"; "autolykos2";
   "ethash"; "etchash"; "kaspa"; "kheavyhash"; "kawpow"].
Lemma Get_linked t name : Get name (linked t) = kind_named t name.
Proof.
  destruct (decide (name ∈ every_name)) as [Hin|Hout].
  - assert (Forall (fun name => Get name (linked t) = kind_named t name) every_name) as F
      by (destruct t as [[] []]; repeat constructor).
    by rewrite Forall_forall in F; apply F.
  - assert (Forall (fun n => name <> n) every_name) as F by (apply Forall_forall; intros n Hn ->; done).
    assert (forall l, sublist l every_name -> name ∉ l) as N.
    { intros l Hl Hn. apply Hout. eapply elem_of_submseteq; [exact Hn|]. by apply sublist_submseteq. }
    unfold kind_named. repeat (rewrite decide_False; [|apply N; repeat first [apply sublist_nil_l|apply sublist_skip|apply sublist_cons]]).
    repeat apply Forall_cons in F as [? F].
    rewrite decide_False by done. unfold linked, init_alephium, init_beam, init_cryptonote, init_equihash, init_ergo, init_ethash, init_kaspa, init_kawpow.
    by destruct (tag_ethash t), (tag_kaspa t); rewrite !Get_Register, !decide_False by congruence.
Qed.
End Registry.

(** ** What an engine does before its first job *)
Module Engines.
Section Init.
Context `{MapOrder}.

(** beam: the first daemon is dialled and logged into. *)
Definition Beam_Init (ds : list DaemonOptions) (dialled : bool) (e : Beam.engine) : err_or unit * Beam.engine :=
  match ds with
  | [] => (Err "beam: no daemon configured", e)
  | d :: _ => Beam.connectAndLogin (d_Password d) dialled e
  end.

(** kaspa: the connection, the subscription to template notifications and the
    first template; what was changed is not looked at. *)
Definition Kaspa_Init `{Kaspad} (poolAddress : string) (allow_unsynced : bool) (ds : list DaemonOptions)
    (connects registers : bool) (e : Kaspa.engine) : err_or unit * Kaspa.engine :=
  match ds with
  | [] => (Err "kaspa: no daemon configured", e)
  | _ =>
      if negb connects then (Err "dial", e)
      else if negb registers then (Err "register", e)
      else let '(r, e) := Kaspa.refresh poolAddress allow_unsynced e in
           (match r with Ok _ => Ok tt | Err m => Err m end, e)
  end.

(** ethash: a light hasher for the block of the epoch change, that of the environment
    when it is a number; and the first work package. *)
Definition ECIP1099FBlock : Z := 11700000.
Definition epoch_change (env : string) : Z :=
  if String.eqb env "" then ECIP1099FBlock
  else match ParseUint env 10 with (n, None) => n | _ => ECIP1099FBlock end.
Definition Ethash_Init (ds : list DaemonOptions) (env : string) (e : Ethash.engine) : err_or unit * Ethash.engine :=
  match ds with
  | [] => (Err "ethash: no daemon configured", e)
  | _ =>
      let '(r, e) := Ethash.RefreshWork (Ethash.with_light (epoch_change env) e) in
      (match r with Ok _ => Ok tt | Err m => Err m end, e)
  end.
End Init.

(** [initVerthash] under its [sync.Once]: a panic inside counts as done, and
    leaves the client nil. *)
Inductive once_state := Fresh | Made (client : option (bytes -> bytes)).
Definition initVerthash (made : option (bytes -> bytes)) (s : once_state) : result unit * once_state :=
  match s with
  | Fresh => match made with
             | Some c => (Val tt, Made (Some c))
             | None => (Panic "verthash init failed", Made None)
             end
  | Made _ => (Val tt, s)
  end.
Definition VerthashHash (made : option (bytes -> bytes)) (b : bytes) (s : once_state) : result bytes * once_state :=
  match initVerthash made s with
  | (Panic e, s) => (Panic e, s)
  | (Val _, s) => (match s with Made (Some compute) => Val (compute b) | _ => Panic "nil pointer dereference" end, s)
  end.
(** Every hash is the one of a client made at once: what the once keeps is no
    matter until the making fails. *)
Lemma VerthashHash_once `{PowHashes} b s : s = Fresh \/ s = Made verthash_New -> is_Some verthash_New ->
  fst (VerthashHash verthash_New b s) = Algorithm.VerthashHash b /\ snd (VerthashHash verthash_New b s) = Made verthash_New.
Proof.
  unfold VerthashHash, initVerthash, Algorithm.VerthashHash. intros Hs [c Hc]. rewrite Hc in *. by destruct Hs as [-> | ->].
Qed.

(** src/engine/cryptonote/rx_cgo.go: the virtual machine is made at the first
    hash, of its seed; when that fails, the next hash tries again. *)
Section Rx.
Context {VM : Type}.
Variable NewLightVM : bytes -> option VM.
Variable VM_Hash : VM -> bytes -> bytes -> option bytes * VM.
Definition rxHasher : Type := option VM.
Definition rx_Hash (seed input : bytes) (h : rxHasher) : option bytes * rxHasher :=
  match h with
  | Some vm => let '(r, vm) := VM_Hash vm seed input in (r, Some vm)
  | None =>
      match NewLightVM seed with
      | None => (None, None)
      | Some vm => let '(r, vm) := VM_Hash vm seed input in (r, Some vm)
      end
  end.
(** Where the machine is a function of what it is asked, as RandomX is, so is the
    hasher, once it opens. *)
Lemma rx_Hash_pure f seed input h :
  (forall vm s i, fst (VM_Hash vm s i) = f s i) -> is_Some h \/ is_Some (NewLightVM seed) ->
  fst (rx_Hash seed input h) = f seed input /\ is_Some (snd (rx_Hash seed input h)).
Proof.
  intros Hf Ho. unfold rx_Hash. destruct h as [vm|].
  - pose proof (Hf vm seed input). destruct (VM_Hash vm seed input). cbn in *. by split.
  - destruct Ho as [[? ?]|[vm Ev]]; [done|]. rewrite Ev. pose proof (Hf vm seed input). destruct (VM_Hash vm seed input).
    cbn in *. by split.
Qed.
End Rx.
(** src/algorithm/neoscrypt_cgo.go *)
Definition init_neoscrypt (NeoscryptHash : bytes -> bytes) (algs : Algorithms) : Algorithms :=
  RegisterHash "neoscrypt" 16 (fun header => Val (NeoscryptHash header)) algs.
(** [algorithm.SupportedAlgorithms] *)
Definition SupportedAlgorithms (algs : Algorithms) : list string := map fst (map_to_list (Algorithm.registry algs)).
Lemma SupportedAlgorithms_spec algs name :
  to_lower name ∈ SupportedAlgorithms algs <-> IsSupported algs name = true.
Proof.
  unfold SupportedAlgorithms, IsSupported. rewrite bool_decide_eq_true, list_elem_of_fmap. split.
  - intros ([k f] & E & Hin%elem_of_map_to_list). cbn in E. subst k. by exists f.
  - intros [f Hf]. exists (to_lower name, f). split; [done|]. by apply elem_of_map_to_list.
Qed.
End Engines.

(** ** Template notifications of kaspad

    The channel [templateKick] holds one kick.  The watcher takes it and refreshes
    the template, which the node may have replaced again by then; the poll
    refreshes of its own accord, at the same time if it likes: the two halves of a
    refresh are steps of their own. *)
Module TemplateKick.
Section Kick.
Context `{MapOrder} `{Kaspad}.
Variables (poolAddress : string) (allow_unsynced : bool).

(** [refresh] in its two halves, since two goroutines run it at once: what the node
    answers, and the job made of it. *)
Definition fetch (e : Kaspa.engine) : err_or DomainBlock * Kaspa.engine :=
  let '(r, n) := ask (Kaspa.AskTemplate poolAddress) (Kaspa.client e) in
  (match r with
   | Kaspa.RTemplate synced block =>
       if negb synced && negb allow_unsynced then Err "kaspa: node is not synced"
       else match block with None => Err "bad block" | Some block => Ok block end
   | _ => Err "transport"
   end, Kaspa.with_client n e).
Lemma refresh_fetch e : Kaspa.refresh poolAddress allow_unsynced e =
  match fetch e with
  | (Ok b, e) => (Ok true, Kaspa.acceptBlock b e)
  | (Err m, e) => (Err m, e)
  end.
Proof.
  unfold Kaspa.refresh, fetch. destruct (ask _ _) as [r n]. destruct r; try done.
  by repeat case_match.
Qed.

(** Where a goroutine is in its turn of the loop. *)
Inductive refreshing := Idle | Asking | Answered (b : DomainBlock).
Inductive publisher := ByWatcher | ByPoll.
(** The engine, the template of the node, the notifications on their way, the two
    goroutines, whether the watcher's last refresh failed, who made the current
    job, and the block of the job it replaced. *)
Record watching := mkWatching {
  wt_engine : Kaspa.engine; wt_latest : DomainBlock; wt_flying : nat;
  wt_watcher : refreshing; wt_failed : bool; wt_poll : refreshing; wt_last : publisher;
  wt_replaced : option DomainBlock }.
(** A receive from the channel *)
Definition take_kick (e : Kaspa.engine) : Kaspa.engine :=
  Kaspa.mkEngine (Kaspa.jobCounter e) false (Kaspa.client e) (Kaspa.book e).
(** The node answers with its template, or fails. *)
Definition answers (node : Node Kaspa.request Kaspa.reply) (latest : DomainBlock) : Prop :=
  forall log, node_answer node log (Kaspa.AskTemplate poolAddress) = Kaspa.RTemplate true (Some latest) \/
    node_answer node log (Kaspa.AskTemplate poolAddress) = Kaspa.RError.
Definition watcher_asked (w : watching) : watching :=
  let '(r, e) := fetch (wt_engine w) in
  mkWatching e (wt_latest w) (wt_flying w) (match r with Ok b => Answered b | Err _ => Idle end)
    (match r with Ok _ => false | Err _ => true end) (wt_poll w) (wt_last w) (wt_replaced w).
Definition poll_asked (w : watching) : watching :=
  let '(r, e) := fetch (wt_engine w) in
  mkWatching e (wt_latest w) (wt_flying w) (wt_watcher w) (wt_failed w)
    (match r with Ok b => Answered b | Err _ => Idle end) (wt_last w) (wt_replaced w).
Definition current_block (w : watching) : option DomainBlock := Kaspa.j_block <$> Kaspa.currentJob (wt_engine w).
Definition watcher_accepted (b : DomainBlock) (w : watching) : watching :=
  mkWatching (Kaspa.acceptBlock b (wt_engine w)) (wt_latest w) (wt_flying w) Idle (wt_failed w) (wt_poll w) ByWatcher
    (current_block w).
Definition poll_accepted (b : DomainBlock) (w : watching) : watching :=
  mkWatching (Kaspa.acceptBlock b (wt_engine w)) (wt_latest w) (wt_flying w) (wt_watcher w) (wt_failed w) Idle ByPoll
    (current_block w).
Definition announced (node : Node Kaspa.request Kaspa.reply) (b : DomainBlock) (w : watching) : watching :=
  mkWatching (Kaspa.with_client node (wt_engine w)) b (S (wt_flying w)) (wt_watcher w) (wt_failed w) (wt_poll w) (wt_last w)
    (wt_replaced w).
Definition notification (w : watching) : watching :=
  mkWatching (Kaspa.on_template_notification (wt_engine w)) (wt_latest w) (pred (wt_flying w)) (wt_watcher w) (wt_failed w)
    (wt_poll w) (wt_last w) (wt_replaced w).
Definition kicked (w : watching) : watching :=
  mkWatching (take_kick (wt_engine w)) (wt_latest w) (wt_flying w) Asking (wt_failed w) (wt_poll w) (wt_last w)
    (wt_replaced w).

Inductive step : watching -> watching -> Prop :=
| new_template w b node : answers node b -> step w (announced node b w)
| notified w : (0 < wt_flying w)%nat -> step w (notification w)
| watcher_kicked w : Kaspa.templateKick (wt_engine w) = true -> wt_watcher w = Idle -> step w (kicked w)
| watcher_asks w : wt_watcher w = Asking -> step w (watcher_asked w)
| watcher_accepts w b : wt_watcher w = Answered b -> step w (watcher_accepted b w)
| poll_asks w : wt_poll w = Idle -> step w (poll_asked w)
| poll_accepts w b : wt_poll w = Answered b -> step w (poll_accepted b w).

Definition up_to_date (w : watching) : Prop := current_block w = Some (wt_latest w).
(** The poll put an older template in the place of a job made of the newest. *)
Definition overtaken (w : watching) : Prop := wt_last w = ByPoll /\ wt_replaced w = Some (wt_latest w).
(** After [Init], whose refresh succeeded *)
Definition started (w : watching) : Prop :=
  answers (Kaspa.client (wt_engine w)) (wt_latest w) /\ wt_watcher w = Idle /\ up_to_date w.
(** Nothing is left to do before the next event. *)
Definition quiet (w : watching) : Prop :=
  wt_flying w = 0%nat /\ Kaspa.templateKick (wt_engine w) = false /\ wt_watcher w = Idle /\ wt_poll w = Idle /\ wt_failed w = false.
(** The newest template is announced and not served yet, or the watcher holds it or
    failed to get it; or it was served: the current job is made of it, or the poll
    has replaced that job and has nothing but the newest template to offer. *)
Definition pending (w : watching) : Prop :=
  (0 < wt_flying w)%nat \/ Kaspa.templateKick (wt_engine w) = true \/ wt_watcher w = Asking \/
  wt_watcher w = Answered (wt_latest w) \/ wt_watcher w = Idle /\ wt_failed w = true.
Definition settled (w : watching) : Prop :=
  wt_watcher w = Idle /\ (up_to_date w \/ overtaken w /\ (wt_poll w = Idle \/ wt_poll w = Answered (wt_latest w))).
Definition tracked (w : watching) : Prop :=
  answers (Kaspa.client (wt_engine w)) (wt_latest w) /\ (pending w \/ settled w).

Lemma accepted_current b e : Kaspa.j_block <$> Kaspa.currentJob (Kaspa.acceptBlock b e) = Some b.
Proof. etransitivity; [apply (f_equal (fmap Kaspa.j_block)), current_publish|done]. Qed.
Lemma fetch_spec w : answers (Kaspa.client (wt_engine w)) (wt_latest w) -> exists n,
  answers n (wt_latest w) /\
  (fetch (wt_engine w) = (Ok (wt_latest w), Kaspa.with_client n (wt_engine w)) \/
   exists m, fetch (wt_engine w) = (Err m, Kaspa.with_client n (wt_engine w))).
Proof.
  intros A. unfold fetch, ask. destruct (A (node_log (Kaspa.client (wt_engine w)))) as [E|E]; rewrite E;
    eexists; (split; [|cbn; eauto]); exact A.
Qed.
Lemma step_tracked w w' : step w w' -> tracked w -> tracked w'.
Proof.
  intros S [A T]. destruct S as [w b node Hn|w Hn|w Hk Hw|w Hw|w b Hw|w Hp|w b Hp].
  - split; [exact Hn|]. left. left. cbn. lia.
  - split; [exact A|]. left. right. by left.
  - split; [exact A|]. left. do 2 right. by left.
  - unfold watcher_asked. destruct (fetch_spec w A) as (n & An & [->|[m ->]]); (split; [exact An|]); left; unfold pending; cbn; auto 6.
  - split; [exact A|]. destruct T as [[T|[T|[T|[T|[T _]]]]]|[T _]]; try congruence.
    1,2: left; unfold pending; cbn; by auto.
    rewrite Hw in T. injection T as ->. right. split; [done|]. left. apply accepted_current.
  - unfold poll_asked. destruct (fetch_spec w A) as (n & An & [->|[m ->]]); (split; [exact An|]);
      (destruct T as [T|[Hw [T|[T _]]]]; [left; exact T|right; split; [done|left; exact T]|right; split; [done|right; split; [exact T|cbn; by auto]]]).
  - split; [exact A|]. destruct T as [T|[Hw T]]; [left; exact T|right]. split; [done|].
    destruct T as [T|[T [T2|T2]]]; [right; split; [by split|by left]|congruence|].
    left. rewrite Hp in T2. injection T2 as ->. apply accepted_current.
Qed.
Lemma run_tracked w w' : rtc step w w' -> tracked w -> tracked w'.
Proof. induction 1 as [|w w1 w' S R IH]; [done|]. intros T. by apply IH, (step_tracked w). Qed.

(** C27: the channel of one kick loses no template but to the poll.  Templates come
    out, notifications arrive, and the watcher and the poll ask the node, which
    answers with its newest template or fails, and accept its answers, interleaved
    at will from the end of [Init] on.  Once nothing is on its way, no kick waits,
    both goroutines are idle and the watcher's last refresh did not fail, the
    current job is made of the newest template of the node; or else the poll
    made it, of an answer it was given earlier, and the job it then replaced was
    made of the newest template. *)
Theorem no_template_lost w0 w :
  started w0 -> rtc step w0 w -> quiet w ->
  current_block w = Some (wt_latest w) \/ wt_last w = ByPoll /\ wt_replaced w = Some (wt_latest w).
Proof.
  intros (A & W0 & U) R (Hf & Hk & Hw & _ & He).
  destruct (run_tracked _ _ R) as [_ [I|[_ [I|[I _]]]]]; [split; [done|right; split; [done|by left]]| |by left|by right].
  destruct I as [I|[I|[I|[I|[_ I]]]]]; try congruence. lia.
Qed.

(** The next turn of the poll repairs it, when the node answers. *)
Lemma poll_repairs w : answers (Kaspa.client (wt_engine w)) (wt_latest w) ->
  wt_poll (poll_asked w) = Idle \/
  exists b, wt_poll (poll_asked w) = Answered b /\ up_to_date (poll_accepted b (poll_asked w)).
Proof.
  intros A. unfold poll_asked. destruct (fetch_spec w A) as (n & An & [->|[m ->]]); [right|by left].
  eexists. split; [reflexivity|]. apply accepted_current.
Qed.
End Kick.

Section KickWitness.
Local Existing Instance sample_kaspad.
Local Existing Instance listed_order.
Definition kaspa_node (b : DomainBlock) : Node Kaspa.request Kaspa.reply := mkNode [] (fun _ _ => Kaspa.RTemplate true (Some b)).
Definition block_a : DomainBlock := (1700000000123, 0).
Definition block_b : DomainBlock := (1700000000456, 0).
Definition kick0 : watching :=
  mkWatching (snd (Kaspa.refresh "kaspa:pool" false (Kaspa.New (kaspa_node block_a)))) block_a 0 Idle false Idle ByWatcher None.
Lemma kick0_started : started "kaspa:pool" kick0.
Proof. split; [intros log; by left|]. split; [done|]. reflexivity. Qed.
Lemma node_b_answers : answers "kaspa:pool" (kaspa_node block_b) block_b.
Proof. intros log. by left. Qed.
(** A template comes out, its notification arrives, and the watcher serves it. *)
Definition served (w : watching) : watching :=
  watcher_accepted block_b (watcher_asked "kaspa:pool" false (kicked (notification (announced (kaspa_node block_b) block_b w)))).
Lemma served_reached w : wt_watcher w = Idle -> rtc (step "kaspa:pool" false) w (served w).
Proof.
  intros Hw. unfold served.
  eapply rtc_l; [apply (new_template _ _ _ block_b (kaspa_node block_b)), node_b_answers|].
  eapply rtc_l; [apply notified; cbn; lia|]. eapply rtc_l; [by apply watcher_kicked|].
  eapply rtc_l; [by apply watcher_asks|]. eapply rtc_l; [by apply watcher_accepts|]. apply rtc_refl.
Qed.
(** A poll asked before the template came out, and accepted after the watcher had
    served it, puts the old template back: the miners work on it until the next
    turn of the poll. *)
Definition lost : watching := poll_accepted block_a (served (poll_asked "kaspa:pool" false kick0)).
Lemma lost_reached : rtc (step "kaspa:pool" false) kick0 lost.
Proof.
  eapply rtc_l; [by apply poll_asks|]. etransitivity; [by apply served_reached|].
  eapply rtc_l; [by apply poll_accepts|]. apply rtc_refl.
Qed.
Lemma overtaken_poll_loses_template :
  rtc (step "kaspa:pool" false) kick0 lost /\ quiet lost /\ ~ up_to_date lost /\ overtaken lost.
Proof.
  split; [exact lost_reached|]. split; [by repeat split|]. split; [|split; reflexivity].
  intros E. unfold up_to_date, current_block, lost, poll_accepted in E. cbn [wt_engine] in E.
  rewrite accepted_current in E. discriminate E.
Qed.
Lemma no_template_lost_witness :
  (current_block (served kick0) = Some block_b \/ wt_last (served kick0) = ByPoll /\ wt_replaced (served kick0) = Some block_b) /\
  (current_block lost = Some block_b \/ wt_last lost = ByPoll /\ wt_replaced lost = Some block_b).
Proof.
  split.
  - apply (no_template_lost "kaspa:pool" false kick0 (served kick0) kick0_started (served_reached kick0 eq_refl)).
    by repeat split.
  - apply (no_template_lost "kaspa:pool" false kick0 lost kick0_started lost_reached). by repeat split.
Defined.
End KickWitness.
End TemplateKick.

(** ** The pool *)
Module Wiring.
(** [NewStorage]: what PING answers. *)
Definition NewStorage (coinName : string) (ping : err_or string) : result DB :=
  match ping with
  | Ok answer => if String.eqb (to_lower answer) "pong" then Val (mkDB coinName false pplnsLogCap [])
                 else Panic "failed to connect to the redis server"
  | Err _ => Panic "failed to connect to the redis server"
  end.

(** A pool that runs an engine, with what is shared with the other kind. *)
Record EnginePool := mkEnginePool {
  ep_options : Options;
  ep_db : DB;
  ep_server : Server;
  ep_payments : option (DaemonManager * PaymentManager);
  ep_stats : Stats }.
Definition NewEnginePool (engines : gmap string (Options -> err_or Engine)) (ping : err_or string) (banning : BanningOptions)
    (o : Options) : result EnginePool :=
  let! eng := Pool.NewEnginePool engines o in
  let! db := NewStorage (c_Name (Coin o)) ping in
  let ss := set_server_engine (Some eng) (NewStratumServer None (NewBanningManager banning)) in
  let! payments :=
    (match DisablePayment o, Config.Payment o with
     | false, Some p =>
         let! dm := NewDaemonManager (Some (Config.Daemons o)) (Some (Coin o)) in
         Val (Some (dm, NewPaymentManager p (PoolAddress o)))
     | _, _ => Val None
     end) in
  Val (mkEnginePool o db ss payments NewStats).

(** The engine of an engine pool comes first: nothing is opened for a name that
    is not linked, or an engine that fails to start. *)
Lemma NewEnginePool_engine engines ping b o p : NewEnginePool engines ping b o = Val p ->
  exists f e, engines !! to_lower (Config.Engine o) = Some f /\ f o = Ok e /\ sv_engine (ep_server p) = Some e /\
    sv_jm (ep_server p) = None /\ db_ppsMode (ep_db p) = false /\
    (is_Some (ep_payments p) <-> DisablePayment o = false /\ is_Some (Config.Payment o)).
Proof.
  unfold NewEnginePool, Pool.NewEnginePool, Engine.Get. destruct (engines !! _) as [f|]; [|done].
  destruct (f o) as [e|m] eqn:Ef; [|done]. cbn [rbind]. unfold NewStorage. destruct ping as [a|m]; [|done].
  destruct (String.eqb _ _); [|done]. cbn [rbind]. intros E. exists f, e.
  destruct (DisablePayment o) eqn:Ed, (Config.Payment o) as [q|] eqn:Eq; cbn in E; injection E as <-; cbn;
    rewrite ?Ed; split_and!; try done; (split; [intros []|intros []]; try done; naive_solver).
Qed.

(** [AttachMiners]: each client is added by hand, then the current job goes to
    everyone. *)
Section Miners.
Context `{AddressCodec} `{Platform} `{PowHashes}.
Variable options : Options.
Variable snapshotClients : gmap Z nat -> list nat.
Fixpoint attach (t : moment) (random : nat -> bytes) (miners : list Client) (s : Server) : result (outcome unit * Server) :=
  match miners with
  | [] => Val (Done tt, s)
  | c :: miners =>
      let! r := ManuallyAddStratumClient options t (random (length (sv_heap s))) c s in
      match r with
      | (Done _, s) => attach t random miners s
      | stopped => Val stopped
      end
  end.
Definition AttachMiners (t : moment) (random : nat -> bytes) (miners : list Client) (s : Server) : result (outcome unit * Server) :=
  let! r := attach t random miners s in
  match r with
  | (Done _, s) =>
      match (match sv_jm s with Some jm => current_job jm | None => None end) with
      | Some j => Val (BroadcastCurrentMiningJob options snapshotClients t (GetJobParams (m_unix t) j true) s)
      | None => Panic "nil pointer dereference"
      end
  | stopped => Val stopped
  end.
End Miners.

(** [StartStratumServer] *)
Definition StartStratumServer (opens : Z -> bool) (ports : list Z) (p : Pool.Pool) : result (Pool.Pool * Listening.listeners) :=
  let! l := Listening.Init opens ports in
  let s := pl_Stats p in
  Val (with_stats (mkStats (st_Connections s) (st_Difficulty s) (st_NetworkHashrate s) (Listening.portStarted l)) p, l).

(** [strings.ToUpper] of ASCII text *)
Fixpoint to_upper (s : string) : string :=
  match s with
  | EmptyString => ""
  | String c s => String (if between 97 122 c then chr (code c - 32) else c) (to_upper s)
  end.
Definition tab : string := String (chr 9) "".
Definition OutputPoolInfo (p : Pool.Pool) : result string :=
  let o := pl_Options p in
  let startMessage := "Stratum Pool Server Started for " ++ c_Name (Coin o) ++ " [" ++ to_upper (c_Symbol (Coin o)) ++ "] " in
  let network := if c_Testnet (Coin o) then "Testnet" else "Mainnet" in
  match current_job (pl_JobManager p) with
  | None => Panic "nil pointer dereference"
  | Some j =>
      let diff := Float64 (Difficulty j) in
      let! mul := shift_one (a_Multiplier (Config.Algorithm o)) in
      let s := pl_Stats p in
      Val (Join
        [ startMessage;
          "Network Connected:" ++ tab ++ network;
          "Detected Reward Type:" ++ tab ++ c_Reward (Coin o);
          "Current Block Height:" ++ tab ++ FormatInt (g_Height (GetBlockTemplate_of j));
          "Current Connect Peers:" ++ tab ++ FormatInt (st_Connections s);
          "Current Block Diff:" ++ tab ++ FormatFloat_fixed 7 (fmul diff (float_of_Z mul));
          "Network Difficulty:" ++ tab ++ FormatFloat_fixed 7 (st_Difficulty s);
          "Network Hash Rate:" ++ tab ++ GetReadableHashRateString (st_NetworkHashrate s);
          "Stratum Port(s):" ++ tab ++ print (JArr (map (fun n => JNum (FormatInt n)) (st_StratumPorts s)));
          "Total Pool Fee Percent:" ++ tab ++ FormatFloat_fixed 7 (TotalFeePercent o) ++ "%" ]
        (String newline tab))
  end.

(** [utils.FileExists], by what [os.Stat] answers; after another error its nil
    information is dereferenced. *)
Inductive stat := StatNotExist | StatError | StatInfo (is_dir : bool).
Definition FileExists (s : stat) : result bool :=
  match s with
  | StatNotExist => Val false
  | StatError => Panic "nil pointer dereference"
  | StatInfo is_dir => Val (negb is_dir)
  end.
(** src/cmd/nomp/main.go up to the choice of a pool: the log level, the file of
    the configuration and its text must be there. *)
Definition load_config (level_known : bool) (file : stat) (opened : bool) (decoded : err_or Options) : result Options :=
  if negb level_known then Panic "unrecognized level"
  else
  let! file_exists := FileExists file in
  if negb file_exists then Panic "the config file does not exist"
  else if negb opened then Panic "open"
  else match decoded with Ok o => Val o | Err m => Panic m end.

(** The ticks of [PaymentManager.Serve]: a run that fails is logged, and the next
    tick runs again with the state it left. *)
Section Serve.
Context `{Platform} `{MapOrder}.
Variable db : DB.
Fixpoint Serve (ticks : nat) (pm : PaymentManager) : prog PaymentManager :=
  match ticks with
  | O => Ret pm
  | S ticks => pbind (processPayments db pm) (fun r => Serve ticks (snd r))
  end.
End Serve.
End Wiring.
