(* ===== verification/Miner.v ===== *)
(** * Miner: the stratum clients of src/tools/ and the miner of src/tools/e2eminer/main.go

    The programs under tools/ mine against the pool from the other side of the
    connection.  One runs in a state monad over its connection: the lines that
    will arrive, and what it has written.  It may end by itself, exit, panic,
    wait for a line that never comes, or search for ever.  [search] is the loop
    over consecutive nonces. *)
From Stdlib Require Import ZArith Lia List Strings.Ascii Strings.String Strings.Byte Floats.SpecFloat.
From stdpp Require Import base list strings gmap.
From S2P Require Import Prelude Bytes Float Strconv Utils Merkle Types Json Config Algorithm.
Import ListNotations.
Local Open Scope string_scope.
Local Open Scope Z_scope.

(** ** The connection *)

(** One result of [ReadBytes]: an error, or a line, with the JSON it is the text
    of. *)
Inductive line := ReadError | Line (text : option json).
Record conn := mkConn { arriving : list line; written : list json }.

Inductive stop := Exits | Waits | Searches | Panics (msg : string).
Definition tool (A : Type) : Type := conn -> (A + stop) * conn.
Definition returns {A} (a : A) : tool A := fun c => (inl a, c).
Definition stops {A} (s : stop) : tool A := fun c => (inr s, c).
Definition tbind {A B} (m : tool A) (f : A -> tool B) : tool B := fun c =>
  match m c with
  | (inl a, c) => f a c
  | (inr s, c) => (inr s, c)
  end.
Lemma tbind_inl {A B} (m : tool A) (f : A -> tool B) c a c' : m c = (inl a, c') -> tbind m f c = f a c'.
Proof. unfold tbind. by intros ->. Qed.
Lemma tbind_inr {A B} (m : tool A) (f : A -> tool B) c s c' : m c = (inr s, c') -> tbind m f c = (inr s, c').
Proof. unfold tbind. by intros ->. Qed.
Declare Scope tool_scope.
Delimit Scope tool_scope with tool.
Notation "'run!' x ':=' m 'in' k" := (tbind m (fun x => k))
  (at level 10, x pattern, m at level 100, k at level 200,
   format "'run!'  x  ':='  m  'in' '//' k") : tool_scope.
Local Open Scope tool_scope.

Definition checked {A} (r : result A) : tool A :=
  match r with Val a => returns a | Panic e => stops (Panics e) end.

Lemma checked_val {A} (r : result A) a c : r = Val a -> checked r c = (inl a, c).
Proof. by intros ->. Qed.

(** [net.Dial], which [must] succeed. *)
Definition dial (up : bool) : tool unit := if up then returns tt else stops Exits.

(** [json.Unmarshal] of a line into a map: an object, or null, which is the nil
    map; a number must be in the range of a float64. *)
Fixpoint numbers_fit (j : json) : bool :=
  match j with
  | JNum l => no_error (ParseFloat l)
  | JArr l => forallb numbers_fit l
  | JObj m => forallb (fun p => numbers_fit (snd p)) m
  | _ => true
  end.
Definition decode_map (text : option json) : option (list (string * json)) :=
  match text with
  | Some (JObj m) => if numbers_fit (JObj m) then Some m else None
  | Some JNull => Some []
  | _ => None
  end.
(** [m[key]]: the last member under the key, nil without one. *)
Definition at_key (m : list (string * json)) (key : string) : json :=
  match find (fun p => String.eqb (fst p) key) (rev m) with Some (_, v) => v | None => JNull end.

(** *** Type assertions, indices and slices *)
Definition the_string (j : json) : result string :=
  match j with JStr s => Val s | _ => Panic "interface conversion: not string" end.
Definition the_array (j : json) : result (list json) :=
  match j with JArr l => Val l | _ => Panic "interface conversion: not []interface {}" end.
Definition the_object (j : json) : result (list (string * json)) :=
  match j with JObj m => Val m | _ => Panic "interface conversion: not map[string]interface {}" end.
Definition the_float (j : json) : result float64 :=
  match j with JNum l => Val (fst (ParseFloat l)) | _ => Panic "interface conversion: not float64" end.
Definition element {A} (l : list A) (i : nat) : result A :=
  match l !! i with Some x => Val x | None => Panic "index out of range" end.
(** [s[:n]] *)
Definition prefix_of (s : string) (n : nat) : result string :=
  if (String.length s <? n)%nat then Panic "slice bounds out of range" else Val (substring 0 n s).

(** *** Messages *)

(** The keys of a map are marshalled in order. *)
Definition message_of (id : Z) (method : string) (params : json) : json :=
  JObj [("id", JNum (FormatInt id)); ("method", JStr method); ("params", params)].
Definition write (m : json) : tool unit := fun c => (inl tt, mkConn (arriving c) (written c ++ [m])%list).

(** [v, ok := m["id"].(float64); ok && int(v) == id] *)
Definition has_id (id : Z) (m : list (string * json)) : bool :=
  match at_key m "id" with
  | JNum l => match trunc_Z (fst (ParseFloat l)) with Some v => v =? id | None => false end
  | _ => false
  end.
Definition has_method (method : string) (m : list (string * json)) : bool :=
  match at_key m "method" with JStr s => String.eqb s method | _ => false end.

(** The next line.  A text that is not a map is fatal to one tool ([strict]) and
    an empty map to the others. *)
Definition read_map (strict : bool) : tool (list (string * json)) := fun c =>
  match arriving c with
  | [] => (inr Waits, c)
  | ReadError :: ls => (inr Exits, mkConn ls (written c))
  | Line text :: ls =>
      let c := mkConn ls (written c) in
      match decode_map text with
      | Some m => (inl m, c)
      | None => if strict then (inr Exits, c) else (inl [], c)
      end
  end.
(** [for { m := readLine(br); if ... { return m } }] *)
Fixpoint read_until_from (strict : bool) (wanted : list (string * json) -> bool) (ls : list line) (sent : list json)
  : (list (string * json) + stop) * conn :=
  match ls with
  | [] => (inr Waits, mkConn [] sent)
  | ReadError :: ls => (inr Exits, mkConn ls sent)
  | Line text :: ls =>
      match decode_map text with
      | Some m => if wanted m then (inl m, mkConn ls sent) else read_until_from strict wanted ls sent
      | None =>
          if strict then (inr Exits, mkConn ls sent)
          else if wanted [] then (inl [], mkConn ls sent) else read_until_from strict wanted ls sent
      end
  end.
Definition read_until (strict : bool) (wanted : list (string * json) -> bool) : tool (list (string * json)) :=
  fun c => read_until_from strict wanted (arriving c) (written c).

(** It is the loop over [read_map]. *)
Lemma read_until_unfold strict wanted c :
  read_until strict wanted c
  = (run! m := read_map strict in if wanted m then returns m else read_until strict wanted) c.
Proof.
  unfold read_until, tbind, read_map. destruct c as [ls s]. cbn [arriving written].
  destruct ls as [|[|text] ls]; [done|done|]. cbn [read_until_from].
  destruct (decode_map text) as [m|]; [by destruct (wanted m)|]. destruct strict; [done|]. by destruct (wanted []).
Qed.

(** A line that is read and passed over. *)
Definition passed_over (wanted : list (string * json) -> bool) (l : line) : Prop :=
  exists m, l = Line (Some (JObj m)) /\ numbers_fit (JObj m) = true /\ wanted m = false.
Lemma read_until_skip strict wanted ls l sent :
  Forall (passed_over wanted) ls ->
  read_until_from strict wanted (ls ++ l)%list sent = read_until_from strict wanted l sent.
Proof.
  induction 1 as [|x ls (m & -> & Hn & Hw) _ IH]; [done|]. cbn [app read_until_from decode_map]. by rewrite Hn, Hw.
Qed.
(** Reading writes nothing. *)
Lemma read_until_written strict wanted ls sent : written (snd (read_until_from strict wanted ls sent)) = sent.
Proof.
  induction ls as [|[|text] ls IH]; [done|done|]. cbn [read_until_from].
  destruct (decode_map text) as [m|]; [by destruct (wanted m)|]. destruct strict; [done|]. by destruct (wanted []).
Qed.

(** ** The search *)

(** What a nonce gives: a solution, nothing, or the end of the program. *)
Inductive tried (A : Type) := Found (a : A) | Next | Ends (s : stop).
Arguments Found {A}.
Arguments Next {A}.
Arguments Ends {A}.

(** [f] on [start], [start + 1], ... until one of [n] values does not say
    [Next]. *)
Fixpoint search {A} (f : Z -> tried A) (n : positive) (start : Z) : tried A :=
  let double q start :=
    match search f q start with Next => search f q (start + Zpos q) | r => r end in
  match n with
  | xH => f start
  | xO q => double q start
  | xI q => match f start with Next => double q (start + 1) | r => r end
  end.

(** Either every value says [Next], or the answer is that of the first that does
    not. *)
Lemma search_spec {A} (f : Z -> tried A) n start :
  (search f n start = Next /\ forall i, start <= i < start + Zpos n -> f i = Next) \/
  (exists i, start <= i < start + Zpos n /\ search f n start = f i /\ f i <> Next /\
     forall j, start <= j < i -> f j = Next).
Proof.
  revert start.
  assert (forall q start,
    (forall start, (search f q start = Next /\ forall i, start <= i < start + Zpos q -> f i = Next) \/
      (exists i, start <= i < start + Zpos q /\ search f q start = f i /\ f i <> Next /\
         forall j, start <= j < i -> f j = Next)) ->
    let r := match search f q start with Next => search f q (start + Zpos q) | r => r end in
    (r = Next /\ forall i, start <= i < start + Zpos (xO q) -> f i = Next) \/
    (exists i, start <= i < start + Zpos (xO q) /\ r = f i /\ f i <> Next /\
       forall j, start <= j < i -> f j = Next)) as D.
  { intros q start IH. cbv zeta. destruct (IH start) as [[E A1]|(i & Hi & E & Hn & Hj)]; rewrite E.
    - destruct (IH (start + Zpos q)) as [[E2 A2]|(i & Hi & E2 & Hn & Hj)]; rewrite E2.
      + left. split; [done|]. intros i Hi. destruct (Z.lt_ge_cases i (start + Zpos q)); [apply A1|apply A2]; lia.
      + right. exists i. split_and!; [lia|lia|done|done|]. intros j Hj'.
        destruct (Z.lt_ge_cases j (start + Zpos q)); [apply A1|apply Hj]; lia.
    - right. exists i. split_and!; [lia|lia| |done|done]. by destruct (f i). }
  induction n as [q IH|q IH|]; intros start; cbn [search].
  - destruct (f start) as [a| |s] eqn:E.
    + right. exists start. rewrite E. split_and!; [lia|lia|done|done|lia].
    + destruct (D q (start + 1) IH) as [[E2 A2]|(i & Hi & E2 & Hn & Hj)]; rewrite E2.
      * left. split; [done|]. intros i Hi. destruct (Z.eq_dec i start) as [->|]; [done|apply A2; lia].
      * right. exists i. split_and!; [lia|lia|done|done|]. intros j Hj'.
        destruct (Z.eq_dec j start) as [->|]; [done|apply Hj; lia].
    + right. exists start. rewrite E. split_and!; [lia|lia|done|done|lia].
  - by apply D.
  - destruct (f start) as [a| |s] eqn:E.
    + right. exists start. rewrite E. split_and!; [lia|lia|done|done|lia].
    + left. split; [done|]. intros i Hi. by replace i with start by lia.
    + right. exists start. rewrite E. split_and!; [lia|lia|done|done|lia].
Qed.

Definition searched {A} (r : tried A) (exhausted : stop) : tool A :=
  match r with Found a => returns a | Next => stops exhausted | Ends s => stops s end.
Definition tried_result {A} (r : result (tried A)) : tried A :=
  match r with Val t => t | Panic e => Ends (Panics e) end.
