(* ===== verification/GbtMiner.v ===== *)
(** * GbtMiner: src/tools/e2eminer/main.go against the pool

    The miner that tests the Bitcoin path, and the theorem that the pool and the
    miner agree: what the miner finds in its nonce range the pool takes as a
    block. *)
From Stdlib Require Import ZArith Lia List Strings.Ascii Strings.String Strings.Byte Floats.SpecFloat.
From stdpp Require Import base list strings gmap.
From S2P Require Import Prelude Bytes Float FloatSpec Strconv Utils Merkle Types Json Config Algorithm Transactions Jobs JobManager JobManagerSpec Effects Engine EngineWork Miner.
Import ListNotations.
Local Open Scope string_scope.
Local Open Scope Z_scope.
Local Open Scope go_scope.
Local Open Scope tool_scope.

(** The command line, and what the program finds outside the connection: the
    decoded answers of the node to the three requests for a template, the clock,
    and whether the pool can be reached. *)
Record flags := mkFlags { worker : string; algoName : string; cbHash : string }.
Record outside := mkOutside { node_reply : list string -> option json; unix_now : Z; pool_up : bool }.

(** [pos += copy(header[pos:], src)] *)
Definition copy_into (header : bytes) (pos : nat) (src : bytes) : bytes * nat :=
  let n := Nat.min (length src) (length header - pos) in
  ((take pos header ++ take n src ++ drop (pos + n) header)%list, (pos + n)%nat).
(** [binary.BigEndian.Uint32] *)
Definition be_uint32 (b : bytes) : result Z :=
  if (length b <? 4)%nat then Panic "index out of range" else Val (be_value (take 4 b)).
Definition serializeHeader (versionBE prevHash merkleRoot ntime bits nonce : bytes) : result bytes :=
  let '(header, pos) := copy_into (zeros 80) 0 nonce in
  let '(header, pos) := copy_into header pos bits in
  let '(header, pos) := copy_into header pos ntime in
  let '(header, pos) := copy_into header pos merkleRoot in
  let '(header, pos) := copy_into header pos prevHash in
  let! version := be_uint32 versionBE in
  let! header := put_uint32_be header pos version in
  Val (ReverseBytes header).

Definition send (id : Z) (method : string) (params : list json) : tool unit :=
  write (message_of id method (JArr params)).
Definition readLine : tool (list (string * json)) := read_map true.
Definition readByID (id : Z) : tool (list (string * json)) := read_until true (has_id id).
Definition waitNotify : tool (list json) :=
  run! m := read_until true (has_method "mining.notify") in checked (the_array (at_key m "params")).

(** [r.Result] after the members under its key: null makes the pointer nil, an
    object decodes into what it points to. *)
Definition pointed (j : json) (name : string) : option json :=
  match j with
  | JObj m =>
      JObj <$> fold_left (fun acc '(k, v) =>
        if same_key name k then
          match v with JNull => None | JObj o => Some (default [] acc ++ o)%list | _ => acc end
        else acc) m None
  | _ => None
  end.
Definition template_schema : schema := SStruct
  [("result", SStruct [("previousblockhash", SString); ("target", SString); ("curtime", SUint32)])].
Fixpoint first_template (reply : list string -> option json) (rules : list (list string)) : option (string * string * Z) :=
  match rules with
  | [] => None
  | r :: rules =>
      match (j ← Unmarshal template_schema (reply r); pointed j "result") with
      | Some res =>
          if String.eqb (field_string res "previousblockhash") "" then first_template reply rules
          else Some (field_string res "previousblockhash", field_string res "target", field_uint res "curtime")
      | None => first_template reply rules
      end
  end.
Definition templatePrevhashAndTarget (reply : list string -> option json) : tool (string * string * Z) :=
  match first_template reply [["segwit"]; ["mweb"; "segwit"]; []] with
  | Some t => returns t
  | None => stops Exits
  end.

Definition hex_text (s : string) : result bytes := HexDecode (bytes_of_string s).
(** [make([]byte, int(f))] *)
Definition make_bytes (f : float64) : result bytes :=
  match trunc_Z f with
  | Some n => if (n <? 0) || (2 ^ 48 <=? n) then Panic "makeslice: len out of range" else Val (zeros (Z.to_nat n))
  | None => Panic "makeslice: len out of range"
  end.

Section Miner.
Context `{PowHashes}.
Variable algs : Algorithms.
Variable fl : flags.

(** What the miner reads of a notification. *)
Record work := mkWork {
  w_job : string; w_coinb1 : bytes; w_coinb2 : bytes; w_branch : list bytes; w_version : bytes; w_bits : bytes }.
Definition read_notify (notify : list json) : result work :=
  let text i := rbind (element notify i) the_string in
  let! jobID := text 0%nat in
  let! coinb1 := rbind (text 2%nat) hex_text in
  let! coinb2 := rbind (text 3%nat) hex_text in
  let! hashes := rbind (element notify 4%nat) the_array in
  let! branch := rmap (fun h => rbind (the_string h) hex_text) hashes in
  let! version := rbind (text 5%nat) hex_text in
  let! bits := rbind (text 6%nat) hex_text in
  Val (mkWork jobID coinb1 coinb2 branch version bits).

(** The later of two seconds from now and the template's time. *)
Definition choose_time (now curTime : Z) : Z :=
  let nt := u32 (u32 now + 2) in if nt <? curTime then curTime else nt.
(** The harder of the two targets. *)
Definition choose_target (bitsTarget : Z) (gbtTargetHex : string) : Z :=
  let gbtTarget := if String.eqb gbtTargetHex "" then None else SetString16 gbtTargetHex in
  match gbtTarget with
  | Some t => if (0 <? t) && (t <? bitsTarget) then t else bitsTarget
  | None => bitsTarget
  end.

Definition fold_branch (hasher : HashFunc) (branch : list bytes) (coinbase : bytes) : result bytes :=
  let! first := hasher coinbase in
  fold_left (fun merkle b => let! merkle := merkle in hasher (merkle ++ b)%list) branch (Val first).

Definition try_nonce (powHash : HashFunc) (w : work) (prevHash merkle ntime : bytes) (target nonce : Z) : tried Z :=
  tried_result (
    let! header := serializeHeader (w_version w) prevHash merkle ntime (w_bits w) (PackUint32BE nonce) in
    let! h := powHash header in
    Val (if be_value (ReverseBytes h) <? target then Found nonce else Next)).

(** [main]: the response to the submission. *)
Definition main (o : outside) : tool (list (string * json)) :=
  run! (prevHashDisplay, gbtTargetHex, gbtCurTime) := templatePrevhashAndTarget (node_reply o) in
  run! prevHash := checked (hex_text prevHashDisplay) in
  run! _ := dial (pool_up o) in
  run! _ := send 1 "mining.subscribe" [] in
  run! subResp := readByID 1 in
  run! result := checked (the_array (at_key subResp "result")) in
  run! en1 := checked (rbind (element result 1) the_string) in
  let extraNonce1 := fst (hex_decode en1) in
  run! en2size := checked (rbind (element result 2) the_float) in
  run! _ := send 2 "mining.authorize" [JStr (worker fl); JStr "x"] in
  run! notify := waitNotify in
  run! w := checked (read_notify notify) in
  let ntimeBE := PackUint32BE (choose_time (unix_now o) gbtCurTime) in
  run! bitsTarget := checked (BigIntFromBitsBytes (w_bits w)) in
  let target := choose_target bitsTarget gbtTargetHex in
  run! extraNonce2 := checked (make_bytes en2size) in
  run! cbHasher := checked (GetHashFunc algs (cbHash fl)) in
  run! merkle := checked (fold_branch cbHasher (w_branch w)
                            (w_coinb1 w ++ extraNonce1 ++ extraNonce2 ++ w_coinb2 w)%list) in
  run! powHash := checked (GetHashFunc algs (algoName fl)) in
  run! nonce := searched (search (try_nonce powHash w prevHash (ReverseBytes merkle) ntimeBE target) (2 ^ 32) 0) Exits in
  run! _ := send 4 "mining.submit"
              [JStr (worker fl); JStr (w_job w); JStr (hex_encode extraNonce2); JStr (hex_encode ntimeBE);
               JStr (hex_encode (PackUint32BE nonce))] in
  readByID 4.
End Miner.

(** ** The header *)
Lemma copy_into_fill pre n src :
  (length src <= n)%nat ->
  copy_into (pre ++ zeros n)%list (length pre) src = (((pre ++ src) ++ zeros (n - length src))%list, length (pre ++ src)%list).
Proof.
  intros Hn. pose proof (copy_at_fill pre n src Hn) as E. unfold copy_at in E. unfold copy_into.
  rewrite length_app in *. unfold zeros in *. rewrite repeat_length in *.
  replace (_ <? _)%nat with false in E by (symmetry; apply Nat.ltb_ge; lia).
  replace (length pre + n - length pre)%nat with n in * by lia. apply Val_inj in E. rewrite E.
  f_equal. rewrite length_app. lia.
Qed.
Lemma be_uint32_bytes v : 0 <= v < 2 ^ 32 -> be_uint32 (be_bytes 4 v) = Val v.
Proof.
  intros Hv. unfold be_uint32. rewrite be_bytes_length. cbn [Nat.ltb Nat.leb].
  rewrite take_ge by (by rewrite be_bytes_length). by rewrite be_value_bytes, Z.mod_small.
Qed.
(** The two programs lay the header out alike. *)
Lemma serializeHeader_layout v prev root nTime bits nonce :
  0 <= v < 2 ^ 32 ->
  length root = 32%nat -> length nTime = 4%nat -> length nonce = 4%nat -> length bits = 4%nat -> length prev = 32%nat ->
  serializeHeader (be_bytes 4 v) prev root nTime bits nonce
  = Val (le_bytes 4 v ++ rev prev ++ rev root ++ rev nTime ++ rev bits ++ rev nonce)%list.
Proof.
  intros Hv Hr Ht Hn Hb Hp. unfold serializeHeader.
  change (zeros 80) with ([] ++ zeros 80)%list. change 0%nat with (length (@nil byte)).
  do 5 (rewrite copy_into_fill by lia). rewrite be_uint32_bytes by done. cbn [rbind].
  replace (80 - _ - _ - _ - _ - _)%nat with 4%nat by lia.
  rewrite put_uint32_fill. cbn [rbind]. f_equal. rewrite ReverseBytes_rev.
  unfold be_bytes. rewrite !rev_app_distr, rev_involutive. cbn [rev]. by rewrite app_nil_r, <- ?app_assoc.
Qed.

Lemma fold_branch_pure hasher h branch coinbase :
  total_hasher hasher h -> fold_branch hasher branch coinbase = Val (pure_fold h branch (h coinbase)).
Proof.
  intros T. unfold fold_branch. rewrite T. cbn [rbind]. unfold pure_fold. generalize (h coinbase) as f.
  induction branch as [|b branch IH]; intros f; [done|]. cbn [fold_left rbind]. by rewrite T.
Qed.

(** ** Reading *)
Lemma hex_text_encode b : hex_text (hex_encode b) = Val b.
Proof. unfold hex_text, HexDecode. pose proof (hex_decode_encode b) as E. unfold hex_decode in E. by rewrite E. Qed.
Lemma hex_text_decode s b : hex_decode s = (b, true) -> hex_text s = Val b.
Proof. unfold hex_text, HexDecode, hex_decode. by intros ->. Qed.

(** ** The pool's side *)
Section Pool_side.
Context `{AddressCodec} `{Platform} `{PowHashes}.
Variable algs : Algorithms.

Lemma jm_step_consts jm jm' :
  jm_step algs jm jm' -> jm_Options jm' = jm_Options jm /\ jm_ExtraNonce2Size jm' = jm_ExtraNonce2Size jm.
Proof.
  intros S. destruct S as [now random t jm jm' E|now jm jobId pd d en1 en2 nt nn ip w share jm' E].
  - by destruct (ProcessTemplate_cases _ _ _ _ _ E) as [[-> _]|(j & -> & _)].
  - by destruct (ProcessSubmit_state _ _ _ _ _ _ _ _ _ _ _ _ _ _ E) as [->|(p & job & _ & _ & _ & ->)].
Qed.
Lemma reachable_consts o jm0 jm :
  NewJobManager algs o = Val jm0 -> rtc (jm_step algs) jm0 jm -> jm_Options jm = o /\ jm_ExtraNonce2Size jm = 4.
Proof.
  intros HN R. assert (jm_Options jm0 = o /\ jm_ExtraNonce2Size jm0 = 4) as [E1 E2].
  { unfold NewJobManager in HN. destruct (if negb _ then _ else _); cbn [rbind] in HN; [|done].
    apply Val_inj in HN as <-. by split. }
  clear HN. induction R as [|x y z S R IH]; [done|]. apply jm_step_consts in S as [C1 C2]. apply IH; congruence.
Qed.

(** Work below the target of the job is a block. *)
Lemma check_work_block jm job pd diff en1 en2 nt nn base w header v d bh :
  JobManagerSpec.work_of algs jm job en1 en2 nt nn = Val (header, v) ->
  share_difficulty (a_Multiplier (Algorithm (jm_Options jm))) v = Val d ->
  block_hash algs (Algorithm (jm_Options jm)) header = Val bh -> v < Target job ->
  check_work algs jm job pd diff en1 en2 nt nn base w
  = Val (set_diff (Float64 diff) (set_block (g_Height (GetBlockTemplate_of job))
           (g_CoinbaseValue (GetBlockTemplate_of job)) bh
           (hex_encode (SerializeBlock job header (SerializeCoinbase job en1 en2))) base)).
Proof.
  unfold JobManagerSpec.work_of, check_work. cbv zeta. intros Hw Hd Hb Hv.
  destruct (jm_CoinbaseHasher jm _) as [ch|]; cbn [rbind] in *; [|done].
  destruct (MerkleTree_WithFirst _ _) as [root|]; cbn [rbind] in *; [|done].
  destruct (SerializeHeader _ _ _ _) as [hd|]; cbn [rbind] in *; [|done].
  destruct (GetHashFunc _ _) as [hash|]; cbn [rbind] in *; [|done].
  destruct (hash hd) as [h|]; cbn [rbind] in *; [|done]. apply Val_pair_inj in Hw as [<- <-].
  rewrite Hd. cbn [rbind]. apply Z.ltb_lt in Hv. rewrite Hv, Hb. done.
Qed.

Lemma share_difficulty_total mult v :
  0 <= mult < 63 -> 0 <= v < 2 ^ 256 -> exists d, share_difficulty mult v = Val d.
Proof.
  intros Hm Hv. unfold share_difficulty, shift_one.
  replace (mult <? 0) with false by (symmetry; apply Z.ltb_ge; lia).
  replace (64 <=? mult) with false by (symmetry; apply Z.leb_gt; lia). cbn [rbind].
  assert (1 <= 2 ^ mult <= 2 ^ 62) as Hp.
  { split; [assert (0 < 2 ^ mult) by (apply Z.pow_pos_nonneg; lia); lia|apply Z.pow_le_mono_r; lia]. }
  rewrite wraps_small by lia. apply Quo_ints.
  - unfold MaxTargetTruncated. split; [lia|]. apply Z.le_lt_trans with (2 ^ 256 * 2 ^ 62); [|done].
    apply Z.mul_le_mono_nonneg; lia.
  - split; [lia|]. apply Z.lt_trans with (2 ^ 256); [lia|done].
Qed.

Lemma NewJob_branch now id t s ph rw msgs rs h j :
  NewJob now id t s ph rw msgs rs h = Val j ->
  MerkleBranch j = map hex_encode (Steps (MerkleTree_of j)) /\ hasher_of (MerkleTree_of j) = h.
Proof.
  unfold NewJob, GetTransactionBytes.
  repeat match goal with |- (let! _ := ?m in _) = _ -> _ => destruct m eqn:?; cbn [rbind]; [|done] end.
  intros E. apply Val_inj in E as <-. cbn [MerkleBranch MerkleTree_of]. split; [done|].
  match goal with E : NewMerkleTree _ _ = Val _ |- _ => unfold NewMerkleTree in E;
    destruct (CalculateSteps _ _); cbn [rbind] in E; [|done]; by apply Val_inj in E as <- end.
Qed.
End Pool_side.

(** ** The two programs together *)

(** The answer to the subscription and the announcement of a job, as the pool
    writes them ([Client.HandleSubscribe], [Client.SendMiningJob]). *)
Definition subscription (sid : string) (en1 : bytes) (size : Z) : list (string * json) :=
  [("id", JNum "1");
   ("result", JArr [ JArr [ JArr [JStr "mining.set_difficulty"; JStr sid]; JArr [JStr "mining.notify"; JStr sid] ];
                     JStr (hex_encode en1); JNum (FormatInt size) ])].
Definition subscribed (sid : string) (en1 : bytes) (size : Z) : line := Line (Some (JObj (subscription sid en1 size))).
Definition notified (params : list json) : line :=
  Line (Some (JObj [("id", JNull); ("method", JStr "mining.notify"); ("params", JArr params)])).
(** What the pool says in between. *)
Definition greeting : line -> Prop := passed_over (has_method "mining.notify").

(** The miner was started for the pool's coin: the same hash functions, which
    never fail, and a node with the template of the job. *)
Record same_coin `{AddressCodec} `{Platform} `{PowHashes} (algs : Algorithms) (fl : flags) (out : outside)
    (jm : JobManager) (job : Job) (hf pow : bytes -> bytes) (f : HashFunc) (bits prev : bytes) : Prop := {
  sc_merkle : GetHashFunc algs (cbHash fl) = Val (jm_CoinbaseHasher jm);
  sc_hash : total_hasher (jm_CoinbaseHasher jm) hf;
  sc_width : forall b, length (hf b) = 32%nat;
  sc_algo : GetHashFunc algs (algoName fl) = Val f;
  sc_pool : GetHashFunc algs (a_Name (Algorithm (jm_Options jm))) = Val f;
  sc_pow : total_hasher f pow;
  sc_pow_width : forall b, length (pow b) = 32%nat;
  sc_node : first_template (node_reply out) [["segwit"]; ["mweb"; "segwit"]; []]
    = Some (g_PreviousBlockHash (GetBlockTemplate_of job), g_Target (GetBlockTemplate_of job),
            g_CurTime (GetBlockTemplate_of job));
  sc_bits : hex_decode (g_Bits (GetBlockTemplate_of job)) = (bits, true);
  sc_bits4 : length bits = 4%nat;
  sc_prev : hex_decode (g_PreviousBlockHash (GetBlockTemplate_of job)) = (prev, true);
  sc_prev32 : length prev = 32%nat;
}.

Section Agreement.
Context `{AddressCodec} `{Platform} `{PowHashes}.
Variable algs : Algorithms.
Variables (fl : flags) (out : outside) (jm : JobManager) (job : Job) (hf pow : bytes -> bytes) (f : HashFunc)
  (bits prev en1 : bytes).
Hypothesis coin : same_coin algs fl out jm job hf pow f bits prev.
Hypothesis job_built : built (jm_CoinbaseHasher jm) job.

Let steps : list bytes := Steps (MerkleTree_of job).
Let template : GetBlockTemplate := GetBlockTemplate_of job.
Let work : work := mkWork (JobId job) (fst (GenerationTransaction job)) (snd (GenerationTransaction job)) steps
                     (be_bytes 4 (u32 (g_Version template))) bits.
Let coinbase : bytes := SerializeCoinbase job en1 (zeros 4).
Let merkle : bytes := pure_fold hf steps (hf coinbase).
Let ntime : bytes := be_bytes 4 (choose_time (unix_now out) (g_CurTime template)).
Let target (bt : Z) : Z := choose_target bt (g_Target template).

Lemma built_facts :
  MerkleBranch job = map hex_encode steps /\ hasher_of (MerkleTree_of job) = jm_CoinbaseHasher jm /\
  job_target template = Val (Target job) /\ length merkle = 32%nat.
Proof.
  destruct job_built as (now & id & t & s & ph & rw & msgs & rs & l & j0 & EN & Ej).
  pose proof (NewJob_parts _ _ _ _ _ _ _ _ _ _ EN) as (Ht & _ & _ & _ & ids & Hids & Hmt).
  pose proof (NewJob_fields _ _ _ _ _ _ _ _ _ _ EN) as (_ & Hg & _).
  pose proof (NewJob_branch _ _ _ _ _ _ _ _ _ _ EN) as [Hb Hh].
  assert (MerkleTree_of job = MerkleTree_of j0) as Em by (by subst).
  split; [subst steps; rewrite Em, <- Hb; by subst|]. split; [by rewrite Em|].
  split; [subst template; rewrite Ej; cbn [GetBlockTemplate_of set_submits Target]; by rewrite Hg|].
  pose proof (MerkleTree_root_aux _ hf ids _ (hf coinbase) (sc_hash _ _ _ _ _ _ _ _ _ _ coin) Hmt) as R.
  unfold MerkleTree_WithFirst in R. rewrite <- Em, (WithFirst_pure _ hf) in R.
  2:{ rewrite Em, Hh. apply (sc_hash _ _ _ _ _ _ _ _ _ _ coin). }
  apply Val_inj in R. subst merkle steps. rewrite R. pose proof (sc_width _ _ _ _ _ _ _ _ _ _ coin) as W.
  apply merkle_root_width; [done|done|]. constructor; [apply W|by eapply tx_hashes_width].
Qed.

Lemma read_notify_job now force : read_notify (GetJobParams now job force) = Val work.
Proof.
  destruct built_facts as (Hb & _). unfold read_notify, GetJobParams. rewrite Hb.
  unfold element. cbn [lookup list_lookup rbind the_string the_array].
  rewrite !hex_text_encode. cbn [rbind].
  rewrite map_map, (rmap_all_val _ (fun j => match j with JStr s => fst (hex_decode s) | _ => [] end)).
  2:{ intros x (b & -> & _)%list_elem_of_fmap. cbn [the_string rbind]. by rewrite hex_text_encode, hex_decode_encode. }
  cbn [rbind]. rewrite (hex_text_decode _ bits) by apply (sc_bits _ _ _ _ _ _ _ _ _ _ coin). cbn [rbind].
  rewrite map_map. do 2 f_equal. rewrite <- (map_id steps) at 2. apply map_ext. intros b. by rewrite hex_decode_encode.
Qed.

(** A list of texts holds no number. *)
Lemma texts_fit l : numbers_fit (JArr (map JStr l)) = true.
Proof. cbn [numbers_fit]. induction l as [|x l IH]; [done|exact IH]. Qed.
Lemma job_params_decode now force :
  let m := [("id", JNull); ("method", JStr "mining.notify"); ("params", JArr (GetJobParams now job force))] in
  decode_map (Some (JObj m)) = Some m.
Proof.
  cbv zeta. unfold decode_map.
  assert (numbers_fit (JObj [("id", JNull); ("method", JStr "mining.notify"); ("params", JArr (GetJobParams now job force))])
          = true) as ->; [|done].
  unfold GetJobParams. pose proof (texts_fit (MerkleBranch job)) as F.
  remember (JArr (map JStr (MerkleBranch job))) as b eqn:Eb. cbn [numbers_fit forallb snd]. by rewrite F.
Qed.

(** A nonce the miner tries is a header of the job. *)
Lemma try_nonce_work bt n :
  0 <= n < 2 ^ 32 ->
  exists header v,
    JobManagerSpec.work_of algs jm job en1 (zeros 4) (hex_encode ntime) (hex_encode (PackUint32BE n)) = Val (header, v) /\
    0 <= v < 2 ^ 256 /\
    try_nonce f work prev (ReverseBytes merkle) ntime (target bt) n = (if v <? target bt then Found n else Next).
Proof.
  intros Hn. destruct built_facts as (_ & Hh & _ & Hw). destruct coin.
  set (header := (le_bytes 4 (u32 (g_Version template)) ++ rev prev ++ rev (ReverseBytes merkle) ++ rev ntime ++ rev bits ++
                  rev (PackUint32BE n))%list).
  exists header, (be_value (ReverseBytes (pow header))). split_and!.
  - unfold JobManagerSpec.work_of. rewrite sc_hash0. cbn [rbind]. unfold MerkleTree_WithFirst. rewrite Hh.
    rewrite (WithFirst_pure _ hf) by done. cbn [rbind]. rewrite !hex_decode_encode. cbn [fst].
    change (pure_fold hf _ _) with merkle.
    rewrite SerializeHeader_layout; rewrite ?sc_bits0, ?sc_prev0, ?ReverseBytes_length; cbn [fst]; rewrite ?be_bytes_length; try done.
    cbn [rbind]. rewrite sc_pool0. cbn [rbind]. change (f header) with (f header). fold template.
    change (le_bytes 4 _ ++ _)%list with header. by rewrite sc_pow0.
  - apply be_value_range.
  - pose proof (be_value_range (ReverseBytes (pow header))) as R. rewrite ReverseBytes_length, sc_pow_width0 in R. exact (proj2 R).
  - unfold try_nonce. cbn [w_version w_bits work].
    rewrite serializeHeader_layout; try done; rewrite ?ReverseBytes_length, ?be_bytes_length; try done.
    2:{ apply wrapu_range. lia. }
    cbn [rbind]. change (le_bytes 4 _ ++ _)%list with header. by rewrite sc_pow0.
Qed.

Definition first_messages : list json :=
  [message_of 1 "mining.subscribe" (JArr []); message_of 2 "mining.authorize" (JArr [JStr (worker fl); JStr "x"])].
Definition submission_of (n : Z) : json :=
  message_of 4 "mining.submit"
    (JArr [JStr (worker fl); JStr (JobId job); JStr (hex_encode (zeros 4)); JStr (hex_encode ntime);
           JStr (hex_encode (PackUint32BE n))]).

Lemma search_outcome bt :
  let r := search (try_nonce f work prev (ReverseBytes merkle) ntime (target bt)) (2 ^ 32) 0 in
  let tried n header v :=
    JobManagerSpec.work_of algs jm job en1 (zeros 4) (hex_encode ntime) (hex_encode (PackUint32BE n)) = Val (header, v) in
  (r = Next /\ forall n, 0 <= n < 2 ^ 32 -> exists header v, tried n header v /\ target bt <= v) \/
  (exists n header v, r = Found n /\ 0 <= n < 2 ^ 32 /\ tried n header v /\ 0 <= v < 2 ^ 256 /\ v < target bt).
Proof.
  cbv zeta.
  destruct (search_spec (try_nonce f work prev (ReverseBytes merkle) ntime (target bt)) (2 ^ 32) 0)
    as [[-> A]|(n & Hn & -> & Hne & _)].
  - left. split; [done|]. intros n Hn. destruct (try_nonce_work bt n Hn) as (header & v & Hw & _ & E).
    exists header, v. split; [done|]. rewrite A in E by (exact Hn). by destruct (Z.ltb_spec v (target bt)).
  - right. destruct (try_nonce_work bt n Hn) as (header & v & Hw & Hr & E). rewrite E in Hne |- *.
    destruct (Z.ltb_spec v (target bt)); [|done]. by exists n, header, v.
Qed.

(** The miner's target is no easier than the job's. *)
Lemma target_harder bt : BigIntFromBitsBytes bits = Val bt -> 0 < Target job -> target bt <= Target job.
Proof.
  intros Hbt Ht. destruct built_facts as (_ & _ & Hj & _). subst target. cbv beta. unfold job_target in Hj. unfold choose_target.
  destruct (String.eqb_spec (g_Target template) "") as [E|E]; cbn [negb] in Hj.
  - unfold BigIntFromBitsHex in Hj. subst template. rewrite (sc_bits _ _ _ _ _ _ _ _ _ _ coin), Hbt in Hj.
    apply Val_inj in Hj. lia.
  - destruct (SetString16 (g_Target template)) as [t|]; [|done]. apply Val_inj in Hj as ->.
    destruct (Z.ltb_spec 0 (Target job)); [|lia]. destruct (Z.ltb_spec (Target job) bt); cbn [andb]; lia.
Qed.

(** Up to the search, and what follows it. *)
Lemma main_reads sid greetings now force rest bt :
  pool_up out = true -> BigIntFromBitsBytes bits = Val bt -> Forall greeting greetings ->
  main algs fl out (mkConn (subscribed sid en1 4 :: greetings ++ notified (GetJobParams now job force) :: rest) [])%list
  = (run! n := searched (search (try_nonce f work prev (ReverseBytes merkle) ntime (target bt)) (2 ^ 32) 0) Exits in
     run! _ := write (submission_of n) in readByID 4) (mkConn rest first_messages).
Proof.
  intros Hup Hbt Hg. pose proof (sc_node _ _ _ _ _ _ _ _ _ _ coin) as Hnode.
  pose proof (sc_prev _ _ _ _ _ _ _ _ _ _ coin) as Hprev.
  pose proof (sc_merkle _ _ _ _ _ _ _ _ _ _ coin) as Hcb. pose proof (sc_hash _ _ _ _ _ _ _ _ _ _ coin) as Hhash.
  pose proof (sc_algo _ _ _ _ _ _ _ _ _ _ coin) as Hal.
  assert (make_bytes (fst (ParseFloat (FormatInt 4))) = Val (zeros 4)) as Hmake by (vm_compute; reflexivity).
  unfold main.
  etransitivity; [apply tbind_inl; unfold templatePrevhashAndTarget; rewrite Hnode; reflexivity|]. cbv beta iota.
  etransitivity; [apply tbind_inl, checked_val, hex_text_decode, Hprev|]. cbv beta.
  etransitivity; [apply tbind_inl; unfold dial; rewrite Hup; reflexivity|]. cbv beta.
  etransitivity; [apply tbind_inl; reflexivity|]. cbv beta.
  etransitivity.
  { apply tbind_inl. unfold readByID, read_until. cbn [arriving written read_until_from subscribed].
    assert (decode_map (Some (JObj (subscription sid en1 4))) = Some (subscription sid en1 4)) as -> by (vm_compute; reflexivity).
    assert (has_id 1 (subscription sid en1 4) = true) as -> by (vm_compute; reflexivity).
    reflexivity. }
  cbv beta.
  etransitivity; [apply tbind_inl, checked_val; reflexivity|]. cbv beta.
  etransitivity; [apply tbind_inl, checked_val; reflexivity|]. cbv beta.
  etransitivity; [apply tbind_inl, checked_val; reflexivity|]. cbv beta zeta.
  etransitivity; [apply tbind_inl; reflexivity|]. cbv beta.
  etransitivity.
  { apply tbind_inl. unfold waitNotify. etransitivity.
    { apply tbind_inl. unfold read_until. cbn [arriving written]. rewrite read_until_skip by done.
      cbn [read_until_from notified]. rewrite job_params_decode. reflexivity. }
    cbv beta. apply checked_val. reflexivity. }
  cbv beta.
  etransitivity; [apply tbind_inl, checked_val, read_notify_job|]. cbv beta zeta.
  etransitivity; [apply tbind_inl, checked_val; exact Hbt|]. cbv beta zeta.
  etransitivity; [apply tbind_inl, checked_val; exact Hmake|]. cbv beta.
  etransitivity; [apply tbind_inl, checked_val; exact Hcb|]. cbv beta.
  etransitivity; [apply tbind_inl, checked_val, (fold_branch_pure _ hf); exact Hhash|]. cbv beta.
  etransitivity; [apply tbind_inl, checked_val; exact Hal|]. cbv beta.
  rewrite hex_decode_encode. reflexivity.
Qed.
End Agreement.

(** The time the miner chooses passes the pool's check. *)
Lemma choose_time_ok job now_m now_s :
  let curTime := g_CurTime (GetBlockTemplate_of job) in
  0 <= now_m <= now_s -> now_m + 2 < 2 ^ 32 -> 0 <= curTime < 2 ^ 32 -> curTime <= now_s + 7 ->
  ntime_ok now_s job (hex_encode (be_bytes 4 (choose_time now_m curTime))) = true.
Proof.
  cbv zeta. intros Hn H2 Hc Hs. unfold choose_time. rewrite (wrapu_small 32 now_m), (wrapu_small 32 (now_m + 2)) by lia.
  set (t := if now_m + 2 <? _ then _ else _).
  assert (0 <= t < 2 ^ 32 /\ g_CurTime (GetBlockTemplate_of job) <= t <= now_s + 7) as [R [R1 R2]]
    by (subst t; destruct (Z.ltb_spec (now_m + 2) (g_CurTime (GetBlockTemplate_of job))); lia).
  unfold ntime_ok. rewrite ParseInt_hex by (try done; lia). cbn [fst]. rewrite (wrapu_small 32 t) by lia.
  destruct (Z.ltb_spec t (g_CurTime (GetBlockTemplate_of job))); [lia|].
  by destruct (Z.ltb_spec (now_s + 7) t); [lia|].
Qed.

(** What the pool does with a fresh submission below the target of its job. *)
Lemma process_found_block `{AddressCodec} `{Platform} `{PowHashes} algs now jm jobId p job pd diff en1 en2 t n ip w header v :
  jm_ValidJobs jm !! jobId = Some p -> jm_jobs jm !! p = Some job -> JobId job = jobId ->
  Z.of_nat (length en2) = jm_ExtraNonce2Size jm -> ntime_ok now job (hex_encode t) = true ->
  length t = 4%nat -> length n = 4%nat ->
  (forall rest, ~ ((hex_encode en1 ++ rest)%string ∈ Submits job)) ->
  JobManagerSpec.work_of algs jm job en1 en2 (hex_encode t) (hex_encode n) = Val (header, v) ->
  0 <= v < 2 ^ 256 -> v < Target job -> 0 <= a_Multiplier (Algorithm (jm_Options jm)) < 63 ->
  (forall h, is_val (block_hash algs (Algorithm (jm_Options jm)) h) = true) ->
  exists share jm', ProcessSubmit algs now jm jobId pd diff en1 (hex_encode en2) (hex_encode t) (hex_encode n) ip w
      = Val (share, jm') /\ s_ErrorCode share = 0 /\
    s_BlockHex share = hex_encode (SerializeBlock job header (SerializeCoinbase job en1 en2)).
Proof.
  intros Hv Hj Hid Hs Ht Hlt Hln Hf Hw Hr Hlow Hm Hb. rewrite ProcessSubmit_precheck. unfold precheck.
  rewrite Hv. cbn [mbind option_bind]. rewrite Hj. cbn [mbind option_bind].
  rewrite Hid, String.eqb_refl. cbn [negb]. rewrite !hex_decode_encode. cbn [fst]. unfold blen. rewrite Hs, Z.eqb_refl. cbn [negb].
  rewrite !hex_encode_length, Hlt, Hln, Ht. change (2 * Z.of_nat 4 =? 8) with true. cbn [negb].
  destruct (decide _) as [D|_]; [by apply Hf in D|]. cbv iota beta.
  destruct (share_difficulty_total _ v Hm Hr) as [d Hd].
  pose proof (Hb header) as Hbh. destruct (block_hash _ _ header) as [bh|] eqn:Ebh; [|done].
  erewrite check_work_block; [cbn [rbind]; eexists _, _; split; [reflexivity|by split]|exact Hw|exact Hd|exact Ebh|exact Hlow].
Qed.
(** C11: what the miner finds, the pool takes for a block.  Started for the pool's
    coin, with a node that gives the template of one of the pool's live jobs,
    and reading the pool's answer to its subscription and the announcement of
    that job among whatever else the pool says, the miner either tries all 2^32
    nonces and exits, none of their headers being below its target, or writes
    one submission, which the pool, for a client of that extranonce, processes
    to a share without error that carries the block of the job with the header
    that was hashed. *)
Theorem miner_finds_block `{AddressCodec} `{Platform} `{PowHashes} algs fl out o jm0 jm jobId p job hf pow f bits prev
    en1 bt sid greetings now force rest now_s pd diff ip w :
  NewJobManager algs o = Val jm0 -> rtc (jm_step algs) jm0 jm ->
  jm_ValidJobs jm !! jobId = Some p -> jm_jobs jm !! p = Some job ->
  same_coin algs fl out jm job hf pow f bits prev ->
  0 < Target job -> 0 <= a_Multiplier (Algorithm o) < 63 -> (forall h, is_val (block_hash algs (Algorithm o) h) = true) ->
  pool_up out = true -> BigIntFromBitsBytes bits = Val bt -> Forall greeting greetings ->
  let t := GetBlockTemplate_of job in
  0 <= unix_now out <= now_s -> unix_now out + 2 < 2 ^ 32 -> 0 <= g_CurTime t < 2 ^ 32 -> g_CurTime t <= now_s + 7 ->
  (forall rest, ~ ((hex_encode en1 ++ rest)%string ∈ Submits job)) ->
  let ntime := hex_encode (be_bytes 4 (choose_time (unix_now out) (g_CurTime t))) in
  let nonce n := hex_encode (be_bytes 4 n) in
  let work n := JobManagerSpec.work_of algs jm job en1 (zeros 4) ntime (nonce n) in
  let run := main algs fl out
    (mkConn (subscribed sid en1 4 :: greetings ++ notified (GetJobParams now job force) :: rest) [])%list in
  (fst run = inr Exits /\ written (snd run) = first_messages fl /\
   forall n, 0 <= n < 2 ^ 32 -> exists header v, work n = Val (header, v) /\ choose_target bt (g_Target t) <= v) \/
  (exists n header v share jm',
     0 <= n < 2 ^ 32 /\ written (snd run) = (first_messages fl ++ [submission_of fl out job n])%list /\
     work n = Val (header, v) /\ v < Target job /\
     ProcessSubmit algs now_s jm jobId pd diff en1 (hex_encode (zeros 4)) ntime (nonce n) ip w = Val (share, jm') /\
     s_ErrorCode share = 0 /\
     s_BlockHex share = hex_encode (SerializeBlock job header (SerializeCoinbase job en1 (zeros 4)))).
Proof.
  intros HN R Hv Hj C Ht Hm Hbh Hup Hbt Hg. cbv zeta. intros Hn1 Hn2 Hc1 Hc2 Hfresh.
  pose proof (reachable_consts _ _ _ _ HN R) as [Ho Hsz].
  assert (built (jm_CoinbaseHasher jm) job) as B
    by (pose proof (built_reachable _ _ _ _ HN R) as F; by eapply Forall_lookup_1 in F).
  assert (JobId job = jobId) as Hid.
  { destruct (jm_reachable_aux _ _ _ _ jm HN R (rtc_refl _ _)) as [[W _] _]. destruct (W _ _ Hv) as (j & Ej & <-). congruence. }
  rewrite (main_reads algs fl out jm job hf pow f bits prev en1 C B sid greetings now force rest bt Hup Hbt Hg).
  destruct (search_outcome algs fl out jm job hf pow f bits prev en1 C B bt)
    as [[-> A]|(n & header & v & -> & Hn & Hw & Hr & Hlt)]; [by left|right].
  pose proof (target_harder algs fl out jm job hf pow f bits prev en1 C B bt Hbt Ht) as Hle.
  assert (v < Target job) as Hv2 by (eapply Z.lt_le_trans; [exact Hlt|exact Hle]).
  assert (exists share jm', ProcessSubmit algs now_s jm jobId pd diff en1 (hex_encode (zeros 4))
      (hex_encode (be_bytes 4 (choose_time (unix_now out) (g_CurTime (GetBlockTemplate_of job)))))
      (hex_encode (be_bytes 4 n)) ip w = Val (share, jm') /\ s_ErrorCode share = 0 /\
      s_BlockHex share = hex_encode (SerializeBlock job header (SerializeCoinbase job en1 (zeros 4))))
    as (share & jm' & E & E0 & Eb).
  { rewrite <- Ho in Hm, Hbh. eapply process_found_block; try done. by apply choose_time_ok. }
  exists n, header, v, share, jm'. split; [done|]. split; [|done].
  cbn [searched]. unfold readByID, read_until, tbind, returns, write. cbn [arriving written].
  by rewrite read_until_written.
Qed.

(** The miner against a regtest pool whose node gives the template of its job. *)
Definition regtest_flags : flags := mkFlags "alice.rig1" "sha256d" "sha256d".
Definition regtest_node : outside :=
  mkOutside (fun _ => Some (JObj [("result", JObj [("previousblockhash", JStr (g_PreviousBlockHash (template_with easy_target)));
                 ("target", JStr easy_target); ("curtime", JNum "1700000000")])])) 1700000001 true.
Definition regtest_lines : list line :=
  (subscribed "1" (be_bytes 4 7) 4 ::
   [Line (Some (JObj [("id", JNum "2"); ("result", JBool true)]));
    Line (Some (JObj [("id", JNum "0"); ("method", JStr "mining.set_difficulty"); ("params", JArr [JNum "1"])]))] ++
   [notified (GetJobParams 1700000000 job1 true)])%list.
Lemma miner_finds_block_witness :
  let jm := manager1 easy_target in
  let t := GetBlockTemplate_of job1 in
  let ntime := hex_encode (be_bytes 4 (choose_time (unix_now regtest_node) (g_CurTime t))) in
  let nonce n := hex_encode (be_bytes 4 n) in
  let work n := JobManagerSpec.work_of sample_algs jm job1 (be_bytes 4 7) (zeros 4) ntime (nonce n) in
  let run := @main sample_algs regtest_flags regtest_node (mkConn regtest_lines []) in
  let bt := 0x7fffff * 2 ^ (8 * 29) in
  (fst run = inr Exits /\ written (snd run) = first_messages regtest_flags /\
   forall n, 0 <= n < 2 ^ 32 -> exists header v, work n = Val (header, v) /\ choose_target bt (g_Target t) <= v) \/
  (exists n header v share jm',
     0 <= n < 2 ^ 32 /\
     written (snd run) = (first_messages regtest_flags ++ [submission_of regtest_flags regtest_node job1 n])%list /\
     work n = Val (header, v) /\ v < Target job1 /\
     ProcessSubmit sample_algs 1700000002 jm (RandHexUint64 job_random) None tiny (be_bytes 4 7)
       (hex_encode (zeros 4)) ntime (nonce n) "1.2.3.4:5" "alice.rig1" = Val (share, jm') /\
     s_ErrorCode share = 0 /\
     s_BlockHex share = hex_encode (SerializeBlock job1 header (SerializeCoinbase job1 (be_bytes 4 7) (zeros 4)))).
Proof.
  apply (@miner_finds_block hex_codec amd64 sha_primitives sample_algs regtest_flags regtest_node sample_options manager0
           (manager1 easy_target) (RandHexUint64 job_random) 0%nat job1 Sha256d Sha256d (fun b => Val (Sha256d b))
           (fst (hex_decode "207fffff"))
           (fst (hex_decode (g_PreviousBlockHash (template_with easy_target)))) (be_bytes 4 7) _ "1"
           _ 1700000000 true [] 1700000002 None tiny "1.2.3.4:5" "alice.rig1").
  - apply get_val. vm_compute. reflexivity.
  - apply rtc_once, (step_template _ 1700000000 job_random (template_with easy_target)).
    apply get_val. vm_compute. reflexivity.
  - vm_compute. reflexivity.
  - reflexivity.
  - split; [reflexivity|intros b; reflexivity|intros b; apply Sha256d_length|reflexivity|reflexivity|intros b; reflexivity
      |intros b; apply Sha256d_length|..]; vm_compute; reflexivity.
  - vm_compute. reflexivity.
  - vm_compute. split; [discriminate|reflexivity].
  - intros h. reflexivity.
  - reflexivity.
  - vm_compute. reflexivity.
  - repeat constructor; (eexists; split; [reflexivity|split; vm_compute; reflexivity]).
  - vm_compute. split; discriminate.
  - vm_compute. reflexivity.
  - vm_compute. split; [discriminate|reflexivity].
  - vm_compute. discriminate.
  - intros rest E. vm_compute in E. by apply not_elem_of_nil in E.
Defined.
(** And it does find one. *)
Example regtest_submission :
  List.last (written (snd (@main sample_algs regtest_flags regtest_node (mkConn regtest_lines [])))) (JNull)
  = message_of 4 "mining.submit" (JArr [JStr "alice.rig1"; JStr "0000000000000001"; JStr "00000000"; JStr "6553f103"; JStr "00000000"]).
Proof. vm_compute. reflexivity. Qed.
