(* ===== verification/EngineMiners.v ===== *)
(** * EngineMiners: the test miners of the engines

    One Module per program: src/tools/e2ervnminer/main.go (KawPow),
    src/tools/e2eethminer/main.go (Ethash), src/tools/e2ekasminer/main.go
    (kHeavyHash), src/tools/e2exmrminer/main.go (RandomX), and
    src/tools/e2everthashgen/main.go.  The proofs of work are the arguments the
    engines take.  The theorems say that what a miner finds, the engine takes. *)
From Stdlib Require Import ZArith Lia List Strings.Ascii Strings.String Strings.Byte Floats.SpecFloat.
From stdpp Require Import base list strings gmap.
From S2P Require Import Prelude Bytes Float FloatSpec Strconv Sha256 Utils Types Json Effects Algorithm Engine EngineWork Cryptonote Kaspa Ethash Kawpow Miner.
Import ListNotations.
Local Open Scope string_scope.
Local Open Scope Z_scope.
Local Open Scope go_scope.
Local Open Scope tool_scope.

(** [fmt.Sprintf("0x%016x", nonce)] *)
Definition nonce_text (nonce : Z) : string := "0x" ++ Kaspa.hex16 nonce.

(** ** src/tools/e2ervnminer/main.go *)
Module Rvn.
Section Main.
Context `{Platform}.
(** [client.Compute(headerHash, height, nonce)] *)
Variable Compute : bytes -> Z -> Z -> option (bytes * bytes).
Variable worker : string.

Definition send (id : Z) (method : string) (params : list json) : tool unit :=
  write (message_of id method (JArr params)).
Definition readLine : tool (list (string * json)) := read_map false.
Definition readByID (id : Z) : tool (list (string * json)) := read_until false (has_id id).

Definition bitsToTarget (bitsHex : string) : result Z :=
  match fst (hex_decode bitsHex) with
  | [] => Panic "index out of range"
  | exp :: mant => Val (be_value mant * 2 ^ (8 * u8 (Z_of_byte exp - 3)))
  end.
Definition toF (v : json) : float64 :=
  match v with
  | JNum l => fst (ParseFloat l)
  | JStr s => fst (ParseFloat s)
  | _ => fzero
  end.
(** [binary.BigEndian.Uint16] *)
Definition be_uint16 (b : bytes) : result Z :=
  if (length b <? 2)%nat then Panic "index out of range" else Val (be_value (take 2 b)).

(** The job the miner reads: its id, header hash, height and target. *)
Record work := mkWork { w_job : string; w_header : bytes; w_height : Z; w_target : Z }.
Definition read_notify (p : list json) : result work :=
  let text i := rbind (element p i) the_string in
  let! jobID := text 0%nat in
  let! header := text 1%nat in
  let headerHash := fst (hex_decode (trim_prefix "0x" header)) in
  let! h := element p 5%nat in
  let height := uint64_of_float (toF h) in
  let! bits := text 6%nat in
  let! t := text 3%nat in
  let! target :=
    match BigSetString 16 (trim_prefix "0x" t) with
    | Some t => if t =? 0 then bitsToTarget (trim_prefix "0x" bits) else Val t
    | None => bitsToTarget (trim_prefix "0x" bits)
    end in
  let! _ := prefix_of header 14 in
  Val (mkWork jobID headerHash height target).

Definition try_nonce (w : work) (base i : Z) : tried (Z * bytes) :=
  let nonce := Z.lor base i in
  match Compute (w_header w) (w_height w) nonce with
  | None => Ends Exits
  | Some (mix, digest) => if be_value digest <=? w_target w then Found (nonce, mix) else Next
  end.
Definition submission (w : work) (nonce : Z) (mix : bytes) : list json :=
  [JStr worker; JStr (w_job w); JStr (nonce_text nonce); JStr ("0x" ++ hex_encode (w_header w)); JStr ("0x" ++ hex_encode mix)].

(** The last index that is tried is one above two million. *)
Definition main (pool_up : bool) : tool (list (string * json)) :=
  run! _ := dial pool_up in
  run! _ := send 1 "mining.subscribe" [JStr "e2e"] in
  run! sub := readByID 1 in
  run! res := checked (the_array (at_key sub "result")) in
  run! en1 := checked (rbind (element res 1) the_string) in
  let en1 := fst (hex_decode en1) in
  run! _ := send 2 "mining.authorize" [JStr worker; JStr "x"] in
  run! m := read_until false (has_method "mining.notify") in
  run! p := checked (the_array (at_key m "params")) in
  run! w := checked (read_notify p) in
  run! prefix := checked (be_uint16 en1) in
  run! (nonce, mix) := searched (search (try_nonce w (u64 (Z.shiftl prefix 48))) 2000002 0) Exits in
  run! _ := send 4 "mining.submit" (submission w nonce mix) in
  readByID 4.
End Main.
End Rvn.

(** ** src/tools/e2eethminer/main.go *)
Module Eth.
Section Main.
Context `{EthHashes}.
Variable login : string.

Definition send (id : Z) (method : string) (params : list json) : tool unit :=
  write (message_of id method (JArr params)).
Definition readByID (id : Z) : tool (list (string * json)) := read_until false (has_id id).

(** The body of the answer to eth_getWork, [None] when it is not JSON; a nil
    big.Int is dereferenced by [Uint64]. *)
Definition getWork (body : option json) : tool (string * string * option Z * Z) :=
  match Unmarshal (SStruct [("result", SList SString)]) body with
  | None => stops Exits
  | Some j =>
      let work := match last_value j "result" with Some (JArr l) => map json_string l | _ => [] end in
      match work with
      | header :: seed :: target :: rest =>
          let target := BigSetString 16 (trim_prefix "0x" target) in
          match rest with
          | [] => returns (header, seed, target, 0)
          | number :: _ =>
              match BigSetString 16 (trim_prefix "0x" number) with
              | Some n => returns (header, seed, target, Ethash.Uint64 n)
              | None => stops (Panics "nil pointer dereference")
              end
          end
      | _ => stops Exits
      end
  end.
(** [rpc]: the transport must not fail. *)
Definition rpc (reply : option (option json)) : tool (option json) :=
  match reply with Some body => returns body | None => stops Exits end.

(** [etchash.New(&ecip, nil)]: the miner has a light hasher of its own. *)
Definition ecip : Z := 99999999.
Definition try_nonce (blockNum : Z) (headerHash : Hash) (target nonce : Z) : tried (Z * Hash) :=
  let '(mixDigest, result) := Compute ecip blockNum headerHash nonce in
  if Hash_Big result <=? target then Found (nonce, mixDigest) else Next.
(** What is printed of the work has to be there: 14 characters of the header
    and 12 of the target ("<nil>" without one). *)
Definition printed (header : string) (target : option Z) : result Z :=
  let! _ := prefix_of header 14 in
  let! _ := prefix_of (match target with Some t => Text16 t | None => "<nil>" end) 12 in
  match target with Some t => Val t | None => Panic "nil pointer dereference" end.

(** The search comes before the connection. *)
Definition main (reply : option (option json)) (pool_up : bool) : tool (list (string * json)) :=
  run! raw := rpc reply in
  run! (header, _, target, blockNum) := getWork raw in
  run! target := checked (printed header target) in
  let headerHash := HexToHash header in
  run! (nonce, mix) := searched (search (try_nonce blockNum headerHash target) 5000001 0) Exits in
  run! _ := dial pool_up in
  run! _ := send 1 "eth_submitLogin" [JStr login; JStr "x"] in
  run! _ := readByID 1 in
  run! _ := send 4 "eth_submitWork" [JStr (nonce_text nonce); JStr header; JStr (Hash_Hex mix)] in
  readByID 4.
End Main.
End Eth.

(** ** src/tools/e2ekasminer/main.go *)
Module Kas.
Section Main.
(** [client.Compute(prePow, timestamp, nonce)] *)
Variable Compute : bytes -> Z -> Z -> option bytes.
Variables (worker : string) (minDiff : float64).

Definition send (id : Z) (method : string) (params : list json) : tool unit :=
  write (message_of id method (JArr params)).
Definition readLine : tool (list (string * json)) := read_map false.
Definition readByID (id : Z) : tool (list (string * json)) := read_until false (has_id id).

(** [w, _ := strconv.ParseUint(s[i:i+16], 16, 64)] *)
Definition word_at (s : string) (i : nat) : result Z :=
  if (String.length s <? i + 16)%nat then Panic "slice bounds out of range"
  else Val (fst (ParseUint (substring i 16 s) 16)).
Definition parseLargeJob (s : string) : result (bytes * Z) :=
  let! w0 := word_at s 0 in
  let! w1 := word_at s 16 in
  let! w2 := word_at s 32 in
  let! w3 := word_at s 48 in
  let! ts := word_at s 64 in
  Val ((be_bytes 8 w0 ++ be_bytes 8 w1 ++ be_bytes 8 w2 ++ be_bytes 8 w3)%list, i64 ts).

(** One message of the loop that waits for a job: the share difficulty, the
    job's id and the job. *)
Definition on_message (m : list (string * json)) (shareDiff : float64) (jobID largeJob : string)
  : result (float64 * string * string) :=
  if has_method "mining.set_difficulty" m then
    match at_key m "params" with
    | JArr (JNum l :: _) => Val (fst (ParseFloat l), jobID, largeJob)
    | JArr (_ :: _) => Val (fzero, jobID, largeJob)
    | _ => Val (shareDiff, jobID, largeJob)
    end
  else if has_method "mining.notify" m then
    let! p := the_array (at_key m "params") in
    let! id := rbind (element p 0) the_string in
    let! job := rbind (element p 1) the_string in
    Val (shareDiff, id, job)
  else Val (shareDiff, jobID, largeJob).
(** [for jobID == "" { ... }] *)
Fixpoint wait_job (ls : list line) (shareDiff : float64) (jobID largeJob : string) (sent : list json)
  : ((float64 * string * string) + stop) * conn :=
  if negb (String.eqb jobID "") then (inl (shareDiff, jobID, largeJob), mkConn ls sent)
  else
    match ls with
    | [] => (inr Waits, mkConn [] sent)
    | ReadError :: ls => (inr Exits, mkConn ls sent)
    | Line text :: ls =>
        match on_message (default [] (decode_map text)) shareDiff jobID largeJob with
        | Val (shareDiff, jobID, largeJob) => wait_job ls shareDiff jobID largeJob sent
        | Panic e => (inr (Panics e), mkConn ls sent)
        end
    end.

(** [Float64] of the quotient. *)
Definition difficulty_of (digest : bytes) : result float64 :=
  let! q := Quo (SetInt Pow256) (SetInt (be_value digest)) in Val (Float64 q).
Definition try_nonce (prePow : bytes) (timestamp : Z) (shareDiff : float64) (nonce : Z) : tried Z :=
  match Compute prePow timestamp nonce with
  | None => Ends Exits
  | Some digest =>
      tried_result (let! diff := difficulty_of digest in
                    Val (if fleb shareDiff diff && fleb minDiff diff then Found nonce else Next))
  end.
Definition submission (jobID : string) (nonce : Z) : list json := [JStr worker; JStr jobID; JStr (Kaspa.hex16 nonce)].

Definition main (pool_up : bool) : tool (list (string * json)) :=
  run! _ := dial pool_up in
  run! _ := send 1 "mining.subscribe" [JStr "e2e"] in
  run! _ := readByID 1 in
  run! _ := send 2 "mining.authorize" [JStr worker; JStr "x"] in
  run! (shareDiff, jobID, largeJob) := fun c => wait_job (arriving c) (float_const 1 1000) "" "" (written c) in
  run! (prePow, timestamp) := checked (parseLargeJob largeJob) in
  run! nonce := searched (search (try_nonce prePow timestamp shareDiff) 5000002 0) Exits in
  run! _ := send 4 "mining.submit" (submission jobID nonce) in
  readByID 4.
End Main.
End Kas.

(** ** src/tools/e2exmrminer/main.go *)
Module Xmr.
Section Main.
Context `{Platform}.
(** [vm.Hash(seed, blob)] and whether [NewLightVM] succeeds *)
Variable Hash : bytes -> bytes -> option bytes.
Variable vm_opens : bytes -> bool.
(** [-login], [-nonceoff] and [-diff] *)
Variables (login : string) (nonceOff netDiff : Z).

(** The version is one of the keys. *)
Definition send (id : Z) (method : string) (params : json) : tool unit :=
  write (JObj [("id", JNum (FormatInt id)); ("jsonrpc", JStr "2.0"); ("method", JStr method); ("params", params)]).
Definition readByID (id : Z) : tool (list (string * json)) := read_until false (has_id id).
Definition reverse (b : bytes) : bytes := map (fun i => nth (length b - 1 - i) b x00) (seq 0 (length b)).

(** [binary.LittleEndian.PutUint32(blob[off:off+4], nonce)] *)
Definition put_nonce (blob : bytes) (off nonce : Z) : result bytes :=
  if (off <? 0) || (Z.of_nat (length blob) <? off + 4) then Panic "slice bounds out of range"
  else let o := Z.to_nat off in Val (take o blob ++ le_bytes 4 nonce ++ drop (o + 4) blob)%list.

Record work := mkWork { w_session : string; w_job : string; w_blob : bytes; w_seed : bytes }.
Definition json_text (j : json) : string := match j with JStr s => s | _ => "" end.
Definition read_login (resp : list (string * json)) : result work :=
  let! res := the_object (at_key resp "result") in
  let sessionID := json_text (at_key res "id") in
  let! job := the_object (at_key res "job") in
  let! jobID := the_string (at_key job "job_id") in
  let! blob := the_string (at_key job "blob") in
  let! seed := the_string (at_key job "seed_hash") in
  Val (mkWork sessionID jobID (fst (hex_decode blob)) (fst (hex_decode seed))).

(** The nonce is written into the same buffer each time. *)
Definition try_nonce (w : work) (nonce : Z) : tried (Z * bytes) :=
  tried_result (
    let! blob := put_nonce (w_blob w) nonceOff nonce in
    match Hash (w_seed w) blob with
    | None => Val (Ends Exits)
    | Some h =>
        let! q := Quo (SetInt Pow256) (SetInt (be_value (reverse h))) in
        Val (if netDiff <=? uint64_of_float (Float64 q) then Found (nonce, h) else Next)
    end).
Definition submission (w : work) (nonce : Z) (h : bytes) : json :=
  JObj [("id", JStr (w_session w)); ("job_id", JStr (w_job w)); ("nonce", JStr (hex_encode (le_bytes 4 nonce)));
        ("result", JStr (hex_encode h))].

(** The counter wraps and the same nonces are tried again, for ever. *)
Definition main (pool_up : bool) : tool (list (string * json)) :=
  run! _ := dial pool_up in
  run! _ := send 1 "login" (JObj [("agent", JStr "e2e/1.0"); ("login", JStr login); ("pass", JStr "x")]) in
  run! resp := readByID 1 in
  run! w := checked (read_login resp) in
  run! _ := (if vm_opens (w_seed w) then returns tt else stops Exits) in
  run! (nonce, h) := searched (search (try_nonce w) (2 ^ 32) 0) Searches in
  run! _ := send 2 "submit" (submission w nonce h) in
  readByID 2.
End Main.
End Xmr.

(** ** src/tools/e2everthashgen/main.go: the directory, whose errors are
    dropped, then the initialisation of the algorithm *)
Module Verthashgen.
Definition main `{PowHashes} : result unit := Warmup "verthash".
End Verthashgen.

(** ** Numbers and hexadecimal texts both sides read *)
Lemma digit_class c v : digit_value c = Some v -> v < 10 -> code c = 48 + v /\ 0 <= v.
Proof.
  unfold digit_value. repeat match goal with |- context [(?a <=? ?b)%Z] => destruct (Z.leb_spec a b) end;
    cbn; intros E; try discriminate; apply (inj Some) in E; lia.
Qed.
Lemma scan_digits s n v (seen : bool) :
  parse_digits 10 s n = (v, None) ->
  scan_mantissa 10 s (Mant seen n 0 false false) = (Mant (seen || negb (String.eqb s "")) v 0 false false, "").
Proof.
  revert n seen; induction s as [|c s IH]; intros n seen; cbn [parse_digits scan_mantissa].
  - intros [= ->]. cbn. by rewrite orb_false_r.
  - destruct (digit_value c) as [d|] eqn:Ed; [|discriminate]. destruct (10 <=? d) eqn:B; [discriminate|].
    destruct (_ <=? n * 10 + d); [discriminate|]. intros E. zbool. destruct (digit_class _ _ Ed B) as [Ec Hd].
    replace (code c =? 95) with false by (symmetry; apply Z.eqb_neq; lia).
    replace (code c =? 46) with false by (symmetry; apply Z.eqb_neq; lia).
    cbn [m_digits m_value m_frac m_dot m_under]. rewrite (IH _ true E). by rewrite orb_true_r.
Qed.
Lemma float_finite n : 0 <= n < 2 ^ 64 -> match float_of_Z n with S754_infinity _ => Some ErrRange | _ => None end = None.
Proof.
  intros Hn. destruct (float_of_Z_spec n) as ((Hf & _) & _); [lia|by apply b2_big|]. by destruct (float_of_Z n).
Qed.
(** A number without sign, point or exponent. *)
Lemma ParseFloat_uint s v : ParseUint s 10 = (v, None) -> 0 <= v < 2 ^ 64 -> ParseFloat s = (float_of_Z v, None).
Proof.
  intros E Hv. unfold ParseUint in E. destruct s as [|c s]; [discriminate|].
  pose proof (scan_digits _ _ _ false E) as Hs.
  cbn [parse_digits] in E. destruct (digit_value c) as [d|] eqn:Ed; [|discriminate].
  destruct (10 <=? d) eqn:B; [discriminate|]. zbool. destruct (digit_class _ _ Ed B) as [Ec Hd].
  assert (strip_sign (String c s) = (false, String c s)) as Hstrip.
  { cbn [strip_sign]. replace (code c =? 43) with false by (symmetry; apply Z.eqb_neq; lia).
    by replace (code c =? 45) with false by (symmetry; apply Z.eqb_neq; lia). }
  assert (special_float (String c s) = None) as Hsp.
  { unfold special_float. rewrite Hstrip. cbn [to_lower].
    assert (code (lower_ascii c) = code c) as El.
    { assert (48 <= code c < 58) as R by lia. clear - R. destruct c as [[] [] [] [] [] [] [] []]; try reflexivity;
        exfalso; vm_compute in R; destruct R as [R1 R2]; (discriminate R2 || by destruct (R1 eq_refl)). }
    assert (forall x t, 58 <= code x -> String.eqb (String (lower_ascii c) (to_lower s)) (String x t) = false) as N.
    { intros x t Hx. apply String.eqb_neq. intros [= Ex _]. rewrite <- Ex, El in Hx. lia. }
    rewrite !N; [done|vm_compute; discriminate..]. }
  assert (hex_prefix (String c s) = (false, String c s)) as Hx.
  { unfold hex_prefix. destruct s as [|c1 [|c2 rest]]; try done.
    destruct (code c =? 48) eqn:E0; [|done]. cbn [parse_digits] in E. destruct (2 ^ 64 <=? 0 * 10 + d); [discriminate|].
    destruct (digit_value c1) as [d1|] eqn:Ed1; [|discriminate]. destruct (10 <=? d1) eqn:B1; [discriminate|].
    zbool. destruct (digit_class _ _ Ed1 B1) as [Ec1 Hd1].
    replace (code c1 =? 120) with false by (symmetry; apply Z.eqb_neq; lia).
    by replace (code c1 =? 88) with false by (symmetry; apply Z.eqb_neq; lia). }
  unfold ParseFloat. rewrite Hsp, Hstrip, Hx. cbv iota beta. rewrite Hs. cbn [orb negb String.eqb m_digits].
  change (String.eqb (String c s) "") with false. cbn [negb read_exponent].
  cbn [String.eqb negb orb m_under andb m_value m_frac].
  unfold float_of_decimal. change (0 <=? 0 - 0) with true. change (10 ^ (0 - 0)) with 1. cbv iota. rewrite Z.mul_1_r. by rewrite float_finite.
Qed.
Lemma ParseFloat_FormatUint n : 0 <= n < 2 ^ 64 -> ParseFloat (FormatUint n) = (float_of_Z n, None).
Proof. intros Hn. apply ParseFloat_uint; [by apply ParseUint_FormatUint|done]. Qed.
Lemma uint64_float_of_Z `{Platform} n : 0 <= n < 2 ^ 53 -> uint64_of_float (float_of_Z n) = n.
Proof.
  intros Hn. unfold uint64_of_float. rewrite trunc_float_of_Z by done.
  replace ((0 <=? n) && (n <? 2 ^ 64)) with true; [done|]. symmetry. apply andb_true_intro. rewrite Z.leb_le, Z.ltb_lt. lia.
Qed.

(** The first character of an encoding is a digit. *)
Lemma hex_encode_head b c s : hex_encode b = String c s -> exists d, digit_value c = Some d /\ d < 16.
Proof.
  destruct b as [|x b]; [discriminate|]. rewrite hex_encode_cons. intros [= <- _]. destruct (nibbles x) as [R _].
  exists (Z_of_byte x / 16). split; [by apply hex_digit_ascii|lia].
Qed.
Lemma trim_hex b : trim_prefix "0x" (hex_encode b) = hex_encode b.
Proof.
  unfold trim_prefix. destruct (String.prefix "0x" (hex_encode b)) eqn:E; [|done].
  destruct b as [|x b]; [done|]. rewrite hex_encode_cons in E. cbn [String.prefix] in E.
  destruct (ascii_dec _ _) as [_|]; [|done]. destruct (ascii_dec _ _) as [E2|]; [|done].
  destruct (nibbles x) as [_ R]. pose proof (proj1 (hex_digit_ascii _ R)) as D. rewrite <- E2 in D.
  change (digit_value "x"%char) with (Some 33) in D. apply (inj Some) in D. lia.
Qed.
Lemma trim_app p s : trim_prefix p (p ++ s) = s.
Proof.
  unfold trim_prefix. rewrite prefix_app, string_length_app.
  replace (_ - _)%nat with (String.length s) by lia.
  pose proof (substring_middle p s "") as E. by rewrite string_app_nil_r in E.
Qed.
Lemma plain_hex_encode b : plain_hex (hex_encode b) = hex_encode b.
Proof. unfold plain_hex. rewrite trim_hex. apply hex_encode_lower. Qed.
Lemma plain_hex_0x b : plain_hex ("0x" ++ hex_encode b) = hex_encode b.
Proof. unfold plain_hex. rewrite trim_app. apply hex_encode_lower. Qed.
Lemma parse_int_hex b n :
  parse_int_digits 16 (hex_encode b) n = Some (n * 256 ^ Z.of_nat (length b) + be_value b).
Proof.
  revert n; induction b as [|x b IH]; intros n; [cbn; f_equal; lia|].
  rewrite hex_encode_cons. destruct (nibbles x) as [R1 R2]. cbn [parse_int_digits].
  rewrite (proj1 (hex_digit_ascii _ R1)), (proj1 (hex_digit_ascii _ R2)).
  replace (16 <=? Z_of_byte x / 16) with false by (symmetry; apply Z.leb_gt; lia).
  replace (16 <=? Z_of_byte x mod 16) with false by (symmetry; apply Z.leb_gt; lia).
  rewrite IH, be_value_cons. cbn [length]. rewrite pow256_succ. f_equal.
  pose proof (Z.div_mod (Z_of_byte x) 16 ltac:(lia)). set (q := Z_of_byte x / 16) in *. set (r := Z_of_byte x mod 16) in *.
  replace (Z_of_byte x) with (16 * q + r) by lia. ring.
Qed.
Lemma BigSetString_hex b : b <> [] -> BigSetString 16 (hex_encode b) = Some (be_value b).
Proof.
  intros Hb. unfold BigSetString. destruct (hex_encode b) as [|c s] eqn:E; [by destruct b|].
  destruct (hex_encode_head _ _ _ E) as (d & Ed & _).
  assert (strip_sign (String c s) = (false, String c s)) as ->.
  { cbn [strip_sign]. destruct (Z.eqb_spec (code c) 43) as [Ec|]; [unfold digit_value in Ed; rewrite Ec in Ed; done|].
    destruct (Z.eqb_spec (code c) 45) as [Ec|]; [unfold digit_value in Ed; rewrite Ec in Ed; done|done]. }
  rewrite <- E, parse_int_hex. done.
Qed.
(** The target of a difficulty, as the miners read it. *)
Lemma hex_encode_strlen b : String.length (hex_encode b) = (2 * length b)%nat.
Proof. pose proof (hex_encode_length b) as E. unfold slen in E. lia. Qed.
Lemma substring_hex b i n :
  (i + n <= length b)%nat -> substring (2 * i) (2 * n) (hex_encode b) = hex_encode (take n (drop i b)).
Proof.
  intros Hn. pose proof (substring_middle (hex_encode (take i b)) (hex_encode (take n (drop i b))) (hex_encode (drop n (drop i b)))) as E.
  rewrite <- !hex_encode_app, !hex_encode_strlen, take_drop, take_drop in E.
  rewrite !length_take, length_drop in E. replace (Nat.min i (length b)) with i in E by lia.
  by replace (Nat.min n (length b - i)) with n in E by lia.
Qed.

(** ** KHeavyHash *)

Lemma word_at_hex b i :
  (i + 8 <= length b)%nat -> Kas.word_at (hex_encode b) (2 * i) = Val (be_value (take 8 (drop i b))).
Proof.
  intros Hi. unfold Kas.word_at. rewrite hex_encode_strlen.
  replace (_ <? _)%nat with false by (symmetry; apply Nat.ltb_ge; lia).
  change 16%nat with (2 * 8)%nat. rewrite substring_hex by lia.
  assert (length (take 8 (drop i b)) = 8%nat) as L by (rewrite length_take, length_drop; lia).
  pose proof (be_value_range (take 8 (drop i b))) as R. rewrite L in R.
  rewrite <- (be_bytes_value (take 8 (drop i b))) at 1. rewrite L, ParseUint_hex by (lia || exact R). done.
Qed.

Lemma parseLargeJob_aux (h : bytes) (ts : Z) :
  length h = 32%nat -> - 2 ^ 63 <= ts < 2 ^ 63 ->
  (let! large := Kaspa.largeJobParams h ts in Kas.parseLargeJob large) = Val (h, ts).
Proof.
  intros Hh Hts. rewrite Kaspa.largeJobParams_layout by done. cbn [rbind]. unfold Kas.parseLargeJob.
  set (b := (h ++ be_bytes 8 (u64 ts))%list).
  assert (length b = 40%nat) as Hb by (subst b; rewrite length_app, be_bytes_length; lia).
  rewrite (word_at_hex b 0 ltac:(lia) : Kas.word_at (hex_encode b) 0 = _). cbn [rbind].
  rewrite (word_at_hex b 8 ltac:(lia) : Kas.word_at (hex_encode b) 16 = _). cbn [rbind].
  rewrite (word_at_hex b 16 ltac:(lia) : Kas.word_at (hex_encode b) 32 = _). cbn [rbind].
  rewrite (word_at_hex b 24 ltac:(lia) : Kas.word_at (hex_encode b) 48 = _). cbn [rbind].
  rewrite (word_at_hex b 32 ltac:(lia) : Kas.word_at (hex_encode b) 64 = _). cbn [rbind].
  assert (forall i, (i + 8 <= 40)%nat -> be_bytes 8 (be_value (take 8 (drop i b))) = take 8 (drop i b)) as W.
  { intros i Hi. assert (length (take 8 (drop i b)) = 8%nat) as L by (rewrite length_take, length_drop; lia).
    rewrite <- L at 1. by rewrite be_bytes_value. }
  rewrite !W by lia. f_equal. f_equal.
  - subst b. do 32 (destruct h as [|? h]; [discriminate Hh|]). by destruct h.
  - assert (drop 32 b = be_bytes 8 (u64 ts)) as -> by (subst b; rewrite <- Hh; apply drop_app_length).
    rewrite take_ge by (rewrite be_bytes_length; lia). rewrite be_value_bytes, (Z.mod_small (u64 ts)) by (apply wrapu_range; lia).
    unfold wraps, wrapu. rewrite Zplus_mod_idemp_l, Z.mod_small; lia.
Qed.

(** The miner's reading of a kHeavyHash job inverts the pool's writing of
    it: for a 32-byte header hash and any 64-bit timestamp, what
    [largeJobParams] sends, [parseLargeJob] reads back. *)
Theorem parseLargeJob_roundtrip (h : bytes) (ts : Z) :
  length h = 32%nat -> - 2 ^ 63 <= ts < 2 ^ 63 ->
  (let! large := Kaspa.largeJobParams h ts in Kas.parseLargeJob large) = Val (h, ts).
Proof. apply parseLargeJob_aux. Qed.
Lemma parseLargeJob_roundtrip_witness :
  (let! large := Kaspa.largeJobParams (be_bytes 32 77) (-5) in Kas.parseLargeJob large) = Val (be_bytes 32 77, -5).
Proof. apply (parseLargeJob_roundtrip (be_bytes 32 77) (-5)); [reflexivity|vm_compute; split; [discriminate|reflexivity]]. Defined.

(** ** What the pool writes *)
Definition reply_members (id : Z) (r : json) : list (string * json) := [("id", JNum (FormatInt id)); ("result", r)].
Definition notice_members (method : string) (params : list json) : list (string * json) :=
  [("id", JNull); ("method", JStr method); ("params", JArr params)].
Definition object_line (m : list (string * json)) : line := Line (Some (JObj m)).

Lemma decode_reply r : numbers_fit r = true -> decode_map (Some (JObj (reply_members 1 r))) = Some (reply_members 1 r).
Proof.
  intros Hr. unfold decode_map. assert (numbers_fit (JObj (reply_members 1 r)) = true) as ->; [|done].
  unfold reply_members. cbn [numbers_fit forallb snd]. by rewrite Hr.
Qed.
Lemma decode_notice method ps :
  numbers_fit (JArr ps) = true -> decode_map (Some (JObj (notice_members method ps))) = Some (notice_members method ps).
Proof.
  intros Hp. unfold decode_map. assert (numbers_fit (JObj (notice_members method ps)) = true) as ->; [|done].
  unfold notice_members. remember (JArr ps) as a eqn:Ea. cbn [numbers_fit forallb snd]. by rewrite Hp.
Qed.
Lemma read_reply r ls sent :
  numbers_fit r = true ->
  read_until false (has_id 1) (mkConn (object_line (reply_members 1 r) :: ls) sent) = (inl (reply_members 1 r), mkConn ls sent).
Proof.
  intros Hr. unfold read_until. cbn [arriving written object_line read_until_from]. rewrite decode_reply by done.
  assert (has_id 1 (reply_members 1 r) = true) as ->; [|done]. unfold has_id. change (at_key (reply_members 1 r) "id") with (JNum "1").
  by vm_compute.
Qed.
Lemma written_reads wanted c : written (snd (read_until false wanted c)) = written c.
Proof. unfold read_until. apply read_until_written. Qed.
(** What follows a search: a message, and the wait for its answer. *)
Lemma submit_written {A} (m : json) wanted ls sent (x : A) k :
  (forall c, k x c = (run! _ := write m in read_until false wanted) c) ->
  written (snd (tbind (returns x) k (mkConn ls sent))) = (sent ++ [m])%list.
Proof. intros Hk. unfold tbind at 1, returns. rewrite Hk. unfold tbind, write. cbn [arriving written]. apply written_reads. Qed.

(** *** The miner and the engine *)
Definition of_neither (m : list (string * json)) : bool :=
  has_method "mining.set_difficulty" m || has_method "mining.notify" m.
Lemma wait_job_skip ls d l sent :
  Forall (passed_over of_neither) ls -> Kas.wait_job (ls ++ l)%list d "" "" sent = Kas.wait_job l d "" "" sent.
Proof.
  induction 1 as [|x ls (m & -> & Hn & Hw) _ IH]; [done|]. cbn [app Kas.wait_job String.eqb negb decode_map]. rewrite Hn.
  apply orb_false_iff in Hw as [W1 W2]. change (default [] (Some m)) with m. unfold Kas.on_message. rewrite W1, W2. exact IH.
Qed.

Lemma wait_job_done ls d id large sent : id <> "" -> Kas.wait_job ls d id large sent = (inl (d, id, large), mkConn ls sent).
Proof. intros Hi. destruct ls; cbn [Kas.wait_job]; by rewrite (proj2 (String.eqb_neq _ _) Hi). Qed.
Lemma on_difficulty lit d :
  Kas.on_message (default [] (Some (notice_members "mining.set_difficulty" [JNum lit]))) d "" ""
  = Val (fst (ParseFloat lit), "", "").
Proof. reflexivity. Qed.
Lemma on_notify id large d :
  Kas.on_message (default [] (Some (notice_members "mining.notify" [JStr id; JStr large]))) d "" "" = Val (d, id, large).
Proof. reflexivity. Qed.

Section Kaspa_agreement.
Context `{MapOrder} `{Kaspad}.
Variable Compute : bytes -> Z -> Z -> option bytes.

(** powkit's function and kaspad's state agree on a job's nonces; a zero value
    has no difficulty. *)
Definition same_value (j : Kaspa.job) : Prop :=
  forall n, 0 <= n < 2 ^ 64 ->
    exists d, Compute (Kaspa.j_prePowHash j) (Kaspa.j_timestamp j) n = Some d /\
      be_value d = ProofOfWorkValue (Kaspa.j_block j) n /\ 0 < be_value d < 2 ^ 256.

Lemma kas_tried j shareDiff minDiff n :
  same_value j -> 0 <= n < 2 ^ 64 ->
  exists d, DiffFromValue Pow256 (ProofOfWorkValue (Kaspa.j_block j) n) = Val d /\
    Kas.try_nonce Compute minDiff (Kaspa.j_prePowHash j) (Kaspa.j_timestamp j) shareDiff n
    = (if fleb shareDiff d && fleb minDiff d then Found n else Next).
Proof.
  intros Hs Hn. destruct (Hs n Hn) as (dg & E & Hv & Hr). unfold Kas.try_nonce. rewrite E, <- Hv.
  unfold Kas.difficulty_of, DiffFromValue. replace (be_value dg <=? 0) with false by (symmetry; apply Z.leb_gt; lia).
  destruct (Quo_ints Pow256 (be_value dg)) as [q ->]; [unfold Pow256; lia|lia|]. cbn [rbind]. by eexists.
Qed.

(** The engine's verdict on what the miner submits. *)
Lemma kas_accepted s worker e j p en n d :
  find_job (Kaspa.j_id j) (Kaspa.book e) = Some (p, en) -> en_job en = j -> 0 <= n < 2 ^ 64 ->
  hex_encode (be_bytes 8 n) ∉ en_seen en ->
  DiffFromValue Pow256 (ProofOfWorkValue (Kaspa.j_block j) n) = Val d -> fltb d (SessionDifficulty s) = false ->
  exists sh e', Kaspa.OnSubmit s (Kas.submission worker (Kaspa.j_id j) n) e = Val (sh, e') /\ s_ErrorCode sh = 0 /\ s_Diff sh = d.
Proof.
  intros Hf Hj Hn Hs Hd Hl. unfold Kas.submission. rewrite Kaspa.hex16_bytes by done.
  unfold Kaspa.OnSubmit, Kaspa.submission.
  change ((length [JStr worker; JStr (Kaspa.j_id j); JStr (hex_encode (be_bytes 8 n))] <? 3)%nat) with false. cbv iota.
  change (str_param _ 1) with (Some (Kaspa.j_id j)). change (str_param _ 2) with (Some (hex_encode (be_bytes 8 n))).
  cbn [mbind option_bind]. rewrite plain_hex_encode, Hf, ParseUint_hex by (lia || exact Hn).
  rewrite bool_decide_false by done. rewrite Hj, Hd. cbn [rbind]. rewrite Hl.
  destruct (_ <=? _); [|by do 2 eexists]. destruct (ask _ _) as [r nd].
  destruct r as [|sy b|[]]; by do 2 eexists.
Qed.
End Kaspa_agreement.

Definition kas_first (worker : string) : list json :=
  [message_of 1 "mining.subscribe" (JArr [JStr "e2e"]); message_of 2 "mining.authorize" (JArr [JStr worker; JStr "x"])].

(** C23: the Kaspa engine takes what its miner finds.  Given the answer to the
    subscription, the session's difficulty and the notification of the engine's
    current job (each among whatever else is written), the miner reads the job
    back from its binary form and either gives up, or writes one submission,
    which the engine accepts at a difficulty no less than the session's. *)
Theorem kaspa_miner_share_accepted `{MapOrder} `{Kaspad} Compute worker minDiff s e j p en params r lit g1 g2 rest :
  current (Kaspa.book e) = Some j -> find_job (Kaspa.j_id j) (Kaspa.book e) = Some (p, en) -> en_job en = j ->
  Kaspa.j_id j <> "" -> length (Kaspa.j_prePowHash j) = 32%nat -> - 2 ^ 63 <= Kaspa.j_timestamp j < 2 ^ 63 ->
  same_value Compute j -> (forall b, hex_encode b ∉ en_seen en) ->
  Kaspa.JobParamsForDifficulty (SessionDifficulty s) e = Val (Some params) ->
  numbers_fit r = true -> ParseFloat lit = (SessionDifficulty s, None) ->
  Forall (passed_over of_neither) g1 -> Forall (passed_over of_neither) g2 ->
  let run := Kas.main Compute worker minDiff true
    (mkConn (object_line (reply_members 1 r) :: g1 ++ object_line (notice_members "mining.set_difficulty" [JNum lit]) ::
             g2 ++ object_line (notice_members "mining.notify" params) :: rest) [])%list in
  (fst run = inr Exits /\ written (snd run) = kas_first worker) \/
  (exists n sh e', written (snd run)
     = (kas_first worker ++ [message_of 4 "mining.submit" (JArr (Kas.submission worker (Kaspa.j_id j) n))])%list /\
     Kaspa.OnSubmit s (Kas.submission worker (Kaspa.j_id j) n) e = Val (sh, e') /\ s_ErrorCode sh = 0 /\
     fltb (s_Diff sh) (SessionDifficulty s) = false).
Proof.
  intros Hc Hf Hj Hid Hh Hts Hsame Hseen Hp Hr Hlit Hg1 Hg2. cbv zeta.
  assert (exists large, Kaspa.largeJobParams (Kaspa.j_prePowHash j) (Kaspa.j_timestamp j) = Val large /\
    params = [JStr (Kaspa.j_id j); JStr large] /\ Kas.parseLargeJob large = Val (Kaspa.j_prePowHash j, Kaspa.j_timestamp j))
    as (large & Hl & -> & Hparse).
  { unfold Kaspa.JobParamsForDifficulty, Kaspa.currentJob in Hp. rewrite Hc in Hp.
    pose proof (Kaspa.largeJobParams_layout _ (Kaspa.j_timestamp j) Hh) as El. rewrite El in Hp. cbn [rbind] in Hp.
    eexists. split; [exact El|]. split; [congruence|].
    pose proof (parseLargeJob_aux _ _ Hh Hts) as R. by rewrite El in R. }
  set (search_from := search (Kas.try_nonce Compute minDiff (Kaspa.j_prePowHash j) (Kaspa.j_timestamp j) (SessionDifficulty s)) 5000002 0).
  match goal with |- context [Kas.main _ _ _ _ ?c] => assert (Kas.main Compute worker minDiff true c
    = (run! nonce := searched search_from Exits in
       run! _ := Kas.send 4 "mining.submit" (Kas.submission worker (Kaspa.j_id j) nonce) in Kas.readByID 4)
        (mkConn rest (kas_first worker))) as E end.
  { unfold Kas.main.
    etransitivity; [apply tbind_inl; reflexivity|]. cbv beta. etransitivity; [apply tbind_inl; reflexivity|]. cbv beta.
    etransitivity; [apply tbind_inl, read_reply; done|]. cbv beta. etransitivity; [apply tbind_inl; reflexivity|]. cbv beta.
    etransitivity.
    { apply tbind_inl. cbn [arriving written]. rewrite wait_job_skip by done.
      cbn [Kas.wait_job String.eqb negb object_line]. rewrite decode_notice by (cbn [numbers_fit forallb]; by rewrite Hlit).
      rewrite on_difficulty, Hlit. cbn [fst]. cbv iota beta. rewrite wait_job_skip by done.
      cbn [Kas.wait_job String.eqb negb object_line]. rewrite decode_notice, on_notify by done. cbv iota beta.
      by apply wait_job_done. }
    cbv beta iota. etransitivity; [apply tbind_inl, checked_val; exact Hparse|]. cbv beta iota. reflexivity. }
  rewrite E. clear E. unfold search_from.
  match goal with |- context [search ?f _ _] => destruct (search_spec f 5000002 0) as [[-> A]|(n & Hn & -> & Hne & _)] end.
  - left. done.
  - destruct (kas_tried Compute j (SessionDifficulty s) minDiff n Hsame) as (d & Hd & E); [lia|]. rewrite E in Hne |- *.
    destruct (fleb (SessionDifficulty s) d && _) eqn:Ed; [|done]. apply andb_prop in Ed as [Ed _].
    apply fleb_not_fltb in Ed. right.
    destruct (kas_accepted s worker e j p en n d Hf Hj) as (sh & e' & Ho & Hc0 & Hdf); [lia|done..|].
    exists n, sh, e'. split; [|split; [done|split; [done|by rewrite Hdf]]]. by apply (submit_written _ (has_id 4)).
Qed.

Section Kaspa_witness.
(** Digests that are one more than the nonce *)
Definition toy_kaspad : Kaspad :=
  {| DomainBlock := Z * Z; TimeInMilliseconds := fst; Nonce := snd;
     SetTime := fun t b => (t, snd b); SetNonce := fun n b => (fst b, n); DAAScore := fun _ => 7;
     HeaderHash := fun b => be_bytes 32 (fst b + snd b); BlockHash := fun _ => "bb";
     ProofOfWorkValue := fun b n => n + 1; StateTarget := fun _ => 5 |}.
Local Existing Instance toy_kaspad.
Local Existing Instance listed_order.
Definition toy_compute (h : bytes) (ts n : Z) : option bytes := Some (be_bytes 32 (n + 1)).
Definition toy_node : Node Kaspa.request Kaspa.reply := mkNode [] (fun _ _ => Kaspa.RTemplate true (Some (1700000000123, 0))).
Definition toy_engine : Kaspa.engine := snd (Kaspa.refresh "kaspa:pool" false (Kaspa.New toy_node)).
Definition toy_entry : Entry Kaspa.job :=
  default (mkEntry (Kaspa.mkJob "" ((0, 0) : @DomainBlock toy_kaspad) [] 0) ∅) (bk_heap (Kaspa.book toy_engine) !! 0%nat).
Definition toy_session : Session := mkSession None (float_of_Z 1) "alice.rig1" "10.0.0.1:5000".
Definition toy_params : list json :=
  default [] (get None (Kaspa.JobParamsForDifficulty (float_of_Z 1) toy_engine)).
Definition toy_lines : list line :=
  (object_line (reply_members 1 (JArr [JBool true; JStr "EthereumStratum/1.0.0"])) ::
   [object_line [("id", JNum "2"); ("result", JBool true)]] ++
   object_line (notice_members "mining.set_difficulty" [JNum "1"]) ::
   [] ++ object_line (notice_members "mining.notify" toy_params) :: [object_line [("id", JNum "4"); ("result", JBool true)]])%list.
Lemma kaspa_miner_share_accepted_witness :
  let run := Kas.main toy_compute "alice.rig1" (float_of_Z 0) true (mkConn toy_lines []) in
  (fst run = inr Exits /\ written (snd run) = kas_first "alice.rig1") \/
  (exists n sh e', written (snd run)
     = (kas_first "alice.rig1" ++ [message_of 4 "mining.submit" (JArr (Kas.submission "alice.rig1" (Kaspa.j_id (en_job toy_entry)) n))])%list /\
     Kaspa.OnSubmit toy_session (Kas.submission "alice.rig1" (Kaspa.j_id (en_job toy_entry)) n) toy_engine = Val (sh, e') /\
     s_ErrorCode sh = 0 /\ fltb (s_Diff sh) (SessionDifficulty toy_session) = false).
Proof.
  apply (kaspa_miner_share_accepted toy_compute "alice.rig1" (float_of_Z 0) toy_session toy_engine (en_job toy_entry) 0%nat toy_entry
           toy_params (JArr [JBool true; JStr "EthereumStratum/1.0.0"]) "1" [object_line [("id", JNum "2"); ("result", JBool true)]] []).
  - apply current_default; vm_compute; reflexivity.
  - apply find_job_default; vm_compute; reflexivity.
  - reflexivity.
  - apply String.eqb_neq. vm_compute. reflexivity.
  - vm_compute. reflexivity.
  - vm_compute. split; [discriminate|reflexivity].
  - intros n Hn. exists (be_bytes 32 (n + 1)). split; [reflexivity|]. rewrite be_value_bytes, Z.mod_small by (cbn; lia).
    split; [reflexivity|lia].
  - assert (en_seen toy_entry = ∅) as Es by (vm_compute; reflexivity). rewrite Es. intros b Hb. by apply elem_of_empty in Hb.
  - vm_compute. reflexivity.
  - reflexivity.
  - vm_compute. reflexivity.
  - repeat constructor. eexists. split; [reflexivity|split; vm_compute; reflexivity].
  - constructor.
Defined.
End Kaspa_witness.

(** ** Ethash *)
Lemma nonce_text_hex n : 0 <= n < 2 ^ 64 -> nonce_text n = "0x" ++ hex_encode (be_bytes 8 n).
Proof. intros Hn. unfold nonce_text. by rewrite Kaspa.hex16_bytes. Qed.

Section Ethash_agreement.
Context `{EthHashes}.

(** What the engine makes of a solution below the network's target. *)
Lemma eth_accepted s e fblock c n t :
  light e = Some fblock -> cur e = Some c -> 0 <= n < 2 ^ 64 -> (headerHash c ++ "|" ++ nonce_text n) ∉ seen_keys e ->
  (forall h, 0 <= Hash_Big h < 2 ^ 256) ->
  Ethash.TargetFromDifficulty (SessionDifficulty s) = Val t -> target c <= t ->
  let '(mix, r) := Compute fblock (blockNumber c) (HexToHash (headerHash c)) n in
  Hash_Big r <= target c ->
  exists sh e', Ethash.OnSubmit s [JStr (nonce_text n); JStr (headerHash c); JStr (Hash_Hex mix)] e = Val (sh, e') /\
    s_ErrorCode sh = 0 /\
    node_log (Ethash.rpc e') = (node_log (Ethash.rpc e)
      ++ [("eth_submitWork", [JStr (nonce_text n); JStr (headerHash c); JStr (Hash_Hex mix)])])%list.
Proof.
  intros Hf Hc Hn Hs Hbig Ht Hle. destruct (Compute _ _ _ n) as [mix r] eqn:EC. intros Hr.
  unfold Ethash.OnSubmit. change (parseSubmit _) with (Some (nonce_text n, headerHash c, Hash_Hex mix)). cbv iota beta.
  rewrite Hc. unfold EqualFold. rewrite String.eqb_refl. cbn [negb].
  assert (ParseUint (trim_prefix "0x" (nonce_text n)) 16 = (n, None)) as ->
    by (rewrite nonce_text_hex, trim_app by done; apply ParseUint_hex; [lia|exact Hn]).
  rewrite bool_decide_false by done. cbv zeta. cbn [light]. rewrite Hf, EC. rewrite String.eqb_refl. cbn [negb].
  assert (exists d, DifficultyFromResult (Hash_Big r) = Val d) as [d ->].
  { unfold DifficultyFromResult, DiffFromValue. destruct (_ <=? 0); [by eexists|]. pose proof (Hbig r).
    destruct (Quo_ints Pow256 (Hash_Big r)) as [q ->]; [unfold Pow256; lia|lia|]. by eexists. }
  cbn [rbind]. rewrite Ht. cbn [rbind]. unfold MeetsTarget.
  replace (Hash_Big r <=? t) with true by (symmetry; apply Z.leb_le; lia). cbn [negb].
  replace (Hash_Big r <=? target c) with true by (symmetry; by apply Z.leb_le).
  unfold SubmitWork, eth_call, ask. cbn [Ethash.rpc].
  destruct (err_bind _ _) as [[]|]; do 2 eexists; (split; [reflexivity|by split]).
Qed.
End Ethash_agreement.

(** go-etchash, below the block its epochs double at: which block that is does not
    matter (ECIP-1099 keeps epochs of 30,000 blocks until then). *)
Definition same_epochs `{EthHashes} : Prop := forall f1 f2 block h nonce,
  block < f1 -> block < f2 -> Compute f1 block h nonce = Compute f2 block h nonce.

(** C22: the Ethash engine takes what its miner finds, as long as the two hash alike.
    The engine hashes with the activation block of ECIP-1099 it is configured with,
    the miner with 99,999,999; go-etchash gives both the same function for a block
    below both.  At such a block, and started on the package the engine works on,
    the miner either gives up without a message, and then none of the first
    5,000,001 nonces has the network's target; or it logs in and submits one
    solution, which the engine accepts, provided its network target is no easier
    than that of the session, and passes on to the node. *)
Theorem ethash_miner_share_accepted `{EthHashes} login s e fblock c t body seed r rest :
  same_epochs -> light e = Some fblock -> blockNumber c < fblock -> blockNumber c < Eth.ecip ->
  cur e = Some c -> (forall n, (headerHash c ++ "|" ++ n) ∉ seen_keys e) -> (forall h, 0 <= Hash_Big h < 2 ^ 256) ->
  Ethash.TargetFromDifficulty (SessionDifficulty s) = Val t -> target c <= t ->
  (forall k, Eth.getWork body k = (inl (headerHash c, seed, Some (target c), blockNumber c), k)) ->
  14 <= slen (headerHash c) -> 12 <= slen (Text16 (target c)) -> numbers_fit r = true ->
  let run := Eth.main login (Some body) true (mkConn (object_line (reply_members 1 r) :: rest) []) in
  (run = (inr Exits, mkConn (object_line (reply_members 1 r) :: rest) []) /\
   forall n, 0 <= n <= 5000000 ->
     target c < Hash_Big (snd (Compute fblock (blockNumber c) (HexToHash (headerHash c)) n))) \/
  (exists n mix sh e', let ps := [JStr (nonce_text n); JStr (headerHash c); JStr (Hash_Hex mix)] in
     written (snd run) = [message_of 1 "eth_submitLogin" (JArr [JStr login; JStr "x"]); message_of 4 "eth_submitWork" (JArr ps)] /\
     Ethash.OnSubmit s ps e = Val (sh, e') /\ s_ErrorCode sh = 0 /\
     node_log (Ethash.rpc e') = (node_log (Ethash.rpc e) ++ [("eth_submitWork", ps)])%list).
Proof.
  intros Hsame Hf Hb1 Hb2 Hc Hs Hbig Ht Hle Hw H14 H12 Hr. cbv zeta. unfold Eth.main.
  match goal with |- context [tbind (Eth.rpc _) ?k ?c] => assert (tbind (Eth.rpc (Some body)) k c = k body c) as -> by done end.
  cbv beta. erewrite tbind_inl by apply Hw. cbv beta iota.
  assert (Eth.printed (headerHash c) (Some (target c)) = Val (target c)) as Hp.
  { unfold Eth.printed, prefix_of, slen in *.
    replace (_ <? 14)%nat with false by (symmetry; apply Nat.ltb_ge; lia). cbn [rbind].
    by replace (_ <? 12)%nat with false by (symmetry; apply Nat.ltb_ge; lia). }
  erewrite tbind_inl by (apply checked_val; exact Hp). cbv beta zeta.
  match goal with |- context [search ?f _ _] => destruct (search_spec f 5000001 0) as [[-> A]|(n & Hn & -> & Hne & _)] end.
  - left. split; [done|]. intros n Hn. specialize (A n). unfold Eth.try_nonce in A.
    rewrite (Hsame Eth.ecip fblock) in A by done. destruct (Compute fblock _ _ n) as [mix res]. cbn [snd].
    destruct (Z.leb_spec (Hash_Big res) (target c)) as [L|L]; [|done]. discriminate A. lia.
  - right. unfold Eth.try_nonce in Hne |- *. rewrite (Hsame Eth.ecip fblock) in Hne |- * by done.
    pose proof (eth_accepted s e fblock c n t Hf Hc ltac:(lia) (Hs _) Hbig Ht Hle) as Acc.
    destruct (Compute fblock (blockNumber c) (HexToHash (headerHash c)) n) as [mix res].
    destruct (Z.leb_spec (Hash_Big res) (target c)) as [L|]; [|done].
    destruct (Acc L) as (sh & e' & Ho & H0 & Hlog). exists n, mix, sh, e'. cbv zeta. split; [|done].
    erewrite tbind_inl by reflexivity. cbv beta iota. erewrite tbind_inl by reflexivity. cbv beta.
    erewrite tbind_inl by reflexivity. cbv beta. cbn [arriving written app].
    erewrite tbind_inl by (apply read_reply; done). cbv beta.
    apply (submit_written _ (has_id 4) rest [message_of 1 "eth_submitLogin" (JArr [JStr login; JStr "x"])] tt
             (fun _ => run! _ := write _ in read_until false (has_id 4))). done.
Qed.

Section Ethash_witness.
(** Digests that depend on the epoch length at a block, results that are the nonce *)
Definition toy_hashes : EthHashes :=
  {| Hash := bytes; HexToHash := fun s => fst (hex_decode (trim_prefix "0x" s)); Hash_Hex := fun h => "0x" ++ hex_encode h;
     Hash_Big := fun h => be_value h mod 2 ^ 256; 
     Compute := fun fblock block _ n => (be_bytes 32 (block / (if block <? fblock then 30000 else 60000)), be_bytes 32 n) |}.
Local Existing Instance toy_hashes.
Definition toy_package : json := JArr [JStr Ethash.sample_header; JStr "0xaa"; JStr ("0x" ++ hex_encode (be_bytes 32 (2 ^ 200))); JStr "0xb00000"].
Definition toy_body : option json := Some (JObj [("jsonrpc", JStr "2.0"); ("id", JNum "1"); ("result", toy_package)]).
Definition toy_eth : Ethash.engine := snd (Ethash.RefreshWork (Ethash.with_light 11700000 (Ethash.New (mkNode [] (fun _ _ => toy_body))))).
Definition toy_work : Ethash.work := default (Ethash.mkWork "" "" "" 0 0) (cur toy_eth).
Lemma ethash_miner_share_accepted_witness :
  let run := Eth.main "0x01" (Some toy_body) true (mkConn [object_line (reply_members 1 (JBool true))] []) in
  (run = (inr Exits, mkConn [object_line (reply_members 1 (JBool true))] []) /\
   forall n, 0 <= n <= 5000000 ->
     target toy_work < Hash_Big (snd (Compute 11700000 (blockNumber toy_work) (HexToHash (headerHash toy_work)) n))) \/
  (exists n mix sh e', let ps := [JStr (nonce_text n); JStr (headerHash toy_work); JStr (Hash_Hex mix)] in
     written (snd run) = [message_of 1 "eth_submitLogin" (JArr [JStr "0x01"; JStr "x"]); message_of 4 "eth_submitWork" (JArr ps)] /\
     Ethash.OnSubmit toy_session ps toy_eth = Val (sh, e') /\ s_ErrorCode sh = 0 /\
     node_log (Ethash.rpc e') = (node_log (Ethash.rpc toy_eth) ++ [("eth_submitWork", ps)])%list).
Proof.
  apply (ethash_miner_share_accepted "0x01" toy_session toy_eth 11700000 toy_work (2 ^ 256) toy_body "0xaa" (JBool true) []).
  - intros f1 f2 b h n H1 H2. apply Z.ltb_lt in H1, H2. unfold Compute, toy_hashes. by rewrite H1, H2.
  - vm_compute. reflexivity.
  - vm_compute. reflexivity.
  - vm_compute. reflexivity.
  - vm_compute. reflexivity.
  - intros n. assert (seen_keys toy_eth = ∅) as -> by (vm_compute; reflexivity). apply not_elem_of_empty.
  - intros h. apply Z.mod_pos_bound. lia.
  - vm_compute. reflexivity.
  - vm_compute. discriminate.
  - intros k. apply pair_equal_spec. split; [vm_compute; reflexivity|reflexivity].
  - vm_compute. discriminate.
  - vm_compute. discriminate.
  - reflexivity.
Defined.
(** From the activation block on the two hashers differ: with epochs that double
    at block 11,700,000 for the engine and at 99,999,999 for the miner, the
    solution the miner submits is refused for its mix digest. *)
Definition late_package : json := JArr [JStr Ethash.sample_header; JStr "0xaa"; JStr ("0x" ++ hex_encode (be_bytes 32 (2 ^ 200))); JStr "0xb28a00"].
Definition late_body : option json := Some (JObj [("jsonrpc", JStr "2.0"); ("id", JNum "1"); ("result", late_package)]).
Definition late_eth : Ethash.engine := snd (Ethash.RefreshWork (Ethash.with_light 11700000 (Ethash.New (mkNode [] (fun _ _ => late_body))))).
Theorem etc_miner_refused :
  let block := 0xb28a00 in
  let mix := fst (Compute Eth.ecip block (HexToHash Ethash.sample_header) 0) in
  Eth.try_nonce block (HexToHash Ethash.sample_header) (2 ^ 200) 0 = Found (0, mix) /\
  s_ErrorCode (get (new_share toy_session) (rbind (Ethash.OnSubmit toy_session
    [JStr (nonce_text 0); JStr Ethash.sample_header; JStr (Hash_Hex mix)] late_eth) (fun r => Val (fst r)))) = ErrIncorrectNonceSize.
Proof. vm_compute. split; reflexivity. Qed.
End Ethash_witness.

(** ** RandomX *)
Lemma reverse_rev b : Xmr.reverse b = rev b.
Proof.
  unfold Xmr.reverse. apply nth_ext with x00 x00; [by rewrite length_map, length_seq, length_rev|].
  intros i Hi. rewrite length_map, length_seq in Hi. rewrite rev_nth by done.
  erewrite nth_indep by (rewrite length_map, length_seq; exact Hi).
  rewrite (map_nth (fun i => nth (length b - 1 - i) b x00) (seq 0 (length b)) 0%nat), seq_nth by done. f_equal. lia.
Qed.
Lemma put_nonce_with b off n : CryptonoteBlob.withNonce b off (le_bytes 4 n) = Xmr.put_nonce b off n.
Proof.
  unfold CryptonoteBlob.withNonce, Xmr.put_nonce, slice.
  destruct (off <? 0) eqn:Eo; [done|]. cbn [orb]. zbool.
  replace (off + 4 <? off) with false by (symmetry; apply Z.ltb_ge; lia). cbn [orb].
  destruct (Z.of_nat (length b) <? off + 4) eqn:El; [done|]. zbool. cbn [rbind].
  rewrite (take_ge (le_bytes 4 n)) by (rewrite le_bytes_length; lia). rewrite le_bytes_length.
  rewrite (drop_ge (take _ _)) by (rewrite length_take; lia). by rewrite app_nil_l.
Qed.

Section RandomX_agreement.
Context `{Platform}.
Variable Hash : bytes -> bytes -> option bytes.

(** The hash of every input is of 32 bytes and not zero. *)
Definition hashes_all (seed : bytes) : Prop :=
  forall input, exists h, Hash seed input = Some h /\ length h = 32%nat /\ 0 < le_value h.

Lemma put_nonce_in b off n :
  0 <= off -> off + 4 <= Z.of_nat (length b) -> exists b', Xmr.put_nonce b off n = Val b'.
Proof.
  intros H0 H4. unfold Xmr.put_nonce. replace (off <? 0) with false by (symmetry; apply Z.ltb_ge; lia).
  replace (_ <? off + 4) with false by (symmetry; apply Z.ltb_ge; lia). by eexists.
Qed.

(** A solution: the hash of the input with the nonce has the flag's difficulty. *)
Lemma xmr_tried w off netDiff n :
  hashes_all (Xmr.w_seed w) -> 0 <= off -> off + 4 <= Z.of_nat (length (Xmr.w_blob w)) -> 0 <= netDiff < 2 ^ 53 ->
  exists input h d, Xmr.put_nonce (Xmr.w_blob w) off n = Val input /\ Hash (Xmr.w_seed w) input = Some h /\ length h = 32%nat /\
    DiffFromValue Pow256 (le_value h) = Val d /\ nonneg d /\
    (Xmr.try_nonce Hash off netDiff w n = Next /\ uint64_of_float d < netDiff \/
     Xmr.try_nonce Hash off netDiff w n = Found (n, h) /\ fleb (float_of_Z netDiff) d = true).
Proof.
  intros Hh H0 H4 Hd. destruct (put_nonce_in (Xmr.w_blob w) off n H0 H4) as [input Ei].
  destruct (Hh input) as (h & Eh & Hl & Hv). pose proof (le_value_range h) as R. rewrite Hl in R.
  destruct (Quo_positive Pow256 (le_value h)) as (q & Eq & Nq); [unfold Pow256; lia|split; [done|]|].
  { eapply Z.lt_le_trans; [apply R|]. done. }
  exists input, h, (Float64 q). split_and!; try done.
  - unfold DiffFromValue. replace (le_value h <=? 0) with false by (symmetry; apply Z.leb_gt; lia). by rewrite Eq.
  - unfold Xmr.try_nonce. rewrite Ei. cbn [rbind]. rewrite Eh. unfold be_value. rewrite reverse_rev, rev_involutive, Eq.
    cbn [rbind tried_result]. destruct (Z.leb_spec netDiff (uint64_of_float (Float64 q))) as [L|L]; [right|by left].
    split; [done|]. by apply uint64_reaches.
Qed.

Lemma xmr_accepted s e j p en w netDiff n input h d :
  find_job (Cryptonote.j_id j) (Cryptonote.book e) = Some (p, en) -> en_job en = j ->
  Xmr.w_job w = Cryptonote.j_id j -> hex_encode (le_bytes 4 n) ∉ en_seen en ->
  Xmr.put_nonce (Cryptonote.j_hashing j) (Cryptonote.j_nonceOff j) n = Val input ->
  Hash (Cryptonote.j_seed j) input = Some h -> length h = 32%nat -> DiffFromValue Pow256 (le_value h) = Val d ->
  nonneg d -> 0 <= netDiff < 2 ^ 53 -> fleb (float_of_Z netDiff) d = true ->
  nonneg (SessionDifficulty s) -> fleb (SessionDifficulty s) (float_of_Z netDiff) = true ->
  0 <= Cryptonote.j_nonceOff j -> Cryptonote.j_nonceOff j + 4 <= Z.of_nat (length (Cryptonote.j_blob j)) ->
  exists sh e', Cryptonote.OnSubmit Hash s [Xmr.submission w n h] e = Val (sh, e') /\ s_ErrorCode sh = 0 /\ s_Diff sh = d.
Proof.
  intros Hf Hj Hw Hs Hi Hh Hl Hd Nd Hn Hle Ns Hses Ho Ho4. unfold Cryptonote.OnSubmit.
  assert (Cryptonote.submission [Xmr.submission w n h]
    = Some (Xmr.w_job w, plain_hex (hex_encode (le_bytes 4 n)), to_lower (hex_encode h))) as -> by reflexivity.
  rewrite Hw, Hf, plain_hex_encode, hex_encode_lower, Hj. cbv zeta. rewrite hex_decode_encode, le_bytes_length, hex_encode_length, Hl.
  change (2 * Z.of_nat 32 =? 64) with true. cbn [negb orb Nat.eqb]. rewrite bool_decide_false by done.
  rewrite put_nonce_with, Hi. cbn [rbind]. rewrite Hh, String.eqb_refl. cbn [negb].
  rewrite ReverseBytes_rev. unfold be_value. rewrite rev_involutive, Hd. cbn [rbind].
  destruct (float_of_Z_exact netDiff Hn) as [Nn _].
  rewrite (fltb_of_le d (float_of_Z netDiff)) by done.
  destruct (_ && _); [|by do 2 eexists]. rewrite put_nonce_with.
  destruct (put_nonce_in (Cryptonote.j_blob j) (Cryptonote.j_nonceOff j) n Ho Ho4) as [b ->]. cbn [rbind].
  destruct (Cryptonote.rpc_SubmitBlock _ _) as [[r|m] nd]; by do 2 eexists.
Qed.
End RandomX_agreement.

Definition xmr_login (login : string) : json :=
  JObj [("id", JNum "1"); ("jsonrpc", JStr "2.0"); ("method", JStr "login");
        ("params", JObj [("agent", JStr "e2e/1.0"); ("login", JStr login); ("pass", JStr "x")])].
(** C20: the CryptoNote engine takes what its miner finds.  On the engine's answer
    to the login, with the offset of the job's nonce and a difficulty no less than
    the session's, and for a RandomX hash that is defined, of 32 bytes and not zero
    on every input: the miner submits one nonce, which the engine accepts at a
    difficulty no less than the session's; or it searches for ever, and then the
    hash with every one of the 2^32 nonces is below the miner's difficulty. *)
Theorem cryptonote_miner_share_accepted `{Platform} Hash login netDiff s ps e e0 j p en obj x y rest :
  Cryptonote.currentJob e = Some j -> find_job (Cryptonote.j_id j) (Cryptonote.book e) = Some (p, en) -> en_job en = j ->
  Cryptonote.OnSubscribe s ps e = Val ((obj, x, y), e0) -> 0 <= Cryptonote.j_height j < 2 ^ 63 ->
  hashes_all Hash (Cryptonote.j_seed j) -> (forall b, hex_encode b ∉ en_seen en) ->
  let off := Cryptonote.j_nonceOff j in
  0 <= off -> off + 4 <= Z.of_nat (length (Cryptonote.j_hashing j)) -> off + 4 <= Z.of_nat (length (Cryptonote.j_blob j)) ->
  0 <= netDiff < 2 ^ 53 -> nonneg (SessionDifficulty s) -> fleb (SessionDifficulty s) (float_of_Z netDiff) = true ->
  let run := Xmr.main Hash (fun _ => true) login off netDiff true (mkConn (object_line (reply_members 1 obj) :: rest) []) in
  (fst run = inr Searches /\ written (snd run) = [xmr_login login] /\
   forall n, 0 <= n < 2 ^ 32 -> exists input h d,
     Xmr.put_nonce (Cryptonote.j_hashing j) off n = Val input /\ Hash (Cryptonote.j_seed j) input = Some h /\
     DiffFromValue Pow256 (le_value h) = Val d /\ uint64_of_float d < netDiff) \/
  (exists n h w sh e',
     written (snd run) = [xmr_login login; JObj [("id", JNum "2"); ("jsonrpc", JStr "2.0"); ("method", JStr "submit");
                                               ("params", Xmr.submission w n h)]] /\
     Cryptonote.OnSubmit Hash s [Xmr.submission w n h] e = Val (sh, e') /\ s_ErrorCode sh = 0 /\
     fltb (s_Diff sh) (SessionDifficulty s) = false).
Proof.
  intros Hc Hf Hj Hsub Hht Hh Hseen. cbv zeta. intros Ho Ho1 Ho2 Hd Ns Hses.
  set (w := Xmr.mkWork "1" (Cryptonote.j_id j) (Cryptonote.j_hashing j) (Cryptonote.j_seed j)).
  assert (numbers_fit obj = true /\ Xmr.read_login (reply_members 1 obj) = Val w) as [Hfit Hlogin].
  { unfold Cryptonote.OnSubscribe, Cryptonote.jobObject in Hsub. rewrite Hc in Hsub.
    destruct (Cryptonote.targetHex _) as [tg|]; cbn [rbind] in Hsub; [|done].
    change (default JNull (Some ?a)) with a in Hsub. apply Val_inj in Hsub. injection Hsub as <- _ _ _. split.
    - cbn [numbers_fit forallb snd]. unfold FormatInt. replace (_ <? 0) with false by (symmetry; apply Z.ltb_ge; lia).
      rewrite ParseFloat_FormatUint by lia. done.
    - unfold Xmr.read_login.
      change (at_key (reply_members 1 ?o) "result") with o. cbn [the_object rbind].
      match goal with |- context [at_key ?m "job"] => change (at_key m "job") with (snd (nth 1 m ("", JNull))) end.
      cbn [nth snd the_object rbind].
      match goal with |- context [at_key ?m "job_id"] =>
        change (at_key m "job_id") with (JStr (Cryptonote.j_id j));
        change (at_key m "blob") with (JStr (hex_encode (Cryptonote.j_hashing j)));
        change (at_key m "seed_hash") with (JStr (hex_encode (Cryptonote.j_seed j))) end.
      cbn [the_string rbind]. by rewrite !hex_decode_encode. }
  unfold Xmr.main.
  erewrite tbind_inl by reflexivity. cbv beta. erewrite tbind_inl by reflexivity. cbv beta. cbn [arriving written app].
  erewrite tbind_inl by (apply read_reply; done). cbv beta.
  erewrite tbind_inl by (apply checked_val; exact Hlogin). cbv beta.
  erewrite tbind_inl by reflexivity. cbv beta.
  match goal with |- context [search ?f _ _] => destruct (search_spec f (2 ^ 32) 0) as [[-> A]|(n & Hn & -> & Hne & _)] end.
  - left. split; [done|]. split; [done|]. intros n Hn.
    destruct (xmr_tried Hash w (Cryptonote.j_nonceOff j) netDiff n Hh Ho Ho1 Hd)
      as (input & h & d & Hi & Hhash & _ & Hdiff & _ & [[_ Hlt]|[E _]]); [by exists input, h, d|].
    specialize (A n Hn). by rewrite E in A.
  - right. destruct (xmr_tried Hash w (Cryptonote.j_nonceOff j) netDiff n Hh Ho Ho1 Hd)
      as (input & h & d & Hi & Hhash & Hl & Hdiff & Nd & [[E _]|[E Hle]]); [by rewrite E in Hne|]. rewrite E.
    destruct (xmr_accepted Hash s e j p en w netDiff n input h d) as (sh & e' & Hs & Hc0 & Hdf); try done.
    exists n, h, w, sh, e'. split; [|split; [done|split; [done|rewrite Hdf]]].
    + by apply (submit_written _ (has_id 2) rest [xmr_login login]).
    + destruct (float_of_Z_exact netDiff Hd) as [Nn _]. by apply (fltb_of_le d (float_of_Z netDiff)).
Qed.

Section RandomX_witness.
(** Hashes that are one more than the first bytes of their input *)
Definition toy_randomx (seed input : bytes) : option bytes := Some (le_bytes 32 (1 + le_value (take 8 (drop 30 input)) mod 2 ^ 64)).
Definition toy_xmr_entry : Entry Cryptonote.job :=
  default (mkEntry (Cryptonote.mkJob "" [] [] 0 [] 0 0 "") ∅) (bk_heap (Cryptonote.book Cryptonote.engine1) !! 0%nat).
Definition toy_xmr_job : Cryptonote.job := en_job toy_xmr_entry.
Definition toy_login : json := get JNull (rbind (Cryptonote.OnSubscribe toy_session [] Cryptonote.engine1) (fun r => Val (fst (fst (fst r))))).
Lemma cryptonote_miner_share_accepted_witness :
  let run := @Xmr.main amd64 toy_randomx (fun _ => true) "wallet" (Cryptonote.j_nonceOff toy_xmr_job) 2 true
    (mkConn (object_line (reply_members 1 toy_login) :: []) []) in
  (fst run = inr Searches /\ written (snd run) = [xmr_login "wallet"] /\
   forall n, 0 <= n < 2 ^ 32 -> exists input h d,
     Xmr.put_nonce (Cryptonote.j_hashing toy_xmr_job) (Cryptonote.j_nonceOff toy_xmr_job) n = Val input /\
     toy_randomx (Cryptonote.j_seed toy_xmr_job) input = Some h /\
     DiffFromValue Pow256 (le_value h) = Val d /\ @uint64_of_float amd64 d < 2) \/
  (exists n h w sh e',
     written (snd run) = [xmr_login "wallet"; JObj [("id", JNum "2"); ("jsonrpc", JStr "2.0"); ("method", JStr "submit");
                                                  ("params", Xmr.submission w n h)]] /\
     Cryptonote.OnSubmit toy_randomx toy_session [Xmr.submission w n h] Cryptonote.engine1 = Val (sh, e') /\ s_ErrorCode sh = 0 /\
     fltb (s_Diff sh) (SessionDifficulty toy_session) = false).
Proof.
  apply (@cryptonote_miner_share_accepted amd64 toy_randomx "wallet" 2 toy_session [] Cryptonote.engine1 Cryptonote.engine1
           toy_xmr_job 0%nat toy_xmr_entry toy_login None 0 []).
  - vm_compute. reflexivity.
  - apply find_job_default; vm_compute; reflexivity.
  - reflexivity.
  - vm_compute. reflexivity.
  - vm_compute. split; [discriminate|reflexivity].
  - intros input. eexists. split; [reflexivity|]. split; [apply le_bytes_length|].
    rewrite le_value_bytes. pose proof (Z.mod_pos_bound (le_value (take 8 (drop 30 input))) (2 ^ 64) ltac:(lia)).
    rewrite Z.mod_small by (change (256 ^ Z.of_nat 32) with (2 ^ 256); lia). lia.
  - assert (en_seen toy_xmr_entry = ∅) as Es by (vm_compute; reflexivity). rewrite Es. intros b. apply not_elem_of_empty.
  - vm_compute. discriminate.
  - vm_compute. discriminate.
  - vm_compute. discriminate.
  - split; [discriminate|reflexivity].
  - repeat split.
  - vm_compute. reflexivity.
Defined.
End RandomX_witness.

(** ** KawPow *)
Lemma lor_prefix a i : 0 <= a < 2 ^ 16 -> 0 <= i < 2 ^ 48 -> Z.lor (u64 (Z.shiftl a 48)) i = a * 2 ^ 48 + i.
Proof.
  intros Ha Hi. assert (Z.land (Z.shiftl a 48) i = 0) as L.
  { apply Z.bits_inj'. intros k Hk. rewrite Z.land_spec, Z.bits_0. destruct (Z.ltb_spec k 48); [by rewrite Z.shiftl_spec_low|].
    destruct (Z.eq_dec i 0) as [->|]; [by rewrite Z.bits_0, andb_false_r|].
    rewrite (Z.bits_above_log2 i), andb_false_r; [done|lia|]. apply Z.log2_lt_pow2; [lia|].
    apply Z.lt_le_trans with (2 ^ 48); [lia|apply Z.pow_le_mono_r; lia]. }
  pose proof (Z.add_lor_land (Z.shiftl a 48) i) as E. rewrite L in E.
  rewrite Z.shiftl_mul_pow2 in * by lia. rewrite wrapu_small by lia. lia.
Qed.
Lemma be_bytes_split a i :
  length a = 2%nat -> 0 <= i < 2 ^ 48 -> be_bytes 8 (be_value a * 2 ^ 48 + i) = (a ++ be_bytes 6 i)%list.
Proof.
  intros Ha Hi. rewrite <- (be_bytes_value (a ++ be_bytes 6 i)%list), length_app, be_bytes_length, Ha. f_equal.
  unfold be_value at 2. rewrite rev_app_distr, le_value_app, length_rev, be_bytes_length.
  change (le_value (rev (be_bytes 6 i))) with (be_value (be_bytes 6 i)). rewrite be_value_bytes, Z.mod_small by (cbn; lia).
  change (le_value (rev a)) with (be_value a). change (256 ^ Z.of_nat 6) with (2 ^ 48). lia.
Qed.

Section KawPow_agreement.
Context `{Platform}.
Variable ValidURL : string -> bool.
Variable dm : Daemons.DaemonManager.
Variable request_id : Daemons.network -> Z.
Variable Compute : bytes -> Z -> Z -> option (bytes * bytes).

Lemma kawpow_accepted s worker e j p en w en1 i mix digest t :
  find_job (Kawpow.j_id j) (Kawpow.book e) = Some (p, en) -> en_job en = j ->
  Rvn.w_job w = Kawpow.j_id j -> Rvn.w_header w = Kawpow.j_headerHash j ->
  ExtraNonce1 s = Some en1 -> length en1 = 2%nat -> 0 <= i < 2 ^ 48 ->
  let nonce := be_value en1 * 2 ^ 48 + i in
  hex_encode (be_bytes 8 nonce) ∉ en_seen en ->
  Compute (Kawpow.j_headerHash j) (Kawpow.j_height j) nonce = Some (mix, digest) -> length digest = 32%nat ->
  share_target diff1 (SessionDifficulty s) = Val t -> be_value digest <= t ->
  exists sh e', s_ErrorCode sh = 0 /\
    Kawpow.OnSubmit ValidURL dm request_id Compute s (Rvn.submission worker w nonce mix) e
    = (if be_value digest <=? Jobs.Target (Kawpow.j_inner j)
       then Kawpow.submit_found ValidURL dm request_id nonce mix digest j sh e' else Val (sh, e')).
Proof.
  intros Hf Hj Hw1 Hw2 He1 Hl1 Hi nonce Hs Hc Hd Ht Hle.
  pose proof (be_value_range en1) as R1. rewrite Hl1 in R1. change (256 ^ Z.of_nat 2) with (2 ^ 16) in R1.
  assert (0 <= nonce < 2 ^ 64) as Hn by (subst nonce; lia).
  unfold Kawpow.OnSubmit.
  assert (Kawpow.submission (Rvn.submission worker w nonce mix) = Some (Rvn.w_job w, plain_hex (nonce_text nonce),
            plain_hex ("0x" ++ hex_encode (Rvn.w_header w)), plain_hex ("0x" ++ hex_encode mix))) as -> by reflexivity.
  cbv iota beta. rewrite nonce_text_hex, !plain_hex_0x, Hw1, Hw2, Hf, Hj by done. cbv zeta.
  rewrite String.eqb_refl. cbn [negb]. rewrite hex_encode_length, be_bytes_length.
  change (2 * Z.of_nat 8 =? 16) with true. cbn [negb].
  assert (outside_prefix s (hex_encode (be_bytes 8 nonce)) = false) as ->.
  { unfold outside_prefix. rewrite He1. destruct en1 as [|b en1]; [done|]. apply negb_false_iff. unfold HasPrefix.
    subst nonce. rewrite be_bytes_split, hex_encode_app by done. apply prefix_app. }
  rewrite ParseUint_hex by (lia || exact Hn). rewrite bool_decide_false by done. rewrite Hc, String.eqb_refl. cbn [negb].
  assert (exists d, DiffFromValue diff1 (be_value digest) = Val d) as [d ->].
  { unfold DiffFromValue. destruct (_ <=? 0); [by eexists|]. pose proof (be_value_range digest) as R. rewrite Hd in R.
    destruct (Quo_ints diff1 (be_value digest)) as [q ->]; [by vm_compute|split; [apply R|]|by eexists].
    eapply Z.lt_le_trans; [apply R|done]. }
  cbn [rbind]. rewrite Ht. cbn [rbind]. replace (t <? be_value digest) with false by (symmetry; apply Z.ltb_ge; lia).
  do 2 eexists. split; [|reflexivity]. done.
Qed.
End KawPow_agreement.

Lemma be_uint16_bytes b : length b = 2%nat -> Rvn.be_uint16 b = Val (be_value b).
Proof. intros Hb. unfold Rvn.be_uint16. rewrite Hb. cbn [Nat.ltb Nat.leb]. by rewrite take_ge by lia. Qed.
(** The miner's reading of a notification. *)
Lemma rvn_read_notify `{Platform} s e j params t :
  Kawpow.currentJob e = Some j -> Kawpow.JobParamsForDifficulty (SessionDifficulty s) e = Val (Some params) ->
  length (Kawpow.j_headerHash j) = 32%nat -> 0 <= Kawpow.j_height j < 2 ^ 53 ->
  share_target diff1 (SessionDifficulty s) = Val t -> 0 < t < 2 ^ 256 ->
  numbers_fit (JArr params) = true /\
  Rvn.read_notify params = Val (Rvn.mkWork (Kawpow.j_id j) (Kawpow.j_headerHash j) (Kawpow.j_height j) t).
Proof.
  intros Hc Hp Hl Hh Ht Hr. unfold Kawpow.JobParamsForDifficulty in Hp. rewrite Hc, Ht in Hp. cbn [rbind] in Hp.
  apply Val_inj, (inj Some) in Hp as <-. rewrite TargetHex_bytes by lia. split.
  - cbn [numbers_fit forallb]. rewrite ParseFloat_FormatUint by lia. done.
  - unfold Rvn.read_notify, element. cbn [lookup list_lookup rbind the_string Rvn.toF].
    rewrite !trim_hex, hex_decode_encode, ParseFloat_FormatUint by lia. cbn [fst].
    rewrite uint64_float_of_Z by done. rewrite BigSetString_hex by (intros E; by apply (f_equal length) in E).
    rewrite be_value_bytes, Z.mod_small by (change (256 ^ Z.of_nat 32) with (2 ^ 256); lia).
    replace (t =? 0) with false by (symmetry; apply Z.eqb_neq; lia). cbn [rbind].
    unfold prefix_of. rewrite hex_encode_strlen, Hl. done.
Qed.

Definition rvn_first (worker : string) : list json :=
  [message_of 1 "mining.subscribe" (JArr [JStr "e2e"]); message_of 2 "mining.authorize" (JArr [JStr worker; JStr "x"])].
(** C21: the KawPow engine takes what its miner finds.  Given the session's
    extranonce and the notification of the engine's current job at the session's
    difficulty, the miner either gives up, or submits one nonce under that
    extranonce with its mix; the engine takes it for a share without error, and
    when its digest reaches the network's target goes on to submit the block of
    exactly that nonce and mix. *)
Theorem kawpow_miner_share_accepted `{Platform} ValidURL dm request_id Compute worker s e j p en params en1 t greetings rest :
  Kawpow.currentJob e = Some j -> find_job (Kawpow.j_id j) (Kawpow.book e) = Some (p, en) -> en_job en = j ->
  Kawpow.JobParamsForDifficulty (SessionDifficulty s) e = Val (Some params) ->
  length (Kawpow.j_headerHash j) = 32%nat -> 0 <= Kawpow.j_height j < 2 ^ 53 ->
  share_target diff1 (SessionDifficulty s) = Val t -> 0 < t < 2 ^ 256 ->
  ExtraNonce1 s = Some en1 -> length en1 = 2%nat -> (forall b, hex_encode b ∉ en_seen en) ->
  (forall n mix digest, Compute (Kawpow.j_headerHash j) (Kawpow.j_height j) n = Some (mix, digest) -> length digest = 32%nat) ->
  Forall (passed_over (has_method "mining.notify")) greetings ->
  let run := Rvn.main Compute worker true
    (mkConn (object_line (reply_members 1 (JArr [JNull; JStr (hex_encode en1)])) :: greetings ++
             object_line (notice_members "mining.notify" params) :: rest) [])%list in
  (fst run = inr Exits /\ written (snd run) = rvn_first worker) \/
  (exists nonce mix digest w sh e',
     written (snd run) = (rvn_first worker ++ [message_of 4 "mining.submit" (JArr (Rvn.submission worker w nonce mix))])%list /\
     Compute (Kawpow.j_headerHash j) (Kawpow.j_height j) nonce = Some (mix, digest) /\ s_ErrorCode sh = 0 /\
     Kawpow.OnSubmit ValidURL dm request_id Compute s (Rvn.submission worker w nonce mix) e
     = (if be_value digest <=? Jobs.Target (Kawpow.j_inner j)
        then Kawpow.submit_found ValidURL dm request_id nonce mix digest j sh e' else Val (sh, e'))).
Proof.
  intros Hc Hf Hj Hp Hl Hh Ht Hr He1 Hl1 Hseen Hdg Hg. cbv zeta.
  destruct (rvn_read_notify s e j params t Hc Hp Hl Hh Ht Hr) as [Hfit Hread].
  set (w := Rvn.mkWork (Kawpow.j_id j) (Kawpow.j_headerHash j) (Kawpow.j_height j) t) in *.
  unfold Rvn.main.
  erewrite tbind_inl by reflexivity. cbv beta. erewrite tbind_inl by reflexivity. cbv beta. cbn [arriving written app].
  erewrite tbind_inl by (apply read_reply; reflexivity). cbv beta.
  erewrite tbind_inl by (apply checked_val; reflexivity). cbv beta.
  erewrite tbind_inl by (apply checked_val; reflexivity). cbv beta zeta.
  erewrite tbind_inl by reflexivity. cbv beta. cbn [arriving written app].
  erewrite tbind_inl.
  2:{ unfold read_until. cbn [arriving written]. rewrite read_until_skip by done. cbn [read_until_from object_line].
      rewrite decode_notice by done. reflexivity. }
  cbv beta.
  erewrite tbind_inl by (apply checked_val; reflexivity). cbv beta.
  erewrite tbind_inl by (apply checked_val; exact Hread). cbv beta.
  rewrite hex_decode_encode. cbn [fst].
  erewrite tbind_inl by (apply checked_val, be_uint16_bytes; done). cbv beta.
  pose proof (be_value_range en1) as R1. rewrite Hl1 in R1. change (256 ^ Z.of_nat 2) with (2 ^ 16) in R1.
  match goal with |- context [search ?f _ _] => destruct (search_spec f 2000002 0) as [[-> A]|(i & Hi & -> & Hne & _)] end.
  - by left.
  - unfold Rvn.try_nonce in Hne |- *. rewrite lor_prefix in Hne |- * by lia.
    change (Rvn.w_header w) with (Kawpow.j_headerHash j) in Hne |- *. change (Rvn.w_height w) with (Kawpow.j_height j) in Hne |- *.
    set (nonce := be_value en1 * 2 ^ 48 + i) in *.
    destruct (Compute (Kawpow.j_headerHash j) (Kawpow.j_height j) nonce) as [[mix digest]|] eqn:EC; [|by left].
    destruct (Z.leb_spec (be_value digest) (Rvn.w_target w)) as [L|]; [|done]. right.
    destruct (kawpow_accepted ValidURL dm request_id Compute s worker e j p en w en1 i mix digest t) as (sh & e' & H0 & Ho);
      try done; [lia|by eapply Hdg|].
    exists nonce, mix, digest, w, sh, e'. split; [|done].
    by apply (submit_written _ (has_id 4) rest (rvn_first worker) (nonce, mix)
      (fun '(nonce, mix) => run! _ := write (message_of 4 "mining.submit" (JArr (Rvn.submission worker w nonce mix))) in
                            read_until false (has_id 4))).
Qed.

Lemma sample_compute_length h ht n mix digest :
  Kawpow.sample_compute h ht n = Some (mix, digest) -> length digest = 32%nat.
Proof. unfold Kawpow.sample_compute. intros E. assert (digest = Sha256 (h ++ be_bytes 8 n)%list) as -> by congruence. apply sum256_length. Qed.

Section KawPow_witness.
Definition rvn_session : Session := mkSession (Some [x00; x01]) (float_dyadic 1 (-24)) "alice.rig1" "10.0.0.1:5000".
Definition toy_kawpow_entry : Entry Kawpow.job :=
  default (mkEntry (Kawpow.mkJob "" Jobs.sample_job [] [] [] 0 "" []) ∅) (bk_heap (Kawpow.book Kawpow.engine1) !! 0%nat).
Definition rvn_params : list json := default [] (get None (Kawpow.JobParamsForDifficulty (SessionDifficulty rvn_session) Kawpow.engine1)).
Definition rvn_target : Z := get 0 (share_target diff1 (SessionDifficulty rvn_session)).
Definition rvn_lines : list line :=
  (object_line (reply_members 1 (JArr [JNull; JStr (hex_encode [x00; x01])])) ::
   [object_line [("id", JNum "2"); ("result", JBool true)]] ++ object_line (notice_members "mining.notify" rvn_params) :: [])%list.
Lemma kawpow_miner_share_accepted_witness :
  let j := en_job toy_kawpow_entry in
  let run := @Rvn.main amd64 Kawpow.sample_compute "alice.rig1" true (mkConn rvn_lines []) in
  (fst run = inr Exits /\ written (snd run) = rvn_first "alice.rig1") \/
  (exists nonce mix digest w sh e',
     written (snd run) = (rvn_first "alice.rig1" ++ [message_of 4 "mining.submit" (JArr (Rvn.submission "alice.rig1" w nonce mix))])%list /\
     Kawpow.sample_compute (Kawpow.j_headerHash j) (Kawpow.j_height j) nonce = Some (mix, digest) /\ s_ErrorCode sh = 0 /\
     Kawpow.OnSubmit (fun _ => true) Daemons.sample_manager (fun _ => 1) Kawpow.sample_compute rvn_session
       (Rvn.submission "alice.rig1" w nonce mix) Kawpow.engine1
     = (if be_value digest <=? Jobs.Target (Kawpow.j_inner j)
        then Kawpow.submit_found (fun _ => true) Daemons.sample_manager (fun _ => 1) nonce mix digest j sh e' else Val (sh, e'))).
Proof.
  apply (@kawpow_miner_share_accepted amd64 (fun _ => true) Daemons.sample_manager (fun _ => 1) Kawpow.sample_compute "alice.rig1"
           rvn_session Kawpow.engine1 (en_job toy_kawpow_entry) 0%nat toy_kawpow_entry rvn_params [x00; x01] rvn_target
           [object_line [("id", JNum "2"); ("result", JBool true)]] []).
  - apply current_default; vm_compute; reflexivity.
  - apply find_job_default; vm_compute; reflexivity.
  - reflexivity.
  - vm_compute. reflexivity.
  - vm_compute. reflexivity.
  - vm_compute. split; [discriminate|reflexivity].
  - vm_compute. reflexivity.
  - vm_compute. split; reflexivity.
  - reflexivity.
  - reflexivity.
  - assert (en_seen toy_kawpow_entry = ∅) as Es by (vm_compute; reflexivity). rewrite Es. intros b. apply not_elem_of_empty.
  - intros n mix digest. apply sample_compute_length.
  - repeat constructor. eexists. split; [reflexivity|split; vm_compute; reflexivity].
Defined.
End KawPow_witness.
