(* ===== verification/Wire.v ===== *)
(** * Wire: the text of a stratum connection

    What src/daemons/jsonrpc.go makes of a message and what
    [Client.SendJsonRPC] writes; how [Client.SetupSocket] takes the lines of its
    socket apart, and the tools under src/tools theirs.  The two ends are
    composed: the pool handles the messages a miner wrote, and a miner reads those
    the pool sent. *)
From Stdlib Require Import ZArith Lia List Strings.Ascii Strings.String Floats.SpecFloat.
From stdpp Require Import base list strings.
From S2P Require Import Prelude Bytes Float Strconv Types Json JsonText Config Algorithm Effects VarDiff Bans Engine Jobs JobManager JobManagerSpec Stratum EngineSession ClientSpec Miner GbtMiner EngineMiners.
Import ListNotations.
Local Open Scope string_scope.
Local Open Scope Z_scope.
Local Open Scope client_scope.

(** ** Writing *)

(** A value decoded into an [interface{}] and encoded again: numbers become
    float64, the keys of an object are a map's, printed in order. *)
Fixpoint insert_key (k : string) (v : json) (m : list (string * json)) : list (string * json) :=
  match m with
  | [] => [(k, v)]
  | (k', v') :: m' =>
      match String.compare k k' with
      | Eq => (k, v) :: m'
      | Lt => (k, v) :: m
      | Gt => (k', v') :: insert_key k v m'
      end
  end.
Fixpoint through_interface (j : json) : option json :=
  match j with
  | JNum l => match ParseFloat l with (x, None) => JNum <$> Marshal_float x | _ => None end
  | JArr l =>
      JArr <$> (fix go l := match l with
                            | [] => Some []
                            | j :: l => match through_interface j, go l with Some j, Some l => Some (j :: l) | _, _ => None end
                            end) l
  | JObj m =>
      JObj <$> (fix go m acc := match m with
                                | [] => Some acc
                                | (k, j) :: m => match through_interface j with Some j => go m (insert_key k j acc) | None => None end
                                end) m []
  | _ => Some j
  end.
Definition out_json (o : out) : option json :=
  match o with OJson j => Some j | OFloat f => JNum <$> Marshal_float f end.
(** [None] is the nil RawMessage of a failed encoding; an empty RawMessage leaves
    its key out. *)
Definition MarshalParams (l : list out) : option json :=
  JArr <$> fold_right (fun o acc => match out_json o, acc with Some j, Some l => Some (j :: l) | _, _ => None end) (Some []) l.
Definition raw_member (key : string) (raw : option json) : list (string * json) :=
  match raw with Some j => [(key, j)] | None => [] end.
Definition error_member (e : option JsonRpcError) : list (string * json) :=
  match e with
  | Some e => [("error", JObj [("code", JNum (FormatInt (e_Code e))); ("message", JStr (e_Message e))])]
  | None => []
  end.
Definition response_json (id : json) (result : option json) (e : option JsonRpcError) : option json :=
  match through_interface id with
  | Some id => Some (JObj ([("id", id)] ++ raw_member "result" result ++ error_member e)%list)
  | None => None
  end.
Definition request_json (id : json) (method : string) (params : option json) : option json :=
  match through_interface id with
  | Some id => Some (JObj ([("id", id); ("method", JStr method)] ++ raw_member "params" params)%list)
  | None => None
  end.
(** [Json] *)
Definition message_json (m : message) : option json :=
  match m with
  | Response id result e => response_json id result e
  | ResultPush id result => response_json id (MarshalParams result) None
  | Request id method (PArray l) => request_json id method (MarshalParams l)
  | Request id method (PBare o) => request_json id method (out_json o)
  end.
(** [GetJsonRpcId] of a decoded message: an id that is not null is a float64, a
    string or another value, and never the int64 it is asserted to be. *)
Definition GetJsonRpcId (id : json) : result Z :=
  match id with JNull => Val 0 | _ => Panic "interface conversion: interface {} is not int64" end.
(** What [SendJsonRPC] hands to the socket. *)
Definition SendJsonRPC_text (m : message) : string :=
  match message_json m with Some j => line_of j | None => String newline "" end.

(** ** Reading *)

Definition request_schema : schema := SStruct [("id", SAny); ("method", SString); ("params", SAny)].
(** An id is decoded at once, params are kept raw. *)
Definition ids_fit (m : list (string * json)) : bool :=
  forallb (fun p => if same_key "id" (fst p) then numbers_fit (snd p) else true) m.
Definition decode_request (j : option json) : option JsonRpcRequest :=
  match j with
  | Some JNull => Some (mkRequest JNull "" None)
  | Some (JObj m) =>
      if fits request_schema (JObj m) && ids_fit m
      then Some (mkRequest (default JNull (last_value (JObj m) "id")) (field_string (JObj m) "method") (last_value (JObj m) "params"))
      else None
  | _ => None
  end.
(** A line of the socket. *)
Definition line_read (raw : string) : read_result := ReadLine raw (decode_request (Parse raw)).
(** A line of a tool. *)
Definition tool_line (raw : string) : line := Line (Parse raw).

(** ** A miner's messages reach the handler *)

(** What the reading loop does with requests: one by one, the ban checked before
    each. *)
Fixpoint serve (handle : moment -> JsonRpcRequest -> M unit) (l : list (moment * JsonRpcRequest)) : M bool :=
  match l with
  | [] => ret true
  | (t, q) :: l =>
      act! _ := CheckBan_client t in
      act! _ := handle t q in
      serve handle l
  end.

Lemma length_concat_pos j : 0 < slen (line_of j).
Proof. unfold slen, line_of. rewrite string_length_app. cbn. lia. Qed.

(** Values that decode to requests, written one to a line. *)
Definition arrives (j : json) (q : JsonRpcRequest) : Prop :=
  well_formed j = true /\ height j <= max_depth /\ slen (line_of j) <= 10240 /\ decode_request (Some j) = Some q.
Lemma stream_served options resolve handle once ts js qs :
  TCPProxyProtocol options = false -> length ts = length js -> Forall2 arrives js qs ->
  forall w, read_loop options resolve handle once (zip ts (map line_read (lines (stream_of js)))) w
    = serve handle (zip ts qs) w.
Proof.
  intros Hp Hl F. rewrite lines_stream_aux.
  2:{ apply forallb_forall. intros j Hj. apply list_elem_of_In, list_elem_of_lookup in Hj as [i Hi].
      by apply (Forall2_lookup_l _ _ _ _ _ F) in Hi as (q & _ & W & _). }
  revert ts Hl. induction F as [|j q js qs (W & Hh & Hs & Hd) F IH]; intros ts Hl w; (destruct ts as [|t ts]; try done).
  injection Hl as Hl.
  cbn [map zip zip_with read_loop serve]. unfold mbind at 1. unfold line_read at 1, line_of at 2.
  rewrite (Parse_print_aux j (String newline "") W Hh eq_refl), Hd. unfold read_step.
  replace (10240 <? slen (line_of j)) with false by lia. pose proof (length_concat_pos j).
  replace (slen (line_of j) =? 0) with false by lia. rewrite Hp, andb_false_r. unfold mbind, ret.
  destruct (CheckBan_client t w) as [[b|e|] w1]; [|done|done]. destruct (handle t q w1) as [[u|e|] w2]; [|done|done].
  by apply IH.
Qed.

(** A message of a tool; the CryptoNote miner adds the version. *)
Record said := mkSaid { sa_version : bool; sa_id : Z; sa_method : string; sa_params : json }.
Definition said_json (s : said) : json :=
  if sa_version s
  then JObj [("id", JNum (FormatInt (sa_id s))); ("jsonrpc", JStr "2.0"); ("method", JStr (sa_method s)); ("params", sa_params s)]
  else message_of (sa_id s) (sa_method s) (sa_params s).
Definition said_request (s : said) : JsonRpcRequest :=
  mkRequest (JNum (FormatInt (sa_id s))) (sa_method s) (Some (sa_params s)).
Definition sendable (s : said) : Prop :=
  0 <= sa_id s < 2 ^ 64 /\ valid_utf8 (sa_method s) = true /\ well_formed (sa_params s) = true /\
  height (sa_params s) < max_depth /\ slen (line_of (said_json s)) <= 10240.

Lemma said_arrives s : sendable s -> arrives (said_json s) (said_request s).
Proof.
  destruct s as [v id method params]. intros (Hid & Hm & Hp & Hh & Hl). cbn [sa_id sa_method sa_params] in *.
  assert (FormatInt id = FormatUint id) as Ei by (unfold FormatInt; by replace (id <? 0) with false by lia).
  pose proof (number_ok_FormatUint id Hid) as Hn. pose proof (ParseFloat_FormatUint id Hid) as Hf.
  split_and!; [| |done|].
  - destruct v; cbn; by rewrite Ei, Hn, Hm, Hp.
  - unfold max_depth in *. destruct v; cbn [said_json sa_version message_of sa_id sa_method sa_params height fold_right snd]; lia.
  - assert (ids_fit (match said_json (mkSaid v id method params) with JObj m => m | _ => [] end) = true) as Hids.
    { destruct v; cbn; rewrite Ei; unfold no_error; by rewrite Hf. }
    unfold decode_request. destruct v; cbn [said_json sa_version sa_id sa_method sa_params message_of] in *;
      rewrite Hids; destruct params; reflexivity.
Qed.
Lemma all_arrive ms : Forall sendable ms -> Forall2 arrives (map said_json ms) (map said_request ms).
Proof. induction 1 as [|s ms H _ IH]; cbn [map]; [constructor|constructor; [by apply said_arrives|exact IH]]. Qed.

(** C25: the pool hears what a miner says.  The text of any messages of the miners,
    written one after the other, is cut into lines, decoded and handed to the
    connection's handler as exactly those requests, in their order, each after a
    look at the ban list: the reading loop goes on after the last, and nothing else
    reaches the handler. *)
Theorem miner_messages_handled options resolve handle once ts ms w :
  TCPProxyProtocol options = false -> length ts = length ms -> Forall sendable ms ->
  read_loop options resolve handle once (zip ts (map line_read (lines (stream_of (map said_json ms))))) w
  = serve handle (zip ts (map said_request ms)) w.
Proof.
  intros Hp Hl F. apply stream_served; [done|by rewrite length_map|by apply all_arrive].
Qed.

Lemma pool_messages_read_aux sent :
  Forall (fun m => exists j, message_json m = Some j /\ well_formed j = true /\ height j <= max_depth) sent ->
  map tool_line (lines (String.concat "" (map SendJsonRPC_text sent))) = map (fun m => Line (message_json m)) sent.
Proof.
  intros F. assert (exists js, map message_json sent = map Some js /\
    Forall (fun j => well_formed j = true /\ height j <= max_depth) js) as (js & E & W).
  { induction F as [|m sent (j & Ej & H) _ (js & E & W)]; [by exists []|]. exists (j :: js). cbn [map]. rewrite Ej, E.
    split; [done|by constructor]. }
  assert (map SendJsonRPC_text sent = map line_of js) as ->.
  { unfold SendJsonRPC_text. rewrite <- (map_map message_json (fun o => match o with Some j => line_of j | None => _ end)), E.
    by rewrite map_map. }
  fold (stream_of js). unfold tool_line. rewrite <- (map_map Parse Line), (stream_parses_aux js W).
  rewrite <- (map_map message_json Line), E. done.
Qed.

(** C26: a miner reads what the pool sends.  The text of the messages of a
    connection comes apart into lines that are those messages. *)
Theorem pool_messages_read sent :
  Forall (fun m => exists j, message_json m = Some j /\ well_formed j = true /\ height j <= max_depth) sent ->
  map tool_line (lines (String.concat "" (map SendJsonRPC_text sent))) = map (fun m => Line (message_json m)) sent.
Proof. apply pool_messages_read_aux. Qed.

(** ** A connection behind a proxy *)

(** The first line a proxy writes is not JSON. *)
Lemma Parse_PROXY raw : HasPrefix raw "PROXY" = true -> Parse raw = None.
Proof.
  unfold HasPrefix. destruct raw as [|c raw]; [done|]. cbn [String.prefix]. destruct (ascii_dec "P" c) as [<-|]; [|done].
  intros _. unfold Parse. cbn [String.length]. rewrite (Nat.add_comm _ 2). reflexivity.
Qed.
Lemma proxy_line_stops options resolve handle t once raw w :
  TCPProxyProtocol options = true -> HasPrefix raw "PROXY" = true -> slen raw <= 10240 ->
  read_step options resolve handle t once (line_read raw) w = (Done None, w).
Proof.
  intros Hp Hx Hl. unfold line_read, read_step. rewrite (Parse_PROXY raw Hx), Hp.
  replace (10240 <? slen raw) with false by lia. destruct raw as [|c raw]; [done|].
  destruct (Z.eqb_spec (slen (String c raw)) 0) as [E|_]; [|done]. unfold slen in E. cbn [String.length] in E. lia.
Qed.

(** C29: the proxy protocol never works.  With it switched on, the line a proxy
    starts a connection with ends the reading of that connection: only the ban
    list was looked at, nothing is handled, and the socket stays open.  And
    whatever lines a connection sends, none of them gives the client another
    address: what they resolve to is never looked at. *)
Theorem proxied_connection_abandoned options handle t0 t raw reads w :
  TCPProxyProtocol options = true -> HasPrefix raw "PROXY" = true -> slen raw <= 10240 ->
  (forall resolve, SetupSocket options resolve handle t0 ((t, line_read raw) :: reads) w
     = (Done false, snd (CheckBan_client t0 w))) /\
  (forall resolve resolve' once lines w,
     read_loop options resolve handle once (map (fun p => (fst p, line_read (snd p))) lines) w
     = read_loop options resolve' handle once (map (fun p => (fst p, line_read (snd p))) lines) w).
Proof.
  intros Hp Hx Hl. split.
  - intros resolve. unfold SetupSocket. cbn [read_loop]. unfold mbind at 1.
    destruct (CheckBan_client t0 w) as [o w1] eqn:E. assert (exists b, o = Done b) as [b ->].
    { unfold CheckBan_client, mbind, client, with_bans in E. destruct (CheckBan _ _ _). injection E as <- _. by eexists. }
    unfold mbind. by rewrite (proxy_line_stops options resolve handle t true raw w1 Hp Hx Hl).
  - intros resolve resolve' once l. revert once. clear w. induction l as [|[t1 raw1] l IH]; intros once w; [done|].
    cbn [map fst snd read_loop]. unfold mbind.
    assert (read_step options resolve handle t1 once (line_read raw1) w
            = read_step options resolve' handle t1 once (line_read raw1) w) as ->.
    { destruct (HasPrefix raw1 "PROXY") eqn:Ex.
      - unfold line_read. by rewrite (Parse_PROXY raw1 Ex).
      - unfold line_read, read_step. by rewrite Ex. }
    destruct (read_step _ _ _ _ _ _ _) as [[[once1|]|e|] w1]; [apply IH|done..].
Qed.

(** ** Witnesses *)

(** A miner authorizes and submits, and the handler of the pool answers. *)
Definition pool_handler : moment -> JsonRpcRequest -> M unit := @HandleMessage hex_codec amd64 sample_algs pool_options true.
Definition no_resolver (_ : string) : option string := None.
Definition spoken : list said :=
  [mkSaid false 2 "mining.authorize" (JArr [JStr "alice.rig1"; JStr "x"]);
   mkSaid false 4 "mining.submit" (JArr (submit_params "zz"))].
Definition submissions_answered (w : world) : nat := length (so_Sent (c_Socket (w_client w))).
Lemma miner_messages_handled_witness :
  submissions_answered (snd (read_loop pool_options no_resolver pool_handler true
    (zip [moment0; moment0] (map line_read (lines (stream_of (map said_json spoken))))) (world0 client0 None))) = 5%nat.
Proof.
  rewrite (miner_messages_handled pool_options no_resolver pool_handler true [moment0; moment0] spoken (world0 client0 None)).
  - vm_compute. reflexivity.
  - reflexivity.
  - reflexivity.
  - repeat constructor; vm_compute; congruence.
Defined.

Definition heard : list message :=
  [Response (JNum "1") (Some (JArr [JStr "00"; JNum "4"])) None;
   Request (JNum "0") "mining.set_difficulty" (PArray [OFloat (float_const 1 1000)]);
   Response (JNum "4") None (rpc_error 20 "job <not> found")].
Lemma pool_messages_read_witness :
  map tool_line (lines (String.concat "" (map SendJsonRPC_text heard))) =
  [Line (Some (JObj [("id", JNum "1"); ("result", JArr [JStr "00"; JNum "4"])]));
   Line (Some (JObj [("id", JNum "0"); ("method", JStr "mining.set_difficulty"); ("params", JArr [JNum "0.001"])]));
   Line (Some (JObj [("id", JNum "4"); ("error", JObj [("code", JNum "20"); ("message", JStr "job <not> found")])]))].
Proof.
  rewrite (pool_messages_read heard); [vm_compute; reflexivity|].
  repeat constructor; eexists; (split; [vm_compute; reflexivity|split; [vm_compute; reflexivity|vm_compute; congruence]]).
Defined.

Definition behind_proxy : Options :=
  {| DisablePayment := DisablePayment pool_options; Coin := Coin pool_options; Config.Engine := Config.Engine pool_options;
     PoolAddress := PoolAddress pool_options; RewardRecipients := []; BlockRefreshInterval := 0; JobRebroadcastTimeout := 0;
     ConnectionTimeout := 600; TCPProxyProtocol := true; Banning := Banning pool_options; Ports := Ports pool_options;
     Daemons := []; P2P := None; Config.Algorithm := Config.Algorithm pool_options; Payment := None |}.
Definition proxy_line : string := "PROXY TCP4 203.0.113.7 10.0.0.1 56324 3333" ++ String (chr 13) (String newline "").
Definition after_proxy : list (moment * read_result) := map (fun s => (moment0, line_read (line_of (said_json s)))) spoken.
Lemma proxied_connection_abandoned_witness :
  fst (SetupSocket behind_proxy no_resolver pool_handler moment0 ((moment0, line_read proxy_line) :: after_proxy)
    (world0 client0 None)) = Done false.
Proof.
  destruct (proxied_connection_abandoned behind_proxy pool_handler moment0 moment0 proxy_line after_proxy (world0 client0 None)) as [E _].
  - reflexivity.
  - vm_compute. reflexivity.
  - vm_compute. congruence.
  - by rewrite (E no_resolver).
Defined.
