(* ===== verification/Session.v ===== *)
(** * Session: a miner of src/tools/e2eminer and the pool, from the first line to the block

    The two programs are joined by the text they write: the pool reads what the
    miner's connection holds ([Wire]), handles it and answers (src/stratum/client.go),
    and the miner reads the text of those answers (src/tools/e2eminer/main.go).  The
    theorem is about the conversation they hold: from the subscription of a new
    client to the block the pool submits and the answer the miner ends with. *)
From Stdlib Require Import ZArith Lia List Strings.Ascii Strings.String Strings.Byte Floats.SpecFloat.
From stdpp Require Import base list strings gmap.
From S2P Require Import Prelude Bytes Float FloatSpec Strconv Utils Merkle Types Json JsonText Config Algorithm Transactions Jobs JobManager JobManagerSpec Effects VarDiff Bans Engine EngineWork Stratum EngineSession ClientSpec Miner GbtMiner Wire.
Import ListNotations.
Local Open Scope string_scope.
Local Open Scope Z_scope.
Local Open Scope go_scope.
Local Open Scope client_scope.

(** ** The text of a conversation *)

(** What the pool does with what a miner has written, and the text of what it has
    said. *)
Definition hears `{AddressCodec} `{Platform} (algs : Algorithms) (options : Options) (resolve : string -> option string)
    (has_db : bool) (ts : list moment) (said : list json) : M bool :=
  read_loop options resolve (HandleMessage algs options has_db) true (zip ts (map line_read (lines (stream_of said)))).
Definition pool_said (w : world) : string := String.concat "" (map SendJsonRPC_text (so_Sent (c_Socket (w_client w)))).
(** The miner on the text of a connection. *)
Definition listens (algs : Algorithms) (fl : flags) (out : outside) (text : string)
    : (list (string * json) + stop) * conn :=
  main algs fl out (mkConn (map tool_line (lines text)) []).

(** *** Plain texts *)
Fixpoint ascii_only (s : string) : bool :=
  match s with EmptyString => true | String c s => (code c <? 128) && ascii_only s end.
Lemma ascii_valid s : ascii_only s = true -> valid_utf8 s = true.
Proof.
  induction s as [|c s IH]; [done|]. cbn [ascii_only]. intros [Hc Hs]%andb_prop. cbn [valid_utf8].
  rewrite rune_size_ascii by lia. by apply IH.
Qed.
Lemma digits_ascii s : digits s = (s, "") -> ascii_only s = true.
Proof.
  induction s as [|c s IH]; [done|]. cbn [digits ascii_only]. destruct (is_digit c) eqn:Ed; [|done].
  destruct (digits s) as [d r] eqn:E. cbn [fst snd]. intros [= -> ->]. unfold is_digit, between in Ed.
  rewrite IH by done. lia.
Qed.
Lemma FormatUint_valid n : 0 <= n -> valid_utf8 (FormatUint n) = true.
Proof. intros Hn. by apply ascii_valid, digits_ascii, format_digits_digits. Qed.

Lemma code_of_byte b : code (ascii_of_byte b) = Z_of_byte b.
Proof. by destruct b. Qed.
Lemma ascii_only_bytes l : ascii_only (string_of_bytes l) = forallb (fun b => Z_of_byte b <? 128) l.
Proof. induction l as [|b l IH]; [done|]. cbn. rewrite code_of_byte. by f_equal. Qed.
Lemma hex_value_ascii b v : hex_value b = Some v -> (Z_of_byte b <? 128) = true.
Proof. unfold hex_value. repeat case_match; try done; intros _; lia. Qed.
(** Hexadecimal digits are plain text. *)
Lemma hex_decode_valid s b : hex_decode s = (b, true) -> valid_utf8 s = true.
Proof.
  intros E. apply ascii_valid. rewrite <- (string_of_bytes_of_string s), ascii_only_bytes. unfold hex_decode in E.
  revert b E. induction (bytes_of_string s) as [|x|x y l IH] using byte_ind2; intros b E; [done|done|].
  cbn [hex_decode_bytes] in E. destruct (hex_value x) eqn:Ex; [|done]. destruct (hex_value y) eqn:Ey; [|done].
  destruct (hex_decode_bytes l) as [r ok]. injection E as _ ->. cbn [forallb].
  rewrite (hex_value_ascii _ _ Ex), (hex_value_ascii _ _ Ey). by apply (IH r).
Qed.
Lemma hex_encode_valid b : valid_utf8 (hex_encode b) = true.
Proof. apply (hex_decode_valid _ b), hex_decode_encode. Qed.
Lemma hex_texts_wf l : forallb well_formed (map JStr (map hex_encode l)) = true.
Proof. induction l as [|b l IH]; [done|]. cbn [map forallb well_formed]. by rewrite hex_encode_valid. Qed.
Lemma texts_height l : height (JArr (map JStr l)) = 1.
Proof. cbn [height]. induction l as [|x l IH]; [done|]. cbn [map fold_right height] in *. lia. Qed.

(** *** Lengths *)
Lemma slen_app a b : slen (a ++ b) = slen a + slen b.
Proof. unfold slen. rewrite string_length_app. lia. Qed.
Lemma slen_cons c s : slen (String c s) = 1 + slen s.
Proof. unfold slen. cbn [String.length]. lia. Qed.
Lemma escape_length c : slen (escape c) <= 6.
Proof. unfold escape. repeat case_match; vm_compute; done. Qed.
Lemma escape3_length a b c : slen (escape3 a b c) <= 6.
Proof. unfold escape3. by case_match. Qed.
(** A character takes six at most. *)
Lemma escaped_length s : slen (escaped s) <= 6 * slen s.
Proof.
  assert (forall n s, (String.length s <= n)%nat -> slen (escaped s) <= 6 * slen s) as A; [|by eapply A].
  clear s. induction n as [|n IH]; intros s Hn; (destruct s as [|c s]; [done|]); cbn [String.length] in Hn; [lia|].
  cbn [escaped]. pose proof (escape_length c).
  assert (forall r, (String.length r <= n)%nat -> slen (escaped r) <= 6 * slen r) as IH' by exact IH.
  repeat case_match; subst; cbn [String.length] in Hn; rewrite ?slen_app, ?slen_cons;
    try match goal with |- context [escape3 ?x ?y ?z] => pose proof (escape3_length x y z) end;
    try change (slen invalid_escape) with 6;
    match goal with |- context [escaped ?r] => pose proof (IH' r ltac:(cbn [String.length]; lia)); pose proof (Nat2Z.is_nonneg (String.length r)) end;
    unfold slen in *; cbn [String.length] in *; lia.
Qed.

(** A message of texts is as long as its texts, six times at most. *)
Definition text_budget (l : list string) : Z := fold_right (fun s n => 6 * slen s + 3 + n) 0 l.
Lemma quote_length s : slen (quote s) <= 6 * slen s + 2.
Proof. unfold quote. pose proof (escaped_length s). rewrite slen_cons, slen_app. change (slen (String quote_char "")) with 1. lia. Qed.
Lemma texts_length l : slen (print (JArr (map JStr l))) <= 2 + text_budget l.
Proof.
  assert (slen (comma_separated (map print (map JStr l))) <= text_budget l) as A.
  { induction l as [|x l IH]; [done|]. pose proof (quote_length x). cbn [map text_budget fold_right]. fold (text_budget l).
    destruct l as [|y l]; [change (comma_separated _) with (quote x); cbn; lia|].
    cbn [map] in *. rewrite comma_cons, !slen_app. change (slen ",") with 1. change (print (JStr x)) with (quote x). lia. }
  change (print (JArr (map JStr l))) with ("[" ++ comma_separated (map print (map JStr l)) ++ "]").
  rewrite !slen_app. change (slen "[") with 1. change (slen "]") with 1. lia.
Qed.
Lemma message_length id method l :
  slen (line_of (message_of id method (JArr (map JStr l)))) <= 60 + slen (FormatInt id) + 6 * slen method + text_budget l.
Proof.
  pose proof (texts_length l). pose proof (quote_length method).
  unfold line_of, message_of. rewrite print_obj. cbn [map]. rewrite !comma_cons. unfold print_member, comma_separated. cbn [fst snd].
  change (Join [?s] ",") with s. rewrite !slen_app.
  change (print (JNum ?n)) with n. change (print (JStr ?s)) with (quote s).
  repeat match goal with |- context [slen (String ?c ?s)] => let n := eval vm_compute in (slen (String c s)) in change (slen (String c s)) with n end.
  repeat match goal with |- context [slen (quote (String ?c ?s))] => let n := eval vm_compute in (slen (quote (String c s))) in change (slen (quote (String c s))) with n end.
  lia.
Qed.

(** ** The pool's side *)
Section Pool_side.
Context `{AddressCodec} `{Platform}.
Variable algs : Algorithms.
Variable options : Options.
Variable has_db : bool.
Variables (sid en1 : bytes) (remote worker_name : string) (port nanos : Z) (jm : JobManager) (job : Job) (d : bigfloat).
Variables (t1 t2 t3 : moment).

Let handle : moment -> JsonRpcRequest -> M unit := HandleMessage algs options has_db.
Definition subscribe_answer : message :=
  Response (JNum "1")
    (Some (JArr [ JArr [ JArr [JStr "mining.set_difficulty"; JStr (FormatUint (le_value (take 8 sid)))];
                         JArr [JStr "mining.notify"; JStr (FormatUint (le_value (take 8 sid)))] ];
                  JStr (hex_encode en1); JNum (FormatInt 4) ])) None.
(** What the pool has said to a client that subscribed and was authorized. *)
Definition welcome : list message :=
  [subscribe_answer; Response (JNum "2") (Some (JBool true)) None;
   Request (JNum "0") "mining.set_difficulty" (PArray [OFloat (Float64 d)]);
   Request JNull "mining.notify" (PArray (map OJson (GetJobParams (m_unix t2) job true)))].
Definition newcomer : Client :=
  mkClient sid remote (mkSocket port false []) nanos (mkShares 0 0) false false (Some en1) None "" ""
    (Some (BigF 53 fzero)) None None None.
Definition authorized : Client :=
  mkClient sid remote (mkSocket port false welcome) nanos (mkShares 0 0) true true (Some en1) None worker_name "x"
    (Some (BigF 53 fzero)) (Some d) None None.
Definition rewarded : Client :=
  mkClient sid remote (mkSocket port false (welcome ++ [Response (JNum "4") (Some (JBool true)) None])) (m_nanos t3)
    (mkShares 1 0) true true (Some en1) None worker_name "x" (Some (BigF 53 fzero)) (Some d) None None.

Lemma serve_first t q l c j bans ev :
  exists bans', serve handle ((t, q) :: l) (mkWorld c j None bans ev)
    = (act! _ := handle t q in serve handle l) (mkWorld c j None bans' ev).
Proof.
  cbn [serve]. unfold mbind at 1, CheckBan_client, mbind at 1, client, with_bans. cbn [w_client w_bans w_jm w_engine w_events].
  destruct (CheckBan _ _ bans) as [b bans']. by exists bans'.
Qed.

Lemma subscribe_handled bans ev :
  jm_ExtraNonce2Size jm = 4 ->
  handle t1 (mkRequest (JNum "1") "mining.subscribe" (Some (JArr []))) (mkWorld newcomer (Some jm) None bans ev)
  = (Done tt, mkWorld (mkClient sid remote (mkSocket port false [subscribe_answer]) nanos (mkShares 0 0) false true (Some en1) None "" ""
      (Some (BigF 53 fzero)) None None None) (Some jm) None bans ev).
Proof.
  intros Hs. subst handle. unfold HandleMessage. cbn [w_engine]. unfold HandleMessage_gbt. cbn [q_Method String.eqb Ascii.eqb Bool.eqb].
  unfold HandleSubscribe, mbind, client, job_manager, set_client, SendJsonRPC, ret. cbn -[FormatUint le_value]. by rewrite Hs.
Qed.

Lemma authorize_handled bans ev p :
  port_options options port = Some p -> NewBigFloat (po_Diff p) = Val d -> current_job jm = Some job ->
  duration_between (m_nanos t2) nanos <= i64 (ConnectionTimeout options * 1000000000) ->
  handle t2 (mkRequest (JNum "2") "mining.authorize" (Some (JArr [JStr worker_name; JStr "x"])))
    (mkWorld (mkClient sid remote (mkSocket port false [subscribe_answer]) nanos (mkShares 0 0) false true (Some en1) None "" ""
      (Some (BigF 53 fzero)) None None None) (Some jm) None bans ev)
  = (Done tt, mkWorld authorized (Some jm) None bans ev).
Proof.
  intros Hp Hd Hc Ht. subst handle. unfold HandleMessage. cbn [w_engine]. unfold HandleMessage_gbt. cbn [q_Method String.eqb Ascii.eqb Bool.eqb].
  unfold HandleAuthorize. cbn [ParamsArray q_Params].
  unfold mbind, set_client, client, ret, SendJsonRPC, AuthorizeFn. cbn [w_client c_Socket with_WorkerPass with_WorkerName so_LocalPort].
  cbn -[port_options NewBigFloat SendMiningJob SendDifficulty current_job_params subscribe_answer]. rewrite Hp, Hd.
  unfold of_result, ret. unfold SendDifficulty, mbind, client, set_client, SendJsonRPC, ret.
  cbn -[port_options NewBigFloat SendMiningJob current_job_params subscribe_answer].
  unfold current_job_params, mbind, job_manager, ret. cbn [w_jm]. rewrite Hc.
  unfold SendMiningJob, mbind, client. cbn [w_client c_LastActivity].
  match goal with |- context [if ?x then _ else _] => replace x with false by (symmetry; apply Z.ltb_ge; exact Ht) end.
  reflexivity.
Qed.

(** A submission that was processed to a share without error. *)
Lemma submit_handled bans ev job_id en2 ntime nonce share jm1 jm2 events :
  ProcessSubmit algs (m_unix t3) jm job_id None d en1 en2 ntime nonce remote worker_name = Val (share, jm1) ->
  s_ErrorCode share = 0 ->
  ProcessShare (m_daemon t3) (m_unix t3) (m_random t3) share jm1 = Val (jm2, events) ->
  handle t3 (mkRequest (JNum "4") "mining.submit"
      (Some (JArr [JStr worker_name; JStr job_id; JStr en2; JStr ntime; JStr nonce]))) (mkWorld authorized (Some jm) None bans ev)
  = (Done tt, mkWorld rewarded (Some jm2) None bans (ev ++ events)%list).
Proof.
  intros Hs H0s Hp. subst handle. unfold HandleMessage. cbn [w_engine]. unfold HandleMessage_gbt. cbn [q_Method String.eqb Ascii.eqb Bool.eqb].
  unfold mbind at 1, set_client at 1. cbn [w_client w_jm w_engine w_bans w_events].
  rewrite (HandleSubmit_eq algs options t3 _ _ en1 d (JStr worker_name) (JStr job_id) (JStr en2) (JStr ntime) (JStr nonce) [])
    by reflexivity.
  unfold mbind at 1. cbn [RawJsonToString].
  assert (forall c, c_PreviousDifficulty c = None -> c_RemoteAddress c = remote ->
    process_submit algs t3 d en1 job_id en2 ntime nonce worker_name (mkWorld c (Some jm) None bans ev)
    = (Done share, mkWorld c (Some jm2) None bans (ev ++ events)%list)) as ->.
  { intros c Ec Er. unfold process_submit, mbind, client, job_manager. cbn [w_client w_jm]. rewrite Ec, Er, Hs. cbn -[ProcessShare].
    by rewrite Hp. }
  2, 3: reflexivity.
  unfold after_share. rewrite H0s. reflexivity.
Qed.

(** A found block is submitted, the daemon asked about it, and its next template
    taken. *)
Lemma found_block_processed share jm1 gbt :
  s_BlockHex share <> "" -> bd_template (m_daemon t3) = Val gbt ->
  is_val (ProcessTemplate (m_unix t3) (m_random t3) gbt jm1) = true ->
  exists jm2, ProcessShare (m_daemon t3) (m_unix t3) (m_random t3) share jm1 = Val (jm2,
    [EvSubmitBlock (s_BlockHex share); EvCheckBlock (s_BlockHash share); EvGetTemplate;
     EvPutShare (set_txhash (snd (bd_accepted (m_daemon t3) (s_BlockHash share))) share)
                (fst (bd_accepted (m_daemon t3) (s_BlockHash share)))]).
Proof.
  intros Hb Ht Hv. unfold ProcessShare. destruct (String.eqb_spec (s_BlockHex share) ""); [done|]. cbn [negb].
  destruct (bd_accepted _ _) as [acc tx]. rewrite Ht. cbn [rbind fst snd].
  destruct (ProcessTemplate _ _ _ _) as [jm2|]; [|done]. by exists jm2.
Qed.
End Pool_side.

(** ** The pool's messages as text *)
Definition printable (x : float64) : Prop :=
  exists l, Marshal_float x = Some l /\ number_ok l = true /\ no_error (ParseFloat l) = true.
Definition sayable (m : message) : Prop := exists j, message_json m = Some j /\ well_formed j = true /\ height j <= max_depth.

Lemma MarshalParams_json l : MarshalParams (map OJson l) = Some (JArr l).
Proof.
  unfold MarshalParams.
  assert (fold_right (fun o acc => match out_json o, acc with Some j, Some l => Some (j :: l) | _, _ => None end) (Some [])
            (map OJson l) = Some l) as ->; [|done].
  induction l as [|j l IH]; [done|]. cbn [map fold_right out_json]. by rewrite IH.
Qed.
Lemma message_json_known id id' : through_interface id = Some id' ->
  (forall result e, message_json (Response id (Some result) e) = Some (JObj ([("id", id'); ("result", result)] ++ error_member e)%list)) /\
  (forall method l params, MarshalParams l = Some params ->
     message_json (Request id method (PArray l)) = Some (JObj [("id", id'); ("method", JStr method); ("params", params)])).
Proof.
  intros E. split; intros; cbn [message_json]; unfold response_json, request_json; rewrite E; [done|]. by rewrite H.
Qed.

Section Said.
Context `{AddressCodec} `{Platform}.
Variables (sid en1 : bytes) (now : Z) (job : Job) (h : Hasher) (bits : bytes) (random : bytes) (d : float64) (lit : string).
Hypothesis job_built : built h job.
Hypothesis job_id : JobId job = RandHexUint64 random.
Hypothesis job_bits : hex_decode (g_Bits (GetBlockTemplate_of job)) = (bits, true).
Hypothesis difficulty : Marshal_float d = Some lit.
Hypothesis difficulty_ok : number_ok lit = true.
Hypothesis difficulty_read : no_error (ParseFloat lit) = true.

Definition authorize_answer : json := JObj [("id", JNum "2"); ("result", JBool true)].
Definition difficulty_line : json := JObj [("id", JNum "0"); ("method", JStr "mining.set_difficulty"); ("params", JArr [JNum lit])].
Definition notify_line : json := JObj [("id", JNull); ("method", JStr "mining.notify"); ("params", JArr (GetJobParams now job true))].
Definition submit_answer : list (string * json) := [("id", JNum "4"); ("result", JBool true)].

Lemma job_texts : (exists ph, PrevHashReversed job = hex_encode ph) /\ exists l, MerkleBranch job = map hex_encode l.
Proof.
  destruct job_built as (t0 & id & t & s & ph & rw & msgs & rs & l & j0 & EN & ->).
  pose proof (NewJob_branch _ _ _ _ _ _ _ _ _ _ EN) as [Hb _]. split; [|by eexists]. clear Hb.
  unfold NewJob, GetTransactionBytes in EN. revert EN.
  repeat match goal with |- (let! _ := ?m in _) = _ -> _ => destruct m eqn:?; cbn [rbind]; [|done] end.
  intros E. apply Val_inj in E as <-. by eexists.
Qed.
Lemma notify_wf : well_formed notify_line = true /\ height notify_line <= max_depth.
Proof.
  destruct job_texts as [[ph Hp] [l Hl]]. pose proof (texts_height (MerkleBranch job)) as Hh.
  pose proof (hex_texts_wf l) as W. rewrite <- Hl in W.
  unfold notify_line, GetJobParams. rewrite job_id, Hp. remember (map JStr (MerkleBranch job)) as b eqn:Eb. split.
  - cbn [well_formed forallb fst snd]. unfold RandHexUint64. rewrite !hex_encode_valid, W, (hex_decode_valid _ _ job_bits). done.
  - cbn [height fold_right snd] in *. unfold max_depth. lia.
Qed.
Lemma subscribe_wf : message_json (subscribe_answer sid en1) = Some (JObj (subscription (FormatUint (le_value (take 8 sid))) en1 4)) /\
  well_formed (JObj (subscription (FormatUint (le_value (take 8 sid))) en1 4)) = true.
Proof.
  split.
  - assert (through_interface (JNum "1") = Some (JNum "1")) as E by (vm_compute; reflexivity).
    unfold subscribe_answer. by rewrite (proj1 (message_json_known _ _ E)).
  - cbn [well_formed subscription forallb fst snd]. rewrite hex_encode_valid, FormatUint_valid by apply le_value_range. done.
Qed.
Lemma difficulty_json :
  message_json (Request (JNum "0") "mining.set_difficulty" (PArray [OFloat d])) = Some difficulty_line.
Proof.
  assert (through_interface (JNum "0") = Some (JNum "0")) as E by (vm_compute; reflexivity).
  rewrite (proj2 (message_json_known _ _ E) _ _ (JArr [JNum lit])); [done|].
  unfold MarshalParams. cbn [fold_right out_json]. by rewrite difficulty.
Qed.

(** The lines of a welcome, with what follows it. *)
Lemma welcome_lines (ms : list message) : Forall sayable ms -> forall diff t, Float64 diff = d -> m_unix t = now ->
  map tool_line (lines (String.concat "" (map SendJsonRPC_text (welcome sid en1 job diff t ++ ms)%list)))
  = (subscribed (FormatUint (le_value (take 8 sid))) en1 4 ::
     [Line (Some authorize_answer); Line (Some difficulty_line)] ++
     notified (GetJobParams now job true) :: map (fun m => Line (message_json m)) ms)%list.
Proof.
  intros Hs diff t Ef Eu. unfold welcome. rewrite Ef, Eu. destruct subscribe_wf as [Es Ws]. destruct notify_wf as [Wn Hn].
  assert (message_json (Request JNull "mining.notify" (PArray (map OJson (GetJobParams now job true)))) = Some notify_line) as En
    by (apply (proj2 (message_json_known JNull JNull eq_refl)), MarshalParams_json).
  pose proof difficulty_json as Ed.
  assert (through_interface (JNum "2") = Some (JNum "2")) as E2 by (vm_compute; reflexivity).
  assert (message_json (Response (JNum "2") (Some (JBool true)) None) = Some authorize_answer) as Ea
    by (by rewrite (proj1 (message_json_known _ _ E2))).
  rewrite pool_messages_read_aux.
  - cbn [map app]. by rewrite Es, En, Ed, Ea.
  - repeat (apply Forall_cons; split); [| | | |exact Hs].
    + eexists. split; [exact Es|]. split; [exact Ws|]. vm_compute. discriminate.
    + eexists. split; [exact Ea|]. split; [reflexivity|]. vm_compute. discriminate.
    + eexists. split; [exact Ed|]. split; [|vm_compute; discriminate]. cbn [difficulty_line well_formed forallb fst snd].
      by rewrite difficulty_ok.
    + exists notify_line. exact (conj En (conj Wn Hn)).
Qed.
Lemma greetings_passed : Forall greeting [Line (Some authorize_answer); Line (Some difficulty_line)].
Proof.
  repeat constructor; (eexists; split; [reflexivity|]); (split; [|reflexivity]); [reflexivity|].
  cbn [numbers_fit forallb snd difficulty_line]. by rewrite difficulty_read.
Qed.
End Said.

(** ** The conversation *)
Section Conversation.
Context `{AddressCodec} `{Platform} `{PowHashes}.
Variable algs : Algorithms.
Variable options : Options.
Variable resolve : string -> option string.
Variable has_db : bool.
Variables (fl : flags) (out : outside) (jm : JobManager) (job : Job) (hf pow : bytes -> bytes) (f : HashFunc) (bits prev : bytes) (bt : Z).
Variables (sid random : bytes) (remote : string) (port now0 nanos : Z) (po : PortOptions) (d : bigfloat).
Variables (t1 t2 t3 : moment) (job_random : bytes) (gbt : GetBlockTemplate).

Let en1 : bytes := GetExtraNonce1 random.
Let t : GetBlockTemplate := GetBlockTemplate_of job.

(** The pool has a current job that a share can become a block of. *)
Record pool_ready : Prop := {
  pr_reached : exists jm0, NewJobManager algs options = Val jm0 /\ rtc (jm_step algs) jm0 jm;
  pr_job : current_job jm = Some job;
  pr_id : JobId job = RandHexUint64 job_random /\ length job_random = 8%nat;
  pr_target : 0 < Target job;
  pr_multiplier : 0 <= a_Multiplier (Algorithm options) < 63;
  pr_block_hash : forall h, is_val (block_hash algs (Algorithm options) h) = true;
  pr_template : bd_template (m_daemon t3) = Val gbt;
  pr_next : forall jm1, jm_step algs jm jm1 -> is_val (ProcessTemplate (m_unix t3) (m_random t3) gbt jm1) = true;
}.
(** A new client on a port of fixed difficulty, whose extranonce nobody has mined
    with, and which authorizes itself in time. *)
Record client_arrives : Prop := {
  ca_port : port_options options port = Some po /\ po_VarDiff po = None;
  ca_difficulty : NewBigFloat (po_Diff po) = Val d /\ printable (Float64 d);
  ca_direct : TCPProxyProtocol options = false;
  ca_in_time : duration_between (m_nanos t2) nanos <= i64 (ConnectionTimeout options * 1000000000);
  ca_fresh : forall rest, ~ ((hex_encode en1 ++ rest)%string ∈ Submits job);
}.
(** The miner: its worker name, the clocks, and the target of the job. *)
Record miner_starts : Prop := {
  ms_worker : valid_utf8 (worker fl) = true /\ slen (worker fl) <= 1600;
  ms_up : pool_up out = true;
  ms_bits : BigIntFromBitsBytes bits = Val bt;
  ms_clock : 0 <= unix_now out <= m_unix t3 /\ unix_now out + 2 < 2 ^ 32;
  ms_time : 0 <= g_CurTime t < 2 ^ 32 /\ g_CurTime t <= m_unix t3 + 7;
}.

Let ntime : bytes := be_bytes 4 (choose_time (unix_now out) (g_CurTime t)).
(** The search of the miner, on the job it was announced. *)
Definition nonce_search : tried Z :=
  search (try_nonce f (mkWork (JobId job) (fst (GenerationTransaction job)) (snd (GenerationTransaction job))
                         (Steps (MerkleTree_of job)) (be_bytes 4 (u32 (g_Version t))) bits) prev
            (ReverseBytes (pure_fold hf (Steps (MerkleTree_of job)) (hf (SerializeCoinbase job en1 (zeros 4))))) ntime
            (choose_target bt (g_Target t))) (2 ^ 32) 0.
(** What the miner says. *)
Definition first_said : list said :=
  [mkSaid false 1 "mining.subscribe" (JArr []); mkSaid false 2 "mining.authorize" (JArr [JStr (worker fl); JStr "x"])].
Definition submission_said (n : Z) : said :=
  mkSaid false 4 "mining.submit"
    (JArr [JStr (worker fl); JStr (JobId job); JStr (hex_encode (zeros 4)); JStr (hex_encode ntime); JStr (hex_encode (be_bytes 4 n))]).
Definition solution (n : Z) : result (bytes * Z) :=
  JobManagerSpec.work_of algs jm job en1 (zeros 4) (hex_encode ntime) (hex_encode (be_bytes 4 n)).
Definition arrival (c : Client) (bans : BanningManager) : world := mkWorld c (Some jm) None bans [].

Hypothesis ready : pool_ready.
Hypothesis arrives_ok : client_arrives.
Hypothesis started : miner_starts.
Hypothesis coin : same_coin algs fl out jm job hf pow f bits prev.

Lemma first_sendable : Forall sendable first_said.
Proof.
  destruct (ms_worker started) as [Hw Hl]. repeat constructor; try done.
  - cbn [well_formed sa_params forallb]. by rewrite Hw.
  - pose proof (message_length 2 "mining.authorize" [worker fl; "x"]) as B. unfold said_json, sa_version, sa_id, sa_method, sa_params.
    change (JArr [JStr (worker fl); JStr "x"]) with (JArr (map JStr [worker fl; "x"])).
    cbn [text_budget fold_right] in B. change (slen (FormatInt 2)) with 1 in B. change (slen "mining.authorize") with 16 in B.
    change (slen "x") with 1 in B. lia.
Qed.
Lemma submission_sendable n : 0 <= n < 2 ^ 32 -> sendable (submission_said n).
Proof.
  intros Hn. destruct (ms_worker started) as [Hw Hl]. destruct (pr_id ready) as [Hid Hr]. unfold sendable, submission_said. cbn [sa_id sa_method sa_params].
  split_and!; try done.
  - cbn [well_formed forallb]. rewrite Hw, Hid. unfold RandHexUint64. by rewrite !hex_encode_valid.
  - set (l := [worker fl; JobId job; hex_encode (zeros 4); hex_encode ntime; hex_encode (be_bytes 4 n)]).
    pose proof (message_length 4 "mining.submit" l) as B. unfold said_json, sa_version, sa_id, sa_method, sa_params.
    change (JArr [_; _; _; _; _]) with (JArr (map JStr l)). subst l. cbn [text_budget fold_right] in B.
    rewrite Hid in B |- *. unfold RandHexUint64 in *. subst ntime. rewrite !hex_encode_length, ?be_bytes_length, Hr in B.
    change (slen (FormatInt 4)) with 1 in B. change (slen "mining.submit") with 13 in B. change (length (zeros 4)) with 4%nat in B. lia.
Qed.

Lemma ready_facts : jm_Options jm = options /\ jm_ExtraNonce2Size jm = 4 /\ built (jm_CoinbaseHasher jm) job /\
  exists p, jm_ValidJobs jm !! JobId job = Some p /\ jm_jobs jm !! p = Some job.
Proof.
  destruct (pr_reached ready) as (jm0 & HN & R). pose proof (reachable_consts _ _ _ _ HN R) as [Ho Hs].
  destruct (jm_reachable_aux _ _ _ _ jm HN R (rtc_refl _ _)) as [[_ W] _].
  pose proof (pr_job ready) as Hj. unfold current_job in Hj. destruct (jm_CurrentJob jm) as [p|] eqn:Ep; [|done]. cbn in Hj.
  destruct (W p eq_refl) as (j & Ej & Ev). assert (j = job) as -> by congruence.
  split_and!; [done|done| |by exists p].
  pose proof (built_reachable _ _ _ _ HN R) as F. by eapply Forall_lookup_1 in F.
Qed.

(** The pool's part, before a submission and with one. *)
Lemma pool_welcomes bans ms : exists bans',
  serve (HandleMessage algs options has_db)
    ((t1, mkRequest (JNum "1") "mining.subscribe" (Some (JArr []))) ::
     (t2, mkRequest (JNum "2") "mining.authorize" (Some (JArr [JStr (worker fl); JStr "x"]))) :: ms)
    (arrival (newcomer sid en1 remote port nanos) bans)
  = serve (HandleMessage algs options has_db) ms (arrival (authorized sid en1 remote (worker fl) port nanos job d t2) bans').
Proof.
  destruct ready_facts as (_ & Hs & _). destruct (ca_port arrives_ok) as [Hp _]. destruct (ca_difficulty arrives_ok) as [Hd _].
  unfold arrival. destruct (serve_first algs options has_db t1 (mkRequest (JNum "1") "mining.subscribe" (Some (JArr [])))
    ((t2, mkRequest (JNum "2") "mining.authorize" (Some (JArr [JStr (worker fl); JStr "x"]))) :: ms)
    (newcomer sid en1 remote port nanos) (Some jm) bans []) as [b1 E1].
  rewrite E1. clear E1. unfold mbind. rewrite subscribe_handled by done.
  destruct (serve_first algs options has_db t2 (mkRequest (JNum "2") "mining.authorize" (Some (JArr [JStr (worker fl); JStr "x"]))) ms
    (mkClient sid remote (mkSocket port false [subscribe_answer sid en1]) nanos (mkShares 0 0) false true (Some en1) None "" ""
      (Some (BigF 53 fzero)) None None None) (Some jm) b1 []) as [b2 E2].
  exists b2. rewrite E2. clear E2. unfold mbind.
  by rewrite (authorize_handled algs options has_db sid en1 remote (worker fl) port nanos jm job d t2 b2 [] po)
    by (done || apply ready || apply arrives_ok).
Qed.

(** What the miner hears and the pool reads is what was said. *)
Lemma pool_hears_said c bans ts ms : length ts = length ms -> Forall sendable ms ->
  hears algs options resolve has_db ts (map said_json ms) (arrival c bans)
  = serve (HandleMessage algs options has_db) (zip ts (map said_request ms)) (arrival c bans).
Proof.
  intros Hl F. unfold hears. apply stream_served; [apply arrives_ok|by rewrite length_map|by apply all_arrive].
Qed.
Lemma miner_hears w ms : Forall sayable ms ->
  so_Sent (c_Socket (w_client w)) = (welcome sid en1 job d t2 ++ ms)%list ->
  listens algs fl out (pool_said w)
  = (run! n := searched nonce_search Exits in
     run! _ := write (submission_of fl out job n) in readByID 4)%tool
      (mkConn (map (fun m => Line (message_json m)) ms) (first_messages fl)).
Proof.
  intros Hs Ew. destruct ready_facts as (_ & _ & B & _). destruct (ca_difficulty arrives_ok) as [_ (lit & E1 & E2 & E3)].
  unfold listens, pool_said. rewrite Ew.
  rewrite (welcome_lines sid en1 (m_unix t2) job (jm_CoinbaseHasher jm) bits job_random (Float64 d) lit B (proj1 (pr_id ready))
    (sc_bits _ _ _ _ _ _ _ _ _ _ coin) E1 E2 ms Hs d t2 eq_refl eq_refl).
  apply (main_reads algs fl out jm job hf pow f bits prev en1 coin B); [apply started..|]. by apply greetings_passed.
Qed.

Definition paid : message := Response (JNum "4") (Some (JBool true)) None.
Lemma paid_json : message_json paid = Some (JObj submit_answer).
Proof.
  assert (through_interface (JNum "4") = Some (JNum "4")) as E by (vm_compute; reflexivity).
  unfold paid. by rewrite (proj1 (message_json_known _ _ E)).
Qed.
Lemma paid_sayable : Forall sayable [paid].
Proof.
  constructor; [|done]. exists (JObj submit_answer). split; [exact paid_json|]. split; [reflexivity|]. vm_compute. discriminate.
Qed.
(** The block of a share is not empty. *)
Lemma block_text header coinbase : hex_encode (SerializeBlock job header coinbase) <> "".
Proof.
  intros E. assert (slen (hex_encode (SerializeBlock job header coinbase)) = 0) as L by (by rewrite E).
  rewrite hex_encode_length in L. unfold SerializeBlock in L. rewrite !length_app in L.
  assert (length (VarIntBytes (u64 (Z.of_nat (length (g_Transactions (GetBlockTemplate_of job))) + 1))) <> 0%nat) as V
    by (unfold VarIntBytes; by repeat case_match).
  lia.
Qed.

Lemma first_requests ts ms : zip (t1 :: t2 :: ts) (map said_request (first_said ++ ms)%list) =
  (t1, mkRequest (JNum "1") "mining.subscribe" (Some (JArr []))) ::
  (t2, mkRequest (JNum "2") "mining.authorize" (Some (JArr [JStr (worker fl); JStr "x"]))) :: zip ts (map said_request ms).
Proof. reflexivity. Qed.

(** When the search finds nothing. *)
Lemma search_exhausted bans : nonce_search = Next ->
  exists w, hears algs options resolve has_db [t1; t2] (first_messages fl) (arrival (newcomer sid en1 remote port nanos) bans)
      = (Done true, w) /\
    listens algs fl out (pool_said w) = (inr Exits, mkConn [] (first_messages fl)) /\ w_events w = [].
Proof.
  intros Hn. pose proof (pool_hears_said (newcomer sid en1 remote port nanos) bans [t1; t2] (first_said ++ [])%list eq_refl first_sendable) as E.
  change (map said_json _) with (first_messages fl) in E. rewrite E, first_requests.
  destruct (pool_welcomes bans (zip [] (map said_request []))) as [b ->]. eexists. split; [reflexivity|]. split; [|done].
  rewrite (miner_hears _ []) by (done || (unfold arrival; cbn; by rewrite app_nil_r)). by rewrite Hn.
Qed.

(** When it finds a nonce, which the pool takes for a block. *)
Lemma search_found bans n share jm1 : nonce_search = Found n -> 0 <= n < 2 ^ 32 ->
  ProcessSubmit algs (m_unix t3) jm (JobId job) None d en1 (hex_encode (zeros 4)) (hex_encode ntime) (hex_encode (be_bytes 4 n))
    remote (worker fl) = Val (share, jm1) ->
  s_ErrorCode share = 0 -> s_BlockHex share <> "" ->
  exists w, hears algs options resolve has_db [t1; t2; t3] (first_messages fl ++ [submission_of fl out job n])
        (arrival (newcomer sid en1 remote port nanos) bans) = (Done true, w) /\
    listens algs fl out (pool_said w) = (inl submit_answer, mkConn [] (first_messages fl ++ [submission_of fl out job n])) /\
    w_events w = [EvSubmitBlock (s_BlockHex share); EvCheckBlock (s_BlockHash share); EvGetTemplate;
      EvPutShare (set_txhash (snd (bd_accepted (m_daemon t3) (s_BlockHash share))) share)
                 (fst (bd_accepted (m_daemon t3) (s_BlockHash share)))].
Proof.
  intros Hf Hn Hp H0s Hb.
  destruct (found_block_processed t3 share jm1 gbt Hb (pr_template ready)) as [jm2 Hs].
  { apply (pr_next ready). by eapply step_submit. }
  pose proof (pool_hears_said (newcomer sid en1 remote port nanos) bans [t1; t2; t3] (first_said ++ [submission_said n])%list eq_refl) as E.
  specialize (E (Forall_app_2 _ _ _ first_sendable (Forall_cons_2 _ _ _ (submission_sendable n Hn) (Forall_nil_2 _)))).
  change (map said_json _) with (first_messages fl ++ [submission_of fl out job n])%list in E. rewrite E, first_requests.
  destruct (pool_welcomes bans (zip [t3] (map said_request [submission_said n]))) as [b ->].
  cbn [map zip zip_with]. unfold arrival.
  destruct (serve_first algs options has_db t3 (said_request (submission_said n)) []
    (authorized sid en1 remote (worker fl) port nanos job d t2) (Some jm) b []) as [b' ->]. unfold mbind.
  pose proof (submit_handled algs options has_db sid en1 remote (worker fl) port nanos jm job d t2 t3 b' [] (JobId job)
    (hex_encode (zeros 4)) (hex_encode ntime) (hex_encode (be_bytes 4 n)) share jm1 jm2 _ Hp H0s Hs) as Es.
  change (said_request (submission_said n)) with (mkRequest (JNum "4") "mining.submit"
    (Some (JArr [JStr (worker fl); JStr (JobId job); JStr (hex_encode (zeros 4)); JStr (hex_encode ntime); JStr (hex_encode (be_bytes 4 n))]))).
  rewrite Es. eexists. split; [reflexivity|]. split; [|reflexivity].
  rewrite (miner_hears _ [paid] paid_sayable) by reflexivity. rewrite Hf. cbn [map]. rewrite paid_json.
  unfold searched, tbind, returns, write, readByID, read_until. cbn [arriving written read_until_from].
  assert (decode_map (Some (JObj submit_answer)) = Some submit_answer) as -> by (vm_compute; reflexivity).
  assert (has_id 4 submit_answer = true) as -> by (vm_compute; reflexivity). reflexivity.
Qed.

Lemma NewStratumClient_newcomer c :
  NewStratumClient options now0 nanos random sid remote port (Some jm) = Val c -> c = newcomer sid en1 remote port nanos.
Proof.
  unfold NewStratumClient. destruct (ca_port arrives_ok) as [-> ->]. cbn [rbind]. intros E. by apply Val_inj in E as <-.
Qed.

(** C3: from subscription to block.  The miner of tools/e2eminer dials the pool:
    the text of each is what the other reads.  Either the miner subscribes, is
    authorized and told its difficulty and the current job, tries all 2^32 nonces
    of that job, none of them below its target, and exits; or it finds one, and
    the pool, reading its three lines, submits the block of the current job under
    the very header the miner hashed, asks the daemon about it, takes its next
    template, records one share without error with the daemon's verdict, and
    answers true, which is what the miner ends with.  The pool goes on reading in
    both cases. *)
Lemma mining_session c bans :
  NewStratumClient options now0 nanos random sid remote port (Some jm) = Val c ->
  (exists w, hears algs options resolve has_db [t1; t2] (first_messages fl) (arrival c bans) = (Done true, w) /\
     listens algs fl out (pool_said w) = (inr Exits, mkConn [] (first_messages fl)) /\ w_events w = [] /\
     forall n, 0 <= n < 2 ^ 32 -> exists header v, solution n = Val (header, v) /\ choose_target bt (g_Target t) <= v) \/
  (exists n header v share w,
     let said := (first_messages fl ++ [submission_of fl out job n])%list in
     let '(accepted, tx) := bd_accepted (m_daemon t3) (s_BlockHash share) in
     0 <= n < 2 ^ 32 /\ solution n = Val (header, v) /\ v < Target job /\
     hears algs options resolve has_db [t1; t2; t3] said (arrival c bans) = (Done true, w) /\
     listens algs fl out (pool_said w) = (inl submit_answer, mkConn [] said) /\
     s_ErrorCode share = 0 /\ s_BlockHex share = hex_encode (SerializeBlock job header (SerializeCoinbase job en1 (zeros 4))) /\
     w_events w = [EvSubmitBlock (s_BlockHex share); EvCheckBlock (s_BlockHash share); EvGetTemplate;
                   EvPutShare (set_txhash tx share) accepted]).
Proof.
  intros ->%NewStratumClient_newcomer. destruct ready_facts as (Ho & Hs & B & p & Hv & Hj). destruct started, ready, arrives_ok.
  destruct (search_outcome algs fl out jm job hf pow f bits prev en1 coin B bt)
    as [[En A]|(n & header & v & En & Hn & Hw & Hr & Hlt)]; [left|right].
  - destruct (search_exhausted bans En) as (w & E1 & E2 & E3). by exists w.
  - pose proof (target_harder algs fl out jm job hf pow f bits prev en1 coin B bt ms_bits0 pr_target0) as Hle.
    assert (v < Target job) as Hv2 by (eapply Z.lt_le_trans; [exact Hlt|exact Hle]).
    assert (exists share jm', ProcessSubmit algs (m_unix t3) jm (JobId job) None d en1 (hex_encode (zeros 4)) (hex_encode ntime)
        (hex_encode (be_bytes 4 n)) remote (worker fl) = Val (share, jm') /\ s_ErrorCode share = 0 /\
        s_BlockHex share = hex_encode (SerializeBlock job header (SerializeCoinbase job en1 (zeros 4))))
      as (share & jm' & E & E0 & Eb).
    { rewrite <- Ho in pr_multiplier0, pr_block_hash0. destruct ms_clock0, ms_time0. eapply process_found_block; try done; apply choose_time_ok; done. }
    destruct (search_found bans n share jm' En Hn E E0) as (w & W1 & W2 & W3); [rewrite Eb; apply block_text|].
    exists n, header, v, share, w. cbv zeta. by destruct (bd_accepted _ _).
Qed.
End Conversation.

(** ** A conversation on regtest *)
Definition session_manager : JobManager :=
  get no_manager (@ProcessTemplate hex_codec amd64 1700000000 job_random (template_with easy_target)
    (get no_manager (NewJobManager sample_algs pool_options))).
Definition session_job : Job := default sample_job (jm_jobs session_manager !! 0%nat).
(** After the block the daemon is asked for a template, and is still behind. *)
Definition late_template : GetBlockTemplate :=
  let g := template_with easy_target in
  {| g_Version := g_Version g; g_Bits := g_Bits g; g_CurTime := g_CurTime g; g_Height := 839999;
     g_PreviousBlockHash := g_PreviousBlockHash g; g_Transactions := g_Transactions g;
     g_CoinbaseAuxFlags := g_CoinbaseAuxFlags g; g_CoinbaseValue := g_CoinbaseValue g;
     g_DefaultWitnessCommitment := g_DefaultWitnessCommitment g; g_Target := g_Target g;
     g_Masternode := g_Masternode g; g_Superblock := g_Superblock g;
     g_CoinbasePayload := g_CoinbasePayload g; g_Votes := g_Votes g; g_MasternodePayments := g_MasternodePayments g;
     g_Payee := g_Payee g; g_PayeeAmount := g_PayeeAmount g |}.
Definition session_moment (now : Z) : moment :=
  mkMoment now 2000 job_random (Build_block_daemon (fun _ => (true, "coinbase-txid")) (Val late_template)).
Definition session_client : Client :=
  get no_client (NewStratumClient pool_options 1700000001 1000 (be_bytes 4 7) (le_bytes 8 1) "10.0.0.1:5000" 3333 (Some session_manager)).

Lemma session_current : current_job session_manager = Some session_job.
Proof.
  assert (jm_CurrentJob session_manager = Some 0%nat) as E by (vm_compute; reflexivity).
  assert (is_Some (jm_jobs session_manager !! 0%nat)) as [j Ej] by (apply lookup_lt_is_Some; vm_compute; lia).
  unfold current_job, session_job. rewrite E. cbn [mbind option_bind]. by rewrite Ej.
Qed.
Lemma late_template_ignored jm1 : @jm_step hex_codec amd64 sample_algs session_manager jm1 ->
  is_val (@ProcessTemplate hex_codec amd64 1700000002 job_random late_template jm1) = true.
Proof.
  intros S. destruct (@jm_step_height hex_codec amd64 sample_algs session_manager jm1 840000 S) as (h & Eh & Hh).
  { vm_compute. reflexivity. }
  unfold current_height in Eh. unfold ProcessTemplate. destruct (current_job jm1) as [j|]; [|done]. cbn in Eh. injection Eh as Eh.
  replace (g_Height late_template <? g_Height (GetBlockTemplate_of j)) with true; [done|]. symmetry. apply Z.ltb_lt.
  change (g_Height late_template) with 839999. lia.
Qed.

Lemma mining_session_witness :
  let fl := regtest_flags in let out := regtest_node in let en1 := GetExtraNonce1 (be_bytes 4 7) in
  let solution n := @JobManagerSpec.work_of sample_algs session_manager session_job en1 (zeros 4)
    (hex_encode (be_bytes 4 (choose_time (unix_now out) (g_CurTime (GetBlockTemplate_of session_job))))) (hex_encode (be_bytes 4 n)) in
  let pool ts said := @hears hex_codec amd64 sample_algs pool_options no_resolver true ts said
    (arrival session_manager session_client no_bans) in
  let miner text := @listens sample_algs fl out text in
  let bt := 0x7fffff * 2 ^ (8 * 29) in
  let t := session_moment 1700000001 in let t3 := session_moment 1700000002 in
  (exists w, pool [t; t] (first_messages fl) = (Done true, w) /\
     miner (pool_said w) = (inr Exits, mkConn [] (first_messages fl)) /\ w_events w = [] /\
     forall n, 0 <= n < 2 ^ 32 -> exists header v, solution n = Val (header, v) /\
       choose_target bt (g_Target (GetBlockTemplate_of session_job)) <= v) \/
  (exists n header v share w,
     let said := (first_messages fl ++ [submission_of fl out session_job n])%list in
     let '(accepted, tx) := bd_accepted (m_daemon t3) (s_BlockHash share) in
     0 <= n < 2 ^ 32 /\ solution n = Val (header, v) /\ v < Target session_job /\
     pool [t; t; t3] said = (Done true, w) /\
     miner (pool_said w) = (inl submit_answer, mkConn [] said) /\
     s_ErrorCode share = 0 /\
     s_BlockHex share = hex_encode (SerializeBlock session_job header (SerializeCoinbase session_job en1 (zeros 4))) /\
     w_events w = [EvSubmitBlock (s_BlockHex share); EvCheckBlock (s_BlockHash share); EvGetTemplate;
                   EvPutShare (set_txhash tx share) accepted]).
Proof.
  apply (@mining_session hex_codec amd64 sha_primitives sample_algs pool_options no_resolver true regtest_flags regtest_node
    session_manager session_job Sha256d Sha256d (fun b => Val (Sha256d b)) (fst (hex_decode "207fffff"))
    (fst (hex_decode (g_PreviousBlockHash (template_with easy_target)))) (0x7fffff * 2 ^ (8 * 29)) (le_bytes 8 1) (be_bytes 4 7)
    "10.0.0.1:5000" 3333 1700000001 1000 (mkPortOptions (float_of_Z 4) None false) (BigF 53 (float_of_Z 4))
    (session_moment 1700000001) (session_moment 1700000001) (session_moment 1700000002) job_random late_template).
  - split.
    + exists (get no_manager (NewJobManager sample_algs pool_options)). split; [apply get_val; vm_compute; reflexivity|].
      apply rtc_once, (step_template _ 1700000000 job_random (template_with easy_target)).
      apply get_val. vm_compute. reflexivity.
    + exact session_current.
    + split; vm_compute; reflexivity.
    + vm_compute. reflexivity.
    + vm_compute. split; [discriminate|reflexivity].
    + intros h. reflexivity.
    + reflexivity.
    + exact late_template_ignored.
  - split.
    + split; reflexivity.
    + split; [reflexivity|]. exists "4". split; [|split]; vm_compute; reflexivity.
    + reflexivity.
    + vm_compute. discriminate.
    + intros rest E. vm_compute in E. by apply not_elem_of_nil in E.
  - split.
    + split; vm_compute; [reflexivity|discriminate].
    + reflexivity.
    + vm_compute. reflexivity.
    + split; [split; vm_compute; discriminate|vm_compute; reflexivity].
    + split; [split; vm_compute; [discriminate|reflexivity]|vm_compute; discriminate].
  - split; [reflexivity|intros b; reflexivity|intros b; apply Sha256d_length|reflexivity|reflexivity|intros b; reflexivity
      |intros b; apply Sha256d_length|..]; vm_compute; reflexivity.
  - apply get_val. vm_compute. reflexivity.
Defined.
(** And it ends with a block. *)
Example session_block :
  let t := session_moment 1700000001 in let t3 := session_moment 1700000002 in
  let said := (first_messages regtest_flags ++ [submission_of regtest_flags regtest_node session_job 0])%list in
  let w := snd (@hears hex_codec amd64 sample_algs pool_options no_resolver true [t; t; t3] said
    (arrival session_manager session_client no_bans)) in
  @listens sample_algs regtest_flags regtest_node (pool_said w) = (inl submit_answer, mkConn [] said) /\
  map (fun e => match e with EvPutShare s accepted => Some (s_Miner s, s_Rig s, s_TxHash s, accepted) | _ => None end) (w_events w)
  = [None; None; None; Some ("alice", "rig1", "coinbase-txid", true)].
Proof. cbv zeta. split; vm_compute; reflexivity. Qed.
